(* ===== verification/_CoqProject ===== *)
-Q . S2P
Prelude.v
Errors.v
External.v
Utf8Text.v
BorshFormat.v
StdInts.v
StdTypes.v
GatewayState.v
GatewaySession.v
Payload.v
GovernanceState.v
OperatorsState.v
ItsState.v
ItsText.v
MemoState.v
Ledger.v
LedgerLemmas.v
SplToken.v
Gateway.v
GatewayLemmas.v
GatewaySpec.v
GatewaySafety.v
GatewayOutcomes.v
GatewayReach.v
Executable.v
Operators.v
GasService.v
Its.v
ItsOutbound.v
ItsDeploy.v
ItsExecute.v
ItsClient.v
ItsLemmas.v
ItsSpec.v
ItsFlow.v
ItsTransfers.v
ItsRefines.v
ItsInvariant.v
ItsAuthority.v
ItsCustody.v
ItsSafety.v
ItsProgress.v
ItsAdmin.v
ItsDelivery.v
ItsTokens.v
Memo.v
MemoSafety.v
Governance.v
GovernanceTheorems.v
GovernanceGmp.v
Instances.v
InstancesSolana.v
InstancesIts.v
Scenario.v
Witnesses.v
WitnessesGateway.v
WitnessesPrograms.v
WitnessesIts.v
WitnessesMemo.v
WitnessesClient.v
