(* ===== verification/Prelude.v ===== *)
(** * Axelar amplifier for Solana: verification library

    A Rocq model of the Solana programs of axelar-amplifier-solana, translated from src/, with the
    theorems that make them correct. This file is the prelude: notations and the scope of the library,
    its hint databases, the error monad, fixed-width integers and byte arrays.

    ** The programs

    The _gateway_ (programs/solana-axelar-gateway) lets programs send messages to other chains and
    approves messages that the current verifiers signed. A receiving program checks its payload and has
    the gateway mark the message executed (its executable.rs). The _interchain token service_, ITS
    (programs/solana-axelar-its), moves tokens between chains by such messages, through its hub; the
    _gas service_ takes payment for them; the _operators_ program keeps the registry of the accounts
    that may draw on the gas service; the _governance_ program executes proposals that arrive as
    messages; the _memo_ program is the example of a program that sends and receives messages and
    interchain tokens. crates/solana-axelar-std has the types, hashes and integers they share.

    ** How the code is modelled

    - [Ledger.v]. The accounts are a [gmap] from address to owner, lamports and data; a world adds the
      clock and the event log. An instruction is [Instr A := World -> Result (A * World)]: an error has
      no effect, as the runtime has it. The attributes of an Anchor accounts structure are operations
      in this monad ([load], [init_account], [constraint_seeds], [constraint_mut], [require], [store]),
      and each instruction runs them in Anchor's order before its handler: deserialisation of the
      fields, creation, constraints, handler, and the write-back on exit. An [Account<T>] that is read
      once and written on exit is that here, so what a cross-program call does in between is lost where
      the code loses it.
    - Every instruction has a record of its accounts, and each program a type of instructions with its
      dispatch: [gateway_entry], [operators_entry], [gas_service_entry], [governance_entry],
      [its_entry], [memo_entry]. A call from one program into another is the definition of the other
      program: ITS runs [call_contract] of [Gateway.v] and [pay_gas] of [GasService.v], the memo program
      [interchain_transfer] of [ItsOutbound.v]; ITS calls a destination through the runtime parameter,
      which [memo_runtime] ([Memo.v]) implements for the memo program.
    - A u8, u64 or i64 is a [Z] whose checked, wrapping or saturating operation is written out;
      [u128.rs] and [u256.rs] are their byte or digit arrays. A [String] is its UTF-8 bytes. Errors are
      one sum, [Errors.Error], of the programs' enumerations and of the Anchor and Solana codes.
    - Code that is not in the repository is a parameter, a class, with a second class of laws, the
      documented facts a theorem may use: Keccak, rs_merkle, secp256k1, bitvec, bnum, Borsh, the ABI
      coder, derived addresses and program ids ([External.v]); the system program, rent and
      reallocation ([Ledger.v]); the token programs and Metaplex ([SplToken.v]); the runtime's call of
      an unknown program ([Executable.v]). Of the latter, [Governance.v] assumes that a configuration
      account stays one, and [ItsTransfers.v] that the accounts of ITS, which the runtime forbids to
      re-enter, stay as they are; [memo_runtime_laws] ([MemoSafety.v]) proves it of the memo program.
      [ItsClient.v] has the address of the loader's record of a program as a parameter. No law says that
      a hash is injective: a theorem that needs it says which two inputs would collide.
      [Instances.v], [InstancesSolana.v] and [InstancesIts.v] give computable functions that satisfy
      all the laws; the witnesses evaluate whole runs of the programs on them.

    ** Files

    - Shared: [Errors.v], [External.v], [BorshFormat.v] (codecs in the Borsh format), [Utf8Text.v] (the
      text check of the standard library, with its specification), [LedgerLemmas.v] (inversion of runs;
      [state_of pid w], the data of a program's accounts).
    - solana-axelar-std: [StdInts.v] (u128.rs, u256.rs), [StdTypes.v] (verifier sets, messages, Merkle
      trees, digests, the encoder of execute data).
    - Gateway: [GatewayState.v] (state/), [GatewaySession.v] (the signature session against its abstract
      form), [Payload.v] (payload/), [Gateway.v] (instructions/ and lib.rs), [GatewayLemmas.v] (effects),
      [GatewaySpec.v] (the abstract gateway and the refinement), [GatewaySafety.v] (invariants of the
      abstract gateway), [GatewayOutcomes.v] (exact results, errors included), [GatewayReach.v] (the
      theorems on reachable worlds), [Executable.v] (executable.rs).
    - Operators and gas service: [OperatorsState.v], [Operators.v], [GasService.v].
    - ITS: [ItsState.v] (state/, utils.rs, encoding.rs), [ItsText.v] (truncation of names),
      [SplToken.v], [Its.v] (configuration, roles, flow limits), [ItsOutbound.v] (gmp.rs and what is
      sent to the hub), [ItsDeploy.v] (deployment, registration, linking, minting), [ItsExecute.v]
      (messages of the hub, executable.rs, lib.rs), [ItsClient.v] (the make_*_instruction builders and
      the helpers for the accounts of [execute]); then [ItsLemmas.v], [ItsSpec.v] (the abstract
      specification [its_change]), [ItsFlow.v], [ItsTransfers.v] (both directions of a transfer),
      [ItsRefines.v], [ItsInvariant.v], [ItsAuthority.v], [ItsCustody.v] (which token accounts and mints
      each instruction touches), [ItsSafety.v] and [ItsTokens.v] (the theorems); [ItsProgress.v] (limits
      and transfers), [ItsAdmin.v] (roles and configuration) and [ItsDelivery.v] (messages of the hub)
      show that the instructions of clients succeed.
    - Memo: [MemoState.v] (the counter), [Memo.v], [MemoSafety.v].
    - Governance: [GovernanceState.v], [Governance.v], [GovernanceTheorems.v], [GovernanceGmp.v].
    - Witnesses: [Scenario.v], [Witnesses.v], [WitnessesGateway.v], [WitnessesPrograms.v],
      [WitnessesIts.v], [WitnessesMemo.v], [WitnessesClient.v].

    ** What the theorems show

    - Gateway. Each instruction refines the abstract gateway ([gateway_refines_spec]). In every reachable
      world an approved message was proved under a root that a verifier set, in force at the time,
      signed with its quorum ([approvals_signed_by_quorum]); a message is executed at most once
      ([message_executed_once]); each verifier set was installed by its predecessors or at the start
      ([verifier_sets_chain_of_trust]); epochs are consecutive and old sets expire
      ([gateway_epochs], [assert_valid_epoch_exact]). A session's verdict is the quorum of distinct
      signers ([session_valid_iff_quorum], [session_valid_quorum_of_set], [session_slot_used_once]).
      Outcomes are exact, errors and their order included ([rotate_signers_outcome],
      [validate_message_exact], [call_contract_exact]); an approved message can be executed
      ([approved_message_executable]); [gateway_config_changes] says who changes the configuration.
    - ITS. Each run refines [its_change] with the authority of each change ([its_refines_spec]); the accounts
      are well formed ([its_accounts_wf]); [its_config_authority] and [its_roles_authority] say who can
      change the pause, the trusted chains, limits, flows and roles. Transfers are exact in both
      directions, from the token accounts to the message ([interchain_transfer_exact],
      [hub_message_exact]); the flow limit is its reference definition over the transfers of the epoch
      ([flow_limit_exact]); a pause stops the service ([paused_stops_its]). Custody: of the tokens of
      anyone, an instruction of ITS takes only what the owner signed for or what the hub ordered out of
      the account of a token manager ([balances_fall_by_transfers]); an existing mint changes only by a
      minter, the hub, a burn of the sender's or the handover of its authority
      ([mints_change_by_authority]); a deployment creates exactly its token
      ([deploy_interchain_token_exact]). Truncated names are the longest valid text that fits
      ([truncate_utf8_exact]).
    - ITS, progress. In a reachable world a client's instruction fails only for the reasons that its
      handler names, since the addresses it derives are those of the accounts ([client_root],
      [client_manager]): [flow_limit_instructions_exact], [configuration_instructions_exact],
      [role_transfers_succeed]; a user can send a native token ([user_can_send]), and a transfer that
      the gateway approved is delivered to its wallet ([approved_transfer_delivered], which composes
      the gateway, ITS and the helper). The builder of transfers is of no use for other tokens
      ([client_transfer_native_only]).
    - Memo. The counter counts the received messages and transfers ([memo_counts]), each message once and
      only after its approval ([memo_messages_once], which composes the program with the gateway);
      reception is exact ([memo_execute_exact], [memo_tokens_exact]); a transfer of the hub reaches the
      program, from ITS's tokens to the counter ([hub_transfer_reaches_memo]); its own transfers are
      refused by ITS ([memo_transfer_refused], a defect).
    - Messages and payloads. [encode_exact], [payload_roundtrip], [executed_payload_is_approved],
      [receive_message_exact], [signed_digest_binds_type_and_root], [command_id_identifies].
    - Governance. The commands are exact and need the governor's message ([governance_command_exact]), a
      proposal runs once, after its time, with the data that was hashed ([execute_timelock_safe],
      [execute_operator_safe], [proposal_hash_binds]), the configuration has its authorities
      ([governance_config_authority]), withdrawals are exact ([withdraw_exact]).
    - Operators and gas service. [registry_counts_operators], [operators_authority], [treasury_safe],
      [gas_payments_exact].
    - Integers. [u128_refines_z], [u256_refines_z].

    ** Bounds and termination

    All recursion in the model is structural and every definition is total: a run ends in a result or
    in an error. The only fuel is that of a parser in [Instances.v] and of the UTF-8 reader [chars] of
    [Utf8Text.v], the length of the input, with the lemma that this is enough ([chars_fuel]). The one
    loop of the programs that is no iteration over a collection, in [truncate_utf8], stops within three
    steps ([truncate_utf8_exact]). Runs in the invariants are finite sequences of instructions of one
    program, with any changes to the accounts of other programs between them.

    ** Not modelled

    - The two accounts that [#[event_cpi]] adds and the call that carries the event: [emit] appends to the
      log. Anchor's check that two mutable accounts are distinct, discriminator collisions, compute
      limits, transaction fees and the size limit of a reallocation; account data is the value, not
      its bytes, so the byte length of an account appears only where the source computes it. In a call,
      the runtime gives all entries of one account the privileges of any of them; here the accounts
      that [execute] passes on to a destination keep those they came with.
    - Lamports that were sent to the address of a wrapped SOL account before its creation, which the
      token program counts as tokens: a new token account is empty ([SplTokenLaws]).
    - IDL generation and the code of executable.rs for it. Of the client builders, the copy of the
      accounts that comes with the instruction. [estimate_size], which only reserves capacity, [Display]
      implementations and log messages, and the debug assertion of [decode_abi_encoding].
    - The test fixtures and harnesses under helpers/; xtask. *)

From stdpp Require Import base gmap list strings numbers.
From Stdlib Require Import ZArith Lia Strings.Byte.

Declare Scope axelar_scope.
Delimit Scope axelar_scope with axelar.
#[global] Open Scope axelar_scope.
#[global] Open Scope Z_scope.

(** ** Hint databases of the library *)

(** [axelar_ok]: inversion of successful runs; [axelar_arith]: ranges of machine integers;
    [axelar_rw]: equations of the library used by [autorewrite]. *)
Create HintDb axelar_ok discriminated.
Create HintDb axelar_arith discriminated.
Create Rewrite HintDb axelar_rw.

(** ** Bytes *)

Abbreviation byte := Byte.byte.
Abbreviation bytes := (list Byte.byte).

#[global] Instance byte_eq_decision : EqDecision byte := Byte.byte_eq_dec.

#[global] Program Instance byte_countable : Countable byte :=
  inj_countable Byte.to_N Byte.of_N _.
Next Obligation. intros b. apply Byte.of_to_N. Qed.

(** The value of a byte, and the byte that holds [z] modulo 256 (Rust's [as u8]). *)
Definition byte_val (b : byte) : Z := Z.of_N (Byte.to_N b).

Definition byte_of_Z (z : Z) : byte :=
  default Byte.x00 (Byte.of_N (Z.to_N (z mod 256))).

Lemma byte_val_range (b : byte) : 0 <= byte_val b < 256.
Proof.
  unfold byte_val. pose proof (Byte.to_N_bounded b). lia.
Qed.

Lemma byte_of_Z_some (z : Z) : Byte.of_N (Z.to_N (z mod 256)) = Some (byte_of_Z z).
Proof.
  unfold byte_of_Z. destruct (Byte.of_N _) as [b|] eqn:Hb; [done|].
  apply Byte.of_N_None_iff in Hb.
  pose proof (Z.mod_pos_bound z 256). lia.
Qed.

Lemma byte_val_of_Z (z : Z) : byte_val (byte_of_Z z) = z mod 256.
Proof.
  pose proof (Byte.to_of_N _ (byte_of_Z_some z)) as H.
  unfold byte_val. rewrite H. pose proof (Z.mod_pos_bound z 256). lia.
Qed.

Lemma byte_val_inj (a b : byte) : byte_val a = byte_val b -> a = b.
Proof.
  unfold byte_val. intros H. apply N2Z.inj in H.
  pose proof (Byte.of_to_N a) as Ha. rewrite H, Byte.of_to_N in Ha. congruence.
Qed.

Lemma byte_of_Z_val (b : byte) : byte_of_Z (byte_val b) = b.
Proof.
  apply byte_val_inj. rewrite byte_val_of_Z. apply Z.mod_small, byte_val_range.
Qed.

#[export] Hint Resolve byte_val_range : axelar_arith.
#[export] Hint Rewrite byte_val_of_Z byte_of_Z_val : axelar_rw.

(** ** Little-endian integers ([to_le_bytes] / [from_le_bytes]) *)

Fixpoint le_bytes (n : nat) (z : Z) : bytes :=
  match n with
  | O => []
  | S n => byte_of_Z z :: le_bytes n (z / 256)
  end.

Fixpoint le_val (l : bytes) : Z :=
  match l with
  | [] => 0
  | b :: l => byte_val b + 256 * le_val l
  end.

Lemma le_bytes_length n z : length (le_bytes n z) = n.
Proof. revert z; induction n as [|n IH]; intros z; simpl; auto. Qed.

Lemma le_val_bytes n z : le_val (le_bytes n z) = z mod 256 ^ Z.of_nat n.
Proof.
  revert z; induction n as [|n IH]; intros z; simpl le_val; simpl le_bytes.
  - by rewrite Z.pow_0_r, Z.mod_1_r.
  - simpl. rewrite IH, byte_val_of_Z.
    rewrite Nat2Z.inj_succ, Z.pow_succ_r by lia.
    rewrite Z.rem_mul_r by (try apply Z.pow_pos_nonneg; lia). lia.
Qed.

Lemma le_val_bound l : 0 <= le_val l < 256 ^ Z.of_nat (length l).
Proof.
  induction l as [|b l IH]; simpl le_val; simpl length.
  - lia.
  - rewrite Nat2Z.inj_succ, Z.pow_succ_r by lia.
    pose proof (byte_val_range b). lia.
Qed.

Lemma le_bytes_val l : le_bytes (length l) (le_val l) = l.
Proof.
  induction l as [|b l IH]; simpl; [done|].
  pose proof (byte_val_range b).
  f_equal.
  - apply byte_val_inj. rewrite byte_val_of_Z, Z.mul_comm, Z_mod_plus_full.
    by rewrite Z.mod_small.
  - rewrite Z.mul_comm, Z.div_add, Z.div_small by lia. by rewrite Z.add_0_l.
Qed.

Lemma le_val_inj l1 l2 : length l1 = length l2 -> le_val l1 = le_val l2 -> l1 = l2.
Proof.
  intros Hl Hv. rewrite <- (le_bytes_val l1), <- (le_bytes_val l2). by rewrite Hl, Hv.
Qed.

Lemma le_val_app l1 l2 : le_val (l1 ++ l2) = le_val l1 + 256 ^ Z.of_nat (length l1) * le_val l2.
Proof.
  induction l1 as [|b l1 IH]; cbn [app le_val length].
  - rewrite Z.pow_0_r. lia.
  - rewrite IH, Nat2Z.inj_succ, Z.pow_succ_r by lia. lia.
Qed.

Lemma le_val_all_zero l : (forall b, b ∈ l -> b = Byte.x00) -> le_val l = 0.
Proof.
  induction l as [|b l IH]; [done|]. intros H. cbn. rewrite IH by (intros c Hc; apply H; by right).
  by rewrite (H b) by left.
Qed.

Lemma le_val_zero l : le_val l = 0 -> forall b, b ∈ l -> b = Byte.x00.
Proof.
  induction l as [|c l IH]; cbn; [by intros _ b ?%elem_of_nil|]. intros H b Hb.
  pose proof (byte_val_range c). pose proof (le_val_bound l).
  apply elem_of_cons in Hb as [->|Hb]; [|apply IH; [lia|done]]. apply byte_val_inj.
  change (byte_val Byte.x00) with 0. lia.
Qed.

#[export] Hint Rewrite le_bytes_length le_val_bytes le_bytes_val : axelar_rw.

(** ** Fixed-size byte arrays ([u8; n]) *)

(** The length is part of the type, and its proof is unique, so two arrays are equal
    when their bytes are. *)
Record array (n : nat) : Set := Arr {
  arr_bytes : bytes;
  arr_ok : Is_true (length arr_bytes =? n)%nat
}.
Arguments Arr {n} _ _.
Arguments arr_bytes {n} _.
Arguments arr_ok {n} _.

(** The proof is rebuilt by computing the test, so closed arrays reduce to constructors. *)
Definition is_true_canon (b : bool) : b = true -> Is_true b :=
  match b with
  | true => fun _ => I
  | false => fun H => match Bool.diff_false_true H with end
  end.

Lemma arr_len {n} (a : array n) : length (arr_bytes a) = n.
Proof. destruct a as [l H]; simpl. apply Nat.eqb_eq. by destruct (_ =? _)%nat. Qed.

Lemma arr_eq {n} (a b : array n) : arr_bytes a = arr_bytes b -> a = b.
Proof.
  destruct a as [l1 H1], b as [l2 H2]; simpl. intros ->. f_equal. apply Is_true_pi.
Qed.

#[global] Instance array_eq_decision n : EqDecision (array n).
Proof.
  intros a b. destruct (decide (arr_bytes a = arr_bytes b)) as [H|H].
  - left. by apply arr_eq.
  - right. intros ->. done.
Defined.

(** [TryFrom<&[u8]> for [u8; n]]: exact length, or an error. *)
Definition arr_try_from (n : nat) (l : bytes) : option (array n) :=
  (if (length l =? n)%nat as b return ((length l =? n)%nat = b -> option (array n))
   then fun H => Some (Arr l (is_true_canon _ H))
   else fun _ => None) eq_refl.

Lemma arr_try_from_some n l a : arr_try_from n l = Some a -> arr_bytes a = l.
Proof.
  unfold arr_try_from.
  generalize (@eq_refl bool (length l =? n)%nat).
  generalize (length l =? n)%nat at 2 3. intros [] E; intros H; by simplify_eq.
Qed.

Lemma arr_try_from_len n l : length l = n -> exists a, arr_try_from n l = Some a /\ arr_bytes a = l.
Proof.
  intros Hl. destruct (arr_try_from n l) as [a|] eqn:E.
  - exists a. split; [done|]. by apply (arr_try_from_some n).
  - exfalso. revert E. unfold arr_try_from.
    generalize (@eq_refl bool (length l =? n)%nat).
    generalize (length l =? n)%nat at 2 3. intros [] E; [done|].
    apply Nat.eqb_neq in E. done.
Qed.

Lemma arr_try_from_ne n l : length l <> n -> arr_try_from n l = None.
Proof.
  intros Hl. destruct (arr_try_from n l) as [a|] eqn:E; [|done].
  exfalso. apply Hl. rewrite <- (arr_try_from_some _ _ _ E). apply arr_len.
Qed.

Lemma arr_try_from_bytes {n} (a : array n) : arr_try_from n (arr_bytes a) = Some a.
Proof.
  destruct (arr_try_from_len n (arr_bytes a) (arr_len a)) as (b & H & Hb).
  rewrite H. f_equal. by apply arr_eq.
Qed.

#[global] Program Instance array_countable n : Countable (array n) :=
  inj_countable arr_bytes (arr_try_from n) _.
Next Obligation. intros n a. apply arr_try_from_bytes. Qed.

(** An array from a list: cut or padded with zeros on the right. *)
Definition arr_fill_list (n : nat) (l : bytes) : bytes := take n (l ++ replicate n Byte.x00).

Lemma arr_fill_length n l : (length (arr_fill_list n l) =? n)%nat = true.
Proof.
  unfold arr_fill_list. apply Nat.eqb_eq.
  rewrite length_take, length_app, length_replicate. lia.
Qed.

Definition arr_fill (n : nat) (l : bytes) : array n :=
  Arr (arr_fill_list n l) (is_true_canon _ (arr_fill_length n l)).

Lemma arr_fill_bytes n l : length l = n -> arr_bytes (arr_fill n l) = l.
Proof.
  intros Hl. simpl. unfold arr_fill_list. rewrite take_app_le by lia.
  apply take_ge. lia.
Qed.

Definition arr_zero (n : nat) : array n := arr_fill n [].

(** The [n]-byte little-endian representation of [z] as an array, and back. *)
Definition arr_le (n : nat) (z : Z) : array n := arr_fill n (le_bytes n z).
Definition arr_le_val {n} (a : array n) : Z := le_val (arr_bytes a).

Lemma arr_le_val_le n z : arr_le_val (arr_le n z) = z mod 256 ^ Z.of_nat n.
Proof.
  unfold arr_le_val, arr_le. rewrite arr_fill_bytes by apply le_bytes_length.
  apply le_val_bytes.
Qed.

Lemma arr_le_le_val {n} (a : array n) : arr_le n (arr_le_val a) = a.
Proof.
  apply arr_eq. unfold arr_le. rewrite arr_fill_bytes by apply le_bytes_length.
  unfold arr_le_val. rewrite <- (arr_len a) at 1. apply le_bytes_val.
Qed.

Lemma arr_le_val_bound {n} (a : array n) : 0 <= arr_le_val a < 256 ^ Z.of_nat n.
Proof. rewrite <- (arr_len a) at 3. apply le_val_bound. Qed.

Lemma arr_le_val_inj {n} (a b : array n) : arr_le_val a = arr_le_val b -> a = b.
Proof. intros H. by rewrite <- (arr_le_le_val a), H, arr_le_le_val. Qed.

#[export] Hint Rewrite @arr_le_val_le @arr_le_le_val @arr_try_from_bytes : axelar_rw.
#[export] Hint Resolve arr_le_val_bound : axelar_arith.

(** Names of the recurring instances. *)
Abbreviation Hash32 := (array 32).
Abbreviation Pubkey := (array 32).

(** A byte-string literal, as Rust's [b".."]. *)
Definition bstr (s : string) : bytes := String.list_byte_of_string s.
Arguments bstr _%_string_scope.

(** ** Machine integers *)

(** A value of the unsigned type of [w] bits. *)
Definition uint (w : Z) (z : Z) : Prop := 0 <= z < 2 ^ w.
Definition uint_max (w : Z) : Z := 2 ^ w - 1.

Definition checked_add (w a b : Z) : option Z :=
  if a + b <? 2 ^ w then Some (a + b) else None.
Definition checked_sub (a b : Z) : option Z :=
  if b <=? a then Some (a - b) else None.
Definition saturating_add (w a b : Z) : Z := Z.min (a + b) (uint_max w).
Definition saturating_sub (a b : Z) : Z := Z.max 0 (a - b).

(** [try_into] to the unsigned type of [w] bits, and the wrapping cast [as]. *)
Definition try_into_uint (w z : Z) : option Z :=
  if (0 <=? z) && (z <? 2 ^ w) then Some z else None.
Definition as_uint (w z : Z) : Z := z mod 2 ^ w.

Lemma checked_add_some w a b c : checked_add w a b = Some c <-> c = a + b /\ a + b < 2 ^ w.
Proof. unfold checked_add. destruct (Z.ltb_spec (a + b) (2 ^ w)); naive_solver lia. Qed.

Lemma checked_sub_some a b c : checked_sub a b = Some c <-> c = a - b /\ b <= a.
Proof. unfold checked_sub. destruct (Z.leb_spec b a); naive_solver lia. Qed.

Lemma try_into_uint_some w z x : try_into_uint w z = Some x <-> x = z /\ uint w z.
Proof.
  unfold try_into_uint, uint.
  destruct (Z.leb_spec 0 z), (Z.ltb_spec z (2 ^ w)); simpl; naive_solver lia.
Qed.

Lemma saturating_add_uint w a b : 0 <= w -> uint w a -> 0 <= b -> uint w (saturating_add w a b).
Proof. unfold uint, saturating_add, uint_max. pose proof (Z.pow_pos_nonneg 2 w). lia. Qed.

(** ** Fallible computations *)

(** Rust's [Result]. *)
Inductive result (E A : Type) : Type :=
| Ok (a : A)
| Err (e : E).
Arguments Ok {E A} _.
Arguments Err {E A} _.

#[global] Instance result_ret {E} : MRet (result E) := fun A => Ok.
#[global] Instance result_bind {E} : MBind (result E) := fun A B f m =>
  match m with Ok a => f a | Err e => Err e end.
#[global] Instance result_fmap {E} : FMap (result E) := fun A B f m =>
  match m with Ok a => Ok (f a) | Err e => Err e end.

Definition is_ok {E A} (r : result E A) : bool := if r is Ok _ then true else false.

(** [Option::ok_or] and [Result::map_err(|_| e)]. *)
Definition ok_or {E A} (o : option A) (e : E) : result E A :=
  match o with Some a => Ok a | None => Err e end.
Definition map_err {E E' A} (f : E -> E') (r : result E A) : result E' A :=
  match r with Ok a => Ok a | Err e => Err (f e) end.
(** [require!] and the pattern [if !c { return err!(e) }]. *)
Definition ensure {E} (b : bool) (e : E) : result E unit := if b then Ok tt else Err e.

Section result_lemmas.
Context {E : Type}.

Lemma result_bind_ok {A B} (m : result E A) (f : A -> result E B) b :
  m ≫= f = Ok b <-> exists a, m = Ok a /\ f a = Ok b.
Proof. destruct m; simpl; naive_solver. Qed.

Lemma ok_or_ok {A} (o : option A) (e : E) a : ok_or o e = Ok a <-> o = Some a.
Proof. destruct o; simpl; naive_solver. Qed.

Lemma ensure_ok (b : bool) (e : E) u : ensure b e = Ok u <-> b = true.
Proof. destruct b, u; simpl; naive_solver. Qed.

Lemma map_err_ok {E' A} (f : E -> E') (r : result E A) a :
  map_err f r = Ok a <-> r = Ok a.
Proof. destruct r; simpl; naive_solver. Qed.
End result_lemmas.

(** Decompose every hypothesis that says a pure computation succeeded. *)
Ltac inv_result :=
  repeat match goal with
  | H : (_ ≫= _) = Ok _ |- _ => apply result_bind_ok in H; destruct H as (? & ? & H)
  | H : mret _ = Ok _ |- _ => unfold mret, result_ret in H
  | H : Ok _ = Ok _ |- _ => injection H as H; try subst
  | H : Err _ = Ok _ |- _ => discriminate H
  | H : Ok _ = Err _ |- _ => discriminate H
  | H : ok_or _ _ = Ok _ |- _ => apply ok_or_ok in H
  | H : ensure _ _ = Ok _ |- _ => apply ensure_ok in H
  | H : map_err _ _ = Ok _ |- _ => apply map_err_ok in H
  end.

(** Turn boolean tests among the hypotheses into propositions. *)
Ltac bool_props :=
  repeat match goal with
  | H : (_ && _)%bool = true |- _ => apply andb_true_iff in H; destruct H
  | H : negb _ = true |- _ => apply negb_true_iff in H
  | H : bool_decide _ = true |- _ => apply bool_decide_eq_true in H
  | H : bool_decide _ = false |- _ => apply bool_decide_eq_false in H
  | H : (_ <? _) = true |- _ => apply Z.ltb_lt in H
  | H : (_ <? _) = false |- _ => apply Z.ltb_ge in H
  | H : (_ <=? _) = true |- _ => apply Z.leb_le in H
  | H : (_ <=? _) = false |- _ => apply Z.leb_gt in H
  | H : (_ =? _) = true |- _ => apply Z.eqb_eq in H
  | H : (_ =? _) = false |- _ => apply Z.eqb_neq in H
  end.

(** ** Lists *)

(** The sum of a function over a list. *)
Definition sum_map {A} (f : A -> Z) (l : list A) : Z := foldr (fun x s => f x + s) 0 l.

Lemma sum_map_app {A} (f : A -> Z) l1 l2 : sum_map f (l1 ++ l2) = sum_map f l1 + sum_map f l2.
Proof. induction l1 as [|x l1 IH]; simpl; lia. Qed.

Lemma sum_map_nonneg {A} (f : A -> Z) l : Forall (fun x => 0 <= f x) l -> 0 <= sum_map f l.
Proof. induction 1; simpl; lia. Qed.

(** Two concatenations with heads of equal length agree componentwise. *)
Lemma app_eq_split {A} (l1 l2 k1 k2 : list A) :
  length l1 = length l2 -> l1 ++ k1 = l2 ++ k2 -> l1 = l2 /\ k1 = k2.
Proof. intros Hl H. by apply app_inj_1 in H. Qed.
