(* ===== verification/Errors.v ===== *)
(** * Errors

    The error enums of the programs, and the sum of them that an instruction can end with
    ([anchor_lang::error::Error]). [ProgramError] and [AnchorError] list the codes of the
    Solana runtime and of Anchor's account checks that the modelled code can produce;
    [ERuntime] is an abort of a cross-program call by the runtime, [EPanic] a Rust panic ([expect],
    [unwrap]). *)

From stdpp Require Import base decidable.
From Stdlib Require Import ZArith.
From S2P Require Import Prelude.

(** crates/solana-axelar-std/src/error.rs *)
Inductive EncodingError :=
| CannotMerklizeEmptyVerifierSet
| CannotMerklizeEmptyMessageSet
| SetSizeTooLarge
| IoError.

(** programs/solana-axelar-gateway/src/errors.rs *)
Inductive GatewayError :=
| VerifierSetTooOld
| EpochCalculationOverflow
| InvalidDomainSeparator
| SignatureVerificationFailed
| InvalidMerkleProof
| SlotIsOutOfBounds
| SlotAlreadyVerified
| InvalidDigitalSignature
| LeafNodeNotPartOfMerkleRoot
| InvalidVerificationSessionPDA
| SigningSessionNotValid
| InvalidDestinationAddress
| InvalidVerifierSetTrackerPDA
| MessageNotApproved
| InvalidMessageHash
| InvalidSigningPDA
| ProofNotSignedByLatestVerifierSet
| RotationCooldownNotDone
| DuplicateVerifierSetRotation
| InvalidVerifierSetTrackerProvided
| GatewayInvalidUpgradeAuthority
| InvalidLoaderContent
| InvalidLoaderState
| InvalidOperatorOrAuthorityAccount
| CallerNotSigner
| UnsupportedSignatureScheme
| InvalidSigningPDABump
| InvalidTimestamp
| InvalidEncodingScheme
| BorshSerializeError
| BorshDeserializeError
| PayloadAbiError.

(** programs/solana-axelar-gateway/src/executable.rs *)
Inductive ExecutableError :=
| InvalidPayloadHash
| InvalidAccounts.

(** programs/solana-axelar-governance/src/errors.rs *)
Inductive GovernanceError :=
| InvalidUpgradeAuthority
| GovInvalidArgument
| NotOperator
| GovArithmeticOverflow
| UnauthorizedChain
| UnauthorizedAddress
| GovInvalidInstructionData
| ProposalNotReady
| InvalidTargetProgram
| TargetAccountNotFound
| MissingNativeValueReceiver
| InvalidNativeValue
| UnauthorizedOperator
| GovMissingRequiredSignature
| GovernanceConfigMissing.

(** programs/solana-axelar-operators/src/errors.rs *)
Inductive OperatorsErrorCode :=
| UnauthorizedOwner
| SameOwner.

(** programs/solana-axelar-its/src/errors.rs *)
Inductive ItsError :=
| Paused
| InvalidAmount
| ItsInvalidArgument
| ItsInvalidInstructionData
| InvalidMetaplexDataAccount
| MinterNotProvided
| MinterRolesNotProvided
| MinterRolesPdaBumpNotProvided
| OperatorNotProvided
| OperatorRolesPdaNotProvided
| ItsInvalidAccountData
| UntrustedSourceChain
| UntrustedDestinationChain
| TrustedChainAlreadySet
| TrustedChainNotSet
| InvalidSourceAddress
| InvalidDestinationChain
| ItsInvalidDestinationAddress
| InvalidDestinationAddressAccount
| InterchainTransferExecutePdaMissing
| ZeroSupplyToken
| TokenManagerMintExtensionMismatch
| CallerNotUserAccount
| InvalidTokenMint
| TokenMintTokenManagerMissmatch
| AccountNotProvided
| InconsistentSourceIdAndPdaSeeds
| ItsArithmeticOverflow
| ItsMissingRequiredSignature
| NotEnoughAccountKeys
| InvalidTokenManagerType
| SerializationError
| InvalidDestinationTokenAuthority
| MissingMinterRole
| MissingOperatorRole
| MissingFlowLimiterRole
| FlowLimitExceeded.

(** Codes of [solana_program::program_error::ProgramError]. *)
Inductive ProgramError :=
| PE_InsufficientFunds
| PE_InvalidInstructionData
| PE_InvalidAccountData
| PE_InvalidArgument
| PE_ArithmeticOverflow
| PE_NotEnoughAccountKeys
| PE_MissingRequiredSignature
| PE_Custom (code : Z).

(** Codes of Anchor's account checks. *)
Inductive AnchorError :=
| AccountNotSigner
| AccountNotInitialized
| AccountOwnedByWrongProgram
| AccountDiscriminatorMismatch
| ConstraintMut
| ConstraintSigner
| ConstraintSeeds
| ConstraintAddress
| InvalidProgramId
| AccountAlreadyInUse
| AccountDidNotDeserialize
| ConstraintMintMintAuthority
| ConstraintMintTokenProgram
| ConstraintTokenMint
| ConstraintTokenOwner
| ConstraintTokenTokenProgram
| ConstraintAssociated
| ConstraintAssociatedTokenTokenProgram
| AccountNotAssociatedTokenAccount
| AccountNotEnoughKeys
| InstructionDidNotDeserialize.

Inductive Error :=
| EGateway (e : GatewayError)
| EGovernance (e : GovernanceError)
| EOperators (e : OperatorsErrorCode)
| EIts (e : ItsError)
| EEncoding (e : EncodingError)
| EProgram (e : ProgramError)
| EAnchor (e : AnchorError)
| ERuntime
| EPanic.

(** [impl From<ExecutableError> for anchor_lang::error::Error]. *)
Definition executable_error (e : ExecutableError) : Error :=
  match e with
  | InvalidPayloadHash => EProgram (PE_Custom 7000)
  | InvalidAccounts => EProgram (PE_Custom 7001)
  end.

#[global] Instance GatewayError_eq_dec : EqDecision GatewayError.
Proof. solve_decision. Defined.
#[global] Instance GovernanceError_eq_dec : EqDecision GovernanceError.
Proof. solve_decision. Defined.
#[global] Instance OperatorsErrorCode_eq_dec : EqDecision OperatorsErrorCode.
Proof. solve_decision. Defined.
#[global] Instance ItsError_eq_dec : EqDecision ItsError.
Proof. solve_decision. Defined.
#[global] Instance EncodingError_eq_dec : EqDecision EncodingError.
Proof. solve_decision. Defined.
#[global] Instance ProgramError_eq_dec : EqDecision ProgramError.
Proof. solve_decision. Defined.
#[global] Instance AnchorError_eq_dec : EqDecision AnchorError.
Proof. solve_decision. Defined.
#[global] Instance Error_eq_dec : EqDecision Error.
Proof. solve_decision. Defined.

(** The result of an instruction, or of a function that returns Anchor's [Result]. *)
Abbreviation Result := (result Error).
