(* ===== verification/External.v ===== *)
(** * Code the repository calls but does not contain

    One class per third-party crate or Solana facility, with the operations the modelled code
    uses, and a second class with the documented facts a theorem may rely on. Definitions of the
    library take the operations as arguments; [Instances.v] gives a concrete implementation of
    each class, on which the laws are proved. *)

From stdpp Require Import base gmap list.
From Stdlib Require Import ZArith.
From S2P Require Import Prelude.

(** ** [solana_keccak_hasher]: [hash] and [hashv] *)
Class Keccak := {
  keccak_hash : bytes -> Hash32;
  keccak_hashv : list bytes -> Hash32
}.

(** [hashv] hashes the concatenation of the slices. *)
Class KeccakLaws `{!Keccak} : Prop := {
  keccak_hashv_concat ls : keccak_hashv ls = keccak_hash (concat ls)
}.

(** ** [udigest]: the derived, unambiguous byte encoding of a structure *)
Class Digestable (T : Type) := unambiguously_encode : T -> bytes.

(** ** [rs_merkle] *)

(** The trait [rs_merkle::Hasher] at [Hash = [u8; 32]]. *)
Record Hasher := {
  hasher_hash : bytes -> Hash32;
  hasher_concat_and_hash : Hash32 -> option Hash32 -> Hash32
}.

Class RsMerkle := {
  MerkleTree : Type;
  MerkleProof : Type;
  from_leaves : Hasher -> list Hash32 -> MerkleTree;
  tree_root : Hasher -> MerkleTree -> option Hash32;
  tree_proof : Hasher -> MerkleTree -> list Z -> MerkleProof;
  proof_to_bytes : MerkleProof -> bytes;
  proof_from_bytes : bytes -> option MerkleProof;
  proof_verify : Hasher -> MerkleProof -> Hash32 -> list Z -> list Hash32 -> Z -> bool
}.

(** A tree has a root when it has a leaf; the proof it issues for one of its leaves survives
    serialisation and verifies against its root. *)
Class RsMerkleLaws `{!RsMerkle} : Prop := {
  tree_root_nil T : tree_root T (from_leaves T []) = None;
  tree_root_cons T l ls : is_Some (tree_root T (from_leaves T (l :: ls)));
  proof_bytes_roundtrip p : proof_from_bytes (proof_to_bytes p) = Some p;
  proof_complete T ls root (i : nat) h :
    tree_root T (from_leaves T ls) = Some root -> ls !! i = Some h ->
    proof_verify T (tree_proof T (from_leaves T ls) [Z.of_nat i]) root [Z.of_nat i] [h]
      (Z.of_nat (length ls)) = true
}.

(** ** secp256k1: the recovery syscall, and [libsecp256k1]'s key parser *)
Class Secp256k1 := {
  (** digest, recovery id, 64 signature bytes; the 64 bytes of the recovered key *)
  secp256k1_recover : Hash32 -> byte -> array 64 -> option (array 64);
  (** [PublicKey::parse_compressed(k)] then [serialize()] *)
  parse_compressed_serialize : array 33 -> option (array 65)
}.

(** ** [bitvec]: [view_bits::<Lsb0>()], [get] and [get_mut(..).commit(true)] on a byte array *)
Class BitVec := {
  bits_get {n : nat} : array n -> Z -> option bool;
  bits_set {n : nat} : array n -> Z -> array n
}.

Class BitVecLaws `{!BitVec} : Prop := {
  bits_get_none n (a : array n) i : 0 <= i -> bits_get a i = None <-> 8 * Z.of_nat n <= i;
  bits_get_zero n i : 0 <= i < 8 * Z.of_nat n -> bits_get (arr_zero n) i = Some false;
  bits_get_set_eq n (a : array n) i : 0 <= i < 8 * Z.of_nat n -> bits_get (bits_set a i) i = Some true;
  bits_get_set_ne n (a : array n) i j :
    0 <= i -> 0 <= j -> i <> j -> bits_get (bits_set a i) j = bits_get a j
}.

(** ** [bnum::types::U256] *)

(** [[u64; 4]], least significant digit first. *)
Record u64x4 := U64x4 { d0 : Z; d1 : Z; d2 : Z; d3 : Z }.

Definition u64x4_val (d : u64x4) : Z :=
  d0 d + 2 ^ 64 * (d1 d + 2 ^ 64 * (d2 d + 2 ^ 64 * d3 d)).
Definition u64x4_wf (d : u64x4) : Prop :=
  uint 64 (d0 d) /\ uint 64 (d1 d) /\ uint 64 (d2 d) /\ uint 64 (d3 d).

#[global] Instance u64x4_eq_dec : EqDecision u64x4.
Proof. solve_decision. Defined.

Class Bnum := {
  BUint256 : Type;
  bn_from_digits : u64x4 -> BUint256;
  bn_digits : BUint256 -> u64x4;
  bn_checked_add : BUint256 -> BUint256 -> option BUint256;
  bn_checked_sub : BUint256 -> BUint256 -> option BUint256;
  bn_cmp : BUint256 -> BUint256 -> comparison;
  (** [From<u8>], [From<u64>], [From<usize>], [From<u128>] *)
  bn_from : Z -> BUint256
}.

Definition bn_val `{!Bnum} (x : BUint256) : Z := u64x4_val (bn_digits x).

Class BnumLaws `{!Bnum} : Prop := {
  bn_digits_wf x : u64x4_wf (bn_digits x);
  bn_digits_from d : u64x4_wf d -> bn_digits (bn_from_digits d) = d;
  bn_add_some a b c : bn_checked_add a b = Some c -> bn_val c = bn_val a + bn_val b;
  bn_add_none a b : bn_checked_add a b = None <-> 2 ^ 256 <= bn_val a + bn_val b;
  bn_sub_some a b c : bn_checked_sub a b = Some c -> bn_val c = bn_val a - bn_val b;
  bn_sub_none a b : bn_checked_sub a b = None <-> bn_val a < bn_val b;
  bn_cmp_val a b : bn_cmp a b = Z.compare (bn_val a) (bn_val b);
  bn_from_val z : uint 128 z -> bn_val (bn_from z) = z
}.

(** ** [borsh] *)

(** The traits [BorshSerialize]/[BorshDeserialize] (re-exported by Anchor): a writer that appends
    bytes to a buffer ([None]: an [io::Error], as for a length that does not fit in a u32), and a
    reader that consumes a prefix. *)
Class Borsh (T : Type) := {
  borsh_serialize : T -> option bytes;
  borsh_deserialize : bytes -> option (T * bytes)
}.

Class BorshLaws (T : Type) `{!Borsh T} : Prop := {
  borsh_roundtrip (x : T) b r :
    borsh_serialize x = Some b -> borsh_deserialize (b ++ r) = Some (x, r)
}.

(** The crate's own implementations for [[u8]] and [Vec<T>], whose length is a u32. *)
Class BorshVec := {
  borsh_bytes : bytes -> option bytes;
  borsh_vec {T : Type} `{!Borsh T} : list T -> option bytes;
  borsh_vec_try_from_slice {T : Type} `{!Borsh T} : bytes -> option (list T)
}.

Class BorshVecLaws `{!BorshVec} : Prop := {
  borsh_bytes_format b : borsh_bytes b =
    if Z.of_nat (length b) <? 2 ^ 32 then Some (le_bytes 4 (Z.of_nat (length b)) ++ b) else None;
  borsh_vec_format {T} `{!Borsh T} (l : list T) : borsh_vec l =
    if Z.of_nat (length l) <? 2 ^ 32
    then (fun bs => le_bytes 4 (Z.of_nat (length l)) ++ concat bs) <$> mapM borsh_serialize l
    else None;
  borsh_vec_roundtrip {T} `{!Borsh T, !BorshLaws T} (l : list T) b :
    borsh_vec l = Some b -> borsh_vec_try_from_slice b = Some l;
  (** the encoding of a vector is unique when that of its elements is *)
  borsh_vec_canonical {T} `{!Borsh T} (l : list T) b :
    (forall (x : T) s r, borsh_deserialize s = Some (x, r) ->
       exists p, borsh_serialize x = Some p /\ s = p ++ r) ->
    borsh_vec_try_from_slice b = Some l -> borsh_vec l = Some b
}.

(** ** [alloy_sol_types]: the ABI of [SolanaGatewayPayload] *)

(** [abi_encode_params] of a payload and its accounts, each a key and two flags, and
    [Decoder::decode_sequence] with validation: the payload and three words per account. *)
Class SolAbi := {
  abi_encode_params : bytes -> list (array 32 * bool * bool) -> bytes;
  abi_decode_sequence : bytes -> option (bytes * list (array 32 * array 32 * array 32))
}.

(** A [bool] is the word 0 or 1, big endian. *)
Definition abi_bool (b : bool) : array 32 :=
  arr_fill 32 (replicate 31 Byte.x00 ++ [if b then Byte.x01 else Byte.x00]).

Class SolAbiLaws `{!SolAbi} : Prop := {
  abi_roundtrip p l : abi_decode_sequence (abi_encode_params p l) =
    Some (p, map (fun '(k, s, w) => (k, abi_bool s, abi_bool w)) l)
}.

(** ** Solana: program derived addresses, and the base58 parser of [Pubkey] *)
Class SolanaPda := {
  create_program_address : list bytes -> Pubkey -> option Pubkey;
  (** the canonical address and bump; the Rust function panics on [None] *)
  find_program_address : list bytes -> Pubkey -> option (Pubkey * byte);
  pubkey_from_str : bytes -> option Pubkey
}.

(** The canonical bump is one that [create_program_address] accepts, and an address depends on
    its seeds through their concatenation only. *)
Class SolanaPdaLaws `{!SolanaPda} : Prop := {
  find_create seeds pid k b :
    find_program_address seeds pid = Some (k, b) ->
    create_program_address (seeds ++ [[b]]) pid = Some k;
  create_concat s1 s2 pid :
    concat s1 = concat s2 -> create_program_address s1 pid = create_program_address s2 pid
}.

(** ** Program ids: [declare_id!] of each program (one constant per network, chosen by a cargo
    feature) and the ids of Solana's own programs *)
Class ProgramIds := {
  gateway_ID : Pubkey;
  governance_ID : Pubkey;
  operators_ID : Pubkey;
  gas_service_ID : Pubkey;
  its_ID : Pubkey;
  memo_ID : Pubkey;
  system_program_ID : Pubkey;
  bpf_loader_upgradeable_ID : Pubkey
}.

(** The ids of different programs differ. *)
Class ProgramIdsLaws `{!ProgramIds} : Prop := {
  program_ids_nodup : NoDup [gateway_ID; governance_ID; operators_ID; gas_service_ID; its_ID;
    memo_ID; system_program_ID; bpf_loader_upgradeable_ID]
}.
