(* ===== verification/Utf8Text.v ===== *)
(** * UTF-8

    The check of the standard library, [std::str::from_utf8], on which handlers rely, with a specification
    by code points: a [String] is a sequence of bytes that it accepts. *)

From stdpp Require Import base list strings.
From Stdlib Require Import ZArith Lia.
From S2P Require Import Prelude.

Definition in_range (lo hi : Z) (b : byte) : bool := (lo <=? byte_val b) && (byte_val b <=? hi).
Definition continuation (b : byte) : bool := in_range 128 191 b.
Definition low6 (b : byte) : Z := byte_val b - 128.

(** The first code point of a byte sequence, and the rest, when it begins with a well-formed one: no
    overlong form, no surrogate, nothing above 10FFFF. *)
Definition next_char (s : bytes) : option (Z * bytes) :=
  match s with
  | [] => None
  | a :: s1 =>
    if in_range 0 127 a then Some (byte_val a, s1)
    else match s1 with
    | [] => None
    | b :: s2 =>
      if in_range 194 223 a then
        if continuation b then Some ((byte_val a - 192) * 64 + low6 b, s2) else None
      else match s2 with
      | [] => None
      | c :: s3 =>
        if in_range 224 239 a then
          if in_range (if byte_val a =? 224 then 160 else 128) (if byte_val a =? 237 then 159 else 191) b && continuation c
          then Some ((byte_val a - 224) * 4096 + low6 b * 64 + low6 c, s3) else None
        else match s3 with
        | [] => None
        | d :: s4 =>
          if in_range 240 244 a &&
             in_range (if byte_val a =? 240 then 144 else 128) (if byte_val a =? 244 then 143 else 191) b &&
             continuation c && continuation d
          then Some ((byte_val a - 240) * 262144 + low6 b * 4096 + low6 c * 64 + low6 d, s4) else None
        end
      end
    end
  end.

(** The code points of the whole sequence; one unit of fuel for each, and each takes at least a byte. *)
Fixpoint chars (fuel : nat) (s : bytes) : option (list Z) :=
  match s, fuel with
  | [], _ => Some []
  | _, O => None
  | _, S fuel => p ← next_char s; cons p.1 <$> chars fuel p.2
  end.

Definition from_utf8 (s : bytes) : option (list Z) := chars (length s) s.

(** A Unicode scalar value, and its encoding. *)
Definition scalar (c : Z) : Prop := 0 <= c < 55296 \/ 57344 <= c < 1114112.

Definition encode_utf8 (c : Z) : bytes :=
  map byte_of_Z
    (if c <? 128 then [c]
     else if c <? 2048 then [192 + c / 64; 128 + c mod 64]
     else if c <? 65536 then [224 + c / 4096; 128 + c / 64 mod 64; 128 + c mod 64]
     else [240 + c / 262144; 128 + c / 4096 mod 64; 128 + c / 64 mod 64; 128 + c mod 64]).

Lemma in_range_byte lo hi z : 0 <= z < 256 -> in_range lo hi (byte_of_Z z) = (lo <=? z) && (z <=? hi).
Proof. intros H. unfold in_range. by rewrite byte_val_of_Z, Z.mod_small. Qed.

#[local] Ltac ranges := repeat match goal with
  | |- context [?a <=? ?b] =>
      first [rewrite (proj2 (Z.leb_le a b)) by lia | rewrite (proj2 (Z.leb_gt a b)) by lia]
  | |- context [if ?a =? ?b then _ else _] => destruct (Z.eqb_spec a b); try lia
  end; cbn [andb].

Lemma digits64 c : 0 <= c -> c = c / 64 * 64 + c mod 64 /\ 0 <= c mod 64 < 64 /\ 0 <= c / 64.
Proof. intros H. pose proof (Z.div_mod c 64). pose proof (Z.mod_pos_bound c 64). pose proof (Z.div_pos c 64). lia. Qed.

(** A code point is read back from its encoding. *)
Lemma next_char_encode c s : scalar c -> next_char (encode_utf8 c ++ s) = Some (c, s).
Proof.
  intros Hc. assert (0 <= c) as H0 by (unfold scalar in Hc; lia).
  assert (c / 4096 = c / 64 / 64) as E1 by (by rewrite Z.div_div by lia).
  assert (c / 262144 = c / 64 / 64 / 64) as E2 by (by rewrite !Z.div_div by lia).
  destruct (digits64 c H0) as (D0 & B0 & P1). destruct (digits64 _ P1) as (D1 & B1 & P2).
  destruct (digits64 _ P2) as (D2 & B2 & P3). unfold encode_utf8. rewrite E1, E2. clear E1 E2. unfold scalar in Hc.
  set (r0 := c mod 64) in *. set (q1 := c / 64) in *. set (r1 := q1 mod 64) in *. set (q2 := q1 / 64) in *.
  set (r2 := q2 mod 64) in *. set (q3 := q2 / 64) in *. clearbody r0 r1 r2 q3. clearbody q2. clearbody q1.
  destruct (Z.ltb_spec c 128); [|destruct (Z.ltb_spec c 2048); [|destruct (Z.ltb_spec c 65536)]];
    cbn [map app next_char]; unfold continuation, low6; rewrite !in_range_byte, !byte_val_of_Z, !Z.mod_small by lia;
    ranges; do 2 f_equal; lia.
Qed.

Lemma div64 q r : 0 <= r < 64 -> (q * 64 + r) / 64 = q /\ (q * 64 + r) mod 64 = r.
Proof.
  intros H. split; [rewrite Z.div_add_l by lia; rewrite Z.div_small; lia|].
  by rewrite Z.add_comm, Z.mod_add, Z.mod_small by lia.
Qed.

Lemma encode_digits c q2 r2 r1 r0 :
  c = ((q2 * 64 + r2) * 64 + r1) * 64 + r0 -> 0 <= r2 < 64 -> 0 <= r1 < 64 -> 0 <= r0 < 64 -> 0 <= q2 ->
  encode_utf8 c = map byte_of_Z
    (if c <? 128 then [c]
     else if c <? 2048 then [192 + ((q2 * 64 + r2) * 64 + r1); 128 + r0]
     else if c <? 65536 then [224 + (q2 * 64 + r2); 128 + r1; 128 + r0]
     else [240 + q2; 128 + r2; 128 + r1; 128 + r0]).
Proof.
  intros -> H2 H1 H0 Hq. unfold encode_utf8. set (c := ((q2 * 64 + r2) * 64 + r1) * 64 + r0).
  assert (c / 4096 = c / 64 / 64) as -> by (by rewrite Z.div_div by lia).
  assert (c / 262144 = c / 64 / 64 / 64) as -> by (by rewrite !Z.div_div by lia). subst c.
  destruct (div64 ((q2 * 64 + r2) * 64 + r1) r0 H0) as [-> ->]. destruct (div64 (q2 * 64 + r2) r1 H1) as [-> ->].
  by destruct (div64 q2 r2 H2) as [-> ->].
Qed.

Lemma in_range_ok lo hi b : in_range lo hi b = true <-> lo <= byte_val b <= hi.
Proof. unfold in_range. rewrite andb_true_iff, !Z.leb_le. done. Qed.

#[local] Ltac digits q2 r2 r1 r0 :=
  rewrite (encode_digits _ q2 r2 r1 r0) by lia;
  repeat match goal with |- context [?a <? ?b] =>
    first [rewrite (proj2 (Z.ltb_lt a b)) by lia | rewrite (proj2 (Z.ltb_ge a b)) by lia] end;
  cbn [map app]; repeat match goal with |- context [byte_of_Z ?x] =>
    lazymatch x with byte_val _ => fail | _ => idtac end;
    match goal with b : byte |- _ => replace x with (byte_val b) by lia end end;
  by rewrite !byte_of_Z_val.

(** ... and every well-formed sequence is the encoding of what is read. *)
Lemma next_char_ok s c r : next_char s = Some (c, r) -> scalar c /\ s = encode_utf8 c ++ r.
Proof.
  unfold scalar, next_char, continuation, low6. destruct s as [|a s1]; [done|].
  destruct (in_range 0 127 a) eqn:Ha.
  { intros [= <- <-]. apply in_range_ok in Ha. split; [lia|]. unfold encode_utf8.
    rewrite (proj2 (Z.ltb_lt (byte_val a) 128)) by lia. cbn. by rewrite byte_of_Z_val. }
  destruct s1 as [|b s2]; [done|]. destruct (in_range 194 223 a) eqn:Ha2.
  { destruct (in_range 128 191 b) eqn:Hb; [|done]. intros [= <- <-]. apply in_range_ok in Ha2, Hb. split; [lia|].
    digits 0 0 (byte_val a - 192) (byte_val b - 128). }
  destruct s2 as [|d s3]; [done|]. destruct (in_range 224 239 a) eqn:Ha3.
  { destruct (_ && _)%bool eqn:Hbd; [|done]. intros [= <- <-]. apply andb_true_iff in Hbd as [Hb Hd].
    apply in_range_ok in Ha3, Hb, Hd. destruct (Z.eqb_spec (byte_val a) 224), (Z.eqb_spec (byte_val a) 237); try lia;
      (split; [lia|]); digits 0 (byte_val a - 224) (byte_val b - 128) (byte_val d - 128). }
  destruct s3 as [|e s4]; [done|]. destruct (_ && _)%bool eqn:Hbd; [|done]. intros [= <- <-].
  apply andb_true_iff in Hbd as [Hbd He]. apply andb_true_iff in Hbd as [Hbd Hd]. apply andb_true_iff in Hbd as [Ha4 Hb].
  apply in_range_ok in Ha4, Hb, Hd, He.
  destruct (Z.eqb_spec (byte_val a) 240), (Z.eqb_spec (byte_val a) 244); try lia;
    (split; [lia|]); digits (byte_val a - 240) (byte_val b - 128) (byte_val d - 128) (byte_val e - 128).
Qed.

(** ** The whole sequence *)

Lemma encode_utf8_nonempty c : encode_utf8 c <> [].
Proof. unfold encode_utf8. by destruct (c <? 128), (c <? 2048), (c <? 65536). Qed.

Lemma next_char_shorter s c r : next_char s = Some (c, r) -> (length r < length s)%nat.
Proof.
  intros [_ ->]%next_char_ok. rewrite length_app. pose proof (encode_utf8_nonempty c).
  destruct (encode_utf8 c); [done|]. cbn. lia.
Qed.

(** A byte of fuel for each byte is enough: more changes nothing. *)
Lemma chars_fuel n m s : (length s <= n)%nat -> (length s <= m)%nat -> chars n s = chars m s.
Proof.
  revert m s. induction n as [|n IH]; intros m s Hn Hm; [destruct s; [by destruct m|cbn in Hn; lia]|].
  destruct s as [|a s]; [by destruct m|]. destruct m as [|m]; [cbn in Hm; lia|]. cbn [chars].
  destruct (next_char (a :: s)) as [[c r]|] eqn:Hc; [|done]. cbn.
  apply next_char_shorter in Hc. cbn [length] in *. by rewrite (IH m r) by lia.
Qed.

Lemma from_utf8_next s c r : next_char s = Some (c, r) -> from_utf8 s = cons c <$> from_utf8 r.
Proof.
  intros H. pose proof (next_char_shorter _ _ _ H) as Hl. unfold from_utf8. destruct s as [|a s]; [done|].
  cbn [length chars]. rewrite H. cbn. by rewrite (chars_fuel (length s) (length r)) by (cbn [length] in Hl; lia).
Qed.

(** The text of some scalar values. *)
Definition text (cs : list Z) (s : bytes) : Prop := Forall scalar cs /\ s = concat (map encode_utf8 cs).

Lemma chars_ok n s cs : chars n s = Some cs -> text cs s.
Proof.
  revert s cs. induction n as [|n IH]; intros [|a s] cs; cbn [chars]; intros H; simplify_eq; try by split.
  destruct (next_char (a :: s)) as [[c r]|] eqn:Hc; [|done]. cbn in H.
  destruct (chars n r) as [cs'|] eqn:Hr; [|done]. cbn in H. injection H as <-.
  apply next_char_ok in Hc as [Hs ->]. apply IH in Hr as [Hf ->]. split; [by constructor|done].
Qed.

(** [from_utf8] accepts exactly the encodings of sequences of scalar values, and reads those back. *)
Lemma from_utf8_exact s cs : from_utf8 s = Some cs <-> text cs s.
Proof.
  split; [apply chars_ok|]. intros [Hf ->]. induction Hf as [|c cs Hc _ IH]; [done|].
  cbn [map concat]. rewrite (from_utf8_next _ c (concat (map encode_utf8 cs))) by by apply next_char_encode.
  by rewrite IH.
Qed.

(** The invariant of [str], and its form by characters. *)
Definition valid_utf8 (s : bytes) : Prop := is_Some (from_utf8 s).
Definition utf8_char (c : bytes) : Prop := exists p, scalar p /\ c = encode_utf8 p.

Lemma valid_utf8_chars s : valid_utf8 s <-> exists cs, Forall utf8_char cs /\ s = concat cs.
Proof.
  unfold valid_utf8. split.
  - intros [ps [Hp ->]%from_utf8_exact]. exists (map encode_utf8 ps). split; [|done].
    apply Forall_map. eapply Forall_impl; [exact Hp|]. intros p Hs. by exists p.
  - intros (cs & Hcs & ->). assert (exists ps, text ps (concat cs)) as [ps H].
    { induction Hcs as [|c cs (p & Hp & ->) _ (ps & Hps & E)]; [by exists []|].
      exists (p :: ps). split; [by constructor|]. cbn. by rewrite E. }
    exists ps. by apply from_utf8_exact.
Qed.

(** No character is a prefix of another. *)
Lemma utf8_prefix_free c d x y : utf8_char c -> utf8_char d -> c ++ x = d ++ y -> c = d.
Proof.
  intros (p & Hp & ->) (q & Hq & ->) H. apply (next_char_encode p x) in Hp. apply (next_char_encode q y) in Hq. congruence.
Qed.

(** The first byte of a character is no continuation, and the others are, at most three. *)
Lemma utf8_first c : utf8_char c -> exists b rest, c = b :: rest /\ continuation b = false /\
  (length rest <= 3)%nat /\ Forall (fun b => continuation b = true) rest.
Proof.
  intros (p & Hp & ->). assert (forall z, 0 <= z < 64 -> continuation (byte_of_Z (128 + z)) = true) as Hc.
  { intros z Hz. unfold continuation. rewrite in_range_byte by lia. ranges. done. }
  assert (forall z, 0 <= z < 128 \/ 192 <= z < 256 -> continuation (byte_of_Z z) = false) as Hf.
  { intros z Hz. unfold continuation. rewrite in_range_byte by lia. destruct (Z.leb_spec 128 z), (Z.leb_spec z 191); lia || done. }
  assert (forall z, 0 <= z mod 64 < 64) as Hm by (intros z; apply Z.mod_pos_bound; lia).
  assert (0 <= p < 1114112) as Hb by (unfold scalar in Hp; lia).
  unfold encode_utf8. destruct (Z.ltb_spec p 128); [|destruct (Z.ltb_spec p 2048); [|destruct (Z.ltb_spec p 65536)]];
    cbn [map]; do 2 eexists; (split; [reflexivity|]); (split; [apply Hf|split; [cbn; lia|]]);
    try by repeat constructor; apply Hc, Hm.
  - lia.
  - right. assert (p / 64 < 64) by (apply Z.div_lt_upper_bound; lia). pose proof (Z.div_pos p 64). lia.
  - right. assert (p / 4096 < 16) by (apply Z.div_lt_upper_bound; lia). pose proof (Z.div_pos p 4096). lia.
  - right. assert (p / 262144 < 5) by (apply Z.div_lt_upper_bound; lia). pose proof (Z.div_pos p 262144). lia.
Qed.
