(* ===== verification/BorshFormat.v ===== *)
(** * The Borsh format

    Codecs in the documented format of the crate [borsh] for the shapes the repository derives:
    little-endian integers, byte arrays, vectors with a u32 length, structures as the concatenation
    of their fields, enums and options as a tag byte and the payload. They instantiate the classes
    [Borsh] and [BorshVec] of [External.v] with their laws; the program's definitions and theorems
    take the classes as parameters and never depend on these instances. *)

From stdpp Require Import base list.
From Stdlib Require Import ZArith Lia.
From S2P Require Import Prelude External.

(** ** Combinators *)

(** The unsigned integer of [n] bytes. *)
Definition borsh_uint (n : nat) : Borsh Z := {|
  borsh_serialize z :=
    if (0 <=? z) && (z <? 256 ^ Z.of_nat n) then Some (le_bytes n z) else None;
  borsh_deserialize b :=
    if (length b <? n)%nat then None else Some (le_val (take n b), drop n b)
|}.

Definition borsh_array (n : nat) : Borsh (array n) := {|
  borsh_serialize a := Some (arr_bytes a);
  borsh_deserialize b := (fun a => (a, drop n b)) <$> arr_try_from n (take n b)
|}.

Definition borsh_byte : Borsh byte := {|
  borsh_serialize x := Some [x];
  borsh_deserialize b := match b with [] => None | x :: r => Some (x, r) end
|}.

Section combinators.
Context {A B : Type} (codecA : Borsh A) (codecB : Borsh B).

Definition borsh_pair : Borsh (A * B) := {|
  borsh_serialize p := a ← borsh_serialize p.1; b ← borsh_serialize p.2; Some (a ++ b);
  borsh_deserialize s := '(a, s) ← borsh_deserialize s; '(b, s) ← borsh_deserialize s;
                         Some ((a, b), s)
|}.

(** An enum of two variants. *)
Definition borsh_sum : Borsh (A + B) := {|
  borsh_serialize x :=
    match x with
    | inl a => cons Byte.x00 <$> borsh_serialize a
    | inr b => cons Byte.x01 <$> borsh_serialize b
    end;
  borsh_deserialize s :=
    match s with
    | Byte.x00 :: s => '(a, s) ← borsh_deserialize s; Some (inl a, s)
    | Byte.x01 :: s => '(b, s) ← borsh_deserialize s; Some (inr b, s)
    | _ => None
    end
|}.

(** A type with the layout of another. *)
Definition borsh_iso (f : B -> A) (g : A -> B) : Borsh B := {|
  borsh_serialize x := borsh_serialize (f x);
  borsh_deserialize s := '(a, s) ← borsh_deserialize s; Some (g a, s)
|}.

Fixpoint read_n (n : nat) (s : bytes) : option (list A * bytes) :=
  match n with
  | O => Some ([], s)
  | S n => '(a, s) ← borsh_deserialize s; '(l, s) ← read_n n s; Some (a :: l, s)
  end.

Definition borsh_list : Borsh (list A) := {|
  borsh_serialize l :=
    if Z.of_nat (length l) <? 2 ^ 32
    then (fun bs => le_bytes 4 (Z.of_nat (length l)) ++ concat bs) <$> mapM borsh_serialize l
    else None;
  borsh_deserialize s :=
    if (length s <? 4)%nat then None else read_n (Z.to_nat (le_val (take 4 s))) (drop 4 s)
|}.
End combinators.

Definition borsh_unit : Borsh unit := {|
  borsh_serialize _ := Some []; borsh_deserialize s := Some (tt, s)
|}.
Definition borsh_u8vec : Borsh bytes := borsh_list borsh_byte.

(** ** Laws *)

Create HintDb borsh discriminated.

Lemma le_bytes_not_short n z (r : bytes) : (length (le_bytes n z ++ r) <? n)%nat = false.
Proof. rewrite length_app, le_bytes_length. apply Nat.ltb_ge. lia. Qed.

Lemma borsh_uint_laws n : @BorshLaws Z (borsh_uint n).
Proof.
  split. intros z b r. cbn [borsh_serialize borsh_deserialize borsh_uint]. destruct ((0 <=? z) && _) eqn:E; [|done]. intros [= <-]. bool_props.
  rewrite le_bytes_not_short.
  rewrite take_app_length', drop_app_length' by (by rewrite le_bytes_length).
  rewrite le_val_bytes, Z.mod_small by lia. done.
Qed.

Lemma borsh_array_laws n : @BorshLaws (array n) (borsh_array n).
Proof.
  split. intros a b r [= <-]. cbn.
  rewrite take_app_length', drop_app_length' by (by rewrite arr_len).
  by rewrite arr_try_from_bytes.
Qed.

Lemma borsh_byte_laws : @BorshLaws byte borsh_byte.
Proof. split. by intros x b r [= <-]. Qed.

Lemma borsh_unit_laws : @BorshLaws unit borsh_unit.
Proof. split. by intros [] b r [= <-]. Qed.

Section combinator_laws.
Context {A B : Type} {codecA : Borsh A} {codecB : Borsh B}.
Context {lawsA : BorshLaws A} {lawsB : BorshLaws B}.

Lemma borsh_pair_laws : @BorshLaws (A * B) (borsh_pair codecA codecB).
Proof.
  split. intros [a b] s r. cbn. intros H.
  apply bind_Some in H as (sa & Ha & H). apply bind_Some in H as (sb & Hb & [= <-]).
  rewrite <- app_assoc. rewrite (borsh_roundtrip a sa) by done. cbn.
  by rewrite (borsh_roundtrip b sb).
Qed.

Lemma borsh_sum_laws : @BorshLaws (A + B) (borsh_sum codecA codecB).
Proof.
  split. intros [a|b] s r; cbn; intros H; apply fmap_Some in H as (sa & Ha & ->); cbn.
  - by rewrite (borsh_roundtrip a sa).
  - by rewrite (borsh_roundtrip b sa).
Qed.

Lemma borsh_iso_laws (f : B -> A) (g : A -> B) :
  (forall x, g (f x) = x) -> @BorshLaws B (borsh_iso codecA f g).
Proof.
  intros Hgf. split. intros x s r. cbn. intros H. rewrite (borsh_roundtrip (f x) s) by done.
  cbn. by rewrite Hgf.
Qed.

Lemma read_n_roundtrip l bs r :
  mapM borsh_serialize l = Some bs -> read_n codecA (length l) (concat bs ++ r) = Some (l, r).
Proof.
  revert bs. induction l as [|a l IH]; intros bs; cbn.
  - by intros [= <-].
  - intros H. apply bind_Some in H as (sa & Ha & H). apply bind_Some in H as (sl & Hl & [= <-]).
    cbn. rewrite <- app_assoc, (borsh_roundtrip a sa) by done. cbn. by rewrite IH.
Qed.

Lemma list_prefix_roundtrip (n : nat) (s : bytes) :
  Z.of_nat n < 2 ^ 32 ->
  (length (le_bytes 4 (Z.of_nat n) ++ s) <? 4)%nat = false /\
  Z.to_nat (le_val (take 4 (le_bytes 4 (Z.of_nat n) ++ s))) = n /\
  drop 4 (le_bytes 4 (Z.of_nat n) ++ s) = s.
Proof.
  intros Hn. split_and!.
  - apply le_bytes_not_short.
  - rewrite take_app_length' by (by rewrite le_bytes_length).
    rewrite le_val_bytes, Z.mod_small by (change (256 ^ Z.of_nat 4) with (2 ^ 32); lia). lia.
  - by rewrite drop_app_length' by (by rewrite le_bytes_length).
Qed.

Lemma borsh_list_laws : @BorshLaws (list A) (borsh_list codecA).
Proof.
  split. intros l s r. cbn [borsh_serialize borsh_deserialize borsh_list]. destruct (Z.ltb_spec (Z.of_nat (length l)) (2 ^ 32)); [|done].
  intros H'. apply fmap_Some in H' as (bs & Hbs & ->). rewrite <- app_assoc.
  destruct (list_prefix_roundtrip (length l) (concat bs ++ r)) as (-> & -> & ->); [done|].
  by apply read_n_roundtrip.
Qed.
End combinator_laws.

Lemma borsh_u8vec_laws : @BorshLaws bytes borsh_u8vec.
Proof. apply (@borsh_list_laws byte borsh_byte borsh_byte_laws). Qed.

#[export] Hint Resolve borsh_uint_laws borsh_array_laws borsh_byte_laws borsh_unit_laws
  borsh_pair_laws borsh_sum_laws borsh_list_laws borsh_u8vec_laws : borsh.

(** ** The entry points for vectors *)

Definition borsh_vec_impl : BorshVec := {|
  borsh_bytes b :=
    if Z.of_nat (length b) <? 2 ^ 32 then Some (le_bytes 4 (Z.of_nat (length b)) ++ b) else None;
  borsh_vec T codec l := @borsh_serialize _ (borsh_list codec) l;
  borsh_vec_try_from_slice T codec b :=
    match @borsh_deserialize _ (borsh_list codec) b with Some (l, []) => Some l | _ => None end
|}.

Lemma read_n_canonical {T} (codec : Borsh T) n s l r :
  (forall (x : T) s r, borsh_deserialize s = Some (x, r) ->
     exists p, borsh_serialize x = Some p /\ s = p ++ r) ->
  read_n codec n s = Some (l, r) ->
  length l = n /\ exists bs, mapM borsh_serialize l = Some bs /\ s = concat bs ++ r.
Proof.
  intros Hc. revert s l. induction n as [|n IH]; intros s l; cbn.
  - intros [= <- <-]. split; [done|]. by exists [].
  - intros H. apply bind_Some in H as ([a s1] & Ha & H). apply bind_Some in H as ([l' s2] & Hl & H).
    injection H as <- <-. apply IH in Hl as (Hn & bs & Hbs & ->). apply Hc in Ha as (p & Hp & ->).
    split; [cbn; by f_equal|]. exists (p :: bs). cbn. rewrite Hp, Hbs. cbn. by rewrite app_assoc.
Qed.

Lemma borsh_vec_impl_laws : @BorshVecLaws borsh_vec_impl.
Proof.
  split; [done|done|..].
  - intros T codec laws l b H.
    pose proof (@borsh_roundtrip _ _ (@borsh_list_laws T codec laws) l b []) as Hr.
    rewrite app_nil_r in Hr. unfold borsh_vec_try_from_slice, borsh_vec_impl. by rewrite Hr.
  - intros T codec l b Hc H. unfold borsh_vec_try_from_slice, borsh_vec_impl in H.
    cbn [borsh_deserialize borsh_list] in H. destruct (Nat.ltb_spec (length b) 4); [done|].
    destruct (read_n _ _ _) as [[l' [|]]|] eqn:E; [|done|done]. injection H as ->.
    apply read_n_canonical in E as (Hn & bs & Hbs & Hb); [|done]. rewrite app_nil_r in Hb.
    unfold borsh_vec, borsh_vec_impl. cbn [borsh_serialize borsh_list].
    pose proof (le_val_bound (take 4 b)) as Hv. rewrite length_take, Nat.min_l in Hv by lia.
    change (256 ^ Z.of_nat 4) with (2 ^ 32) in Hv.
    assert (Z.of_nat (length l) = le_val (take 4 b)) as -> by lia.
    pose proof (le_bytes_val (take 4 b)) as E4. rewrite length_take, Nat.min_l in E4 by lia.
    destruct (Z.ltb_spec (le_val (take 4 b)) (2 ^ 32)); [|lia]. rewrite Hbs, E4. cbn [fmap option_fmap option_map].
    by rewrite <- Hb, take_drop.
Qed.
