(* ===== verification/StdInts.v ===== *)
(** * Integers of the standard crate

    [U128] (crates/solana-axelar-std/src/u128.rs), a [u128] stored as 16 little-endian bytes so
    that it can sit in a zero-copy account, and [U256] (u256.rs), four 64-bit digits whose
    arithmetic is delegated to the crate [bnum]. *)

From stdpp Require Import base list.
From Stdlib Require Import ZArith Lia.
From S2P Require Import Prelude External.

(** ** u128.rs *)
Module U128.

Record t := mk { val_bytes : array 16 }.

#[global] Instance t_eq_dec : EqDecision t.
Proof. solve_decision. Defined.

Definition ZERO : t := mk (arr_zero 16).
Definition MAX : t := mk (arr_fill 16 (replicate 16 Byte.xff)).

(** [value.to_le_bytes()] *)
Definition new (value : Z) : t := mk (arr_le 16 value).

(** [u128::from_le_bytes(self.bytes)] *)
Definition get (self : t) : Z := arr_le_val (val_bytes self).

Definition checked_add (self other : t) : option t :=
  new <$> Prelude.checked_add 128 (get self) (get other).

Definition saturating_add (self other : t) : t :=
  new (Prelude.saturating_add 128 (get self) (get other)).

Definition saturating_add_u128 (self : t) (other : Z) : t :=
  new (Prelude.saturating_add 128 (get self) other).

Definition checked_sub (self other : t) : option t :=
  new <$> Prelude.checked_sub (get self) (get other).

Definition saturating_sub (self other : t) : t :=
  new (Prelude.saturating_sub (get self) (get other)).

(** [impl From<u128> for U128], [impl From<U128> for u128], [impl From<u64> for U128] *)
Definition from_u128 (value : Z) : t := new value.
Definition into_u128 (value : t) : Z := get value.
Definition from_u64 (value : Z) : t := new value.

(** The hand-written [BorshSerialize] and [BorshDeserialize]: the 16 bytes, no length. *)
Definition serialize (self : t) : option bytes := Some (arr_bytes (val_bytes self)).

Definition deserialize_reader (reader : bytes) : option (t * bytes) :=
  if (length reader <? 16)%nat then None
  else Some (mk (arr_fill 16 (take 16 reader)), drop 16 reader).

(** [#[derive(Ord)]] on the byte array: the lexicographic order of the bytes, first to last. *)
Fixpoint lex_cmp (a b : bytes) : comparison :=
  match a, b with
  | [], [] => Eq
  | [], _ => Lt
  | _, [] => Gt
  | x :: a, y :: b =>
    match Z.compare (byte_val x) (byte_val y) with Eq => lex_cmp a b | c => c end
  end.

Definition cmp (self other : t) : comparison :=
  lex_cmp (arr_bytes (val_bytes self)) (arr_bytes (val_bytes other)).

Lemma get_uint (a : t) : uint 128 (get a).
Proof. apply (arr_le_val_bound (n := 16)). Qed.

Lemma get_new (v : Z) : uint 128 v -> get (new v) = v.
Proof.
  unfold uint, get, new. simpl val_bytes. rewrite arr_le_val_le. apply Z.mod_small.
Qed.

Lemma new_get (a : t) : new (get a) = a.
Proof. destruct a. unfold new, get. simpl. by rewrite arr_le_le_val. Qed.

Lemma get_inj (a b : t) : get a = get b -> a = b.
Proof. intros H. by rewrite <- (new_get a), H, new_get. Qed.

Lemma get_ZERO : get ZERO = 0.
Proof. by vm_compute. Qed.

Lemma get_MAX : get MAX = uint_max 128.
Proof. by vm_compute. Qed.

Lemma get_saturating_add_u128 a v :
  0 <= v -> get (saturating_add_u128 a v) = Z.min (get a + v) (uint_max 128).
Proof.
  intros Hv. unfold saturating_add_u128. rewrite get_new; [done|].
  apply saturating_add_uint; [lia|apply get_uint|done].
Qed.

(** Operations computed on the integer and stored back with [new]. *)
Lemma new_fmap_some (o : option Z) (c : t) :
  (forall z, o = Some z -> uint 128 z) -> new <$> o = Some c <-> o = Some (get c).
Proof.
  intros Ho. destruct o as [z|]; simpl; [|naive_solver].
  specialize (Ho z eq_refl). split; [intros [= <-]; by rewrite get_new|].
  intros [= ->]. by rewrite new_get.
Qed.

Lemma u128_add_spec (a b : t) :
  (forall c, checked_add a b = Some c <-> get c = get a + get b) /\
  (checked_add a b = None <-> get MAX < get a + get b).
Proof.
  pose proof (get_uint a) as Ha. pose proof (get_uint b) as Hb. unfold uint in *.
  split; [intros c; pose proof (get_uint c) as Hc|]; unfold checked_add.
  - rewrite new_fmap_some by (intros z [-> ?]%checked_add_some; unfold uint; lia).
    rewrite checked_add_some. unfold uint in Hc. lia.
  - rewrite get_MAX, fmap_None. unfold uint_max, Prelude.checked_add.
    destruct (Z.ltb_spec (get a + get b) (2 ^ 128)); split; try done; lia.
Qed.

Lemma u128_sub_spec (a b : t) :
  (forall c, checked_sub a b = Some c <-> get c = get a - get b) /\
  (checked_sub a b = None <-> get a < get b).
Proof.
  pose proof (get_uint a) as Ha. pose proof (get_uint b) as Hb. unfold uint in *.
  split; [intros c; pose proof (get_uint c) as Hc|]; unfold checked_sub.
  - rewrite new_fmap_some by (intros z [-> ?]%checked_sub_some; unfold uint; lia).
    rewrite checked_sub_some. unfold uint in Hc. lia.
  - rewrite fmap_None. unfold Prelude.checked_sub.
    destruct (Z.leb_spec (get b) (get a)); split; try done; lia.
Qed.

(** The stored bytes are those of the integer, least significant first. *)
Lemma bytes_le (a : t) : arr_bytes (val_bytes a) = le_bytes 16 (get a).
Proof. pose proof (le_bytes_val (arr_bytes (val_bytes a))) as H. by rewrite (arr_len (val_bytes a)) in H. Qed.

(** The reader takes 16 bytes, whatever follows them. *)
Lemma deserialize_exact s x r : deserialize_reader s = Some (x, r) <-> s = le_bytes 16 (get x) ++ r.
Proof.
  unfold deserialize_reader. rewrite <- bytes_le. destruct (Nat.ltb_spec (length s) 16) as [Hs|Hs]; split.
  - done.
  - intros ->. rewrite length_app, (arr_len (val_bytes x)) in Hs. lia.
  - intros [= <- <-]. cbn [val_bytes]. rewrite arr_fill_bytes by (rewrite length_take; lia). by rewrite take_drop.
  - intros ->. pose proof (arr_len (val_bytes x)) as Hl. rewrite take_app_length', drop_app_length' by done.
    do 2 f_equal. destruct x as [b]. f_equal. apply arr_eq. by rewrite arr_fill_bytes.
Qed.

Lemma deserialize_short s : deserialize_reader s = None <-> (length s < 16)%nat.
Proof. unfold deserialize_reader. destruct (Nat.ltb_spec (length s) 16); split; done || lia. Qed.

(** The order derived for [U128] is not the order of the integers it stores: the derive compares the
    little-endian bytes from the first, least significant one. *)
Lemma derived_ord_not_numeric : exists a b : t, get a < get b /\ cmp a b = Gt.
Proof. exists (new 255), (new 256). vm_compute. done. Qed.

(** C40: [U128] implements the unsigned 128-bit integers, in the layout of [u128]: the stored bytes are
    the 16 bytes of the integer, least significant first, [new]/[get] are inverse to each other, the
    checked operations are exact and fail exactly on overflow and underflow, the saturating ones clamp
    to [0, u128::MAX]. Serialisation always succeeds and writes those 16 bytes and nothing else; the
    hand-written reader takes exactly such an image from the front of its input, and fails exactly when
    fewer than 16 bytes are left. Only the derived order is not that of the integers. *)
Theorem u128_refines_z (a b : t) :
  get ZERO = 0 /\ get MAX = 2 ^ 128 - 1 /\
  (forall v, get (new v) = v mod 2 ^ 128) /\ new (get a) = a /\
  arr_bytes (val_bytes a) = le_bytes 16 (get a) /\
  (forall c, checked_add a b = Some c <-> get c = get a + get b) /\
  (checked_add a b = None <-> get MAX < get a + get b) /\
  (forall c, checked_sub a b = Some c <-> get c = get a - get b) /\
  (checked_sub a b = None <-> get a < get b) /\
  get (saturating_add a b) = Z.min (get a + get b) (get MAX) /\
  get (saturating_sub a b) = Z.max (get a - get b) (get ZERO) /\
  (forall v, 0 <= v -> get (saturating_add_u128 a v) = Z.min (get a + v) (get MAX)) /\
  serialize a = Some (le_bytes 16 (get a)) /\
  (forall s x r, deserialize_reader s = Some (x, r) <-> s = le_bytes 16 (get x) ++ r) /\
  (forall s, deserialize_reader s = None <-> (length s < 16)%nat) /\
  (exists x y, get x < get y /\ cmp x y = Gt).
Proof.
  pose proof (get_uint a) as Ha. pose proof (get_uint b) as Hb.
  destruct (u128_add_spec a b), (u128_sub_spec a b).
  split_and!; try solve [done | apply new_get | apply bytes_le | intros; apply (arr_le_val_le 16)].
  - rewrite get_MAX. apply get_saturating_add_u128. unfold uint in *. lia.
  - rewrite get_ZERO. unfold saturating_sub, uint in *. rewrite get_new; unfold Prelude.saturating_sub, uint; lia.
  - rewrite get_MAX. apply get_saturating_add_u128.
  - unfold serialize. by rewrite bytes_le.
  - exact deserialize_exact.
  - exact deserialize_short.
  - exact derived_ord_not_numeric.
Qed.

End U128.

(** ** u256.rs *)
Module U256.

(** [value: [u64; 4]], least significant digit first. *)
Record t := mk { value : u64x4 }.

#[global] Instance t_eq_dec : EqDecision t.
Proof. solve_decision. Defined.

Definition wf (self : t) : Prop := u64x4_wf (value self).

Definition ZERO : t := mk (U64x4 0 0 0 0).
Definition ONE : t := mk (U64x4 1 0 0 0).

(** [bytemuck::cast] between [[u8; 32]] and [[u64; 4]] on a little-endian target. *)
Definition cast_from_bytes (b : bytes) : u64x4 :=
  U64x4 (le_val (take 8 b)) (le_val (take 8 (drop 8 b)))
        (le_val (take 8 (drop 16 b))) (le_val (take 8 (drop 24 b))).
Definition cast_to_bytes (d : u64x4) : bytes :=
  le_bytes 8 (d0 d) ++ le_bytes 8 (d1 d) ++ le_bytes 8 (d2 d) ++ le_bytes 8 (d3 d).

Definition from_le_bytes (b : array 32) : t := mk (cast_from_bytes (arr_bytes b)).
Definition to_le_bytes (self : t) : array 32 := arr_fill 32 (cast_to_bytes (value self)).

Definition from_u64 (i : Z) : t := mk (U64x4 i 0 0 0).

Section ops.
Context `{!Bnum}.

Definition checked_add (self rhs : t) : option t :=
  (fun res => mk (bn_digits res)) <$>
    bn_checked_add (bn_from_digits (value self)) (bn_from_digits (value rhs)).

Definition checked_sub (self rhs : t) : option t :=
  (fun res => mk (bn_digits res)) <$>
    bn_checked_sub (bn_from_digits (value self)) (bn_from_digits (value rhs)).

Definition cmp (self other : t) : comparison :=
  bn_cmp (bn_from_digits (value self)) (bn_from_digits (value other)).

Definition partial_cmp (self other : t) : option comparison := Some (cmp self other).

(** [impl From<u8>], [From<u64>], [From<usize>], [From<u128>], [From<&u128>] *)
Definition from_uint (v : Z) : t := mk (bn_digits (bn_from v)).
End ops.

(** The value of a [U256]. *)
Definition val (self : t) : Z := u64x4_val (value self).

Lemma val_range (a : t) : wf a -> 0 <= val a < 2 ^ 256.
Proof.
  destruct a as [[a0 a1 a2 a3]].
  unfold wf, u64x4_wf, val, u64x4_val, uint. simpl value. simpl d0. simpl d1. simpl d2. simpl d3.
  change (2 ^ 256) with (2 ^ 64 * (2 ^ 64 * (2 ^ 64 * 2 ^ 64))). lia.
Qed.

Lemma val_inj (a b : t) : wf a -> wf b -> val a = val b -> a = b.
Proof.
  destruct a as [[a0 a1 a2 a3]], b as [[b0 b1 b2 b3]].
  unfold wf, u64x4_wf, val, u64x4_val, uint. simpl. intros.
  assert (a0 = b0 /\ a1 = b1 /\ a2 = b2 /\ a3 = b3) as (-> & -> & -> & ->) by lia. done.
Qed.

Lemma val_ZERO : val ZERO = 0.
Proof. done. Qed.

Lemma val_from_u64 v : val (from_u64 v) = v.
Proof. unfold val, u64x4_val. simpl. lia. Qed.

Section laws.
Context `{!Bnum, !BnumLaws}.

Lemma bn_val_from_digits (a : t) : wf a -> bn_val (bn_from_digits (value a)) = val a.
Proof. intros Ha. unfold bn_val. by rewrite bn_digits_from. Qed.

Lemma checked_add_spec (a b c : t) :
  wf a -> wf b -> checked_add a b = Some c <-> wf c /\ val c = val a + val b.
Proof.
  intros Ha Hb. unfold checked_add.
  destruct (bn_checked_add _ _) as [r|] eqn:E; simpl.
  - apply bn_add_some in E. rewrite !bn_val_from_digits in E by done. split.
    + intros [= <-]. split; [apply bn_digits_wf|done].
    + intros [Hc Hv]. f_equal. apply val_inj; [apply bn_digits_wf|done|]. by rewrite Hv, <- E.
  - apply bn_add_none in E. rewrite !bn_val_from_digits in E by done.
    split; [done|]. intros [Hc Hv]. apply val_range in Hc. lia.
Qed.

Lemma checked_sub_spec (a b c : t) :
  wf a -> wf b -> checked_sub a b = Some c <-> wf c /\ val c = val a - val b.
Proof.
  intros Ha Hb. unfold checked_sub.
  destruct (bn_checked_sub _ _) as [r|] eqn:E; simpl.
  - apply bn_sub_some in E. rewrite !bn_val_from_digits in E by done. split.
    + intros [= <-]. split; [apply bn_digits_wf|done].
    + intros [Hc Hv]. f_equal. apply val_inj; [apply bn_digits_wf|done|]. by rewrite Hv, <- E.
  - apply bn_sub_none in E. rewrite !bn_val_from_digits in E by done.
    split; [done|]. intros [Hc Hv]. apply val_range in Hc. lia.
Qed.

Lemma checked_add_none (a b : t) :
  wf a -> wf b -> checked_add a b = None <-> 2 ^ 256 <= val a + val b.
Proof.
  intros. unfold checked_add. by rewrite fmap_None, bn_add_none, !bn_val_from_digits.
Qed.

Lemma checked_sub_none (a b : t) :
  wf a -> wf b -> checked_sub a b = None <-> val a < val b.
Proof.
  intros. unfold checked_sub. by rewrite fmap_None, bn_sub_none, !bn_val_from_digits.
Qed.

Lemma cmp_spec (a b : t) : wf a -> wf b -> cmp a b = Z.compare (val a) (val b).
Proof. intros. unfold cmp. by rewrite bn_cmp_val, !bn_val_from_digits. Qed.

Lemma val_from_uint v : uint 128 v -> val (from_uint v) = v /\ wf (from_uint v).
Proof.
  intros Hv. split; [by apply (bn_from_val v)|apply bn_digits_wf].
Qed.
End laws.

(** The memory layout. *)
Lemma le_val_take_8 l : le_val (take 8 l) = le_val (take 8 l) mod 2 ^ 64.
Proof.
  pose proof (le_val_bound (take 8 l)) as H. rewrite length_take in H.
  symmetry. apply Z.mod_small. split; [lia|].
  eapply Z.lt_le_trans; [apply H|]. change (2 ^ 64) with (256 ^ 8).
  apply Z.pow_le_mono_r; lia.
Qed.

Lemma from_le_bytes_wf b : wf (from_le_bytes b).
Proof.
  unfold wf, from_le_bytes, u64x4_wf, cast_from_bytes, uint. simpl value. simpl d0. simpl d1.
  simpl d2. simpl d3.
  repeat split; rewrite le_val_take_8; apply Z.mod_pos_bound; lia.
Qed.

Lemma cast_to_bytes_length d : length (cast_to_bytes d) = 32%nat.
Proof. unfold cast_to_bytes. by rewrite !length_app, !le_bytes_length. Qed.

Lemma from_to_le_bytes (a : t) : wf a -> from_le_bytes (to_le_bytes a) = a.
Proof.
  destruct a as [[a0 a1 a2 a3]]. unfold wf, u64x4_wf, uint. simpl. intros (H0 & H1 & H2 & H3).
  unfold from_le_bytes, to_le_bytes. rewrite arr_fill_bytes by apply cast_to_bytes_length.
  assert (forall z r, 0 <= z < 2 ^ 64 -> le_val (take 8 (le_bytes 8 z ++ r)) = z) as Ht.
  { intros z r Hz. rewrite take_app_length' by (by rewrite le_bytes_length).
    rewrite le_val_bytes. by apply Z.mod_small. }
  assert (forall n z r, drop (8 + n) (le_bytes 8 z ++ r) = drop n r) as Hd.
  { intros n z r. rewrite <- drop_drop, drop_app_length' by (by rewrite le_bytes_length). done. }
  unfold cast_from_bytes, cast_to_bytes. simpl value. simpl d0. simpl d1. simpl d2. simpl d3.
  f_equal. f_equal.
  - by apply Ht.
  - rewrite (Hd 0%nat). by apply Ht.
  - rewrite (Hd 8%nat), (Hd 0%nat). by apply Ht.
  - rewrite (Hd 16%nat), (Hd 8%nat), (Hd 0%nat). rewrite <- (app_nil_r (le_bytes 8 a3)).
    by apply Ht.
Qed.

(** C39: [U256] implements the unsigned 256-bit integers: on well-formed digits the checked
    operations are exact and fail exactly on overflow and underflow, the order is the numeric
    one, and the little-endian byte image is read back to the same value. *)
Theorem u256_refines_z `{!Bnum, !BnumLaws} (a b : t) (Ha : wf a) (Hb : wf b) :
  (checked_add a b = None <-> 2 ^ 256 <= val a + val b) /\
  (forall c, checked_add a b = Some c <-> wf c /\ val c = val a + val b) /\
  (checked_sub a b = None <-> val a < val b) /\
  (forall c, checked_sub a b = Some c <-> wf c /\ val c = val a - val b) /\
  cmp a b = Z.compare (val a) (val b) /\
  from_le_bytes (to_le_bytes a) = a.
Proof.
  auto 8 using checked_add_none, checked_add_spec, checked_sub_none, checked_sub_spec,
    cmp_spec, from_to_le_bytes.
Qed.

End U256.
