(* ===== verification/StdTypes.v ===== *)
(** * Types and Merkle encoding of the standard crate

    crates/solana-axelar-std/src: pubkey.rs, hasher.rs, merkle.rs, verifier_set.rs, message.rs and
    execute_data.rs: verifier sets and messages, the leaves of their Merkle trees, the command id,
    the digest a signer signs, and the encoding of the data a relayer executes. A [String] or a
    [Vec<u8>] is the list of its bytes, and a [BTreeMap] the list of its entries in key order. *)

From stdpp Require Import base list strings sets.
From Stdlib Require Import ZArith Lia.
From S2P Require Import Prelude Errors External.

(** ** pubkey.rs *)

Definition SECP256K1_COMPRESSED_PUBKEY_LEN : nat := 33.
Definition ECDSA_RECOVERABLE_SIGNATURE_LEN : nat := 65.
Definition Secp256k1Pubkey : Set := array 33.
Definition EcdsaRecoverableSignature : Set := array 65.

(** The newtypes [PublicKey(pub Secp256k1Pubkey)] and
    [Signature(pub EcdsaRecoverableSignature)]. *)
Record PublicKey := { pk_0 : Secp256k1Pubkey }.
Record Signature := { sig_0 : EcdsaRecoverableSignature }.

#[global] Instance PublicKey_eq_dec : EqDecision PublicKey.
Proof. intros [a] [b]. unfold Secp256k1Pubkey in *. solve_decision. Defined.
#[global] Instance Signature_eq_dec : EqDecision Signature.
Proof. intros [a] [b]. unfold EcdsaRecoverableSignature in *. solve_decision. Defined.

(** ** hasher.rs *)

Section hasher.
Context `{!Keccak}.

(** [impl rs_merkle::Hasher for Hasher] *)
Definition Hasher_hash (data : bytes) : Hash32 := keccak_hash data.

Definition concat_and_hash (left : Hash32) (right : option Hash32) : Hash32 :=
  keccak_hash (Byte.x01 :: arr_bytes left ++ arr_bytes (default left right)).

Definition SolanaHasher : Hasher :=
  {| hasher_hash := Hasher_hash; hasher_concat_and_hash := concat_and_hash |}.

(** [LeafHash::hash] *)
Definition leaf_hash {T} `{!Digestable T} (self : T) : Hash32 :=
  keccak_hash (unambiguously_encode self).
End hasher.

(** ** merkle.rs *)
Module Merkle.
Definition merkle_tree `{!RsMerkle} {K} `{!Digestable K} (T : Hasher) (leaves : list K) : MerkleTree :=
  from_leaves T (map (fun item => hasher_hash T (unambiguously_encode item)) leaves).
End Merkle.

(** ** verifier_set.rs *)

Record VerifierSet := {
  vs_nonce : Z;                          (** u64 *)
  vs_signers : list (PublicKey * Z);     (** BTreeMap<PublicKey, u128> *)
  vs_quorum : Z                          (** u128 *)
}.

Record VerifierSetLeaf := {
  vl_nonce : Z;                          (** u64 *)
  vl_quorum : Z;                         (** u128 *)
  vl_signer_pubkey : PublicKey;
  vl_signer_weight : Z;                  (** u128 *)
  vl_position : Z;                       (** u16 *)
  vl_set_size : Z;                       (** u16 *)
  vl_domain_separator : array 32
}.

(** execute_data.rs *)
Inductive PayloadType := ApproveMessages | RotateSigners.

#[global] Instance PayloadType_eq_dec : EqDecision PayloadType.
Proof. solve_decision. Defined.
#[global] Instance VerifierSetLeaf_eq_dec : EqDecision VerifierSetLeaf.
Proof. solve_decision. Defined.

Record SigningVerifierSetInfo := {
  si_signature : Signature;
  si_leaf : VerifierSetLeaf;
  si_merkle_proof : bytes;
  si_payload_type : PayloadType
}.

Module VerifierSetTree.
(** The body of the closure mapped over [vs.signers.iter().enumerate()]. *)
Definition leaf_at (vs : VerifierSet) (domain_separator : array 32) (set_size : Z)
    (e : nat * (PublicKey * Z)) : Result VerifierSetLeaf :=
  position ← ok_or (try_into_uint 16 (Z.of_nat e.1)) EPanic;
  mret {| vl_nonce := vs_nonce vs; vl_quorum := vs_quorum vs;
          vl_domain_separator := domain_separator; vl_signer_pubkey := e.2.1;
          vl_signer_weight := e.2.2; vl_position := position; vl_set_size := set_size |}.

(** The iterator, collected as every caller does. *)
Definition merkle_tree_leaves (vs : VerifierSet) (domain_separator : array 32)
    : Result (list VerifierSetLeaf) :=
  set_size ← ok_or (try_into_uint 16 (Z.of_nat (length (vs_signers vs)))) (EEncoding SetSizeTooLarge);
  mapM (leaf_at vs domain_separator set_size) (imap pair (vs_signers vs)).
End VerifierSetTree.

Definition verifier_set_hash `{!RsMerkle, !Digestable VerifierSetLeaf} (T : Hasher)
    (verifier_set : VerifierSet) (domain_separator : array 32) : Result Hash32 :=
  leaves ← VerifierSetTree.merkle_tree_leaves verifier_set domain_separator;
  let tree := Merkle.merkle_tree T leaves in
  ok_or (tree_root T tree) (EEncoding CannotMerklizeEmptyVerifierSet).

(** ** message.rs *)

Record CrossChainId := { chain : bytes; id : bytes }.

Record Message := {
  cc_id : CrossChainId;
  source_address : bytes;
  destination_chain : bytes;
  destination_address : bytes;
  payload_hash : array 32
}.

#[global] Instance CrossChainId_eq_dec : EqDecision CrossChainId.
Proof. solve_decision. Defined.
#[global] Instance Message_eq_dec : EqDecision Message.
Proof. solve_decision. Defined.

Section command_id.
Context `{!Keccak}.

(** [LeafHash for Message] and [Message::command_id] *)
Definition message_hash `{!Digestable Message} (self : Message) : Hash32 := leaf_hash self.

Definition command_id (self : Message) : Hash32 :=
  keccak_hashv [chain (cc_id self); bstr "-"; id (cc_id self)].
End command_id.

(** [Messages(pub Vec<Message>)] *)
Record Messages := { messages_0 : list Message }.

Record MessageLeaf := {
  ml_message : Message;
  ml_position : Z;                       (** u16 *)
  ml_set_size : Z;                       (** u16 *)
  ml_domain_separator : array 32
}.

#[global] Instance MessageLeaf_eq_dec : EqDecision MessageLeaf.
Proof. solve_decision. Defined.

Record MerklizedMessage := { mm_leaf : MessageLeaf; mm_proof : bytes }.

Module MessageTree.
Definition leaf_at (domain_separator : array 32) (set_size : Z) (e : nat * Message)
    : Result MessageLeaf :=
  position ← ok_or (try_into_uint 16 (Z.of_nat e.1)) EPanic;
  mret {| ml_domain_separator := domain_separator; ml_position := position;
          ml_set_size := set_size; ml_message := e.2 |}.

Definition merkle_tree_leaves (messages : Messages) (domain_separator : array 32)
    : Result (list MessageLeaf) :=
  set_size ← ok_or (try_into_uint 16 (Z.of_nat (length (messages_0 messages)))) (EEncoding SetSizeTooLarge);
  mapM (leaf_at domain_separator set_size) (imap pair (messages_0 messages)).
End MessageTree.

(** ** execute_data.rs *)

Definition SOLANA_OFFCHAIN_PREFIX : bytes := Byte.xff :: bstr "solana offchain".

Inductive Payload :=
| PMessages (m : Messages)
| NewVerifierSet (vs : VerifierSet).

(** [impl From<PayloadType> for u8] *)
Definition payload_type_into_u8 (payload_type : PayloadType) : byte :=
  match payload_type with ApproveMessages => Byte.x00 | RotateSigners => Byte.x01 end.

Inductive MerklizedPayload :=
| VerifierSetRotation (new_verifier_set_merkle_root : Hash32)
| NewMessages (messages : list MerklizedMessage).

Record ExecuteData := {
  signing_verifier_set_merkle_root : Hash32;
  signing_verifier_set_leaves : list SigningVerifierSetInfo;
  ed_payload_merkle_root : Hash32;
  payload_items : MerklizedPayload
}.

Definition prefixed_message_hash_payload_type `{!Keccak} (payload_type : PayloadType)
    (message : array 32) : Hash32 :=
  keccak_hashv [SOLANA_OFFCHAIN_PREFIX; [payload_type_into_u8 payload_type]; arr_bytes message].

(** [BTreeMap::get] *)
Fixpoint btree_get {V} (k : PublicKey) (m : list (PublicKey * V)) : option V :=
  match m with
  | [] => None
  | (k', v) :: m => if bool_decide (k = k') then Some v else btree_get k m
  end.

Section execute_data.
Context `{!Keccak, !RsMerkle, !Digestable VerifierSetLeaf, !Digestable MessageLeaf}.

Definition merkle_tree {K} `{!Digestable K} (T : Hasher) (leaves : list K) : MerkleTree :=
  from_leaves T (map (fun item => hasher_hash T (unambiguously_encode item)) leaves).

Definition hash_payload_internal (T : Hasher) (payload : Payload) (domain_separator : array 32)
    : Result (Hash32 * MerklizedPayload) :=
  match payload with
  | PMessages messages =>
    leaves ← MessageTree.merkle_tree_leaves messages domain_separator;
    let messages_merkle_tree := merkle_tree T leaves in
    messages_merkle_root ← ok_or (tree_root T messages_merkle_tree)
                                 (EEncoding CannotMerklizeEmptyMessageSet);
    let messages := map (fun leaf =>
      let proof := tree_proof T messages_merkle_tree [ml_position leaf] in
      {| mm_leaf := leaf; mm_proof := proof_to_bytes proof |}) leaves in
    mret (messages_merkle_root, NewMessages messages)
  | NewVerifierSet verifier_set =>
    new_verifier_set_merkle_root ← verifier_set_hash T verifier_set domain_separator;
    mret (new_verifier_set_merkle_root, VerifierSetRotation new_verifier_set_merkle_root)
  end.

Definition hash_payload (T : Hasher) (domain_separator : array 32) (payload : Payload)
    : Result Hash32 :=
  p ← hash_payload_internal T payload domain_separator;
  mret p.1.

(** The value that [encode] writes; the capacity it reserves ([estimate_size]) has no effect
    on the bytes. *)
Definition execute_data_of (signing_verifier_set : VerifierSet)
    (signers_with_signatures : list (PublicKey * Signature)) (domain_separator : array 32)
    (payload : Payload) : Result ExecuteData :=
  let payload_type := match payload with
    | PMessages _ => ApproveMessages
    | NewVerifierSet _ => RotateSigners
    end in
  leaves ← VerifierSetTree.merkle_tree_leaves signing_verifier_set domain_separator;
  let signer_merkle_tree := merkle_tree SolanaHasher leaves in
  signing_root ← ok_or (tree_root SolanaHasher signer_merkle_tree)
                       (EEncoding CannotMerklizeEmptyVerifierSet);
  let signing_leaves := omap (fun leaf =>
    if btree_get (vl_signer_pubkey leaf) signers_with_signatures is Some signature then
      let merkle_proof := tree_proof SolanaHasher signer_merkle_tree [vl_position leaf] in
      Some {| si_signature := signature; si_leaf := leaf;
              si_merkle_proof := proof_to_bytes merkle_proof;
              si_payload_type := payload_type |}
    else None) leaves in
  p ← hash_payload_internal SolanaHasher payload domain_separator;
  mret {| signing_verifier_set_merkle_root := signing_root;
          signing_verifier_set_leaves := signing_leaves;
          ed_payload_merkle_root := p.1; payload_items := p.2 |}.

Definition encode `{!Borsh ExecuteData} (signing_verifier_set : VerifierSet)
    (signers_with_signatures : list (PublicKey * Signature)) (domain_separator : array 32)
    (payload : Payload) : Result bytes :=
  execute_data ← execute_data_of signing_verifier_set signers_with_signatures
                                 domain_separator payload;
  ok_or (borsh_serialize execute_data) (EEncoding IoError).
End execute_data.

(** ** Lemmas *)

(** A monadic map whose function succeeds on every element is a plain map. *)
Lemma result_mapM_Ok {E A B} (f : A -> result E B) (g : A -> B) l :
  (forall x, x ∈ l -> f x = Ok (g x)) -> mapM f l = Ok (map g l).
Proof.
  induction l as [|x l IH]; intros H; simpl; [done|].
  rewrite (H x) by set_solver. simpl. rewrite IH by set_solver. done.
Qed.

Lemma elem_of_imap_pair {A} (l : list A) i x : (i, x) ∈ imap pair l <-> l !! i = Some x.
Proof.
  rewrite list_elem_of_lookup. split.
  - intros [j Hj]. rewrite list_lookup_imap in Hj.
    destruct (l !! j) eqn:E; naive_solver.
  - intros H. exists i. by rewrite list_lookup_imap, H.
Qed.

Lemma imap_pair_lt {A} (l : list A) i x : (i, x) ∈ imap pair l -> (i < length l)%nat.
Proof. rewrite elem_of_imap_pair. apply lookup_lt_Some. Qed.

Lemma map_imap_pair {A B} (f : nat -> A -> B) l :
  map (fun p => f p.1 p.2) (imap pair l) = imap f l.
Proof.
  apply list_eq. intros i. rewrite list_lookup_imap, list_lookup_fmap, list_lookup_imap.
  by destruct (l !! i).
Qed.

(** The leaves of a verifier set, as a plain function of the entry's position. *)
Definition vs_leaf (vs : VerifierSet) (ds : array 32) (i : nat) (e : PublicKey * Z) : VerifierSetLeaf :=
  {| vl_nonce := vs_nonce vs; vl_quorum := vs_quorum vs; vl_domain_separator := ds;
     vl_signer_pubkey := e.1; vl_signer_weight := e.2; vl_position := Z.of_nat i;
     vl_set_size := Z.of_nat (length (vs_signers vs)) |}.

Definition msg_leaf (ms : Messages) (ds : array 32) (i : nat) (m : Message) : MessageLeaf :=
  {| ml_domain_separator := ds; ml_position := Z.of_nat i;
     ml_set_size := Z.of_nat (length (messages_0 ms)); ml_message := m |}.

Lemma try_into_uint_ok {E} w z (e : E) : uint w z -> ok_or (try_into_uint w z) e = Ok z.
Proof. intros H. apply ok_or_ok. by apply try_into_uint_some. Qed.

Lemma try_into_uint_err {E} w z (e : E) : 2 ^ w <= z -> ok_or (try_into_uint w z) e = Err e.
Proof.
  intros H. unfold try_into_uint. destruct (Z.ltb_spec z (2 ^ w)); [lia|].
  by rewrite andb_false_r.
Qed.

Lemma verifier_leaves_eq vs ds :
  VerifierSetTree.merkle_tree_leaves vs ds =
    if Z.of_nat (length (vs_signers vs)) <? 2 ^ 16
    then Ok (imap (vs_leaf vs ds) (vs_signers vs)) else Err (EEncoding SetSizeTooLarge).
Proof.
  unfold VerifierSetTree.merkle_tree_leaves.
  destruct (Z.ltb_spec (Z.of_nat (length (vs_signers vs))) (2 ^ 16)).
  - rewrite try_into_uint_ok by (unfold uint; lia). simpl.
    rewrite <- (map_imap_pair (vs_leaf vs ds)). apply result_mapM_Ok.
    intros [i e] Hin. apply imap_pair_lt in Hin. unfold VerifierSetTree.leaf_at.
    rewrite try_into_uint_ok by (unfold uint; simpl; lia). done.
  - by rewrite try_into_uint_err.
Qed.

Lemma message_leaves_eq ms ds :
  MessageTree.merkle_tree_leaves ms ds =
    if Z.of_nat (length (messages_0 ms)) <? 2 ^ 16
    then Ok (imap (msg_leaf ms ds) (messages_0 ms)) else Err (EEncoding SetSizeTooLarge).
Proof.
  unfold MessageTree.merkle_tree_leaves.
  destruct (Z.ltb_spec (Z.of_nat (length (messages_0 ms))) (2 ^ 16)).
  - rewrite try_into_uint_ok by (unfold uint; lia). simpl.
    rewrite <- (map_imap_pair (msg_leaf ms ds)). apply result_mapM_Ok.
    intros [i e] Hin. apply imap_pair_lt in Hin. unfold MessageTree.leaf_at.
    rewrite try_into_uint_ok by (unfold uint; simpl; lia). done.
  - by rewrite try_into_uint_err.
Qed.

(** *** Merkle trees *)

Section trees.
Context `{!Keccak, !RsMerkle, !RsMerkleLaws, !Digestable VerifierSetLeaf, !Digestable MessageLeaf}.

(** What a relayer shows of a leaf: the serialised proof parses and verifies against the root. *)
Definition leaf_proven {K} `{!Digestable K} (T : Hasher) (root : Hash32) (proof : bytes) (leaf : K)
    (position set_size : Z) : Prop :=
  exists p, proof_from_bytes proof = Some p /\
    proof_verify T p root [position] [hasher_hash T (unambiguously_encode leaf)] set_size = true.

Lemma tree_root_some {K} `{!Digestable K} T (l : list K) :
  l <> [] -> exists root, tree_root T (merkle_tree T l) = Some root.
Proof. destruct l as [|x l]; [done|]. intros _. apply tree_root_cons. Qed.

Lemma tree_leaf_proven {K} `{!Digestable K} T (l : list K) root (i : nat) x :
  tree_root T (merkle_tree T l) = Some root -> l !! i = Some x ->
  leaf_proven T root (proof_to_bytes (tree_proof T (merkle_tree T l) [Z.of_nat i])) x
    (Z.of_nat i) (Z.of_nat (length l)).
Proof.
  intros Hr Hx. eexists. split; [apply proof_bytes_roundtrip|].
  unfold merkle_tree in *. eapply proof_complete in Hr.
  - by rewrite length_map in Hr.
  - by rewrite list_lookup_fmap, Hx.
Qed.

(** The same tree is built by merkle.rs and execute_data.rs. *)
Lemma merkle_trees_agree {K} `{!Digestable K} T (l : list K) :
  Merkle.merkle_tree T l = merkle_tree T l.
Proof. done. Qed.

Lemma verifier_set_hash_ok T vs ds root :
  verifier_set_hash T vs ds = Ok root <->
  Z.of_nat (length (vs_signers vs)) < 2 ^ 16 /\
  tree_root T (merkle_tree T (imap (vs_leaf vs ds) (vs_signers vs))) = Some root.
Proof.
  unfold verifier_set_hash. rewrite verifier_leaves_eq.
  destruct (Z.ltb_spec (Z.of_nat (length (vs_signers vs))) (2 ^ 16)); simpl.
  - rewrite ok_or_ok. naive_solver.
  - naive_solver lia.
Qed.

(** The items of a merklised payload belong to its root. *)
Definition payload_items_proven (T : Hasher) (ds : array 32) (payload : Payload) (root : Hash32)
    (items : MerklizedPayload) : Prop :=
  match payload, items with
  | PMessages ms, NewMessages l =>
    map mm_leaf l = imap (msg_leaf ms ds) (messages_0 ms) /\
    forall m, m ∈ l -> leaf_proven T root (mm_proof m) (mm_leaf m) (ml_position (mm_leaf m))
                                    (ml_set_size (mm_leaf m))
  | NewVerifierSet vs, VerifierSetRotation r => r = root /\ verifier_set_hash T vs ds = Ok r
  | _, _ => False
  end.

Lemma hash_payload_internal_proven T payload ds root items :
  hash_payload_internal T payload ds = Ok (root, items) ->
  payload_items_proven T ds payload root items.
Proof.
  destruct payload as [ms|vs]; simpl.
  - rewrite message_leaves_eq.
    destruct (Z.ltb_spec (Z.of_nat (length (messages_0 ms))) (2 ^ 16)); simpl; [|done].
    intros H'. inv_result. simplify_eq. split.
    + rewrite map_map. simpl. apply map_id.
    + intros m. rewrite list_elem_of_fmap. intros (leaf & -> & Hin). simpl.
      apply list_elem_of_lookup in Hin as [i Hi]. pose proof Hi as Hi'.
      rewrite list_lookup_imap in Hi'. destruct (messages_0 ms !! i) as [m|] eqn:Hm; [|done].
      injection Hi' as <-. eapply tree_leaf_proven in Hi; [|done].
      by rewrite length_imap in Hi.
  - intros H'. inv_result. by simplify_eq.
Qed.

Definition payload_type_of (payload : Payload) : PayloadType :=
  match payload with PMessages _ => ApproveMessages | NewVerifierSet _ => RotateSigners end.

(** What the gateway needs of the execute data of a payload signed by a verifier set. *)
Record execute_data_valid (vs : VerifierSet) (sigs : list (PublicKey * Signature)) (ds : array 32)
    (payload : Payload) (ed : ExecuteData) : Prop := {
  edv_set_root : verifier_set_hash SolanaHasher vs ds = Ok (signing_verifier_set_merkle_root ed);
  edv_payload_root : hash_payload SolanaHasher ds payload = Ok (ed_payload_merkle_root ed);
  edv_items : payload_items_proven SolanaHasher ds payload (ed_payload_merkle_root ed) (payload_items ed);
  edv_sound info : info ∈ signing_verifier_set_leaves ed ->
    (exists i e, vs_signers vs !! i = Some e /\ si_leaf info = vs_leaf vs ds i e) /\
    btree_get (vl_signer_pubkey (si_leaf info)) sigs = Some (si_signature info) /\
    si_payload_type info = payload_type_of payload /\
    leaf_proven SolanaHasher (signing_verifier_set_merkle_root ed) (si_merkle_proof info)
      (si_leaf info) (vl_position (si_leaf info)) (vl_set_size (si_leaf info));
  edv_complete i k w s : vs_signers vs !! i = Some (k, w) -> btree_get k sigs = Some s ->
    exists info, info ∈ signing_verifier_set_leaves ed /\
      si_leaf info = vs_leaf vs ds i (k, w) /\ si_signature info = s
}.

Lemma execute_data_of_valid vs sigs ds payload ed :
  execute_data_of vs sigs ds payload = Ok ed -> execute_data_valid vs sigs ds payload ed.
Proof.
  unfold execute_data_of. rewrite verifier_leaves_eq.
  destruct (Z.ltb_spec (Z.of_nat (length (vs_signers vs))) (2 ^ 16)); simpl; [|done].
  intros H'. inv_result. destruct x0 as [root items].
  match goal with H : hash_payload_internal _ _ _ = _ |- _ =>
    pose proof (hash_payload_internal_proven _ _ _ _ _ H) as Hitems; rename H into Hp end.
  split; simpl.
  - by apply verifier_set_hash_ok.
  - unfold hash_payload. by rewrite Hp.
  - done.
  - intros info. rewrite list_elem_of_omap. intros (leaf & Hin & Hi).
    destruct (btree_get _ _) as [s|] eqn:Hs; [|done]. injection Hi as <-. simpl.
    apply list_elem_of_lookup in Hin as [i Hi]. pose proof Hi as Hi'.
    rewrite list_lookup_imap in Hi'. destruct (vs_signers vs !! i) as [e|] eqn:He; [|done].
    injection Hi' as <-. split_and!; [by exists i, e|done|by destruct payload|].
    eapply tree_leaf_proven in Hi; [|done]. by rewrite length_imap in Hi.
  - intros i k w s Hi Hs. eexists. split; [|split].
    + apply list_elem_of_omap. exists (vs_leaf vs ds i (k, w)). split.
      * apply list_elem_of_lookup. exists i. by rewrite list_lookup_imap, Hi.
      * simpl. rewrite Hs. reflexivity.
    + done.
    + done.
Qed.

(** The error of [encode], from the sizes alone. *)
Definition set_size_error (n : nat) (empty : EncodingError) : option EncodingError :=
  if (n =? 0)%nat then Some empty
  else if Z.of_nat n <? 2 ^ 16 then None else Some SetSizeTooLarge.

Definition encode_error (vs : VerifierSet) (payload : Payload) : option EncodingError :=
  match set_size_error (length (vs_signers vs)) CannotMerklizeEmptyVerifierSet with
  | Some e => Some e
  | None =>
    match payload with
    | PMessages ms => set_size_error (length (messages_0 ms)) CannotMerklizeEmptyMessageSet
    | NewVerifierSet vs' => set_size_error (length (vs_signers vs')) CannotMerklizeEmptyVerifierSet
    end
  end.

Lemma leaves_root_outcome {K} `{!Digestable K} (l : list K) (e : EncodingError) :
  (l = [] /\ ok_or (tree_root SolanaHasher (merkle_tree SolanaHasher l)) (EEncoding e) = Err (EEncoding e)) \/
  (l <> [] /\ exists r, ok_or (tree_root SolanaHasher (merkle_tree SolanaHasher l)) (EEncoding e) = Ok r).
Proof.
  destruct l as [|x l].
  - left. split; [done|]. unfold merkle_tree. simpl. by rewrite tree_root_nil.
  - right. split; [done|]. destruct (tree_root_some SolanaHasher (x :: l)) as [r Hr]; [done|].
    exists r. by rewrite Hr.
Qed.

Lemma hash_payload_internal_outcome payload ds :
  match match payload with
    | PMessages ms => set_size_error (length (messages_0 ms)) CannotMerklizeEmptyMessageSet
    | NewVerifierSet vs' => set_size_error (length (vs_signers vs')) CannotMerklizeEmptyVerifierSet
    end with
  | Some e => hash_payload_internal SolanaHasher payload ds = Err (EEncoding e)
  | None => exists p, hash_payload_internal SolanaHasher payload ds = Ok p
  end.
Proof.
  unfold set_size_error. destruct payload as [ms|vs]; simpl; [rewrite message_leaves_eq|
    unfold verifier_set_hash; rewrite verifier_leaves_eq].
  - destruct (leaves_root_outcome (imap (msg_leaf ms ds) (messages_0 ms)) CannotMerklizeEmptyMessageSet)
      as [[Hn Hr]|[Hn [r Hr]]]; destruct (messages_0 ms) as [|m l] eqn:E; try done; simpl length.
    + simpl in Hr |- *. by rewrite Hr.
    + simpl Nat.eqb. cbv iota. destruct (Z.ltb_spec (Z.of_nat (S (length l))) (2 ^ 16)); [|done].
      cbn [mbind result_bind]. rewrite Hr. by eexists.
  - change (Merkle.merkle_tree (K := VerifierSetLeaf)) with (merkle_tree (K := VerifierSetLeaf)).
    destruct (leaves_root_outcome (imap (vs_leaf vs ds) (vs_signers vs)) CannotMerklizeEmptyVerifierSet)
      as [[Hn Hr]|[Hn [r Hr]]]; destruct (vs_signers vs) as [|m l] eqn:E; try done; simpl length.
    + simpl in Hr |- *. by rewrite Hr.
    + simpl Nat.eqb. cbv iota. destruct (Z.ltb_spec (Z.of_nat (S (length l))) (2 ^ 16)); [|done].
      cbn [mbind result_bind]. rewrite Hr. by eexists.
Qed.

Lemma execute_data_of_outcome vs sigs ds payload :
  match encode_error vs payload with
  | Some e => execute_data_of vs sigs ds payload = Err (EEncoding e)
  | None => exists ed, execute_data_of vs sigs ds payload = Ok ed
  end.
Proof.
  unfold encode_error, execute_data_of, set_size_error at 1. rewrite verifier_leaves_eq.
  pose proof (hash_payload_internal_outcome payload ds) as Hp.
  destruct (leaves_root_outcome (imap (vs_leaf vs ds) (vs_signers vs)) CannotMerklizeEmptyVerifierSet)
    as [[Hn Hr]|[Hn [r Hr]]]; destruct (vs_signers vs) as [|m l] eqn:E; try done; simpl length.
  - simpl in Hr |- *. by rewrite Hr.
  - simpl Nat.eqb. cbv iota. destruct (Z.ltb_spec (Z.of_nat (S (length l))) (2 ^ 16)); [|done].
    cbn [mbind result_bind]. rewrite Hr. cbn [mbind result_bind].
    destruct (match payload with PMessages _ => _ | _ => _ end).
    + by rewrite Hp.
    + destruct Hp as [p ->]. by eexists.
Qed.

(** C35: Encoding, exactly. An empty set or batch and a set of more than 65535 entries get the
    documented error, signing set first; the positions never overflow. Every other input gives
    execute data whose two roots are the hash of the signing verifier set and the hash of the
    payload, which lists exactly the signers of the set that signed, each with its signature and
    with a proof that verifies against the set's root at the leaf's own position and size, and whose
    payload items are the payload's, each provable against the payload root; the bytes returned
    decode to it. *)
Theorem encode_exact `{!Borsh ExecuteData, !BorshLaws ExecuteData} vs sigs ds payload :
  match encode_error vs payload with
  | Some e => encode vs sigs ds payload = Err (EEncoding e)
  | None => exists ed, execute_data_valid vs sigs ds payload ed /\
      encode vs sigs ds payload = ok_or (borsh_serialize ed) (EEncoding IoError) /\
      forall out, encode vs sigs ds payload = Ok out -> borsh_deserialize out = Some (ed, [])
  end.
Proof.
  pose proof (execute_data_of_outcome vs sigs ds payload) as Ho. unfold encode.
  destruct (encode_error vs payload) as [e|]; [by rewrite Ho|]. destruct Ho as [ed Hed].
  exists ed. rewrite Hed. split_and!; [by apply execute_data_of_valid|done|].
  intros out Hout%ok_or_ok. rewrite <- (app_nil_r out). by apply borsh_roundtrip.
Qed.
End trees.

(** *** Digests *)

Section digests.
Context {keccak : Keccak} {keccak_laws : KeccakLaws}.

(** The two byte strings differ and have the same digest. *)
Definition keccak_collision (x y : bytes) : Prop := x <> y /\ keccak_hash x = keccak_hash y.

(** Equal digests of lists of slices come from equal concatenations, or these collide. *)
Lemma hashv_inj (l1 l2 : list bytes) :
  keccak_hashv l1 = keccak_hashv l2 ->
  concat l1 = concat l2 \/ keccak_collision (concat l1) (concat l2).
Proof.
  rewrite !keccak_hashv_concat. intros H.
  destruct (decide (concat l1 = concat l2)); [by left|by right].
Qed.

(** The bytes a signer's digest is computed from. *)
Definition signed_preimage (ty : PayloadType) (m : array 32) : bytes :=
  SOLANA_OFFCHAIN_PREFIX ++ payload_type_into_u8 ty :: arr_bytes m.

(** A signature is bound to its purpose: the digests signed for two payload roots are equal
    only when both the payload type and the root are, unless the two prefixed messages
    themselves are a collision of the hash function. *)
Theorem signed_digest_binds_type_and_root ty1 ty2 (m1 m2 : array 32)
    (Heq : prefixed_message_hash_payload_type ty1 m1 = prefixed_message_hash_payload_type ty2 m2) :
  (ty1 = ty2 /\ m1 = m2) \/ keccak_collision (signed_preimage ty1 m1) (signed_preimage ty2 m2).
Proof.
  apply hashv_inj in Heq. cbn [concat] in Heq. rewrite !app_nil_r in Heq.
  destruct Heq as [Heq|?]; [left|by right].
  apply app_inv_head in Heq. injection Heq as Ht Heq.
  split; [by destruct ty1, ty2|by apply arr_eq].
Qed.

Lemma split_at_separator (x y r s : bytes) (c : byte) :
  c ∉ x -> c ∉ y -> x ++ c :: r = y ++ c :: s -> x = y /\ r = s.
Proof.
  revert y. induction x as [|a x IH]; intros [|b y] Hx Hy H; simpl in *.
  - by injection H.
  - injection H as -> _. set_solver.
  - injection H as -> _. set_solver.
  - injection H as -> H. apply IH in H as [-> ->]; set_solver.
Qed.

(** The bytes a command id is computed from. *)
Definition command_id_preimage (m : Message) : bytes :=
  chain (cc_id m) ++ Byte.x2d :: id (cc_id m).

(** Without a restriction on the chain name the command id is ambiguous. *)
Lemma command_id_ambiguous (a b c sa dc da : bytes) (ph : array 32) :
  let m ch i := {| cc_id := {| chain := ch; id := i |}; source_address := sa;
                   destination_chain := dc; destination_address := da; payload_hash := ph |} in
  command_id (m (a ++ Byte.x2d :: b) c) = command_id (m a (b ++ Byte.x2d :: c)) /\
  cc_id (m (a ++ Byte.x2d :: b) c) <> cc_id (m a (b ++ Byte.x2d :: c)).
Proof.
  simpl. split.
  - unfold command_id. rewrite !keccak_hashv_concat. simpl. by rewrite <- !app_assoc.
  - intros [= H _]. apply (f_equal length) in H. rewrite length_app in H. simpl in H. lia.
Qed.

(** The command id identifies the message among the messages whose chain name has no dash:
    equal ids come from equal (chain, id) pairs, unless the two preimages themselves are a
    collision of the hash function. Without that restriction it is ambiguous: for all byte strings
    the messages (a-b, c) and (a, b-c) share it, whatever the hash function is. *)
Theorem command_id_identifies (m1 m2 : Message) (Heq : command_id m1 = command_id m2) :
  (Byte.x2d ∉ chain (cc_id m1) -> Byte.x2d ∉ chain (cc_id m2) ->
     cc_id m1 = cc_id m2 \/ keccak_collision (command_id_preimage m1) (command_id_preimage m2)) /\
  forall (a b c sa dc da : bytes) (ph : array 32),
    let m ch i := {| cc_id := {| chain := ch; id := i |}; source_address := sa;
                     destination_chain := dc; destination_address := da; payload_hash := ph |} in
    command_id (m (a ++ Byte.x2d :: b) c) = command_id (m a (b ++ Byte.x2d :: c)) /\
    cc_id (m (a ++ Byte.x2d :: b) c) <> cc_id (m a (b ++ Byte.x2d :: c)).
Proof.
  split; [intros H1 H2|intros; by apply command_id_ambiguous].
  apply hashv_inj in Heq. simpl in Heq. rewrite !app_nil_r in Heq.
  destruct Heq as [Heq|?]; [left|by right].
  apply split_at_separator in Heq as [? ?]; [|done..].
  destruct (cc_id m1), (cc_id m2); simpl in *; congruence.
Qed.

End digests.

(** *** Ranges *)

(** The values a [VerifierSet] can hold: integers in range, and the keys of a [BTreeMap] distinct. *)
Definition verifier_set_wf (vs : VerifierSet) : Prop :=
  uint 64 (vs_nonce vs) /\ uint 128 (vs_quorum vs) /\ NoDup (vs_signers vs).*1 /\
  Forall (fun e => uint 128 e.2) (vs_signers vs).

(** The values a [VerifierSetLeaf] can hold. *)
Record leaf_wf (l : VerifierSetLeaf) : Prop := {
  lwf_nonce : uint 64 (vl_nonce l);
  lwf_quorum : uint 128 (vl_quorum l);
  lwf_weight : uint 128 (vl_signer_weight l);
  lwf_position : uint 16 (vl_position l);
  lwf_set_size : uint 16 (vl_set_size l)
}.

(** The leaves of a well-formed set are well-formed. *)
Lemma vs_leaf_wf vs ds i e :
  verifier_set_wf vs -> Z.of_nat (length (vs_signers vs)) < 2 ^ 16 ->
  vs_signers vs !! i = Some e -> leaf_wf (vs_leaf vs ds i e).
Proof.
  intros (Hn & Hq & _ & Hw) Hl Hi. pose proof (lookup_lt_Some _ _ _ Hi).
  rewrite Forall_lookup in Hw. specialize (Hw _ _ Hi).
  split; simpl; auto; unfold uint; lia.
Qed.
