(* ===== verification/GatewayState.v ===== *)
(** * State of the gateway program

    programs/solana-axelar-gateway/src/state: the configuration account, the trackers of verifier
    sets, the incoming messages, the signature verification sessions with the whole signature
    check, and the addresses derived for each of them. Every account is a zero-copy structure; a
    method taking [&mut self] returns the new value of [self]. *)

From stdpp Require Import base list strings.
From Stdlib Require Import ZArith Lia.
From S2P Require Import Prelude Errors External StdInts StdTypes.

(** Seeds of a derived address, with the panic of [find_program_address]. *)
Definition find_program_address_or_panic `{!SolanaPda} (seeds : list bytes) (program_id : Pubkey)
    : Result (Pubkey * byte) :=
  ok_or (find_program_address seeds program_id) EPanic.

(** [a >= b] through the implementation of [Ord]. *)
Definition u256_ge `{!Bnum} (a b : U256.t) : bool :=
  match U256.cmp a b with Lt => false | _ => true end.

(** ** config.rs *)
Module GatewayConfig.

Record t := mk {
  current_epoch : U256.t;
  previous_verifier_set_retention : U256.t;
  minimum_rotation_delay : Z;            (** u64 *)
  last_rotation_timestamp : Z;           (** u64 *)
  operator : Pubkey;
  domain_separator : array 32;
  bump : byte;
  padding_ : array 7
}.

Definition zeroed : t :=
  mk U256.ZERO U256.ZERO 0 0 (arr_zero 32) (arr_zero 32) Byte.x00 (arr_zero 7).

Definition SEED_PREFIX : bytes := bstr "gateway".
Definition pda_seeds : list bytes := [SEED_PREFIX].

Definition try_find_pda `{!SolanaPda, !ProgramIds} : option (Pubkey * byte) :=
  find_program_address pda_seeds gateway_ID.
Definition find_pda `{!SolanaPda, !ProgramIds} : Result (Pubkey * byte) :=
  find_program_address_or_panic pda_seeds gateway_ID.

Definition assert_valid_epoch `{!Bnum} (self : t) (epoch : U256.t) : Result unit :=
  elapsed ← ok_or (U256.checked_sub (current_epoch self) epoch) (EGateway EpochCalculationOverflow);
  ensure (negb (u256_ge elapsed (previous_verifier_set_retention self))) (EGateway VerifierSetTooOld).

End GatewayConfig.

(** [InitialVerifierSet] and [InitializeConfigParams] *)
Record InitialVerifierSet := { ivs_hash : array 32; ivs_pda : Pubkey }.

Record InitializeConfigParams := {
  icp_domain_separator : array 32;
  icp_initial_verifier_set : InitialVerifierSet;
  icp_minimum_rotation_delay : Z;        (** u64 *)
  icp_operator : Pubkey;
  icp_previous_verifier_retention : U256.t
}.

(** ** verifier_set_tracker.rs *)
Module VerifierSetTracker.

Record t := mk {
  bump : byte;
  padding_ : array 7;
  epoch : U256.t;
  verifier_set_hash : array 32
}.

Definition zeroed : t := mk Byte.x00 (arr_zero 7) U256.ZERO (arr_zero 32).

Definition SEED_PREFIX : bytes := bstr "ver-set-tracker".
Definition pda_seeds (hash : array 32) : list bytes := [SEED_PREFIX; arr_bytes hash].

Definition try_find_pda `{!SolanaPda, !ProgramIds} (hash : array 32) : option (Pubkey * byte) :=
  find_program_address (pda_seeds hash) gateway_ID.
Definition find_pda `{!SolanaPda, !ProgramIds} (hash : array 32) : Result (Pubkey * byte) :=
  find_program_address_or_panic (pda_seeds hash) gateway_ID.

End VerifierSetTracker.

(** ** incoming_message.rs *)
Module MessageStatus.

(** [MessageStatus(u8)] *)
Record t := mk { status_0 : byte }.

Definition approved : t := mk Byte.x00.
Definition executed : t := mk Byte.x01.
Definition is_approved (self : t) : bool := bool_decide (status_0 self = Byte.x00).
Definition is_executed (self : t) : bool := bool_decide (status_0 self <> Byte.x00).

End MessageStatus.

Module IncomingMessage.

Record t := mk {
  bump : byte;
  signing_pda_bump : byte;
  pad_ : array 3;
  status : MessageStatus.t;
  message_hash : array 32;
  payload_hash : array 32
}.

Definition zeroed : t :=
  mk Byte.x00 Byte.x00 (arr_zero 3) (MessageStatus.mk Byte.x00) (arr_zero 32) (arr_zero 32).

Definition SEED_PREFIX : bytes := bstr "incoming message".
Definition pda_seeds (command_id : array 32) : list bytes := [SEED_PREFIX; arr_bytes command_id].

Definition try_find_pda `{!SolanaPda, !ProgramIds} (command_id : array 32) : option (Pubkey * byte) :=
  find_program_address (pda_seeds command_id) gateway_ID.
Definition find_pda `{!SolanaPda, !ProgramIds} (command_id : array 32) : Result (Pubkey * byte) :=
  find_program_address_or_panic (pda_seeds command_id) gateway_ID.

End IncomingMessage.

(** ** validate_message_signer.rs *)
Module ValidateMessageSigner.

Definition SEED_PREFIX : bytes := bstr "gtw-validate-msg".
Definition pda_seeds (command_id : array 32) : list bytes := [SEED_PREFIX; arr_bytes command_id].

Definition try_find_pda `{!SolanaPda} (command_id : array 32) (program_id : Pubkey)
    : option (Pubkey * byte) := find_program_address (pda_seeds command_id) program_id.
Definition find_pda `{!SolanaPda} (command_id : array 32) (program_id : Pubkey)
    : Result (Pubkey * byte) := find_program_address_or_panic (pda_seeds command_id) program_id.
Definition create_pda `{!SolanaPda} (command_id : array 32) (bump : byte) (program_id : Pubkey)
    : Result Pubkey :=
  ok_or (create_program_address [SEED_PREFIX; arr_bytes command_id; [bump]] program_id)
        (EGateway InvalidSigningPDABump).

End ValidateMessageSigner.

(** ** call_contract_signer.rs *)
Module CallContractSigner.

Definition SEED_PREFIX : bytes := bstr "gtw-call-contract".
Definition pda_seeds : list bytes := [SEED_PREFIX].

Definition try_find_pda `{!SolanaPda} (program_id : Pubkey) : option (Pubkey * byte) :=
  find_program_address pda_seeds program_id.
Definition find_pda `{!SolanaPda} (program_id : Pubkey) : Result (Pubkey * byte) :=
  find_program_address_or_panic pda_seeds program_id.
Definition create_pda `{!SolanaPda} (bump : byte) (program_id : Pubkey) : Result Pubkey :=
  ok_or (create_program_address [SEED_PREFIX; [bump]] program_id) (EGateway InvalidSigningPDABump).

End CallContractSigner.

(** ** verification_session.rs *)
Module SignatureVerification.

Record t := mk {
  accumulated_threshold : U128.t;
  signature_slots : array 32;
  signing_verifier_set_hash : array 32
}.

Definition default : t := mk U128.ZERO (arr_zero 32) (arr_zero 32).

Definition is_valid (self : t) : bool := bool_decide (accumulated_threshold self = U128.MAX).

End SignatureVerification.

Module Session.

(** [SignatureVerificationSessionData] *)
Record t := mk {
  signature_verification : SignatureVerification.t;
  bump : byte;
  pad_ : array 15
}.

Definition default : t := mk SignatureVerification.default Byte.x00 (arr_zero 15).

Definition SEED_PREFIX : bytes := bstr "gtw-sig-verif".
Definition pda_seeds (payload_merkle_root : array 32) (payload_type_byte : byte)
    (signing_verifier_set_hash : array 32) : list bytes :=
  [SEED_PREFIX; arr_bytes payload_merkle_root; [payload_type_byte]; arr_bytes signing_verifier_set_hash].

Definition try_find_pda `{!SolanaPda, !ProgramIds} (payload_merkle_root : array 32)
    (payload_type : PayloadType) (signing_verifier_set_hash : array 32) : option (Pubkey * byte) :=
  let payload_type_byte := payload_type_into_u8 payload_type in
  find_program_address (pda_seeds payload_merkle_root payload_type_byte signing_verifier_set_hash)
    gateway_ID.
Definition find_pda `{!SolanaPda, !ProgramIds} (payload_merkle_root : array 32)
    (payload_type : PayloadType) (signing_verifier_set_hash : array 32) : Result (Pubkey * byte) :=
  let payload_type_byte := payload_type_into_u8 payload_type in
  find_program_address_or_panic
    (pda_seeds payload_merkle_root payload_type_byte signing_verifier_set_hash) gateway_ID.

Definition new (sv : SignatureVerification.t) (b : byte) : t :=
  {| signature_verification := sv; bump := b; pad_ := pad_ default |}.

Definition is_valid (self : t) : bool := SignatureVerification.is_valid (signature_verification self).

Section session.
Context `{!Keccak, !RsMerkle, !Secp256k1, !BitVec, !Digestable VerifierSetLeaf}.

Definition verify_ecdsa_signature (pubkey : Secp256k1Pubkey) (signature : EcdsaRecoverableSignature)
    (payload_type : PayloadType) (message : array 32) : Result bool :=
  let hashed_message := prefixed_message_hash_payload_type payload_type message in
  let first_64 := arr_fill 64 (take 64 (arr_bytes signature)) in
  let recovery_id := List.nth 64 (arr_bytes signature) Byte.x00 in
  match secp256k1_recover hashed_message recovery_id first_64 with
  | None => mret false
  | Some recovered_uncompressed_pubkey =>
    pubkey ← ok_or (parse_compressed_serialize pubkey) EPanic;
    let full_pubkey := drop 1 (arr_bytes pubkey) in
    mret (bool_decide (arr_bytes recovered_uncompressed_pubkey = full_pubkey))
  end.

Definition check_slot_is_done (self : t) (signature_node : VerifierSetLeaf) : Result unit :=
  let signature_slots := SignatureVerification.signature_slots (signature_verification self) in
  let position := vl_position signature_node in
  slot ← ok_or (bits_get signature_slots position) (EGateway SlotIsOutOfBounds);
  ensure (negb slot) (EGateway SlotAlreadyVerified).

Definition set_signature_verification (self : t) (sv : SignatureVerification.t) : t :=
  mk sv (bump self) (pad_ self).

Definition mark_slot_done (self : t) (signature_node : VerifierSetLeaf) : Result t :=
  let sv := signature_verification self in
  let position := vl_position signature_node in
  slot ← ok_or (bits_get (SignatureVerification.signature_slots sv) position)
               (EGateway SlotIsOutOfBounds);
  _ ← ensure (negb slot) (EGateway SlotAlreadyVerified);
  mret (set_signature_verification self
    (SignatureVerification.mk (SignatureVerification.accumulated_threshold sv)
       (bits_set (SignatureVerification.signature_slots sv) position)
       (SignatureVerification.signing_verifier_set_hash sv))).

Definition accumulate_threshold (self : t) (signature_node : VerifierSetLeaf) : Result t :=
  let sv := signature_verification self in
  let acc := U128.saturating_add (SignatureVerification.accumulated_threshold sv)
                                 (U128.new (vl_signer_weight signature_node)) in
  let acc := if vl_quorum signature_node <=? U128.get acc then U128.MAX else acc in
  mret (set_signature_verification self
    (SignatureVerification.mk acc (SignatureVerification.signature_slots sv)
       (SignatureVerification.signing_verifier_set_hash sv))).

Definition verify_verifier_set (self : t) (expected_hash : array 32) : Result unit :=
  ensure (bool_decide (SignatureVerification.signing_verifier_set_hash (signature_verification self)
                       = expected_hash)) (EGateway InvalidDigitalSignature).

Definition process_signature (self : t) (payload_merkle_root verifier_set_merkle_root : array 32)
    (verifier_info : SigningVerifierSetInfo) : Result t :=
  let leaf := si_leaf verifier_info in
  _ ← check_slot_is_done self leaf;
  merkle_proof ← ok_or (proof_from_bytes (si_merkle_proof verifier_info)) (EGateway InvalidMerkleProof);
  let lh := leaf_hash leaf in
  _ ← ensure (proof_verify SolanaHasher merkle_proof verifier_set_merkle_root [vl_position leaf] [lh]
                (vl_set_size leaf)) (EGateway InvalidMerkleProof);
  ecdsa ← verify_ecdsa_signature (pk_0 (vl_signer_pubkey leaf)) (sig_0 (si_signature verifier_info))
            (si_payload_type verifier_info) payload_merkle_root;
  _ ← ensure ecdsa (EGateway SignatureVerificationFailed);
  self ← accumulate_threshold self leaf;
  self ← mark_slot_done self leaf;
  _ ← verify_verifier_set self verifier_set_merkle_root;
  mret self.

End session.
End Session.

(** ** Equality of accounts *)

#[global] Instance GatewayConfig_eq_dec : EqDecision GatewayConfig.t.
Proof. solve_decision. Defined.
#[global] Instance VerifierSetTracker_eq_dec : EqDecision VerifierSetTracker.t.
Proof. solve_decision. Defined.
#[global] Instance MessageStatus_eq_dec : EqDecision MessageStatus.t.
Proof. solve_decision. Defined.
#[global] Instance IncomingMessage_eq_dec : EqDecision IncomingMessage.t.
Proof. solve_decision. Defined.
#[global] Instance SignatureVerification_eq_dec : EqDecision SignatureVerification.t.
Proof. solve_decision. Defined.
#[global] Instance Session_eq_dec : EqDecision Session.t.
Proof. solve_decision. Defined.
