(* ===== verification/GatewaySession.v ===== *)
(** * Signature verification sessions

    The correctness of [SignatureVerificationSessionData::process_signature]: what one successful
    call has checked and changed, the abstract session that a sequence of calls implements (the
    set of used positions and the sum of the accepted weights), and the meaning of [is_valid]. *)

From stdpp Require Import base list sets.
From Stdlib Require Import ZArith Lia.
From S2P Require Import Prelude Errors External StdInts StdTypes GatewayState.

Section session.
Context {keccak : Keccak} {merkle : RsMerkle} {secp : Secp256k1} {bits : BitVec}
  {leaf_digest : Digestable VerifierSetLeaf}.

(** The state a session account has right after its creation. *)
Definition fresh_session (verifier_set_hash : array 32) (b : byte) : Session.t :=
  Session.new (SignatureVerification.mk U128.ZERO (arr_zero 32) verifier_set_hash) b.

(** A sequence of calls. *)
Fixpoint process_all (s : Session.t) (payload_root set_root : array 32)
    (infos : list SigningVerifierSetInfo) : Result Session.t :=
  match infos with
  | [] => mret s
  | info :: infos =>
    s ← Session.process_signature s payload_root set_root info;
    process_all s payload_root set_root infos
  end.

(** What is checked of a signer's information. *)
Record accepted (payload_root set_root : array 32) (info : SigningVerifierSetInfo) : Prop := {
  acc_leaf : leaf_proven SolanaHasher set_root (si_merkle_proof info) (si_leaf info)
               (vl_position (si_leaf info)) (vl_set_size (si_leaf info));
  acc_signed : Session.verify_ecdsa_signature (pk_0 (vl_signer_pubkey (si_leaf info)))
                 (sig_0 (si_signature info)) (si_payload_type info) payload_root = Ok true
}.

Definition slots (s : Session.t) : array 32 :=
  SignatureVerification.signature_slots (Session.signature_verification s).
Definition threshold (s : Session.t) : Z :=
  U128.get (SignatureVerification.accumulated_threshold (Session.signature_verification s)).
Definition set_hash (s : Session.t) : array 32 :=
  SignatureVerification.signing_verifier_set_hash (Session.signature_verification s).

Definition position (i : SigningVerifierSetInfo) : Z := vl_position (si_leaf i).
Definition weight (i : SigningVerifierSetInfo) : Z := vl_signer_weight (si_leaf i).

(** The threshold after a signature of weight [w] and quorum [q]. *)
Definition next_threshold (acc w q : Z) : Z :=
  let acc := Z.min (acc + w) (uint_max 128) in if q <=? acc then uint_max 128 else acc.

Lemma accumulate_ok s leaf :
  leaf_wf leaf ->
  exists s', Session.accumulate_threshold s leaf = Ok s' /\ slots s' = slots s /\
    set_hash s' = set_hash s /\ Session.bump s' = Session.bump s /\
    threshold s' = next_threshold (threshold s) (vl_signer_weight leaf) (vl_quorum leaf).
Proof.
  intros Hwf. eexists. split; [reflexivity|]. split_and!; [done..|].
  pose proof (lwf_weight _ Hwf) as Hw.
  pose proof (U128.get_uint (SignatureVerification.accumulated_threshold
    (Session.signature_verification s))) as Ha.
  set (acc := U128.saturating_add (SignatureVerification.accumulated_threshold
    (Session.signature_verification s)) (U128.new (vl_signer_weight leaf))).
  assert (U128.get acc = Z.min (threshold s + vl_signer_weight leaf) (uint_max 128)) as Hacc.
  { unfold acc, U128.saturating_add. rewrite (U128.get_new (vl_signer_weight leaf)) by done.
    apply U128.get_saturating_add_u128. unfold uint in Hw. lia. }
  change (U128.get (if vl_quorum leaf <=? U128.get acc then U128.MAX else acc) =
    next_threshold (threshold s) (vl_signer_weight leaf) (vl_quorum leaf)).
  unfold next_threshold. rewrite Hacc. destruct (_ <=? _); [apply U128.get_MAX|done].
Qed.

(** One successful call: every check held, and the three fields changed as documented. *)
Lemma process_signature_ok s pr vr info s' :
  leaf_wf (si_leaf info) -> Session.process_signature s pr vr info = Ok s' ->
  bits_get (slots s) (position info) = Some false /\ accepted pr vr info /\ set_hash s = vr /\
  slots s' = bits_set (slots s) (position info) /\ set_hash s' = set_hash s /\
  Session.bump s' = Session.bump s /\
  threshold s' = next_threshold (threshold s) (weight info) (vl_quorum (si_leaf info)).
Proof.
  intros Hwf H. unfold Session.process_signature in H.
  destruct (accumulate_ok s _ Hwf) as (s1 & Hs1 & Hslots & Hhash & Hbump & Hthr).
  rewrite Hs1 in H. inv_result.
  unfold Session.check_slot_is_done, Session.mark_slot_done, Session.verify_verifier_set in *.
  inv_result. bool_props. subst. cbn in *.
  repeat match goal with u : unit |- _ => destruct u end.
  unfold slots, set_hash, threshold, position, weight in *. cbn in *.
  rewrite <- Hslots, <- Hhash, <- Hbump. split_and!; try done.
  by split; [eexists|].
Qed.

(** A call that passes every check succeeds. *)
Lemma process_signature_complete s pr vr info :
  leaf_wf (si_leaf info) -> bits_get (slots s) (position info) = Some false ->
  accepted pr vr info -> set_hash s = vr ->
  exists s', Session.process_signature s pr vr info = Ok s'.
Proof.
  intros Hwf Hslot [(p & Hp & Hv) Hs] Hh.
  destruct (accumulate_ok s _ Hwf) as (s1 & Hs1 & Hslots & Hhash & _).
  unfold Session.process_signature, Session.check_slot_is_done.
  change (SignatureVerification.signature_slots _) with (slots s). unfold position in Hslot.
  rewrite Hslot. cbn [ok_or mbind result_bind ensure negb]. rewrite Hp.
  cbn [ok_or mbind result_bind]. unfold leaf_hash.
  change (hasher_hash SolanaHasher) with keccak_hash in Hv. rewrite Hv.
  cbn [ensure mbind result_bind]. rewrite Hs. cbn [ensure mbind result_bind].
  rewrite Hs1. cbn [mbind result_bind]. unfold Session.mark_slot_done.
  change (SignatureVerification.signature_slots (Session.signature_verification s1)) with (slots s1).
  rewrite Hslots, Hslot. cbn [ok_or mbind result_bind ensure negb mret result_ret].
  unfold Session.verify_verifier_set. cbn. fold (set_hash s1). rewrite Hhash, Hh.
  rewrite bool_decide_eq_true_2 by done. by eexists.
Qed.

(** ** The abstract session *)

(** A session account after the signatures [done] were accepted, each with quorum [q]: the used
    slots are their positions, without repetition, and the threshold is the sum of their weights,
    or the marker [u128::MAX] once a signature brought the sum to the quorum. *)
Record session_inv (q : Z) (pr vr : array 32) (done : list SigningVerifierSetInfo)
    (s : Session.t) : Prop := {
  inv_hash : set_hash s = vr;
  inv_slots i : 0 <= i < 256 -> bits_get (slots s) i = Some (bool_decide (i ∈ map position done));
  inv_nodup : NoDup (map position done);
  inv_range : Forall (fun p => 0 <= p < 256) (map position done);
  inv_accepted : Forall (accepted pr vr) done;
  inv_threshold : threshold s =
    if bool_decide (done <> []) && (q <=? sum_map weight done) then uint_max 128
    else sum_map weight done
}.

(** The leaves that may be used with quorum [q]. *)
Definition leaves_at (q : Z) (infos : list SigningVerifierSetInfo) : Prop :=
  Forall (fun i => leaf_wf (si_leaf i) /\ vl_quorum (si_leaf i) = q) infos.

Lemma next_threshold_step q done w :
  uint 128 q -> 0 <= sum_map weight done -> 0 <= w ->
  next_threshold
    (if bool_decide (done <> []) && (q <=? sum_map weight done) then uint_max 128
     else sum_map weight done) w q =
  if q <=? sum_map weight done + w then uint_max 128 else sum_map weight done + w.
Proof.
  unfold uint, uint_max, next_threshold. intros Hq Hs Hw.
  destruct (bool_decide _) eqn:Hd; simpl.
  - destruct (Z.leb_spec q (sum_map weight done)); unfold uint_max;
      repeat match goal with |- context [?a <=? ?b] => destruct (Z.leb_spec a b) end; lia.
  - apply bool_decide_eq_false in Hd. destruct done; [|by destruct Hd]. simpl in *.
    unfold uint_max.
    repeat match goal with |- context [?a <=? ?b] => destruct (Z.leb_spec a b) end; lia.
Qed.

Lemma sum_weight_nonneg q infos : leaves_at q infos -> 0 <= sum_map weight infos.
Proof.
  intros H. apply sum_map_nonneg. eapply Forall_impl; [exact H|].
  intros i [Hwf _]. pose proof (lwf_weight _ Hwf) as Hw. unfold uint, weight in *. lia.
Qed.

Lemma process_all_app s pr vr l1 l2 :
  process_all s pr vr (l1 ++ l2) = (s ← process_all s pr vr l1; process_all s pr vr l2).
Proof.
  revert s. induction l1 as [|i l1 IH]; intros s; simpl; [done|].
  destruct (Session.process_signature s pr vr i); simpl; [apply IH|done].
Qed.

(** The fields that identify a session never change. *)
Lemma process_signature_frame s pr vr info s' :
  Session.process_signature s pr vr info = Ok s' ->
  set_hash s' = set_hash s /\ Session.bump s' = Session.bump s /\ set_hash s = vr.
Proof.
  intros H. unfold Session.process_signature, Session.accumulate_threshold, Session.mark_slot_done,
    Session.verify_verifier_set in H.
  inv_result. bool_props. unfold set_hash. cbn in *. by split_and!.
Qed.

Section laws.
Context {bits_laws : BitVecLaws}.

Lemma slots_bound (a : array 32) i b : 0 <= i -> bits_get a i = Some b -> 0 <= i < 256.
Proof.
  intros Hi Hb. split; [done|]. destruct (decide (256 <= i)) as [Hge|]; [|lia].
  apply (bits_get_none 32 a) in Hge; [congruence|done].
Qed.

Lemma fresh_session_inv q pr vr b : session_inv q pr vr [] (fresh_session vr b).
Proof.
  split; try done; try constructor.
  - intros i Hi. change (slots (fresh_session vr b)) with (arr_zero 32).
    rewrite bits_get_zero by lia. by rewrite bool_decide_eq_false_2 by set_solver.
Qed.

Lemma session_inv_step q pr vr done s info s' :
  uint 128 q -> leaves_at q done -> leaves_at q [info] ->
  session_inv q pr vr done s -> Session.process_signature s pr vr info = Ok s' ->
  session_inv q pr vr (done ++ [info]) s'.
Proof.
  intros Hq Hdone Hinfo Hinv Hok. apply Forall_singleton in Hinfo as [Hwf Hqi].
  destruct (process_signature_ok _ _ _ _ _ Hwf Hok)
    as (Hfree & Hacc & Hvr & Hslots & Hhash & _ & Hthr).
  pose proof (lwf_position _ Hwf) as Hpos. unfold uint in Hpos. fold (position info) in Hpos.
  assert (0 <= position info < 256) as Hr by (eapply slots_bound; [lia|exact Hfree]).
  pose proof (inv_slots _ _ _ _ _ Hinv _ Hr) as Hs. rewrite Hfree in Hs.
  injection Hs as Hs. symmetry in Hs. apply bool_decide_eq_false in Hs.
  pose proof (lwf_weight _ Hwf) as Hw. unfold uint in Hw. fold (weight info) in Hw.
  split.
  - by rewrite Hhash.
  - intros i Hi. rewrite Hslots, map_app. simpl.
    destruct (decide (i = position info)) as [->|Hne].
    + rewrite bits_get_set_eq by lia. by rewrite bool_decide_eq_true_2 by set_solver.
    + rewrite bits_get_set_ne by lia. rewrite (inv_slots _ _ _ _ _ Hinv) by done.
      f_equal. apply bool_decide_ext. set_solver.
  - rewrite map_app. apply NoDup_app. split_and!; [by eapply inv_nodup| |apply NoDup_singleton].
    set_solver.
  - rewrite map_app. apply Forall_app. split; [by eapply inv_range|by apply Forall_singleton].
  - apply Forall_app. split; [by eapply inv_accepted|by apply Forall_singleton].
  - rewrite Hthr, (inv_threshold _ _ _ _ _ Hinv), Hqi, next_threshold_step;
      [|done|by eapply sum_weight_nonneg|lia].
    rewrite sum_map_app. simpl. rewrite Z.add_0_r.
    by rewrite bool_decide_eq_true_2 by (by destruct done).
Qed.

(** The accounts refine the abstract session along every sequence of successful calls. *)
Lemma process_all_inv q pr vr infos done s s' :
  uint 128 q -> leaves_at q (done ++ infos) ->
  session_inv q pr vr done s -> process_all s pr vr infos = Ok s' ->
  session_inv q pr vr (done ++ infos) s'.
Proof.
  intros Hq. revert done s. induction infos as [|info infos IH]; intros done s Hl Hinv Hok.
  - injection Hok as <-. by rewrite app_nil_r.
  - simpl in Hok. inv_result.
    rewrite cons_middle, app_assoc in Hl |- *.
    apply (IH (done ++ [info]) x); [done| |done].
    apply Forall_app in Hl as [Hl _]. apply Forall_app in Hl as [Hl Hi].
    by apply (session_inv_step q pr vr done s).
Qed.

Lemma session_inv_valid q pr vr done s :
  uint 128 q -> session_inv q pr vr done s ->
  Session.is_valid s = bool_decide (done <> [] /\ q <= sum_map weight done).
Proof.
  intros Hq Hinv. pose proof (inv_threshold _ _ _ _ _ Hinv) as Ht.
  unfold Session.is_valid, SignatureVerification.is_valid. apply bool_decide_ext.
  assert (SignatureVerification.accumulated_threshold (Session.signature_verification s) = U128.MAX
    <-> threshold s = uint_max 128) as ->.
  { unfold threshold. rewrite <- U128.get_MAX. split; [by intros ->|apply U128.get_inj]. }
  rewrite Ht. unfold uint, uint_max in *. destruct (bool_decide (done <> [])) eqn:Hd; simpl.
  - apply bool_decide_eq_true in Hd. destruct (Z.leb_spec q (sum_map weight done)); [done|].
    split; [lia|]. intros [_ ?]. lia.
  - apply bool_decide_eq_false in Hd. destruct done; [|by destruct Hd]. simpl.
    split; [lia|naive_solver].
Qed.

Lemma session_run_inv q pr vr b infos s :
  uint 128 q -> leaves_at q infos -> process_all (fresh_session vr b) pr vr infos = Ok s ->
  session_inv q pr vr infos s.
Proof.
  intros Hq Hl Hrun.
  apply (process_all_inv q pr vr infos [] (fresh_session vr b)); auto using fresh_session_inv.
Qed.

Lemma session_run_facts q pr vr b infos s :
  uint 128 q -> leaves_at q infos -> process_all (fresh_session vr b) pr vr infos = Ok s ->
  Session.is_valid s = bool_decide (infos <> [] /\ q <= sum_map weight infos) /\
  NoDup (map position infos) /\ Forall (fun p => 0 <= p < 256) (map position infos) /\
  Forall (accepted pr vr) infos.
Proof.
  intros Hq Hl Hrun. pose proof (session_run_inv _ _ _ _ _ _ Hq Hl Hrun) as Hinv.
  split; [by eapply session_inv_valid|]. by destruct Hinv.
Qed.

(** Meaning of a valid session. On a session created for the verifier set of root [vr], after
    any sequence of successful signature verifications whose leaves carry the quorum [q], the
    session is valid exactly when at least one signature was accepted and the accepted weights sum
    to the quorum or more (no wrap-around, no double counting: the positions are distinct), and
    every accepted signature had a Merkle proof against [vr] and an ECDSA check on the payload. *)
Theorem session_valid_iff_quorum q pr vr b infos s
    (Hq : uint 128 q) (Hleaves : leaves_at q infos)
    (Hrun : process_all (fresh_session vr b) pr vr infos = Ok s) :
  Session.is_valid s = bool_decide (infos <> [] /\ q <= sum_map weight infos) /\
  NoDup (map position infos) /\ Forall (fun p => 0 <= p < 256) (map position infos) /\
  Forall (accepted pr vr) infos.
Proof. by eapply session_run_facts. Qed.

(** The leaf of [info] is one the verifier set commits to. *)
Definition leaf_of_set (vs : VerifierSet) (ds : array 32) (info : SigningVerifierSetInfo) : Prop :=
  exists i e, vs_signers vs !! i = Some e /\ si_leaf info = vs_leaf vs ds i e.

Definition signer (i : SigningVerifierSetInfo) : PublicKey := vl_signer_pubkey (si_leaf i).

Lemma NoDup_positions_signers vs ds infos :
  NoDup (vs_signers vs).*1 -> Forall (leaf_of_set vs ds) infos ->
  NoDup (map position infos) -> NoDup (map signer infos).
Proof.
  intros Hvs Hl. induction infos as [|i infos IH]; simpl; [constructor|].
  rewrite !NoDup_cons. apply Forall_cons in Hl as [Hi Hl]. intros [Hni Hnd].
  split; [|by apply IH]. intros Hin. apply Hni.
  apply list_elem_of_fmap in Hin as (j & Hj & Hjin). apply list_elem_of_fmap. exists j.
  split; [|done]. rewrite Forall_forall in Hl. specialize (Hl j Hjin).
  destruct Hi as (n & e & Hn & He), Hl as (m & f & Hm & Hf).
  unfold signer, position in *. rewrite He, Hf in Hj |- *. simpl in *. f_equal.
  eapply NoDup_lookup; [exact Hvs| |]; rewrite list_lookup_fmap; [by rewrite Hn|by rewrite Hm, Hj].
Qed.

(** C14: A valid session proves a quorum of the verifier set. When the leaves that passed their
    Merkle check are leaves of the verifier set, as the collision resistance of the tree gives, a
    session that ends valid has a duplicate-free list of signers of the set, each with an accepted
    ECDSA signature on this payload, whose weights in the set reach the set's quorum. *)
Theorem session_valid_quorum_of_set vs ds pr vr b infos s
    (Hvs : verifier_set_wf vs) (Hsize : Z.of_nat (length (vs_signers vs)) < 2 ^ 16)
    (Hsound : Forall (fun i => accepted pr vr i -> leaf_of_set vs ds i) infos)
    (Hwf : Forall (fun i => leaf_wf (si_leaf i)) infos)
    (Hq : Forall (fun i => vl_quorum (si_leaf i) = vs_quorum vs) infos)
    (Hrun : process_all (fresh_session vr b) pr vr infos = Ok s)
    (Hvalid : Session.is_valid s = true) :
  exists ks : list (PublicKey * Z),
    NoDup ks.*1 /\ ks ⊆ vs_signers vs /\ vs_quorum vs <= sum_map snd ks /\
    forall k w, (k, w) ∈ ks -> exists i, i ∈ infos /\ signer i = k /\
      Session.verify_ecdsa_signature (pk_0 k) (sig_0 (si_signature i)) (si_payload_type i) pr = Ok true.
Proof.
  destruct (session_run_facts (vs_quorum vs) pr vr b infos s) as (Hv & Hnd & _ & Hacc);
    [apply Hvs|by apply Forall_and|done|].
  rewrite Hvalid in Hv. symmetry in Hv. apply bool_decide_eq_true in Hv as [_ Hv].
  assert (Forall (leaf_of_set vs ds) infos) as Hset.
  { rewrite Forall_forall in *. auto. }
  exists (map (fun i => (signer i, weight i)) infos).
  assert ((map (fun i => (signer i, weight i)) infos).*1 = map signer infos) as Hfst.
  { by rewrite <- list_fmap_compose. }
  split_and!.
  - rewrite Hfst. by apply (NoDup_positions_signers vs ds); [apply Hvs|..].
  - intros [k w] Hin. apply list_elem_of_fmap in Hin as (i & [= -> ->] & Hi).
    rewrite Forall_forall in Hset. destruct (Hset i Hi) as (n & [k w] & Hn & He).
    apply list_elem_of_lookup. exists n. rewrite Hn. unfold signer, weight. by rewrite He.
  - enough (sum_map snd (map (fun i => (signer i, weight i)) infos) = sum_map weight infos) by lia.
    clear. induction infos; simpl; [done|]. by f_equal.
  - intros k w Hin. apply list_elem_of_fmap in Hin as (i & [= -> ->] & Hi). exists i.
    split_and!; [done..|]. rewrite Forall_forall in Hacc. apply (Hacc i Hi).
Qed.

(** A slot is used once: after a sequence of successful verifications, a further signature is
    refused with [SlotAlreadyVerified] exactly at the positions used before and with
    [SlotIsOutOfBounds] exactly at the positions from 256 on, before anything else about it is
    examined; at every other position a signature that passes its Merkle and ECDSA checks is
    accepted. *)
Theorem session_slot_used_once q pr vr b infos s info
    (Hq : uint 128 q) (Hleaves : leaves_at q infos) (Hwf : leaf_wf (si_leaf info))
    (Hrun : process_all (fresh_session vr b) pr vr infos = Ok s) :
  (Session.check_slot_is_done s (si_leaf info) = Err (EGateway SlotAlreadyVerified)
     <-> position info ∈ map position infos) /\
  (Session.check_slot_is_done s (si_leaf info) = Err (EGateway SlotIsOutOfBounds)
     <-> 256 <= position info) /\
  (position info ∈ map position infos -> forall pr' vr',
     Session.process_signature s pr' vr' info = Err (EGateway SlotAlreadyVerified)) /\
  (256 <= position info -> forall pr' vr',
     Session.process_signature s pr' vr' info = Err (EGateway SlotIsOutOfBounds)) /\
  (position info ∉ map position infos -> position info < 256 -> accepted pr vr info ->
     exists s', Session.process_signature s pr vr info = Ok s').
Proof.
  pose proof (session_run_inv _ _ _ _ _ _ Hq Hleaves Hrun) as Hinv.
  pose proof (lwf_position _ Hwf) as Hpos. unfold uint in Hpos. fold (position info) in Hpos.
  assert (Session.check_slot_is_done s (si_leaf info) =
    if 256 <=? position info then Err (EGateway SlotIsOutOfBounds)
    else if bool_decide (position info ∈ map position infos)
         then Err (EGateway SlotAlreadyVerified) else Ok tt) as Hc.
  { unfold Session.check_slot_is_done. fold (slots s). fold (position info).
    destruct (Z.leb_spec 256 (position info)).
    - assert (bits_get (slots s) (position info) = None) as -> by (apply bits_get_none; lia). done.
    - rewrite (inv_slots _ _ _ _ _ Hinv) by lia. simpl. by case_bool_decide. }
  assert (position info ∈ map position infos -> position info < 256) as Hlt.
  { intros Hin. pose proof (inv_range _ _ _ _ _ Hinv) as Hr. rewrite Forall_forall in Hr.
    specialize (Hr _ Hin). simpl in Hr. lia. }
  assert (position info ∉ map position infos -> position info < 256 -> accepted pr vr info ->
    exists s', Session.process_signature s pr vr info = Ok s') as Hfree.
  { intros Hn ? Ha. apply process_signature_complete; [done| |done|by destruct Hinv].
    rewrite (inv_slots _ _ _ _ _ Hinv) by lia. by rewrite bool_decide_eq_false_2. }
  clear Hrun Hinv. unfold Session.process_signature in *. rewrite Hc in *.
  destruct (Z.leb_spec 256 (position info)) as [Hge|Hge];
    [|destruct (bool_decide_reflect (position info ∈ map position infos)) as [Hin|Hin]].
  - split_and!; [split; [done|intros Hin; specialize (Hlt Hin); lia]|done| |done|lia].
    intros Hin. specialize (Hlt Hin). lia.
  - split_and!; [done|split; [done|lia]|done|lia|done].
  - split_and!; [done|split; [done|lia]|done|lia|done].
Qed.
End laws.
End session.
