(* ===== verification/Payload.v ===== *)
(** * Message payloads

    programs/solana-axelar-gateway/src/payload: the payload of a message together with the accounts
    it wants, encoded with Borsh or with the Ethereum ABI behind a scheme byte. The round trips of
    both schemes, the canonicity of the first, and the errors of the decoders. A borrowed slice of
    the input is a list of bytes; the check that [decode_abi_encoding] runs in debug builds is left
    out. *)

From stdpp Require Import base list.
From Stdlib Require Import ZArith Lia.
From S2P Require Import Prelude Errors External.

(** ** accounts.rs *)

Record SolanaAccountRepr := {
  sar_pubkey : array 32;
  sar_is_signer : bool;
  sar_is_writable : bool
}.

#[global] Instance SolanaAccountRepr_eq_dec : EqDecision SolanaAccountRepr.
Proof. solve_decision. Defined.

(** [solana_program::instruction::AccountMeta] *)
Record AccountMeta := {
  meta_pubkey : Pubkey;
  meta_is_signer : bool;
  meta_is_writable : bool
}.

#[global] Instance AccountMeta_eq_dec : EqDecision AccountMeta.
Proof. solve_decision. Defined.

Definition repr_from_meta (value : AccountMeta) : SolanaAccountRepr :=
  {| sar_pubkey := meta_pubkey value; sar_is_signer := meta_is_signer value;
     sar_is_writable := meta_is_writable value |}.
Definition meta_from_repr (value : SolanaAccountRepr) : AccountMeta :=
  {| meta_pubkey := sar_pubkey value; meta_is_signer := sar_is_signer value;
     meta_is_writable := sar_is_writable value |}.

(** ** borsh.rs: the accounts *)

Definition u8_from_bool (b : bool) : Z := if b then 1 else 0.

Definition repr_serialize (self : SolanaAccountRepr) : option bytes :=
  Some (arr_bytes (sar_pubkey self) ++
    [byte_of_Z (Z.lor (u8_from_bool (sar_is_signer self)) (Z.shiftl (u8_from_bool (sar_is_writable self)) 1))]).

Definition repr_deserialize (reader : bytes) : option (SolanaAccountRepr * bytes) :=
  key ← arr_try_from 32 (take 32 reader);
  match drop 32 reader with
  | [] => None
  | flags :: rest =>
    let flags := byte_val flags in
    if 3 <? flags then None
    else
      let is_signer := Z.land flags 1 =? 1 in
      let is_writable := Z.shiftr flags 1 =? 1 in
      Some ({| sar_pubkey := key; sar_is_signer := is_signer; sar_is_writable := is_writable |}, rest)
  end.

#[global] Instance SolanaAccountRepr_borsh : Borsh SolanaAccountRepr := {|
  borsh_serialize := repr_serialize;
  borsh_deserialize := repr_deserialize
|}.

(** ** encoding.rs, mod.rs *)

Inductive EncodingScheme := Borsh_ | AbiEncoding.

#[global] Instance EncodingScheme_eq_dec : EqDecision EncodingScheme.
Proof. solve_decision. Defined.

Definition scheme_to_u8 (s : EncodingScheme) : option Z := Some match s with Borsh_ => 0 | AbiEncoding => 1 end.
Definition scheme_from_u8 (n : Z) : option EncodingScheme :=
  if n =? 0 then Some Borsh_ else if n =? 1 then Some AbiEncoding else None.

Record AxelarMessagePayload := {
  payload_without_accounts : bytes;
  payload_solana_accounts : list SolanaAccountRepr;
  payload_encoding_scheme : EncodingScheme
}.

Abbreviation GatewayResult := (result GatewayError).

Section payload.
Context {keccak : Keccak} {vecs : BorshVec} {abi : SolAbi}.

Definition payload_new {T} (into : T -> SolanaAccountRepr) (payload_without_accounts : bytes)
    (solana_accounts : list T) (encoding_scheme : EncodingScheme) : AxelarMessagePayload :=
  {| payload_without_accounts := payload_without_accounts;
     payload_solana_accounts := map into solana_accounts;
     payload_encoding_scheme := encoding_scheme |}.

Definition account_meta (self : AxelarMessagePayload) : list AccountMeta :=
  map meta_from_repr (payload_solana_accounts self).

Definition encoding_scheme_prefixed_array (self : AxelarMessagePayload) : GatewayResult bytes :=
  b ← ok_or (scheme_to_u8 (payload_encoding_scheme self)) InvalidEncodingScheme;
  mret [byte_of_Z b].

(** ** borsh.rs: the payload *)

Definition encode_borsh (self : AxelarMessagePayload) : GatewayResult bytes :=
  writer_vec ← encoding_scheme_prefixed_array self;
  p ← ok_or (borsh_bytes (payload_without_accounts self)) BorshSerializeError;
  a ← ok_or (borsh_vec (payload_solana_accounts self)) BorshSerializeError;
  mret (writer_vec ++ p ++ a).

(** [slice.get(n..)] and [slice.get(..n)] *)
Definition get_from (n : nat) (l : bytes) : option bytes := if (n <=? length l)%nat then Some (drop n l) else None.
Definition get_to (n : nat) (l : bytes) : option bytes := if (n <=? length l)%nat then Some (take n l) else None.

Definition decode_borsh (raw_payload : bytes) : GatewayResult (bytes * list SolanaAccountRepr) :=
  payload_length ← ok_or (b ← get_to 4 raw_payload; Some (Z.to_nat (le_val b))) BorshDeserializeError;
  slices ← ok_or (b ← get_from 4 raw_payload;
                  p ← get_to payload_length b;
                  a ← get_from payload_length b;
                  Some (p, a)) BorshDeserializeError;
  solana_accounts ← ok_or (borsh_vec_try_from_slice slices.2) BorshDeserializeError;
  mret (slices.1, solana_accounts).

(** ** abi.rs *)

Definition repr_fields (a : SolanaAccountRepr) : array 32 * bool * bool :=
  (sar_pubkey a, sar_is_signer a, sar_is_writable a).

Definition encode_abi_encoding (self : AxelarMessagePayload) : GatewayResult bytes :=
  writer_vec ← encoding_scheme_prefixed_array self;
  let res := abi_encode_params (payload_without_accounts self)
               (map repr_fields (payload_solana_accounts self)) in
  mret (writer_vec ++ res).

(** [U256::from_be_bytes] *)
Definition be_val (w : array 32) : Z := le_val (reverse (arr_bytes w)).

Fixpoint extract_accounts (account_words : list (array 32 * array 32 * array 32))
    : GatewayResult (list SolanaAccountRepr) :=
  match account_words with
  | [] => mret []
  | (pubkey_token, signer, writable) :: words =>
    let signer := be_val signer in
    _ ← ensure (negb (1 <? signer)) PayloadAbiError;
    let writable := be_val writable in
    _ ← ensure (negb (1 <? writable)) PayloadAbiError;
    let a := {| sar_pubkey := pubkey_token; sar_is_signer := signer =? 1; sar_is_writable := writable =? 1 |} in
    accounts ← extract_accounts words;
    mret (a :: accounts)
  end.

Definition extract_payload_slice_and_solana_accounts (data : bytes)
    : GatewayResult (bytes * list SolanaAccountRepr) :=
  decoded_sequence ← ok_or (abi_decode_sequence data) PayloadAbiError;
  accounts ← extract_accounts decoded_sequence.2;
  mret (decoded_sequence.1, accounts).

Definition decode_abi_encoding (data : bytes) : GatewayResult (bytes * list SolanaAccountRepr) :=
  extract_payload_slice_and_solana_accounts data.

(** ** encoding.rs: the dispatch *)

Definition encode (self : AxelarMessagePayload) : GatewayResult bytes :=
  match payload_encoding_scheme self with
  | Borsh_ => encode_borsh self
  | AbiEncoding => encode_abi_encoding self
  end.

Definition decode (data : bytes) : GatewayResult AxelarMessagePayload :=
  first ← ok_or (match data with [] => None | b :: d => Some (b, d) end) InvalidEncodingScheme;
  encoding_scheme ← ok_or (scheme_from_u8 (byte_val first.1)) InvalidEncodingScheme;
  parts ← match encoding_scheme with
          | Borsh_ => decode_borsh first.2
          | AbiEncoding => decode_abi_encoding first.2
          end;
  mret (payload_new (fun a => a) parts.1 parts.2 encoding_scheme).

Definition payload_hash_of (self : AxelarMessagePayload) : GatewayResult (array 32) :=
  payload ← encode self;
  mret (keccak_hash payload).
End payload.

(** ** Accounts *)

(** The two conversions are inverse. *)
Lemma meta_repr_meta l : map meta_from_repr (map repr_from_meta l) = l.
Proof. induction l as [|[] l IH]; [done|]. cbn. by rewrite IH. Qed.
Lemma repr_meta_repr l : map repr_from_meta (map meta_from_repr l) = l.
Proof. induction l as [|[] l IH]; [done|]. cbn. by rewrite IH. Qed.

Lemma flags_val s w :
  byte_val (byte_of_Z (Z.lor (u8_from_bool s) (Z.shiftl (u8_from_bool w) 1))) = u8_from_bool s + 2 * u8_from_bool w.
Proof. by destruct s, w. Qed.

#[global] Instance repr_borsh_laws : BorshLaws SolanaAccountRepr.
Proof.
  split. intros [k s w] b r [= <-]. unfold borsh_deserialize, SolanaAccountRepr_borsh, repr_deserialize.
  cbn [sar_pubkey sar_is_signer sar_is_writable]. rewrite <- app_assoc.
  rewrite take_app_length' by (by rewrite arr_len). rewrite arr_try_from_bytes. cbn [mbind option_bind].
  rewrite drop_app_length' by (by rewrite arr_len). cbn [app]. rewrite flags_val.
  by destruct s, w.
Qed.

(** The two flags are the only freedom of the flag byte. *)
Lemma repr_canonical (x : SolanaAccountRepr) s r :
  borsh_deserialize s = Some (x, r) -> exists p, borsh_serialize x = Some p /\ s = p ++ r.
Proof.
  cbn [borsh_deserialize borsh_serialize SolanaAccountRepr_borsh]. unfold repr_deserialize, repr_serialize.
  intros H. apply bind_Some in H as (k & Hk & H). apply arr_try_from_some in Hk.
  destruct (drop 32 s) as [|f rest] eqn:Hd; [done|]. destruct (Z.ltb_spec 3 (byte_val f)); [done|].
  injection H as <- <-. eexists. split; [reflexivity|]. cbn [sar_pubkey sar_is_signer sar_is_writable].
  rewrite <- (take_drop 32 s) at 1. rewrite Hd, Hk, <- app_assoc. f_equal. cbn [app]. f_equal.
  apply byte_val_inj. rewrite flags_val. pose proof (byte_val_range f) as Hr.
  assert (byte_val f = 0 \/ byte_val f = 1 \/ byte_val f = 2 \/ byte_val f = 3) as [E|[E|[E|E]]] by lia;
    rewrite E; reflexivity.
Qed.

(** ** Round trips *)

Section laws.
Context {keccak : Keccak} {vecs : BorshVec} {abi : SolAbi}.
Context {vec_laws : BorshVecLaws} {abi_laws : SolAbiLaws}.

Lemma borsh_bytes_some p b :
  borsh_bytes p = Some b <-> b = le_bytes 4 (Z.of_nat (length p)) ++ p /\ Z.of_nat (length p) < 2 ^ 32.
Proof.
  rewrite borsh_bytes_format. destruct (Z.ltb_spec (Z.of_nat (length p)) (2 ^ 32)); [naive_solver|].
  split; [done|]. intros [_ ?]. lia.
Qed.

Lemma get_to_app n (l r : bytes) : length l = n -> get_to n (l ++ r) = Some l.
Proof.
  intros <-. unfold get_to. destruct (Nat.leb_spec (length l) (length (l ++ r))) as [|Hlt];
    [by rewrite take_app_length|rewrite length_app in Hlt; lia].
Qed.
Lemma get_from_app n (l r : bytes) : length l = n -> get_from n (l ++ r) = Some r.
Proof.
  intros <-. unfold get_from. destruct (Nat.leb_spec (length l) (length (l ++ r))) as [|Hlt];
    [by rewrite drop_app_length|rewrite length_app in Hlt; lia].
Qed.

Lemma decode_encode_borsh p l pb lb :
  borsh_bytes p = Some pb -> borsh_vec l = Some lb -> decode_borsh (pb ++ lb) = Ok (p, l).
Proof.
  intros [-> Hl]%borsh_bytes_some Ha. rewrite <- app_assoc. unfold decode_borsh.
  assert (length (le_bytes 4 (Z.of_nat (length p))) = 4%nat) as H4 by apply le_bytes_length.
  rewrite get_to_app, get_from_app by done. cbn [mbind option_bind ok_or result_bind].
  rewrite le_val_bytes, Z.mod_small by (change (256 ^ Z.of_nat 4) with (2 ^ 32); lia). rewrite Nat2Z.id.
  rewrite get_to_app, get_from_app by done. cbn [mbind option_bind ok_or result_bind fst snd].
  by rewrite (borsh_vec_roundtrip _ _ Ha).
Qed.

(** ... and back. *)
Lemma decode_borsh_ok b p l :
  decode_borsh b = Ok (p, l) -> exists pb lb, borsh_bytes p = Some pb /\ borsh_vec l = Some lb /\ b = pb ++ lb.
Proof.
  unfold decode_borsh, get_to, get_from. destruct (Nat.leb_spec 4 (length b)) as [H4|]; [|done].
  cbn [mbind option_bind ok_or result_bind].
  pose proof (le_val_bound (take 4 b)) as Hv. pose proof (le_bytes_val (take 4 b)) as Hb.
  rewrite length_take, Nat.min_l in Hv, Hb by lia. change (256 ^ Z.of_nat 4) with (2 ^ 32) in Hv.
  set (n := Z.to_nat (le_val (take 4 b))).
  destruct (Nat.leb_spec n (length (drop 4 b))) as [Hn|]; [|done].
  cbn [mbind option_bind ok_or result_bind fst snd].
  destruct (borsh_vec_try_from_slice _) as [l'|] eqn:Hl; [|done]. cbn. intros [= <- <-].
  apply borsh_vec_canonical in Hl; [|apply repr_canonical].
  exists (take 4 b ++ take n (drop 4 b)), (drop n (drop 4 b)). split_and!; [|done|].
  - apply borsh_bytes_some. rewrite length_take, Nat.min_l by done. unfold n. rewrite Z2Nat.id by lia.
    split; [by rewrite Hb|lia].
  - by rewrite <- app_assoc, !take_drop.
Qed.

Lemma encode_borsh_ok self b :
  payload_encoding_scheme self = Borsh_ ->
  encode_borsh self = Ok b <-> exists p a, b = Byte.x00 :: p ++ a /\
    borsh_bytes (payload_without_accounts self) = Some p /\ borsh_vec (payload_solana_accounts self) = Some a.
Proof.
  intros Hs. unfold encode_borsh, encoding_scheme_prefixed_array. rewrite Hs.
  cbn [scheme_to_u8 ok_or mbind result_bind mret result_ret].
  destruct (borsh_bytes _) as [p|]; cbn [ok_or mbind result_bind]; [|split; [done|by intros (? & ? & _ & ? & _)]].
  destruct (borsh_vec _) as [a|]; cbn [ok_or mbind result_bind]; [|split; [done|by intros (? & ? & _ & _ & ?)]].
  change (byte_of_Z 0) with Byte.x00. split; [intros [= <-]; by exists p, a|].
  by intros (? & ? & -> & [= <-] & [= <-]).
Qed.

Lemma repr_mapM (l : list SolanaAccountRepr) : exists bs, mapM borsh_serialize l = Some bs.
Proof.
  induction l as [|a l [bs IH]]; [by exists []|]. eexists. cbn [mapM]. rewrite IH. reflexivity.
Qed.

Lemma encode_borsh_err self :
  payload_encoding_scheme self = Borsh_ ->
  encode_borsh self = Err BorshSerializeError <->
    2 ^ 32 <= Z.of_nat (length (payload_without_accounts self)) \/
    2 ^ 32 <= Z.of_nat (length (payload_solana_accounts self)).
Proof.
  intros Hs. unfold encode_borsh, encoding_scheme_prefixed_array. rewrite Hs.
  cbn [scheme_to_u8 ok_or mbind result_bind mret result_ret].
  rewrite borsh_bytes_format, borsh_vec_format.
  destruct (Z.ltb_spec (Z.of_nat (length (payload_without_accounts self))) (2 ^ 32));
    cbn [ok_or mbind result_bind]; [|split; [by left|done]].
  destruct (Z.ltb_spec (Z.of_nat (length (payload_solana_accounts self))) (2 ^ 32));
    cbn [ok_or mbind result_bind]; [|split; [by right|done]].
  destruct (repr_mapM (payload_solana_accounts self)) as [bs ->]. cbn. split; [done|lia].
Qed.

Lemma bool_word b : be_val (abi_bool b) = u8_from_bool b.
Proof. by destruct b. Qed.

Lemma extract_accounts_words l :
  extract_accounts (map (fun '(k, s, w) => (k, abi_bool s, abi_bool w)) (map repr_fields l)) = Ok l.
Proof.
  induction l as [|[k s w] l IH]; [done|]. cbn -[be_val abi_bool]. rewrite !bool_word, IH.
  by destruct s, w.
Qed.

Lemma scheme_roundtrip s z : scheme_to_u8 s = Some z -> scheme_from_u8 (byte_val (byte_of_Z z)) = Some s.
Proof. by destruct s; intros [= <-]. Qed.

(** What a payload encodes to decodes to it. *)
Lemma encode_decode self b : encode self = Ok b -> decode b = Ok self.
Proof.
  destruct self as [p l sch]. unfold encode, decode. cbn [payload_encoding_scheme]. destruct sch.
  - intros (w & a & -> & Hp & Ha)%encode_borsh_ok; [|done]. cbn [app ok_or mbind result_bind fst snd].
    change (scheme_from_u8 (byte_val Byte.x00)) with (Some Borsh_). cbn [ok_or mbind result_bind].
    rewrite (decode_encode_borsh _ _ _ _ Hp Ha). cbn. unfold payload_new. by rewrite map_id.
  - intros [= <-]. cbn [app ok_or mbind result_bind fst snd].
    rewrite (scheme_roundtrip AbiEncoding 1) by done. cbn [ok_or mbind result_bind].
    unfold decode_abi_encoding, extract_payload_slice_and_solana_accounts.
    rewrite abi_roundtrip. cbn [ok_or mbind result_bind fst snd].
    rewrite extract_accounts_words. cbn. unfold payload_new. by rewrite map_id.
Qed.

Lemma encode_inj p1 p2 b : encode p1 = Ok b -> encode p2 = Ok b -> p1 = p2.
Proof. intros H1%encode_decode H2%encode_decode. congruence. Qed.

Lemma borsh_canonical b self :
  decode b = Ok self -> payload_encoding_scheme self = Borsh_ -> encode self = Ok b.
Proof.
  intros Hd Hs.
  unfold decode in Hd. destruct b as [|x d]; [done|]. cbn [ok_or mbind result_bind fst snd] in Hd.
  destruct (scheme_from_u8 (byte_val x)) as [sch|] eqn:Hx; [|done]. cbn [ok_or mbind result_bind] in Hd.
  destruct (match sch with Borsh_ => _ | AbiEncoding => _ end) as [parts|] eqn:Hp; [|done].
  cbn in Hd. unfold payload_new in Hd. rewrite map_id in Hd. injection Hd as <-. cbn in Hs. subst sch.
  assert (x = Byte.x00) as ->.
  { apply byte_val_inj. unfold scheme_from_u8 in Hx. destruct (Z.eqb_spec (byte_val x) 0) as [->|]; [done|].
    by destruct (byte_val x =? 1). }
  destruct parts as [p l]. apply decode_borsh_ok in Hp as (pb & lb & Hp & Hl & ->).
  unfold encode, encode_borsh, encoding_scheme_prefixed_array. cbn. by rewrite Hp, Hl.
Qed.

(** C36: Payloads survive encoding. Under both schemes, whatever a payload encodes to decodes to the
    same payload; encoding never fails under the ABI, and under Borsh it fails exactly when the
    payload or the list of accounts has 2^32 entries or more, with [BorshSerializeError]. The
    Borsh encoding is unique: bytes that decode under it are the encoding of what they decode to, so
    a flag byte of an account other than the four that [serialize] writes is refused. *)
Theorem payload_roundtrip self :
  (forall b, encode self = Ok b -> decode b = Ok self) /\
  (payload_encoding_scheme self = AbiEncoding -> exists b, encode self = Ok b) /\
  (payload_encoding_scheme self = Borsh_ ->
     encode self = Err BorshSerializeError <->
     2 ^ 32 <= Z.of_nat (length (payload_without_accounts self)) \/
     2 ^ 32 <= Z.of_nat (length (payload_solana_accounts self))) /\
  (forall b, decode b = Ok self -> payload_encoding_scheme self = Borsh_ -> encode self = Ok b).
Proof.
  split; [apply encode_decode|]. rewrite assoc by apply _. split; [|by intros b; apply borsh_canonical].
  unfold encode. destruct self as [p l sch]. cbn [payload_encoding_scheme]. destruct sch; split; try done.
  - by rewrite encode_borsh_err.
  - by eexists.
Qed.
End laws.
