(* ===== verification/GovernanceState.v ===== *)
(** * State of the governance program

    programs/solana-axelar-governance/src/state: the configuration and its update, the timelock
    proposal with the hash that identifies it, the operator's marker, and their addresses. *)

From stdpp Require Import base list strings.
From Stdlib Require Import ZArith Lia.
From S2P Require Import Prelude Errors External StdTypes GatewayState.

(** ** governance_config.rs *)

(** [VALID_PROPOSAL_DELAY_RANGE], an inclusive range. *)
Definition VALID_PROPOSAL_DELAY_RANGE : Z * Z := (3600, 86400).

Record GovernanceConfigUpdate := {
  gcu_chain_hash : option (array 32);
  gcu_address_hash : option (array 32);
  gcu_minimum_proposal_eta_delay : option Z    (** u32 *)
}.

Record GovernanceConfigInit := {
  gci_chain_hash : array 32;
  gci_address_hash : array 32;
  gci_minimum_proposal_eta_delay : Z;          (** u32 *)
  gci_operator : array 32
}.

Module GovernanceConfig.

Record t := mk {
  bump : byte;
  chain_hash : array 32;
  address_hash : array 32;
  minimum_proposal_eta_delay : Z;              (** u32 *)
  operator : array 32
}.

#[global] Instance t_eq_dec : EqDecision t.
Proof. solve_decision. Defined.

Definition zeroed : t := mk Byte.x00 (arr_zero 32) (arr_zero 32) 0 (arr_zero 32).

Definition INIT_SPACE : Z := 1 + 32 + 32 + 4 + 32.

Definition SEED_PREFIX : bytes := bstr "governance".
Definition pda_seeds : list bytes := [SEED_PREFIX].

Definition try_find_pda `{!SolanaPda, !ProgramIds} : option (Pubkey * byte) :=
  find_program_address pda_seeds governance_ID.
Definition find_pda `{!SolanaPda, !ProgramIds} : Result (Pubkey * byte) :=
  find_program_address_or_panic pda_seeds governance_ID.

Definition validate_config (self : t) : Result unit :=
  ensure ((VALID_PROPOSAL_DELAY_RANGE.1 <=? minimum_proposal_eta_delay self) &&
          (minimum_proposal_eta_delay self <=? VALID_PROPOSAL_DELAY_RANGE.2))
         (EGovernance GovInvalidArgument).

(** Each field is replaced when the update carries it, then the whole is validated. *)
Definition update (self : t) (u : GovernanceConfigUpdate) : Result t :=
  let self := mk (bump self) (default (chain_hash self) (gcu_chain_hash u)) (address_hash self)
                 (minimum_proposal_eta_delay self) (operator self) in
  let self := mk (bump self) (chain_hash self) (default (address_hash self) (gcu_address_hash u))
                 (minimum_proposal_eta_delay self) (operator self) in
  let self := mk (bump self) (chain_hash self) (address_hash self)
                 (default (minimum_proposal_eta_delay self) (gcu_minimum_proposal_eta_delay u))
                 (operator self) in
  _ ← validate_config self;
  mret self.

(** The delay the program may hold. *)
Definition delay_ok (self : t) : Prop := 3600 <= minimum_proposal_eta_delay self <= 86400.

Lemma validate_config_ok self : validate_config self = Ok tt <-> delay_ok self.
Proof.
  unfold validate_config, delay_ok. simpl.
  rewrite ensure_ok, andb_true_iff, !Z.leb_le. done.
Qed.

End GovernanceConfig.

(** ** proposal.rs *)

Record SolanaAccountMetadata := {
  sam_pubkey : array 32;
  sam_is_signer : bool;
  sam_is_writable : bool
}.

#[global] Instance SolanaAccountMetadata_eq_dec : EqDecision SolanaAccountMetadata.
Proof. solve_decision. Defined.

Record ExecuteProposalCallData := {
  solana_accounts : list SolanaAccountMetadata;
  solana_native_value_receiver_account : option SolanaAccountMetadata;
  call_data : bytes
}.

Record ExecuteProposalData := {
  target_address : array 32;
  epd_call_data : ExecuteProposalCallData;
  native_value : array 32
}.

Module ExecutableProposal.

Record t := mk {
  eta : Z;                                     (** u64 *)
  bump : byte;
  managed_bump : byte
}.

#[global] Instance t_eq_dec : EqDecision t.
Proof. solve_decision. Defined.

Definition zeroed : t := mk 0 Byte.x00 Byte.x00.

Definition SEED_PREFIX : bytes := bstr "proposal".
Definition pda_seeds (proposal_hash : array 32) : list bytes := [SEED_PREFIX; arr_bytes proposal_hash].

Definition try_find_pda `{!SolanaPda, !ProgramIds} (proposal_hash : array 32) : option (Pubkey * byte) :=
  find_program_address (pda_seeds proposal_hash) governance_ID.
Definition find_pda `{!SolanaPda, !ProgramIds} (proposal_hash : array 32) : Result (Pubkey * byte) :=
  find_program_address_or_panic (pda_seeds proposal_hash) governance_ID.

Section hash.
Context `{!Keccak, !Borsh (list SolanaAccountMetadata), !Borsh (option SolanaAccountMetadata)}.

Definition calculate_hash (target : Pubkey) (cd : ExecuteProposalCallData) (value : array 32)
    : Result (array 32) :=
  sol_accounts_ser ← ok_or (borsh_serialize (solana_accounts cd)) EPanic;
  native_value_ser ← ok_or (borsh_serialize (solana_native_value_receiver_account cd)) EPanic;
  let call_data_ser := call_data cd in
  mret (keccak_hashv [arr_bytes target; sol_accounts_ser; native_value_ser; call_data_ser;
                      arr_bytes value]).

Definition hash_from_data (data : ExecuteProposalData) : Result (array 32) :=
  calculate_hash (target_address data) (epd_call_data data) (native_value data).
End hash.

End ExecutableProposal.

(** ** operator_proposal.rs *)
Module OperatorProposal.

(** [OperatorProposal {}]: the existence of the account is the approval. *)
Record t := mk {}.

#[global] Instance t_eq_dec : EqDecision t.
Proof. solve_decision. Defined.

Definition SEED_PREFIX : bytes := bstr "operator-managed-proposal".
Definition pda_seeds (proposal_hash : array 32) : list bytes := [SEED_PREFIX; arr_bytes proposal_hash].

Definition try_find_pda `{!SolanaPda, !ProgramIds} (proposal_hash : array 32) : option (Pubkey * byte) :=
  find_program_address (pda_seeds proposal_hash) governance_ID.
Definition find_pda `{!SolanaPda, !ProgramIds} (proposal_hash : array 32) : Result (Pubkey * byte) :=
  find_program_address_or_panic (pda_seeds proposal_hash) governance_ID.

End OperatorProposal.

(** ** Lemmas *)

Section hash_laws.
Context {keccak : Keccak} {keccak_laws : KeccakLaws}.
Context {accounts_codec : Borsh (list SolanaAccountMetadata)}
  {receiver_codec : Borsh (option SolanaAccountMetadata)}.
Context {accounts_laws : BorshLaws (list SolanaAccountMetadata)}
  {receiver_laws : BorshLaws (option SolanaAccountMetadata)}.

(** The bytes a proposal's hash is computed from, when the accounts can be serialised. *)
Definition proposal_preimage (d : ExecuteProposalData) : option bytes :=
  a ← borsh_serialize (solana_accounts (epd_call_data d));
  r ← borsh_serialize (solana_native_value_receiver_account (epd_call_data d));
  Some (arr_bytes (target_address d) ++ a ++ r ++ call_data (epd_call_data d) ++
        arr_bytes (native_value d)).

Lemma hash_from_data_preimage d h :
  ExecutableProposal.hash_from_data d = Ok h <->
  exists p, proposal_preimage d = Some p /\ h = keccak_hash p.
Proof.
  unfold ExecutableProposal.hash_from_data, ExecutableProposal.calculate_hash, proposal_preimage.
  destruct (borsh_serialize (solana_accounts _)) as [a|]; simpl; [|naive_solver].
  destruct (borsh_serialize (solana_native_value_receiver_account _)) as [r|]; simpl; [|naive_solver].
  rewrite keccak_hashv_concat. simpl. rewrite app_nil_r. split.
  - intros [= <-]. by eexists.
  - intros (p & [= <-] & ->). done.
Qed.

Lemma app_eq_split_tail {A} (l1 l2 k1 k2 : list A) :
  length k1 = length k2 -> l1 ++ k1 = l2 ++ k2 -> l1 = l2 /\ k1 = k2.
Proof. intros Hl H. by apply app_inj_2 in H. Qed.

Lemma proposal_preimage_inj d1 d2 p :
  proposal_preimage d1 = Some p -> proposal_preimage d2 = Some p -> d1 = d2.
Proof.
  unfold proposal_preimage. intros H1 H2.
  apply bind_Some in H1 as (a1 & Ha1 & H1). apply bind_Some in H1 as (r1 & Hr1 & H1).
  apply bind_Some in H2 as (a2 & Ha2 & H2). apply bind_Some in H2 as (r2 & Hr2 & H2).
  rewrite <- H2 in H1. injection H1 as H1. clear H2.
  apply app_eq_split in H1 as [Ht H1]; [|by rewrite !arr_len].
  pose proof (borsh_roundtrip _ _ (r1 ++ call_data (epd_call_data d1) ++ arr_bytes (native_value d1)) Ha1) as E1.
  rewrite H1, (borsh_roundtrip _ _ _ Ha2) in E1. injection E1 as Ea E1.
  pose proof (borsh_roundtrip _ _ (call_data (epd_call_data d1) ++ arr_bytes (native_value d1)) Hr1) as E2.
  rewrite <- E1, (borsh_roundtrip _ _ _ Hr2) in E2. injection E2 as Er E2.
  apply app_eq_split_tail in E2 as [Ec En]; [|by rewrite !arr_len].
  destruct d1 as [t1 [x1 y1 z1] n1], d2 as [t2 [x2 y2 z2] n2]; simpl in *.
  apply arr_eq in Ht, En. congruence.
Qed.

(** A proposal's hash commits to all of it: target, accounts with their flags, native value
    receiver, call data and native value. Two proposals with the same hash are the same proposal,
    unless the two serialised preimages themselves are a collision of the hash function. *)
Theorem proposal_hash_binds d1 d2 h
    (H1 : ExecutableProposal.hash_from_data d1 = Ok h)
    (H2 : ExecutableProposal.hash_from_data d2 = Ok h) :
  d1 = d2 \/ exists p1 p2, proposal_preimage d1 = Some p1 /\ proposal_preimage d2 = Some p2 /\
    keccak_collision p1 p2.
Proof.
  apply hash_from_data_preimage in H1 as (p1 & Hp1 & ->).
  apply hash_from_data_preimage in H2 as (p2 & Hp2 & H2).
  destruct (decide (p1 = p2)) as [->|Hne].
  - left. by eapply proposal_preimage_inj.
  - right. by exists p1, p2.
Qed.
End hash_laws.
