(* ===== verification/OperatorsState.v ===== *)
(** * State of the operators and gas service programs

    programs/solana-axelar-operators/src/state/mod.rs and
    programs/solana-axelar-gas-service/src/state/treasury.rs. *)

From stdpp Require Import base list strings.
From Stdlib Require Import ZArith.
From S2P Require Import Prelude Errors External GatewayState.

Module OperatorRegistry.

Record t := mk {
  owner : Pubkey;
  operator_count : Z;                          (** u64 *)
  bump : byte
}.

#[global] Instance t_eq_dec : EqDecision t.
Proof. solve_decision. Defined.

Definition zeroed : t := mk (arr_zero 32) 0 Byte.x00.

Definition SEED_PREFIX : bytes := bstr "operator_registry".
Definition pda_seeds : list bytes := [SEED_PREFIX].

Definition try_find_pda `{!SolanaPda, !ProgramIds} : option (Pubkey * byte) :=
  find_program_address pda_seeds operators_ID.
Definition find_pda `{!SolanaPda, !ProgramIds} : Result (Pubkey * byte) :=
  find_program_address_or_panic pda_seeds operators_ID.

End OperatorRegistry.

Module OperatorAccount.

Record t := mk { bump : byte }.

#[global] Instance t_eq_dec : EqDecision t.
Proof. solve_decision. Defined.

Definition zeroed : t := mk Byte.x00.

Definition SEED_PREFIX : bytes := bstr "operator".
Definition pda_seeds (operator : Pubkey) : list bytes := [SEED_PREFIX; arr_bytes operator].

Definition try_find_pda `{!SolanaPda, !ProgramIds} (operator : Pubkey) : option (Pubkey * byte) :=
  find_program_address (pda_seeds operator) operators_ID.
Definition find_pda `{!SolanaPda, !ProgramIds} (operator : Pubkey) : Result (Pubkey * byte) :=
  find_program_address_or_panic (pda_seeds operator) operators_ID.

End OperatorAccount.

Module Treasury.

Record t := mk { bump : byte }.

#[global] Instance t_eq_dec : EqDecision t.
Proof. solve_decision. Defined.

Definition zeroed : t := mk Byte.x00.

Definition SEED_PREFIX : bytes := bstr "gas-service".
Definition pda_seeds : list bytes := [SEED_PREFIX].

Definition try_find_pda `{!SolanaPda, !ProgramIds} : option (Pubkey * byte) :=
  find_program_address pda_seeds gas_service_ID.
Definition find_pda `{!SolanaPda, !ProgramIds} : Result (Pubkey * byte) :=
  find_program_address_or_panic pda_seeds gas_service_ID.

End Treasury.
