(* ===== verification/ItsState.v ===== *)
(** * State of the interchain token service (ITS)

    programs/solana-axelar-its/src: state (the configuration, the token managers with their flow
    slots, the roles), utils.rs (the token ids) and encoding.rs (the messages exchanged with the
    hub). A method taking [&mut self] returns the new value of [self]. *)

From stdpp Require Import base list strings.
From Stdlib Require Import ZArith Lia.
From S2P Require Import Prelude Errors External GatewayState.

(** ** lib.rs *)

Definition ITS_HUB_CHAIN_NAME : bytes := bstr "axelar".

(** [CHAIN_NAME_HASH]: one constant per network, chosen by a cargo feature. *)
Class ItsNetwork := CHAIN_NAME_HASH : array 32.

Definition INTERCHAIN_TOKEN_SEED : bytes := bstr "interchain-token".
Definition PREFIX_INTERCHAIN_TOKEN_ID : bytes := bstr "interchain-token-id".
Definition PREFIX_INTERCHAIN_TOKEN_SALT : bytes := bstr "interchain-token-salt".
Definition PREFIX_CANONICAL_TOKEN_SALT : bytes := bstr "canonical-token-salt".
Definition PREFIX_CUSTOM_TOKEN_SALT : bytes := bstr "solana-custom-token-salt".
Definition ITS_TOKEN_AUTHORITY_SEED : bytes := bstr "axelar-its-token-authority".

(** ** state/its.rs *)
Module InterchainTokenService.

Record t := mk {
  its_hub_address : bytes;
  chain_name : bytes;
  paused : bool;
  trusted_chains : list bytes;
  bump : byte
}.

#[global] Instance t_eq_dec : EqDecision t.
Proof. solve_decision. Defined.

(** A newly created account, before the handler writes it. *)
Definition zeroed : t := mk [] [] false [] Byte.x00.

Definition SEED_PREFIX : bytes := bstr "interchain-token-service".
Definition pda_seeds : list bytes := [SEED_PREFIX].

Definition try_find_pda `{!SolanaPda, !ProgramIds} : option (Pubkey * byte) :=
  find_program_address pda_seeds its_ID.
Definition find_pda `{!SolanaPda, !ProgramIds} : Result (Pubkey * byte) :=
  find_program_address_or_panic pda_seeds its_ID.

Definition len (s : bytes) : Z := Z.of_nat (length s).

(** The account discriminator has 8 bytes. *)
Definition space_for (hub_addr_len chain_name_len trusted_chains_total_len : Z) : Z :=
  8 + 4 + hub_addr_len + 4 + chain_name_len + 1 + 4 + trusted_chains_total_len + 1.

Definition space (self : t) : Z :=
  space_for (len (its_hub_address self)) (len (chain_name self))
    (sum_map (fun chain => 4 + len chain) (trusted_chains self)).

Definition space_with_chain_added (self : t) (chain_name : bytes) : Z := space self + 4 + len chain_name.
Definition space_with_chain_removed (self : t) (chain_name : bytes) : Z :=
  saturating_sub (space self) (4 + len chain_name).

Definition new (bump : byte) (chain_name its_hub_address : bytes) : t :=
  mk its_hub_address chain_name false [] bump.

Definition set_paused (self : t) (paused : bool) : t :=
  mk (its_hub_address self) (chain_name self) paused (trusted_chains self) (bump self).
Definition set_trusted_chains (self : t) (chains : list bytes) : t :=
  mk (its_hub_address self) (chain_name self) (paused self) chains (bump self).

Definition pause (self : t) : t := set_paused self true.
Definition unpause (self : t) : t := set_paused self false.

Definition is_trusted_chain (self : t) (chain_name : bytes) : bool :=
  existsb (fun chain => bool_decide (chain = chain_name)) (trusted_chains self).

Definition add_trusted_chain (self : t) (chain_name : bytes) : t :=
  if negb (bool_decide (chain_name ∈ trusted_chains self)) &&
     bool_decide (chain_name <> ITS_HUB_CHAIN_NAME)
  then set_trusted_chains self (trusted_chains self ++ [chain_name])
  else self.

(** [retain] *)
Definition remove_trusted_chain (self : t) (chain_name : bytes) : t :=
  set_trusted_chains self (filter (fun chain => chain <> chain_name) (trusted_chains self)).

Lemma is_trusted_chain_spec self c : is_trusted_chain self c = true <-> c ∈ trusted_chains self.
Proof.
  unfold is_trusted_chain. rewrite existsb_exists. split.
  - intros (x & Hx & Hb). apply bool_decide_eq_true in Hb as ->. by apply list_elem_of_In.
  - intros H. exists c. rewrite bool_decide_eq_true. split; [by apply list_elem_of_In|done].
Qed.

End InterchainTokenService.

(** ** state/flow_state.rs *)

(** [EPOCH_TIME.as_secs()] *)
Definition EPOCH_TIME : Z := 6 * 60 * 60.

Inductive FlowDirection := FlowIn | FlowOut.

#[global] Instance FlowDirection_eq_dec : EqDecision FlowDirection.
Proof. solve_decision. Defined.

Module FlowState.

Record t := mk {
  flow_limit : option Z;                       (** u64 *)
  flow_in : Z;                                 (** u64 *)
  flow_out : Z;                                (** u64 *)
  epoch : Z                                    (** u64 *)
}.

#[global] Instance t_eq_dec : EqDecision t.
Proof. solve_decision. Defined.

Definition new (flow_limit : option Z) (epoch : Z) : t := mk flow_limit 0 0 epoch.

Definition set_flow_limit (self : t) (flow_limit : option Z) : t :=
  mk flow_limit (flow_in self) (flow_out self) (epoch self).

(** The new value of [to_add]. *)
Definition update_flow (flow_limit to_add to_compare amount : Z) : Result Z :=
  _ ← ensure (negb (flow_limit <? amount)) (EIts FlowLimitExceeded);
  new_flow ← ok_or (checked_add 64 to_add amount) (EIts ItsArithmeticOverflow);
  let net_flow := Z.abs (new_flow - to_compare) in
  _ ← ensure (negb (flow_limit <? net_flow)) (EIts FlowLimitExceeded);
  mret new_flow.

Definition add_flow (self : t) (amount : Z) (direction : FlowDirection) : Result t :=
  match flow_limit self with
  | None => mret self
  | Some limit =>
    match direction with
    | FlowIn => v ← update_flow limit (flow_in self) (flow_out self) amount;
                mret (mk (flow_limit self) v (flow_out self) (epoch self))
    | FlowOut => v ← update_flow limit (flow_out self) (flow_in self) amount;
                 mret (mk (flow_limit self) (flow_in self) v (epoch self))
    end
  end.

(** The reset of [track_token_flow] when the epoch changes. *)
Definition reset_for_epoch (self : t) (current_epoch : Z) : t :=
  if epoch self =? current_epoch then self else mk (flow_limit self) 0 0 current_epoch.

End FlowState.

Definition flow_epoch_with_timestamp (timestamp : Z) : Result Z :=
  unix_timestamp ← ok_or (try_into_uint 64 timestamp) (EIts ItsArithmeticOverflow);
  ok_or (if EPOCH_TIME =? 0 then None else Some (unix_timestamp / EPOCH_TIME)) (EIts ItsArithmeticOverflow).

(** ** state/token_manager.rs *)

(** The enum [Type]. *)
Inductive TokenManagerType :=
| NativeInterchainToken
| MintBurnFrom
| LockUnlock
| LockUnlockFee
| MintBurn.

#[global] Instance TokenManagerType_eq_dec : EqDecision TokenManagerType.
Proof. solve_decision. Defined.

(** [impl TryFrom<u8> for Type] and [impl From<Type> for u8] *)
Definition type_try_from_u8 (value : Z) : result ProgramError TokenManagerType :=
  if value =? 0 then Ok NativeInterchainToken
  else if value =? 1 then Ok MintBurnFrom
  else if value =? 2 then Ok LockUnlock
  else if value =? 3 then Ok LockUnlockFee
  else if value =? 4 then Ok MintBurn
  else Err PE_InvalidInstructionData.

Definition type_into_u8 (ty : TokenManagerType) : Z :=
  match ty with
  | NativeInterchainToken => 0
  | MintBurnFrom => 1
  | LockUnlock => 2
  | LockUnlockFee => 3
  | MintBurn => 4
  end.

(** [impl From<Type> for [u8; 32]] *)
Definition type_into_word (ty : TokenManagerType) : array 32 :=
  arr_fill 32 [byte_of_Z (type_into_u8 ty)].

Module TokenManager.

Record t := mk {
  ty : TokenManagerType;
  token_id : array 32;
  token_address : Pubkey;
  associated_token_account : Pubkey;
  flow_slot : FlowState.t;
  bump : byte
}.

#[global] Instance t_eq_dec : EqDecision t.
Proof. solve_decision. Defined.

Definition zeroed : t :=
  mk NativeInterchainToken (arr_zero 32) (arr_zero 32) (arr_zero 32) (FlowState.mk None 0 0 0) Byte.x00.

Definition INIT_SPACE : Z := 1 + 32 + 32 + 32 + (9 + 8 + 8 + 8) + 1.

Definition SEED_PREFIX : bytes := bstr "token-manager".
Definition pda_seeds (token_id : array 32) (its_root_pda : Pubkey) : list bytes :=
  [SEED_PREFIX; arr_bytes its_root_pda; arr_bytes token_id].

(** The seeds of the mint of an interchain token. *)
Definition mint_seeds (token_id : array 32) (its_root_pda : Pubkey) : list bytes :=
  [INTERCHAIN_TOKEN_SEED; arr_bytes its_root_pda; arr_bytes token_id].

Section pda.
Context {pda : SolanaPda} {ids : ProgramIds}.

Definition try_find_pda (token_id : array 32) (its_root_pda : Pubkey) : option (Pubkey * byte) :=
  find_program_address (pda_seeds token_id its_root_pda) its_ID.
Definition find_pda (token_id : array 32) (its_root_pda : Pubkey) : Result (Pubkey * byte) :=
  find_program_address_or_panic (pda_seeds token_id its_root_pda) its_ID.
Definition try_find_token_mint (token_id : array 32) (its_root_pda : Pubkey) : option (Pubkey * byte) :=
  find_program_address (mint_seeds token_id its_root_pda) its_ID.
Definition find_token_mint (token_id : array 32) (its_root_pda : Pubkey) : Result (Pubkey * byte) :=
  find_program_address_or_panic (mint_seeds token_id its_root_pda) its_ID.
End pda.

Definition init_account (token_manager_type : TokenManagerType) (token_id : array 32)
    (token_address associated_token_account : Pubkey) (bump : byte) : t :=
  mk token_manager_type token_id token_address associated_token_account (FlowState.new None 0) bump.

Definition set_flow_slot (self : t) (slot : FlowState.t) : t :=
  mk (ty self) (token_id self) (token_address self) (associated_token_account self) slot (bump self).

End TokenManager.

(** ** state/user_roles.rs *)

Definition ROLE_MINTER : Z := 1.
Definition ROLE_OPERATOR : Z := 2.
Definition ROLE_FLOW_LIMITER : Z := 4.
Definition ROLE_EMPTY : Z := 0.

Module UserRoles.

Record t := mk { roles : Z (** u8 *); bump : byte }.

#[global] Instance t_eq_dec : EqDecision t.
Proof. solve_decision. Defined.

Definition zeroed : t := mk 0 Byte.x00.

Definition INIT_SPACE : Z := 1 + 1.

Definition SEED_PREFIX : bytes := bstr "user-roles".
Definition pda_seeds (resource user : Pubkey) : list bytes :=
  [SEED_PREFIX; arr_bytes resource; arr_bytes user].

Definition try_find_pda `{!SolanaPda, !ProgramIds} (resource user : Pubkey) : option (Pubkey * byte) :=
  find_program_address (pda_seeds resource user) its_ID.
Definition find_pda `{!SolanaPda, !ProgramIds} (resource user : Pubkey) : Result (Pubkey * byte) :=
  find_program_address_or_panic [SEED_PREFIX; arr_bytes resource; arr_bytes user] its_ID.

Definition has_minter_role (self : t) : bool := Z.land (roles self) ROLE_MINTER =? ROLE_MINTER.
Definition has_operator_role (self : t) : bool := Z.land (roles self) ROLE_OPERATOR =? ROLE_OPERATOR.
Definition has_flow_limiter_role (self : t) : bool :=
  Z.land (roles self) ROLE_FLOW_LIMITER =? ROLE_FLOW_LIMITER.
Definition has_roles (self : t) : bool := negb (roles self =? ROLE_EMPTY).
Definition contains (self : t) (roles_ : Z) : bool := Z.land (roles self) roles_ =? roles_.
Definition insert (self : t) (new_roles : Z) : t := mk (Z.lor (roles self) new_roles) (bump self).
(** [!roles] of a u8 *)
Definition remove (self : t) (roles_ : Z) : t := mk (Z.land (roles self) (Z.lxor 255 roles_)) (bump self).

Definition set_bump (self : t) (b : byte) : t := mk (roles self) b.

End UserRoles.

(** ** state/interchain_transfer_execute.rs *)
Module InterchainTransferExecute.

Definition SEED_PREFIX : bytes := bstr "interchain-transfer-execute".
Definition pda_seeds (destination_program : Pubkey) : list bytes :=
  [SEED_PREFIX; arr_bytes destination_program].

Definition try_find_pda `{!SolanaPda, !ProgramIds} (destination_program : Pubkey) : option (Pubkey * byte) :=
  find_program_address (pda_seeds destination_program) its_ID.
Definition find_pda `{!SolanaPda, !ProgramIds} (destination_program : Pubkey) : Result (Pubkey * byte) :=
  find_program_address_or_panic (pda_seeds destination_program) its_ID.

End InterchainTransferExecute.

(** ** utils.rs *)

Section utils.
Context {keccak : Keccak} {network : ItsNetwork}.

Definition interchain_token_deployer_salt (deployer : Pubkey) (salt : array 32) : array 32 :=
  keccak_hashv [PREFIX_INTERCHAIN_TOKEN_SALT; arr_bytes CHAIN_NAME_HASH; arr_bytes deployer; arr_bytes salt].

Definition interchain_token_id_internal (salt : array 32) : array 32 :=
  keccak_hashv [PREFIX_INTERCHAIN_TOKEN_ID; arr_bytes salt].

Definition interchain_token_id (deployer : Pubkey) (salt : array 32) : array 32 :=
  let deploy_salt := interchain_token_deployer_salt deployer salt in
  interchain_token_id_internal deploy_salt.

Definition canonical_interchain_token_deploy_salt (mint : Pubkey) : array 32 :=
  keccak_hashv [PREFIX_CANONICAL_TOKEN_SALT; arr_bytes CHAIN_NAME_HASH; arr_bytes mint].

Definition canonical_interchain_token_id (mint : Pubkey) : array 32 :=
  let salt := canonical_interchain_token_deploy_salt mint in
  interchain_token_id_internal salt.

Definition linked_token_deployer_salt (deployer : Pubkey) (salt : array 32) : array 32 :=
  keccak_hashv [PREFIX_CUSTOM_TOKEN_SALT; arr_bytes CHAIN_NAME_HASH; arr_bytes deployer; arr_bytes salt].
End utils.

(** [str::is_char_boundary] on the UTF-8 bytes: the ends, and any byte that is not a continuation. *)
Definition is_char_boundary (s : bytes) (i : nat) : bool :=
  match i with
  | O => true
  | S _ => match s !! i with
           | Some b => negb (Z.land (byte_val b) 192 =? 128)
           | None => (i =? length s)%nat
           end
  end.

(** [while !s.is_char_boundary(cut) { cut -= 1 }]; 0 is a boundary, so [cut] never underflows. *)
Fixpoint boundary_at_or_below (s : bytes) (cut : nat) : nat :=
  if is_char_boundary s cut then cut
  else match cut with O => O | S cut => boundary_at_or_below s cut end.

Definition truncate_utf8 (s : bytes) (max_bytes : nat) : bytes :=
  if (length s <=? max_bytes)%nat then s
  else take (boundary_at_or_below s max_bytes) s.

(** ** encoding.rs *)
Module encoding.

Record InterchainTransfer := {
  it_token_id : array 32;
  it_source_address : bytes;
  it_destination_address : bytes;
  it_amount : Z;                               (** u64 *)
  it_data : option bytes
}.

Record DeployInterchainToken := {
  di_token_id : array 32;
  di_name : bytes;
  di_symbol : bytes;
  di_decimals : Z;                             (** u8 *)
  di_minter : option bytes
}.

Record LinkToken := {
  lt_token_id : array 32;
  lt_token_manager_type : Z;                   (** u8 *)
  lt_source_token_address : bytes;
  lt_destination_token_address : bytes;
  lt_params : option bytes
}.

Record RegisterTokenMetadata := {
  rt_decimals : Z;                             (** u8 *)
  rt_token_address : bytes
}.

Inductive Message :=
| MInterchainTransfer (m : InterchainTransfer)
| MDeployInterchainToken (m : DeployInterchainToken)
| MLinkToken (m : LinkToken).

Inductive HubMessage :=
| SendToHub (destination_chain : bytes) (message : Message)
| ReceiveFromHub (source_chain : bytes) (message : Message)
| HRegisterTokenMetadata (m : RegisterTokenMetadata).

End encoding.
