(* ===== verification/ItsText.v ===== *)
(** * ITS: truncation of names

    [truncate_utf8] of utils.rs cuts the name and the symbol of a token to the sizes that the metadata
    program accepts, with a loop that looks for the start of a character. The bytes of a [String] are
    valid UTF-8; the loop ends, and what it leaves is valid UTF-8 again. *)

From stdpp Require Import base list relations.
From Stdlib Require Import ZArith Lia.
From S2P Require Import Prelude Utf8Text ItsState.

(** ** Characters and boundaries *)

Lemma valid_char c s : utf8_char c -> valid_utf8 (c ++ s) <-> valid_utf8 s.
Proof.
  intros Hc. rewrite !valid_utf8_chars. split; intros (cs & Hcs & E).
  - destruct cs as [|d cs].
    + apply app_nil in E as [-> _]. by apply utf8_first in Hc as (? & ? & ? & _).
    + apply Forall_cons in Hcs as [Hd Hcs]. cbn in E. pose proof (utf8_prefix_free _ _ _ _ Hc Hd E) as ->.
      apply app_inv_head in E as ->. by exists cs.
  - exists (c :: cs). split; [by constructor|]. by rewrite E.
Qed.

(** A boundary is where no continuation is. *)
Lemma continuation_bits b : (Z.land (byte_val b) 192 =? 128) = continuation b.
Proof. by destruct b. Qed.

(** Where a character starts there is no continuation. *)
Lemma start_boundary cs : Forall utf8_char cs ->
  match concat cs !! 0%nat with Some b => negb (continuation b) | None => (0 =? length (concat cs))%nat end = true.
Proof.
  intros H. destruct cs as [|c cs]; [done|]. apply Forall_cons in H as [(b & rest & -> & Hb & _)%utf8_first _]. cbn.
  by rewrite Hb.
Qed.

Lemma boundary_after c cs i :
  utf8_char c -> Forall utf8_char cs -> (length c <= i)%nat ->
  is_char_boundary (c ++ concat cs) i = is_char_boundary (concat cs) (i - length c).
Proof.
  intros (b & rest & -> & _)%utf8_first Hcs Hi. cbn in Hi. destruct i as [|i]; [lia|].
  pose proof (start_boundary cs Hcs) as H0. unfold is_char_boundary at 1.
  rewrite lookup_app_r by done. cbn [length app]. cbn [Nat.sub] in *.
  destruct (i - length rest)%nat as [|j] eqn:E.
  - cbn [is_char_boundary]. rewrite <- H0. destruct (concat cs !! 0%nat); [by rewrite continuation_bits|]. rewrite length_app.
    destruct (Nat.eqb_spec 0 (length (concat cs))); [apply Nat.eqb_eq|apply Nat.eqb_neq]; lia.
  - cbn [is_char_boundary]. destruct (concat cs !! S j); [done|]. rewrite length_app.
    destruct (Nat.eqb_spec (S j) (length (concat cs))); [apply Nat.eqb_eq|apply Nat.eqb_neq]; lia.
Qed.

Lemma boundary_inside c s i : utf8_char c -> (0 < i < length c)%nat -> is_char_boundary (c ++ s) i = false.
Proof.
  intros (b & rest & -> & _ & _ & Hr)%utf8_first [H0 Hi]. destruct i as [|i]; [lia|]. cbn in Hi.
  unfold is_char_boundary. rewrite lookup_app_l by (cbn; lia).
  destruct (lookup_lt_is_Some_2 rest i) as [x Hx]; [lia|]. change ((b :: rest) !! S i) with (rest !! i). rewrite Hx.
  pose proof (Forall_lookup_1 _ _ _ _ Hr Hx) as Hb. by rewrite continuation_bits, Hb.
Qed.

(** The boundaries are where a prefix is valid. *)
Lemma boundary_valid cs i : Forall utf8_char cs -> (i <= length (concat cs))%nat ->
  is_char_boundary (concat cs) i = true <-> valid_utf8 (take i (concat cs)).
Proof.
  revert i. induction cs as [|c cs IH]; intros i Hcs Hi; cbn [concat] in *.
  { cbn in Hi. replace i with 0%nat by lia. split; [|done]. intros _. by exists []. }
  apply Forall_cons in Hcs as [Hc Hcs]. rewrite length_app in Hi.
  destruct (decide (length c <= i)%nat) as [Hge|Hlt].
  - rewrite boundary_after by done. rewrite (take_app_ge c) by done. rewrite (valid_char c) by done. apply IH; [done|lia].
  - destruct i as [|i]; [split; [|done]; intros _; by exists []|]. rewrite boundary_inside by (done || lia).
    split; [done|]. rewrite take_app_le by lia. intros ([|d ds] & Hds & E)%valid_utf8_chars; exfalso.
    + apply utf8_first in Hc as (? & ? & -> & _). done.
    + apply Forall_cons in Hds as [Hd _]. cbn in E.
      assert (c = d) as ->.
      { apply (utf8_prefix_free c d [] (concat ds ++ drop (S i) c)); [done..|].
        rewrite app_nil_r, app_assoc, <- E. by rewrite take_drop. }
      apply (f_equal length) in E. rewrite length_app, length_take in E. lia.
Qed.

(** A boundary is never far. *)
Lemma boundary_near cs i : Forall utf8_char cs -> (i <= length (concat cs))%nat ->
  exists j, (j <= i <= j + 3)%nat /\ is_char_boundary (concat cs) j = true.
Proof.
  revert i. induction cs as [|c cs IH]; intros i Hcs Hi; cbn [concat] in *.
  { cbn in Hi. exists 0%nat. split; [lia|done]. }
  apply Forall_cons in Hcs as [Hc Hcs]. rewrite length_app in Hi.
  destruct (decide (length c <= i)%nat) as [Hge|Hlt].
  - destruct (IH (i - length c)%nat) as (j & Hj & Hb); [done|lia|]. exists (j + length c)%nat. split; [lia|].
    rewrite boundary_after by (done || lia). by replace (j + length c - length c)%nat with j by lia.
  - exists 0%nat. apply utf8_first in Hc as (? & rest & -> & _ & Hl & _). cbn in Hlt. split; [lia|done].
Qed.

(** ** The loop *)

(** An iteration: not at a boundary, [cut -= 1]; at 0 it would underflow. *)
Inductive cut_step (s : bytes) : nat -> nat -> Prop :=
| CutStep cut : is_char_boundary s (S cut) = false -> cut_step s (S cut) cut.

(** The loop runs to the nearest boundary below, which there is. *)
Lemma cut_runs s cut : exists n, nsteps (cut_step s) n cut (boundary_at_or_below s cut) /\
  (n + boundary_at_or_below s cut = cut)%nat /\ is_char_boundary s (boundary_at_or_below s cut) = true /\
  forall k, (boundary_at_or_below s cut < k <= cut)%nat -> is_char_boundary s k = false.
Proof.
  induction cut as [|cut (n & Hn & E & Hb & Hk)].
  - exists 0%nat. split_and!; [constructor|done..|]. cbn. lia.
  - cbn [boundary_at_or_below]. destruct (is_char_boundary s (S cut)) eqn:Hs.
    + exists 0%nat. split_and!; [constructor|lia|done|lia].
    + exists (S n). split_and!; [|lia|done|].
      * by apply nsteps_l with cut.
      * intros k Hlt. destruct (decide (k = S cut)) as [->|]; [done|]. apply Hk. lia.
Qed.

(** C34: The truncation of names. On valid UTF-8 longer than the bound, the loop of [truncate_utf8] stops
    after at most three iterations, without underflow, and what remains is a prefix that fits, is valid
    UTF-8, and is the longest such: every prefix that fits and is valid is no longer. A string that fits
    is unchanged. *)
Theorem truncate_utf8_exact s max_bytes (Hs : valid_utf8 s) :
  valid_utf8 (truncate_utf8 s max_bytes) /\ (length (truncate_utf8 s max_bytes) <= max_bytes)%nat /\
  (forall k, (k <= max_bytes)%nat -> valid_utf8 (take k s) -> (length (take k s) <= length (truncate_utf8 s max_bytes))%nat) /\
  if (length s <=? max_bytes)%nat then truncate_utf8 s max_bytes = s
  else exists n cut, (n <= 3)%nat /\ nsteps (cut_step s) n max_bytes cut /\ is_char_boundary s cut = true /\
    truncate_utf8 s max_bytes = take cut s.
Proof.
  unfold truncate_utf8. destruct (Nat.leb_spec (length s) max_bytes) as [Hle|Hlt].
  { split_and!; try done. intros k _ _. rewrite length_take. lia. }
  apply valid_utf8_chars in Hs as (cs & Hcs & ->). destruct (cut_runs (concat cs) max_bytes) as (n & Hn & E & Hb & Hk).
  set (cut := boundary_at_or_below _ _) in *. rewrite !length_take. split_and!.
  - apply boundary_valid; [done|lia|done].
  - lia.
  - intros k Hkm Hv. apply boundary_valid in Hv; [|done|lia]. rewrite length_take.
    destruct (decide (cut < k)%nat); [|lia]. by rewrite Hk in Hv by lia.
  - exists n, cut. split_and!; try done. destruct (boundary_near cs max_bytes) as (j & Hj & Hbj); [done|lia|].
    destruct (decide (cut < j)%nat); [|lia]. by rewrite Hk in Hbj by lia.
Qed.
