(* ===== verification/MemoState.v ===== *)
(** * State of the memo program

    programs/solana-axelar-memo/src/state/counter.rs. *)

From stdpp Require Import base list strings.
From Stdlib Require Import ZArith Lia.
From S2P Require Import Prelude Errors External GatewayState.

Module Counter.

Record t := mk {
  counter : Z;                                 (** u64 *)
  bump : byte
}.

#[global] Instance t_eq_dec : EqDecision t.
Proof. solve_decision. Defined.

Definition zeroed : t := mk 0 Byte.x00.

(** [DISCRIMINATOR.len() + INIT_SPACE] *)
Definition SPACE : Z := 8 + (8 + 1).

Definition SEED_PREFIX : bytes := bstr "counter".
Definition pda_seeds : list bytes := [SEED_PREFIX].

Definition try_find_pda `{!SolanaPda, !ProgramIds} : option (Pubkey * byte) :=
  find_program_address pda_seeds memo_ID.
Definition find_pda `{!SolanaPda, !ProgramIds} : Result (Pubkey * byte) :=
  find_program_address_or_panic pda_seeds memo_ID.

(** [counter += 1], with [overflow-checks] on. *)
Definition increase (c : t) : Result t :=
  if counter c + 1 <? 2 ^ 64 then Ok (mk (counter c + 1) (bump c)) else Err EPanic.

Lemma increase_ok c c' :
  increase c = Ok c' <-> counter c + 1 < 2 ^ 64 /\ c' = mk (counter c + 1) (bump c).
Proof. unfold increase. destruct (Z.ltb_spec (counter c + 1) (2 ^ 64)); naive_solver lia. Qed.

End Counter.
