(* ===== verification/Ledger.v ===== *)
(** * Accounts, instructions and the account checks of Anchor

    The ledger maps an address to an account; an instruction is a function from the world to an
    error or a new world, so that an error leaves no effect. The account attributes of
    [#[derive(Accounts)]] are the operations of this file, composed by the programs in the order
    Anchor runs them: every field is deserialised in order, then the [init] fields are created,
    then the other constraints of each field run, [seeds], [mut], [signer], [constraint],
    [close]/[address]. The system program, which creates accounts and moves lamports, and the rent
    are parameters. *)

From stdpp Require Import base gmap list.
From Stdlib Require Import ZArith Lia.
From S2P Require Import Prelude Errors External StdInts StdTypes GatewayState GovernanceState OperatorsState ItsState MemoState.

(** ** Events *)

(** programs/solana-axelar-gateway/src/events.rs *)
Inductive GatewayEvent :=
| MessageApprovedEvent (command_id : array 32) (destination_address : bytes) (payload_hash : array 32)
    (source_chain cc_id source_address destination_chain : bytes)
| MessageExecutedEvent (command_id : array 32) (destination_address : Pubkey) (payload_hash : array 32)
    (source_chain cc_id source_address destination_chain : bytes)
| VerifierSetRotatedEvent (epoch : U256.t) (verifier_set_hash : array 32)
| CallContractEvent (sender : Pubkey) (payload_hash : array 32)
    (destination_chain destination_contract_address payload : bytes)
| OperatorshipTransferredEvent (new_operator : array 32).

(** programs/solana-axelar-governance/src/events.rs *)
Inductive GovernanceEvent :=
| ProposalScheduled (hash : array 32) (target_address call_data native_value : bytes) (eta : Z)
| OperatorProposalApproved (hash : array 32) (target_address call_data native_value : bytes)
| OperatorProposalCancelled (hash : array 32) (target_address call_data native_value : bytes)
| ProposalCancelled (hash : array 32) (target_address call_data native_value : bytes) (eta : Z)
| ProposalExecuted (hash : array 32) (target_address call_data native_value : bytes) (eta : Z)
| OperatorProposalExecuted (hash : array 32) (target_address call_data native_value : bytes)
| OperatorshipTransferred (old_operator new_operator : bytes).

(** programs/solana-axelar-operators/src/events.rs and programs/solana-axelar-gas-service/src/events.rs *)
Inductive OperatorsEvent :=
| OwnershipTransferred (old_owner new_owner : Pubkey).

Inductive GasEvent :=
| GasPaidEvent (sender : Pubkey) (destination_chain destination_address : bytes)
    (payload_hash : array 32) (amount : Z) (refund_address : Pubkey) (spl_token_account : option Pubkey)
| GasAddedEvent (sender : Pubkey) (message_id : bytes) (amount : Z) (refund_address : Pubkey)
    (spl_token_account : option Pubkey)
| GasRefundedEvent (receiver : Pubkey) (message_id : bytes) (amount : Z)
    (spl_token_account : option Pubkey)
| GasCollectedEvent (receiver : Pubkey) (amount : Z) (spl_token_account : option Pubkey).

(** programs/solana-axelar-its/src/events.rs *)
Inductive ItsEvent :=
| TrustedChainSet (chain_name : bytes)
| TrustedChainRemoved (chain_name : bytes)
| InterchainTokenDeployed (token_id : array 32) (token_address : Pubkey) (name symbol : bytes)
    (decimals : Z) (minter : option Pubkey)
| TokenManagerDeployed (token_id : array 32) (token_manager : Pubkey) (token_manager_type : Z)
    (params : option bytes)
| InterchainTokenDeploymentStarted (token_id : array 32) (destination_chain name symbol : bytes)
    (decimals : Z) (minter : option Pubkey)
| TokenMetadataRegistered (token_address : Pubkey) (decimals : Z)
| LinkTokenStarted (token_id : array 32) (destination_chain : bytes) (source_token_address : Pubkey)
    (destination_token_address : bytes) (token_manager_type : Z) (params : option bytes)
| FlowLimitSet (token_id : array 32) (operator : Pubkey) (flow_limit : option Z)
| InterchainTransferReceived (command_id token_id : array 32) (source_chain source_address : bytes)
    (destination_address destination_token_account : Pubkey) (amount : Z) (data_hash : option (array 32))
| InterchainTransferSent (token_id : array 32) (source_address source_token_account : Pubkey)
    (destination_chain destination_address : bytes) (amount : Z) (data_hash : option (array 32)).

Inductive Event :=
| EvGateway (e : GatewayEvent)
| EvGovernance (e : GovernanceEvent)
| EvOperators (e : OperatorsEvent)
| EvGas (e : GasEvent)
| EvIts (e : ItsEvent).

(** ** Accounts *)

(** What an account holds: nothing, one of the repository's account types, the loader's record of
    a program's upgrade authority, or the data of another program. *)
Inductive AccountData :=
| DEmpty
| DProgramData (upgrade_authority_address : option Pubkey)
| DGatewayConfig (c : GatewayConfig.t)
| DVerifierSetTracker (t : VerifierSetTracker.t)
| DIncomingMessage (m : IncomingMessage.t)
| DSession (s : Session.t)
| DGovernanceConfig (c : GovernanceConfig.t)
| DExecutableProposal (p : ExecutableProposal.t)
| DOperatorProposal (p : OperatorProposal.t)
| DOperatorRegistry (r : OperatorRegistry.t)
| DOperatorAccount (o : OperatorAccount.t)
| DTreasury (t : Treasury.t)
| DIts (c : InterchainTokenService.t)
| DTokenManager (m : TokenManager.t)
| DUserRoles (r : UserRoles.t)
| DCounter (c : Counter.t)
| DOther (b : bytes).

Record Account := mkAccount {
  lamports : Z;                                (** u64 *)
  owner : Pubkey;
  data : AccountData
}.

(** An account of an instruction, with the privileges the transaction gives it. *)
Record AccountInfo := { key : Pubkey; is_signer : bool; is_writable : bool }.

Abbreviation Ledger := (gmap (array 32) Account).

Record World := mkWorld {
  ledger : Ledger;
  now : Z;                                     (** [Clock::unix_timestamp], an i64 *)
  log : list Event                             (** newest first *)
}.

(** ** Account types *)

(** A type marked [#[account]]: the program that owns it, its image in [AccountData] (the
    discriminator), and the value a newly created account has. *)
Class AnchorAccount (T : Type) := {
  program_of : Pubkey;
  wrap : T -> AccountData;
  unwrap : AccountData -> option T;
  zeroed_of : T;
  unwrap_wrap x : unwrap (wrap x) = Some x;
  wrap_unwrap d x : unwrap d = Some x -> d = wrap x
}.

Section account_types.
Context `{!ProgramIds}.

Ltac account_law := intros [] ? ?; by simplify_eq/=.

#[export] Instance GatewayConfig_account : AnchorAccount GatewayConfig.t := {|
  program_of := gateway_ID; wrap := DGatewayConfig; zeroed_of := GatewayConfig.zeroed;
  unwrap d := if d is DGatewayConfig c then Some c else None;
  unwrap_wrap x := eq_refl; wrap_unwrap := ltac:(account_law) |}.
#[export] Instance VerifierSetTracker_account : AnchorAccount VerifierSetTracker.t := {|
  program_of := gateway_ID; wrap := DVerifierSetTracker; zeroed_of := VerifierSetTracker.zeroed;
  unwrap d := if d is DVerifierSetTracker c then Some c else None;
  unwrap_wrap x := eq_refl; wrap_unwrap := ltac:(account_law) |}.
#[export] Instance IncomingMessage_account : AnchorAccount IncomingMessage.t := {|
  program_of := gateway_ID; wrap := DIncomingMessage; zeroed_of := IncomingMessage.zeroed;
  unwrap d := if d is DIncomingMessage c then Some c else None;
  unwrap_wrap x := eq_refl; wrap_unwrap := ltac:(account_law) |}.
#[export] Instance Session_account : AnchorAccount Session.t := {|
  program_of := gateway_ID; wrap := DSession; zeroed_of := Session.default;
  unwrap d := if d is DSession c then Some c else None;
  unwrap_wrap x := eq_refl; wrap_unwrap := ltac:(account_law) |}.
#[export] Instance GovernanceConfig_account : AnchorAccount GovernanceConfig.t := {|
  program_of := governance_ID; wrap := DGovernanceConfig; zeroed_of := GovernanceConfig.zeroed;
  unwrap d := if d is DGovernanceConfig c then Some c else None;
  unwrap_wrap x := eq_refl; wrap_unwrap := ltac:(account_law) |}.
#[export] Instance ExecutableProposal_account : AnchorAccount ExecutableProposal.t := {|
  program_of := governance_ID; wrap := DExecutableProposal; zeroed_of := ExecutableProposal.zeroed;
  unwrap d := if d is DExecutableProposal c then Some c else None;
  unwrap_wrap x := eq_refl; wrap_unwrap := ltac:(account_law) |}.
#[export] Instance OperatorProposal_account : AnchorAccount OperatorProposal.t := {|
  program_of := governance_ID; wrap := DOperatorProposal; zeroed_of := OperatorProposal.mk;
  unwrap d := if d is DOperatorProposal c then Some c else None;
  unwrap_wrap x := eq_refl; wrap_unwrap := ltac:(account_law) |}.
#[export] Instance OperatorRegistry_account : AnchorAccount OperatorRegistry.t := {|
  program_of := operators_ID; wrap := DOperatorRegistry; zeroed_of := OperatorRegistry.zeroed;
  unwrap d := if d is DOperatorRegistry c then Some c else None;
  unwrap_wrap x := eq_refl; wrap_unwrap := ltac:(account_law) |}.
#[export] Instance OperatorAccount_account : AnchorAccount OperatorAccount.t := {|
  program_of := operators_ID; wrap := DOperatorAccount; zeroed_of := OperatorAccount.zeroed;
  unwrap d := if d is DOperatorAccount c then Some c else None;
  unwrap_wrap x := eq_refl; wrap_unwrap := ltac:(account_law) |}.
#[export] Instance Treasury_account : AnchorAccount Treasury.t := {|
  program_of := gas_service_ID; wrap := DTreasury; zeroed_of := Treasury.zeroed;
  unwrap d := if d is DTreasury c then Some c else None;
  unwrap_wrap x := eq_refl; wrap_unwrap := ltac:(account_law) |}.
#[export] Instance Its_account : AnchorAccount InterchainTokenService.t := {|
  program_of := its_ID; wrap := DIts; zeroed_of := InterchainTokenService.zeroed;
  unwrap d := if d is DIts c then Some c else None;
  unwrap_wrap x := eq_refl; wrap_unwrap := ltac:(account_law) |}.
#[export] Instance TokenManager_account : AnchorAccount TokenManager.t := {|
  program_of := its_ID; wrap := DTokenManager; zeroed_of := TokenManager.zeroed;
  unwrap d := if d is DTokenManager c then Some c else None;
  unwrap_wrap x := eq_refl; wrap_unwrap := ltac:(account_law) |}.
#[export] Instance UserRoles_account : AnchorAccount UserRoles.t := {|
  program_of := its_ID; wrap := DUserRoles; zeroed_of := UserRoles.zeroed;
  unwrap d := if d is DUserRoles c then Some c else None;
  unwrap_wrap x := eq_refl; wrap_unwrap := ltac:(account_law) |}.
#[export] Instance Counter_account : AnchorAccount Counter.t := {|
  program_of := memo_ID; wrap := DCounter; zeroed_of := Counter.zeroed;
  unwrap d := if d is DCounter c then Some c else None;
  unwrap_wrap x := eq_refl; wrap_unwrap := ltac:(account_law) |}.

(** Anchor's [ProgramData], owned by the upgradeable loader. *)
Record ProgramData := { upgrade_authority_address : option Pubkey }.
#[export] Instance ProgramData_account : AnchorAccount ProgramData := {|
  program_of := bpf_loader_upgradeable_ID;
  wrap p := DProgramData (upgrade_authority_address p);
  zeroed_of := Build_ProgramData None;
  unwrap d := if d is DProgramData a then Some (Build_ProgramData a) else None;
  unwrap_wrap := ltac:(by intros []); wrap_unwrap := ltac:(account_law) |}.
End account_types.

(** ** The system program and rent *)

Class SolanaSystem := {
  (** payer, new account, space, owner *)
  sys_create_account : Ledger -> Pubkey -> Pubkey -> Z -> Pubkey -> Result Ledger;
  (** from, to, amount *)
  sys_transfer : Ledger -> Pubkey -> Pubkey -> Z -> Result Ledger;
  (** lamports, space *)
  rent_is_exempt : Z -> Z -> bool
}.

Definition lamports_of (L : Ledger) (k : Pubkey) : Z := from_option lamports 0 (L !! k).

(** Credit or debit an account; an address without account gets one of the system program. *)
Definition set_lamports `{!ProgramIds} (L : Ledger) (k : Pubkey) (l : Z) : Ledger :=
  match L !! k with
  | Some a => <[k := mkAccount l (owner a) (data a)]> L
  | None => <[k := mkAccount l system_program_ID DEmpty]> L
  end.

Definition unused `{!ProgramIds} (L : Ledger) (k : Pubkey) : Prop :=
  match L !! k with Some a => owner a = system_program_ID /\ data a = DEmpty | None => True end.

(** Creation needs an unused address and a payer that is another, system-owned account; it gives
    the new account the owner, no data and a rent-exempt balance, and changes nothing else but the
    payer's balance. A transfer debits a system-owned account that can afford it. *)
Class SolanaSystemLaws `{!ProgramIds, !SolanaSystem} : Prop := {
  create_ok L p k sp o L' : sys_create_account L p k sp o = Ok L' ->
    unused L k /\ p <> k /\
    exists l pa pl, L !! p = Some pa /\ owner pa = system_program_ID /\
      l + pl = lamports_of L k + lamports pa /\ rent_is_exempt l sp = true /\
      L' = <[k := mkAccount l o DEmpty]> (<[p := mkAccount pl (owner pa) (data pa)]> L);
  transfer_ok L f t a L' : sys_transfer L f t a = Ok L' ->
    0 <= a <= lamports_of L f /\
    (exists fa, L !! f = Some fa /\ owner fa = system_program_ID) /\
    L' = let L1 := set_lamports L f (lamports_of L f - a) in
         set_lamports L1 t (lamports_of L1 t + a)
}.

(** Anchor's [realloc] constraint: ledger, payer, account, new length. It resizes the account and
    moves the difference of its rent from or to the payer; owners and data stay. *)
Class AnchorRealloc := anchor_realloc : Ledger -> Pubkey -> Pubkey -> Z -> Result Ledger.

Class AnchorReallocLaws `{!AnchorRealloc} : Prop := {
  realloc_ok L p k n L' : anchor_realloc L p k n = Ok L' ->
    forall j, (fun a => (owner a, data a)) <$> L' !! j = (fun a => (owner a, data a)) <$> L !! j
}.

(** ** The instruction monad *)

Definition Instr (A : Type) : Type := World -> Result (A * World).

#[global] Instance instr_ret : MRet Instr := fun A a w => Ok (a, w).
#[global] Instance instr_bind : MBind Instr := fun A B f m w =>
  match m w with Ok (a, w) => f a w | Err e => Err e end.

Definition lift {A} (r : Result A) : Instr A := fun w =>
  match r with Ok a => Ok (a, w) | Err e => Err e end.
Definition fail {A} (e : Error) : Instr A := fun _ => Err e.
(** [constraint = b @ e], [require!(b, e)] and [if !b { return err!(e) }]. *)
Definition require (b : bool) (e : Error) : Instr unit := lift (ensure b e).
Definition get_clock : Instr Z := fun w => Ok (now w, w).
Definition emit (e : Event) : Instr unit := fun w => Ok (tt, mkWorld (ledger w) (now w) (e :: log w)).
Definition with_ledger {A} (f : Ledger -> Result (A * Ledger)) : Instr A := fun w =>
  match f (ledger w) with
  | Ok (a, L) => Ok (a, mkWorld L (now w) (log w))
  | Err e => Err e
  end.

(** ** Account checks *)

Section checks.
Context `{!ProgramIds, !SolanaPda}.

(** Deserialisation of [Account<T>] and [AccountLoader<T>]: existence, owner, discriminator. *)
Definition load (T : Type) `{!AnchorAccount T} (k : Pubkey) : Instr T := fun w =>
  match ledger w !! k with
  | None => Err (EAnchor AccountNotInitialized)
  | Some a =>
    if bool_decide (owner a = program_of (T := T)) then
      match unwrap (data a) with
      | Some x => Ok (x, w)
      | None => Err (EAnchor AccountDiscriminatorMismatch)
      end
    else Err (EAnchor AccountOwnedByWrongProgram)
  end.

(** Writing the account's data: at once through [load_mut], on exit for [Account<T>]. *)
Definition store {T : Type} `{!AnchorAccount T} (k : Pubkey) (x : T) : Instr unit := with_ledger (fun L =>
  match L !! k with
  | None => Err (EAnchor AccountNotInitialized)
  | Some a => Ok (tt, <[k := mkAccount (lamports a) (owner a) (wrap x)]> L)
  end).

(** [Signer<'info>] and [#[account(mut)]], [#[account(signer)]]. *)
Definition signer_account (a : AccountInfo) : Instr unit := require (is_signer a) (EAnchor AccountNotSigner).
Definition constraint_signer (a : AccountInfo) : Instr unit := require (is_signer a) (EAnchor ConstraintSigner).
Definition constraint_mut (a : AccountInfo) : Instr unit := require (is_writable a) (EAnchor ConstraintMut).
(** [Program<'info, P>] and [address = k @ e]. *)
Definition program_account (id k : Pubkey) : Instr unit := require (bool_decide (k = id)) (EAnchor InvalidProgramId).
Definition constraint_address (k expected : Pubkey) (e : Error) : Instr unit :=
  require (bool_decide (k = expected)) e.

(** [seeds = .., bump = b] with a given bump. *)
Definition constraint_seeds (seeds : list bytes) (b : byte) (program_id k : Pubkey) : Instr unit :=
  match create_program_address (seeds ++ [[b]]) program_id with
  | Some k' => require (bool_decide (k = k')) (EAnchor ConstraintSeeds)
  | None => fail (EAnchor ConstraintSeeds)
  end.

(** [seeds = .., bump]: the canonical address and its bump. *)
Definition constraint_seeds_find (seeds : list bytes) (program_id k : Pubkey) : Instr byte :=
  p ← lift (find_program_address_or_panic seeds program_id);
  _ ← require (bool_decide (k = p.1)) (EAnchor ConstraintSeeds);
  mret p.2.

(** [init, payer, space, seeds, bump]: the bump of the new account. *)
Definition init_account `{!SolanaSystem} (T : Type) `{!AnchorAccount T} (payer k : Pubkey) (space : Z)
    (seeds : list bytes) : Instr byte :=
  b ← constraint_seeds_find seeds (program_of (T := T)) k;
  _ ← with_ledger (fun L =>
    L ← sys_create_account L payer k space (program_of (T := T)); mret (tt, L));
  _ ← store k (zeroed_of (T := T));
  mret b.

(** [init_if_needed]: an address the system program still owns is created, any other account is
    deserialised; the value and the bump. *)
Definition init_if_needed `{!SolanaSystem} (T : Type) `{!AnchorAccount T} (payer k : Pubkey) (space : Z)
    (seeds : list bytes) : Instr (T * byte) := fun w =>
  if bool_decide (from_option owner system_program_ID (ledger w !! k) = system_program_ID)
  then (b ← init_account T payer k space seeds; mret (zeroed_of, b)) w
  else (b ← constraint_seeds_find seeds (program_of (T := T)) k; x ← load T k; mret (x, b)) w.

(** [realloc = n, realloc::payer = payer]: the length of the account and the rent it needs. *)
Definition realloc_account `{!AnchorRealloc} (payer k : Pubkey) (n : Z) : Instr unit :=
  with_ledger (fun L => L ← anchor_realloc L payer k n; mret (tt, L)).

(** [close = dest]: the lamports move to [dest], and the account goes. *)
Definition close_account (k dest : Pubkey) : Instr unit := with_ledger (fun L =>
  Ok (tt, delete k (set_lamports L dest (lamports_of L dest + lamports_of L k)))).

(** [get_lamports], [sub_lamports] and [add_lamports]. *)
Definition get_lamports (k : Pubkey) : Instr Z := fun w => Ok (lamports_of (ledger w) k, w).
Definition sub_lamports (k : Pubkey) (amount : Z) : Instr unit := with_ledger (fun L =>
  l ← ok_or (checked_sub (lamports_of L k) amount) (EProgram PE_ArithmeticOverflow);
  mret (tt, set_lamports L k l)).
Definition add_lamports (k : Pubkey) (amount : Z) : Instr unit := with_ledger (fun L =>
  l ← ok_or (checked_add 64 (lamports_of L k) amount) (EProgram PE_ArithmeticOverflow);
  mret (tt, set_lamports L k l)).

(** An account as the program called by [invoke_signed] sees it, with the privileges of its
    [AccountMeta]. The caller [pid] must hold them, or sign for the account with the seeds. *)
Definition invoke_signed_account (pid : Pubkey) (signer_seeds : list bytes) (a : AccountInfo)
    (meta_signer meta_writable : bool) : Instr AccountInfo :=
  pda ← lift (ok_or (create_program_address signer_seeds pid) ERuntime);
  _ ← require (negb meta_signer || is_signer a || bool_decide (key a = pda)) ERuntime;
  _ ← require (negb meta_writable || is_writable a) ERuntime;
  mret {| key := key a; is_signer := meta_signer; is_writable := meta_writable |}.

(** The same for [invoke], without a signature of the program's own. *)
Definition invoke_account (a : AccountInfo) (meta_signer meta_writable : bool) : Instr AccountInfo :=
  _ ← require (negb meta_signer || is_signer a) ERuntime;
  _ ← require (negb meta_writable || is_writable a) ERuntime;
  mret {| key := key a; is_signer := meta_signer; is_writable := meta_writable |}.

(** [system_program::transfer]. *)
Definition system_transfer `{!SolanaSystem} (from to : Pubkey) (amount : Z) : Instr unit :=
  with_ledger (fun L => L ← sys_transfer L from to amount; mret (tt, L)).

(** crates/solana-axelar-std/src/program_utils.rs *)
Definition transfer_lamports_anchor (from to : Pubkey) (amount : Z) : Instr unit :=
  l ← get_lamports from;
  _ ← require (negb (l <? amount)) (EProgram PE_InsufficientFunds);
  _ ← sub_lamports from amount;
  add_lamports to amount.
End checks.
