(* ===== verification/LedgerLemmas.v ===== *)
(** * Reasoning about instructions

    Inversion of successful runs of the operations of [Ledger.v], and the view the theorems use:
    [state_of pid w], the data of the accounts that the program [pid] owns. *)

From stdpp Require Import base gmap list.
From Stdlib Require Import ZArith Lia.
From S2P Require Import Prelude Errors External GatewayState Ledger.

(** ** The monad *)

Lemma instr_bind_ok {A B} (m : Instr A) (f : A -> Instr B) w b w' :
  (m ≫= f) w = Ok (b, w') <-> exists a w1, m w = Ok (a, w1) /\ f a w1 = Ok (b, w').
Proof. unfold mbind, instr_bind. destruct (m w) as [[a w1]|e]; naive_solver. Qed.

Lemma instr_ret_ok {A} (a b : A) w w' : (mret a : Instr A) w = Ok (b, w') <-> b = a /\ w' = w.
Proof. unfold mret, instr_ret. naive_solver. Qed.

Lemma lift_ok {A} (r : Result A) w a w' : lift r w = Ok (a, w') <-> r = Ok a /\ w' = w.
Proof. unfold lift. destruct r; naive_solver. Qed.

Lemma require_ok b e w u w' : require b e w = Ok (u, w') <-> b = true /\ w' = w.
Proof. unfold require. rewrite lift_ok, ensure_ok. done. Qed.

Lemma fail_ok {A} e w (a : A) w' : fail e w = Ok (a, w') <-> False.
Proof. done. Qed.

Lemma get_clock_ok w t w' : get_clock w = Ok (t, w') <-> t = now w /\ w' = w.
Proof. unfold get_clock. naive_solver. Qed.

Lemma emit_ok e w u w' :
  emit e w = Ok (u, w') <-> w' = mkWorld (ledger w) (now w) (e :: log w).
Proof. unfold emit. destruct u. naive_solver. Qed.

(** The result of a pure check. *)
Lemma require_bind_ok {A} b e (m : Instr A) w r :
  (_ ← require b e; m) w = Ok r <-> b = true /\ m w = Ok r.
Proof. destruct b; unfold require, lift, ensure, mbind, instr_bind; naive_solver. Qed.

(** ** The data a program owns *)

Definition owned_data (pid : Pubkey) (a : Account) : option AccountData :=
  if decide (owner a = pid) then Some (data a) else None.

Definition state_of (pid : Pubkey) (w : World) : gmap (array 32) AccountData :=
  omap (owned_data pid) (ledger w).

Lemma state_of_lookup pid w k d :
  state_of pid w !! k = Some d <-> exists l, ledger w !! k = Some (mkAccount l pid d).
Proof.
  unfold state_of. rewrite lookup_omap, bind_Some. unfold owned_data. split.
  - intros ([l o d'] & Hk & Hd). simpl in Hd. case_decide; simplify_eq. by exists l.
  - intros [l Hk]. eexists. split; [exact Hk|]. simpl. by rewrite decide_True.
Qed.

Lemma state_of_lookup_None pid w k :
  state_of pid w !! k = None <-> forall a, ledger w !! k = Some a -> owner a <> pid.
Proof.
  unfold state_of. rewrite lookup_omap. unfold owned_data.
  destruct (ledger w !! k) as [a|]; simpl; [case_decide|]; naive_solver.
Qed.

(** The effect of replacing an account on the view. *)
Lemma state_of_insert pid w k a :
  state_of pid (mkWorld (<[k := a]> (ledger w)) (now w) (log w)) =
  match owned_data pid a with
  | Some d => <[k := d]> (state_of pid w)
  | None => delete k (state_of pid w)
  end.
Proof.
  unfold state_of. simpl. destruct (owned_data pid a) as [d|] eqn:E.
  - by apply omap_insert_Some.
  - by rewrite omap_insert_None.
Qed.

Section ops.
Context {ids : ProgramIds} {pda : SolanaPda} {system : SolanaSystem}.

Lemma load_ok T (acc : AnchorAccount T) k w x w' :
  load T k w = Ok (x, w') <-> state_of (program_of (T := T)) w !! k = Some (wrap x) /\ w' = w.
Proof.
  unfold load. rewrite state_of_lookup. destruct (ledger w !! k) as [[l o d]|] eqn:Hk; [|naive_solver].
  simpl. case_bool_decide as Ho; simpl; [subst o|naive_solver].
  destruct (unwrap d) as [y|] eqn:Hd.
  - apply wrap_unwrap in Hd. subst d. split.
    + intros [= -> ->]. eauto.
    + intros [[l' [= _ Hw]] ->]. apply (f_equal unwrap) in Hw. rewrite !unwrap_wrap in Hw. congruence.
  - split; [done|]. intros [[l' [= _ ->]] ->]. by rewrite unwrap_wrap in Hd.
Qed.

Lemma wrap_inj T (acc : AnchorAccount T) (x y : T) : wrap x = wrap y -> x = y.
Proof. intros H. apply (f_equal unwrap) in H. rewrite !unwrap_wrap in H. congruence. Qed.

Lemma constraint_seeds_ok seeds b pid k w u w' :
  constraint_seeds seeds b pid k w = Ok (u, w') <->
  create_program_address (seeds ++ [[b]]) pid = Some k /\ w' = w.
Proof.
  unfold constraint_seeds. destruct (create_program_address _ _) as [k'|].
  - rewrite require_ok, bool_decide_eq_true. naive_solver.
  - rewrite fail_ok. naive_solver.
Qed.

Lemma constraint_seeds_find_ok seeds pid k w b w' :
  constraint_seeds_find seeds pid k w = Ok (b, w') <->
  find_program_address seeds pid = Some (k, b) /\ w' = w.
Proof.
  unfold constraint_seeds_find, find_program_address_or_panic. rewrite instr_bind_ok. split.
  - intros ([k' b'] & w1 & H1 & H2). apply lift_ok in H1 as [H1 ->]. apply ok_or_ok in H1.
    apply instr_bind_ok in H2 as (u & w2 & H2 & H3). apply require_ok in H2 as [H2 ->].
    apply instr_ret_ok in H3 as [-> ->]. apply bool_decide_eq_true in H2. simpl in *. by subst.
  - intros [H ->]. exists (k, b), w. rewrite H. split; [done|].
    apply instr_bind_ok. exists tt, w. rewrite require_ok, bool_decide_eq_true. done.
Qed.

(** What [store] does to each program's view, the clock and the log. *)
Lemma store_ok T (acc : AnchorAccount T) k (x : T) w u w' pid d :
  store k x w = Ok (u, w') -> state_of pid w !! k = Some d ->
  state_of pid w' = <[k := wrap x]> (state_of pid w) /\
  (forall pid', pid' <> pid -> state_of pid' w' = state_of pid' w) /\
  now w' = now w /\ log w' = log w.
Proof.
  unfold store, with_ledger. intros H Hd. apply state_of_lookup in Hd as [l Hk].
  rewrite Hk in H. simpl in H. injection H as _ <-. split_and!; [| |done|done].
  - rewrite state_of_insert. unfold owned_data. simpl. by rewrite decide_True.
  - intros pid' Hne. rewrite state_of_insert. unfold owned_data. simpl.
    rewrite decide_False by done. apply delete_id. apply state_of_lookup_None.
    intros a Ha. rewrite Hk in Ha. by injection Ha as <-.
Qed.

Lemma store_log T (acc : AnchorAccount T) k (x : T) w u w' :
  store k x w = Ok (u, w') -> now w' = now w /\ log w' = log w.
Proof. unfold store, with_ledger. destruct (ledger w !! k); [|done]. by intros [= _ <-]. Qed.

Lemma store_lamports T (acc : AnchorAccount T) k (x : T) w u w' :
  store k x w = Ok (u, w') -> forall j, lamports_of (ledger w') j = lamports_of (ledger w) j.
Proof.
  unfold store, with_ledger. destruct (ledger w !! k) as [a|] eqn:Hk; [|done]. intros [= _ <-] j. simpl.
  unfold lamports_of. destruct (decide (j = k)) as [->|Hne].
  - by rewrite lookup_insert_eq, Hk.
  - by rewrite lookup_insert_ne.
Qed.

Lemma store_other T (acc : AnchorAccount T) k (x : T) w u w' j :
  store k x w = Ok (u, w') -> j <> k -> ledger w' !! j = ledger w !! j.
Proof.
  unfold store, with_ledger. destruct (ledger w !! k); [|done]. intros [= _ <-] Hne. simpl.
  by rewrite lookup_insert_ne.
Qed.

Section init.
Context {ids_laws : ProgramIdsLaws} {system_laws : SolanaSystemLaws}.

(** [init] takes an address that no program of the repository owned. *)
Lemma init_account_ok T (acc : AnchorAccount T) payer k space seeds w b w' :
  program_of (T := T) <> system_program_ID ->
  init_account T payer k space seeds w = Ok (b, w') ->
  find_program_address seeds (program_of (T := T)) = Some (k, b) /\
  (forall pid, pid <> system_program_ID -> state_of pid w !! k = None) /\
  state_of (program_of (T := T)) w' = <[k := wrap zeroed_of]> (state_of (program_of (T := T)) w) /\
  (forall pid, pid <> program_of (T := T) -> pid <> system_program_ID ->
     state_of pid w' = state_of pid w) /\
  now w' = now w /\ log w' = log w.
Proof.
  intros Hp H. unfold init_account in H.
  apply instr_bind_ok in H as (b' & w1 & Hf & H). apply constraint_seeds_find_ok in Hf as [Hf ->].
  apply instr_bind_ok in H as ([] & w2 & Hc & H). apply instr_bind_ok in H as (u & w3 & Hs & H).
  apply instr_ret_ok in H as [-> ->].
  unfold with_ledger in Hc. destruct (sys_create_account _ _ _ _ _) as [L|] eqn:HL; [|done].
  simpl in Hc. injection Hc as <-.
  apply create_ok in HL as (Hu & Hpk & l & pa & pl & Hpa & Hpo & _ & _ & ->).
  assert (forall pid, pid <> system_program_ID -> state_of pid w !! k = None) as Hnone.
  { intros pid Hne. apply state_of_lookup_None. intros a Ha. unfold unused in Hu.
    rewrite Ha in Hu. destruct Hu as [-> _]. done. }
  assert (forall pid, pid <> system_program_ID -> state_of pid w !! payer = None) as Hpayer.
  { intros pid Hne. apply state_of_lookup_None. intros a Ha. rewrite Hpa in Ha.
    injection Ha as <-. by rewrite Hpo. }
  set (w1 := mkWorld (<[payer := mkAccount pl (owner pa) (data pa)]> (ledger w)) (now w) (log w)) in *.
  assert (forall pid, pid <> system_program_ID -> state_of pid w1 = state_of pid w) as H1.
  { intros pid Hne. unfold w1. rewrite state_of_insert. unfold owned_data. simpl. rewrite Hpo.
    rewrite decide_False by done. apply delete_id. by apply Hpayer. }
  set (w2 := mkWorld (<[k := mkAccount l (program_of (T := T)) DEmpty]> (ledger w1)) (now w1) (log w1)).
  assert (state_of (program_of (T := T)) w2 = <[k := DEmpty]> (state_of (program_of (T := T)) w)) as H2.
  { unfold w2. rewrite state_of_insert. unfold owned_data. simpl. rewrite decide_True by done.
    by rewrite H1. }
  destruct (store_ok T acc k zeroed_of w2 u w3 (program_of (T := T)) DEmpty Hs) as (Hst & Hoth & Hn & Hl).
  { by rewrite H2, lookup_insert_eq. }
  split_and!; [done|done| | |by rewrite Hn|by rewrite Hl].
  - by rewrite Hst, H2, insert_insert_eq.
  - intros pid Hne Hns. rewrite Hoth by done. unfold w2. rewrite state_of_insert.
    unfold owned_data. simpl. rewrite decide_False by done. rewrite H1 by done.
    apply delete_id. by apply Hnone.
Qed.

(** ... and leaves every account that a program owns as it was. *)
Lemma init_account_other T (acc : AnchorAccount T) payer k space seeds w b w' j x :
  init_account T payer k space seeds w = Ok (b, w') ->
  ledger w !! j = Some x -> owner x <> system_program_ID -> ledger w' !! j = Some x.
Proof.
  intros E Hj Ho. unfold init_account in E.
  apply instr_bind_ok in E as (b' & w1 & Hf & E). apply constraint_seeds_find_ok in Hf as [Hf ->].
  apply instr_bind_ok in E as ([] & w2 & Hc & E). apply instr_bind_ok in E as (u & w3 & Hs & E).
  apply instr_ret_ok in E as [-> ->].
  unfold with_ledger in Hc. destruct (sys_create_account _ _ _ _ _) as [L|] eqn:HL; [|done].
  simpl in Hc. injection Hc as <-.
  apply create_ok in HL as (Hu & Hpk & l & pa & pl & Hpa & Hpo & _ & _ & ->).
  unfold store, with_ledger in Hs. simpl in Hs. rewrite lookup_insert_eq in Hs. injection Hs as _ <-. simpl.
  assert (j <> k) by (intros ->; unfold unused in Hu; rewrite Hj in Hu; naive_solver).
  assert (j <> payer) by (intros ->; naive_solver).
  by rewrite !lookup_insert_ne by congruence.
Qed.
End init.
End ops.

(** ** The accounts of one type *)

(** The accounts of one type among those of a program. *)
Definition view (T : Type) (acc : AnchorAccount T) (m : gmap (array 32) AccountData) : gmap (array 32) T :=
  omap unwrap m.

Lemma view_lookup T (acc : AnchorAccount T) m k x : view T acc m !! k = Some x <-> m !! k = Some (wrap x).
Proof.
  unfold view. rewrite lookup_omap, bind_Some. split.
  - intros (d & Hd & Hx). apply wrap_unwrap in Hx. by subst.
  - intros H. exists (wrap x). by rewrite unwrap_wrap.
Qed.

Lemma view_lookup_None T (acc : AnchorAccount T) m k : m !! k = None -> view T acc m !! k = None.
Proof. intros H. unfold view. by rewrite lookup_omap, H. Qed.

Lemma view_insert T (acc : AnchorAccount T) m k x : view T acc (<[k := wrap x]> m) = <[k := x]> (view T acc m).
Proof. unfold view. apply omap_insert_Some, unwrap_wrap. Qed.

Lemma view_insert_other T (acc : AnchorAccount T) m k d :
  unwrap d = None -> view T acc m !! k = None -> view T acc (<[k := d]> m) = view T acc m.
Proof. intros Hd Hk. unfold view in *. rewrite omap_insert_None by done. by rewrite delete_id. Qed.

(** An account of another type is not in the view. *)
Lemma view_other T (acc : AnchorAccount T) m k d : m !! k = Some d -> unwrap d = None -> view T acc m !! k = None.
Proof. intros H Hd. unfold view. by rewrite lookup_omap, H. Qed.

Lemma view_empty T (acc : AnchorAccount T) : view T acc ∅ = ∅.
Proof. unfold view. apply omap_empty. Qed.

Lemma view_delete T (acc : AnchorAccount T) m k : view T acc (delete k m) = delete k (view T acc m).
Proof. unfold view. apply omap_delete. Qed.

(** ** Lamports and the closing of accounts *)

Section lamports.
Context {ids : ProgramIds}.

Definition world_at (w : World) (L : Ledger) : World := mkWorld L (now w) (log w).

Lemma state_of_set_lamports pid w k l :
  pid <> system_program_ID -> state_of pid (world_at w (set_lamports (ledger w) k l)) = state_of pid w.
Proof.
  intros Hp. unfold set_lamports, world_at. destruct (ledger w !! k) as [[l' o d]|] eqn:Hk; simpl.
  - rewrite state_of_insert. unfold owned_data. simpl. case_decide as Ho.
    + apply insert_id. subst o. apply state_of_lookup. by eexists.
    + apply delete_id, state_of_lookup_None. intros a Ha. rewrite Hk in Ha. by injection Ha as <-.
  - rewrite state_of_insert. unfold owned_data. simpl. rewrite decide_False by done.
    apply delete_id, state_of_lookup_None. intros a Ha. congruence.
Qed.

Lemma state_of_delete pid w k :
  state_of pid (world_at w (delete k (ledger w))) = delete k (state_of pid w).
Proof. unfold state_of, world_at. simpl. apply omap_delete. Qed.

(** [close]: the account goes, and no program's data changes otherwise. *)
Lemma close_account_ok pid k dest w u w' :
  pid <> system_program_ID -> close_account k dest w = Ok (u, w') ->
  state_of pid w' = delete k (state_of pid w) /\ now w' = now w /\ log w' = log w.
Proof.
  intros Hp. unfold close_account, with_ledger. intros [= _ <-]. split_and!; [|done|done].
  set (L := set_lamports _ _ _).
  change (mkWorld (delete k L) (now w) (log w)) with (world_at (world_at w L) (delete k (ledger (world_at w L)))).
  rewrite state_of_delete. unfold L. by rewrite state_of_set_lamports.
Qed.

Lemma close_account_gone k dest w u w' : close_account k dest w = Ok (u, w') -> ledger w' !! k = None.
Proof. unfold close_account, with_ledger. intros [= _ <-]. apply lookup_delete_eq. Qed.

Lemma close_account_log k dest w u w' :
  close_account k dest w = Ok (u, w') -> now w' = now w /\ log w' = log w.
Proof. unfold close_account, with_ledger. by intros [= _ <-]. Qed.

(** Balances. *)
Lemma lamports_set L k l j :
  lamports_of (set_lamports L k l) j = if decide (j = k) then l else lamports_of L j.
Proof.
  unfold lamports_of, set_lamports. destruct (L !! k) as [a|]; case_decide as Hj; subst;
    by rewrite ?lookup_insert_eq, ?lookup_insert_ne by done.
Qed.

Definition total_lamports (L : Ledger) : Z := map_fold (fun _ a s => lamports a + s) 0 L.

Lemma total_insert L k a : L !! k = None -> total_lamports (<[k := a]> L) = lamports a + total_lamports L.
Proof. intros Hk. unfold total_lamports. apply (map_fold_insert_L (fun _ a s => lamports a + s) 0 k a L); [intros; lia|done]. Qed.

Lemma total_delete L k a : L !! k = Some a -> total_lamports L = lamports a + total_lamports (delete k L).
Proof. intros Hk. rewrite <- (insert_delete_id _ _ _ Hk) at 1. apply total_insert, lookup_delete_eq. Qed.

Lemma total_set_lamports L k l : total_lamports (set_lamports L k l) = total_lamports L - lamports_of L k + l.
Proof.
  unfold set_lamports, lamports_of. destruct (L !! k) as [a|] eqn:Hk; simpl.
  - rewrite <- insert_delete_eq, total_insert by apply lookup_delete_eq. rewrite (total_delete L k a Hk). simpl. lia.
  - rewrite total_insert by done. simpl. lia.
Qed.

(** The accounts other than their balances. *)
Definition owner_data (a : Account) : Pubkey * AccountData := (owner a, data a).

Lemma owner_data_set L k l j x :
  owner_data <$> L !! j = Some x -> owner_data <$> set_lamports L k l !! j = Some x.
Proof.
  intros Hj. unfold set_lamports. destruct (decide (j = k)) as [->|Hne].
  - destruct (L !! k); [|done]. by rewrite lookup_insert_eq.
  - destruct (L !! k); by rewrite lookup_insert_ne.
Qed.

(** The result of moving [amount] lamports. *)
Definition moved (L L' : Ledger) (from to : Pubkey) (amount : Z) : Prop :=
  amount <= lamports_of L from /\
  (from <> to -> lamports_of L' from = lamports_of L from - amount /\
     lamports_of L' to = lamports_of L to + amount) /\
  (from = to -> lamports_of L' from = lamports_of L from) /\
  (forall j, j <> from -> j <> to -> L' !! j = L !! j) /\
  (forall j x, L !! j = Some x -> owner_data <$> L' !! j = Some (owner_data x)) /\
  (forall j, L !! j = None -> L' !! j = None \/ owner_data <$> L' !! j = Some (system_program_ID, DEmpty)) /\
  total_lamports L' = total_lamports L.

(** A move of lamports changes no program's data. *)
Lemma moved_state pid w w' from to amount :
  pid <> system_program_ID -> moved (ledger w) (ledger w') from to amount -> state_of pid w' = state_of pid w.
Proof.
  intros Hp (_ & _ & _ & Hoth & Hd & Hn & _). apply map_eq. intros j.
  unfold state_of. rewrite !lookup_omap. destruct (ledger w !! j) as [x|] eqn:Hj; simpl.
  - apply Hd in Hj. destruct (ledger w' !! j) as [y|]; [|done]. injection Hj as Ho Hda. simpl.
    unfold owned_data. by rewrite Ho, Hda.
  - destruct (Hn j Hj) as [->|Hs]; [done|]. destruct (ledger w' !! j) as [y|]; [|done].
    injection Hs as Ho _. simpl. unfold owned_data. by rewrite Ho, decide_False.
Qed.

Lemma set_lamports_new L k l j :
  L !! j = None ->
  set_lamports L k l !! j = None \/ owner_data <$> set_lamports L k l !! j = Some (system_program_ID, DEmpty).
Proof.
  intros Hj. unfold set_lamports. destruct (decide (j = k)) as [->|Hne].
  - rewrite Hj. right. by rewrite lookup_insert_eq.
  - left. by destruct (L !! k); rewrite lookup_insert_ne.
Qed.

Lemma set_two_moved L from to amount :
  amount <= lamports_of L from ->
  moved L (let L1 := set_lamports L from (lamports_of L from - amount) in
           set_lamports L1 to (lamports_of L1 to + amount)) from to amount.
Proof.
  intros Ha. cbv zeta. split; [done|]. split_and!.
  - intros Hne. split; rewrite !lamports_set; repeat case_decide; congruence || lia.
  - intros <-. rewrite !lamports_set. repeat case_decide; congruence || lia.
  - intros j H1 H2. unfold set_lamports at 1. destruct (set_lamports L _ _ !! to);
      rewrite lookup_insert_ne by done; unfold set_lamports; destruct (L !! from);
      by rewrite lookup_insert_ne by done.
  - intros j x Hx. do 2 apply owner_data_set. by rewrite Hx.
  - intros j Hj. destruct (set_lamports_new L from (lamports_of L from - amount) j Hj) as [H1|H1].
    + by apply set_lamports_new.
    + right. by apply owner_data_set.
  - rewrite !total_set_lamports. lia.
Qed.

Lemma transfer_lamports_ok from to amount w u w' :
  transfer_lamports_anchor from to amount w = Ok (u, w') ->
  moved (ledger w) (ledger w') from to amount /\ now w' = now w /\ log w' = log w.
Proof.
  unfold transfer_lamports_anchor. intros E.
  apply instr_bind_ok in E as (l & w1 & E1 & E). injection E1 as <- <-.
  apply instr_bind_ok in E as (u1 & w2 & E2 & E). apply require_ok in E2 as [E2 ->].
  apply instr_bind_ok in E as (u2 & w3 & E3 & E). unfold sub_lamports, with_ledger in E3.
  apply negb_true_iff, Z.ltb_ge in E2.
  destruct (ok_or _ _) as [x|] eqn:Hx in E3; [|done]. apply ok_or_ok, checked_sub_some in Hx as [-> _].
  injection E3 as <- <-. unfold add_lamports, with_ledger in E. simpl in E.
  destruct (ok_or _ _) as [x|] eqn:Hx in E; [|done]. apply ok_or_ok, checked_add_some in Hx as [-> _].
  injection E as _ <-. simpl. split_and!; [|done|done]. by apply set_two_moved.
Qed.

Lemma system_transfer_ok `{!SolanaSystem, !SolanaSystemLaws} from to amount w u w' :
  system_transfer from to amount w = Ok (u, w') ->
  0 <= amount /\ (exists a, ledger w !! from = Some a /\ owner a = system_program_ID) /\
  moved (ledger w) (ledger w') from to amount /\ now w' = now w /\ log w' = log w.
Proof.
  unfold system_transfer, with_ledger. destruct (sys_transfer _ _ _ _) as [L|] eqn:E; [|done]. simpl.
  intros [= _ <-]. apply transfer_ok in E as ([? ?] & ? & ->). split_and!; try done. by apply set_two_moved.
Qed.
End lamports.

(** The programs' ids differ from the system program's. *)
Lemma program_ne_system `{!ProgramIds, !ProgramIdsLaws} :
  gateway_ID <> system_program_ID /\ governance_ID <> system_program_ID /\
  operators_ID <> system_program_ID /\ gas_service_ID <> system_program_ID /\
  its_ID <> system_program_ID.
Proof.
  pose proof program_ids_nodup as Hn.
  assert (forall i x, (i < 6)%nat -> [gateway_ID; governance_ID; operators_ID; gas_service_ID; its_ID;
    memo_ID; system_program_ID; bpf_loader_upgradeable_ID] !! i = Some x -> x <> system_program_ID) as HH.
  { intros i x Hi Hx E. subst x. assert (i = 6%nat); [|lia].
    by eapply (NoDup_lookup _ i 6%nat _ Hn Hx). }
  split_and!; [apply (HH 0%nat)|apply (HH 1%nat)|apply (HH 2%nat)|apply (HH 3%nat)|apply (HH 4%nat)];
    done || lia.
Qed.

(** ** Inversion *)

(** Decompose every hypothesis that says an instruction succeeded. *)
Ltac inv_instr :=
  repeat first
  [ progress inv_result
  | progress unfold signer_account, constraint_signer, constraint_mut, program_account,
      constraint_address in *
  | match goal with
  | H : (_ ≫= _) _ = Ok (_, _) |- _ =>
      apply instr_bind_ok in H; let x := fresh "x" in let w := fresh "w" in
      let H1 := fresh "H" in destruct H as (x & w & H1 & H)
  | H : lift _ _ = Ok _ |- _ => apply lift_ok in H; destruct H as [H ?]; try subst
  | H : require _ _ _ = Ok (?u, _) |- _ => apply require_ok in H; destruct H as [H ?]; try subst
  | H : fail _ _ = Ok _ |- _ => discriminate H
  | H : mret _ _ = Ok _ |- _ => apply instr_ret_ok in H; destruct H; try subst
  | H : get_clock _ = Ok _ |- _ => apply get_clock_ok in H; destruct H; try subst
  | H : emit _ _ = Ok _ |- _ => apply emit_ok in H; try subst
  | H : load _ _ _ = Ok _ |- _ => apply load_ok in H; destruct H as [H ?]; try subst
  | H : constraint_seeds _ _ _ _ _ = Ok _ |- _ =>
      apply constraint_seeds_ok in H; destruct H as [H ?]; try subst
  | H : constraint_seeds_find _ _ _ _ = Ok _ |- _ =>
      apply constraint_seeds_find_ok in H; destruct H as [H ?]; try subst
  end ].

(** ** Evaluation *)

Lemma bind_eval {A B} (m : Instr A) (f : A -> Instr B) w a w1 :
  m w = Ok (a, w1) -> (m ≫= f) w = f a w1.
Proof. intros H. unfold mbind, instr_bind. by rewrite H. Qed.

Lemma bind_err {A B} (m : Instr A) (f : A -> Instr B) w e : m w = Err e -> (m ≫= f) w = Err e.
Proof. intros H. unfold mbind, instr_bind. by rewrite H. Qed.

Lemma require_false b e w : b = false -> require b e w = Err e.
Proof. by intros ->. Qed.

Lemma store_eval `{!ProgramIds} T (acc : AnchorAccount T) k (x : T) w pid d :
  state_of pid w !! k = Some d ->
  exists w', store k x w = Ok (tt, w') /\ state_of pid w' = <[k := wrap x]> (state_of pid w) /\
    now w' = now w /\ log w' = log w.
Proof.
  intros Hd. assert (exists w', store k x w = Ok (tt, w')) as [w' Hw'].
  { apply state_of_lookup in Hd as [l Hk]. unfold store, with_ledger. rewrite Hk. by eexists. }
  exists w'. split; [done|]. by destruct (store_ok T acc k x w tt w' pid d Hw' Hd) as (? & _ & ? & ?).
Qed.

Lemma require_eval b e w : b = true -> require b e w = Ok (tt, w).
Proof. by intros ->. Qed.

Lemma constraint_seeds_eval `{!SolanaPda} seeds b pid k w :
  create_program_address (seeds ++ [[b]]) pid = Some k -> constraint_seeds seeds b pid k w = Ok (tt, w).
Proof. intros Hc. by apply constraint_seeds_ok. Qed.

(** Run the first instruction of a sequence that succeeds. *)
Ltac run_check :=
  unfold signer_account, constraint_signer, constraint_mut, program_account, constraint_address;
  first
  [ apply load_ok; split; [eassumption|reflexivity]
  | apply constraint_seeds_eval; eassumption
  | apply constraint_seeds_find_ok; split; [eassumption|reflexivity]
  | apply require_eval;
      first [eassumption | apply bool_decide_eq_true; eassumption
            | apply bool_decide_eq_true; congruence | done]
  | apply get_clock_ok; split; reflexivity
  | eassumption ].
Ltac run_instr := erewrite bind_eval by run_check; cbv beta.

(** ** Errors *)

Lemma instr_bind_err {A B} (m : Instr A) (f : A -> Instr B) w e :
  (m ≫= f) w = Err e -> m w = Err e \/ exists a w1, m w = Ok (a, w1) /\ f a w1 = Err e.
Proof. unfold mbind, instr_bind. destruct (m w) as [[a w1]|e']; naive_solver. Qed.

Lemma require_err b e w e' : require b e w = Err e' -> b = false /\ e' = e.
Proof. destruct b; [done|]. by intros [= <-]. Qed.

Lemma lift_err {A} (r : Result A) w e : lift r w = Err e -> r = Err e.
Proof. destruct r; [done|]. by intros [= <-]. Qed.

Lemma ok_or_err {A} (o : option A) (e e' : Error) : ok_or o e = Err e' -> o = None /\ e' = e.
Proof. destruct o; [done|]. by intros [= <-]. Qed.

(** The errors of a load and of the seeds are Anchor's. *)
Lemma load_err `{!ProgramIds} T (acc : AnchorAccount T) k w e :
  load T k w = Err e -> exists a, e = EAnchor a.
Proof.
  unfold load. destruct (ledger w !! k) as [[l o d]|]; [|intros [= <-]; by eexists].
  simpl. case_bool_decide; simpl; [destruct (unwrap d)|]; intros [= <-]; by eexists.
Qed.

Lemma constraint_seeds_err `{!SolanaPda} seeds b pid k w e :
  constraint_seeds seeds b pid k w = Err e -> exists a, e = EAnchor a.
Proof.
  unfold constraint_seeds. destruct (create_program_address _ _).
  - intros [_ ->]%require_err. by eexists.
  - unfold fail. intros [= <-]. by eexists.
Qed.

Lemma store_err T (acc : AnchorAccount T) k (x : T) w e : store k x w = Err e -> exists a, e = EAnchor a.
Proof.
  unfold store, with_ledger. destruct (ledger w !! k); [done|]. intros [= <-]. by eexists.
Qed.

Lemma load_none `{!ProgramIds} T (acc : AnchorAccount T) k w :
  ledger w !! k = None -> load T k w = Err (EAnchor AccountNotInitialized).
Proof. intros Hk. unfold load. by rewrite Hk. Qed.

(** Follow a failing instruction to the step that failed. *)
Ltac inv_err :=
  repeat match goal with
  | H : (_ ≫= _) _ = Err _ |- _ => apply instr_bind_err in H as [H|(? & ? & ? & H)]
  | H : require _ _ _ = Err _ |- _ => apply require_err in H as [? H]; try discriminate H
  | H : lift _ _ = Err _ |- _ => apply lift_err in H
  | H : ok_or _ _ = Err _ |- _ => apply ok_or_err in H as [H ?]
  | H : load _ _ _ = Err _ |- _ => apply load_err in H as [? ?]; try discriminate
  | H : constraint_seeds _ _ _ _ _ = Err _ |- _ => apply constraint_seeds_err in H as [? ?]; try discriminate
  | H : store _ _ _ = Err _ |- _ => apply store_err in H as [? ?]; try discriminate
  end.
