(* ===== verification/SplToken.v ===== *)
(** * Token programs

    The two SPL token programs, the associated token program and the Metaplex metadata program, as
    far as ITS uses them: the layouts of their accounts and the instructions it invokes are
    parameters with their documented effects. The rest of the file is Anchor's account attributes
    for mints and token accounts ([InterfaceAccount], [mint::], [token::], [associated_token::]). *)

From stdpp Require Import base gmap list.
From Stdlib Require Import ZArith Lia.
From S2P Require Import Prelude Errors External GatewayState Ledger LedgerLemmas.

(** ** The programs *)

(** The fields of a mint and of a token account that the code reads. *)
Record MintState := mkMint { ms_mint_authority : option Pubkey; ms_supply : Z; ms_decimals : Z }.
Record TokenAccountState := mkToken { ta_mint : Pubkey; ta_owner : Pubkey; ta_amount : Z }.

(** The instructions ITS invokes. *)
Inductive TokenInstruction :=
| MintTo (mint to authority : Pubkey) (amount : Z)
| Burn (mint from authority : Pubkey) (amount : Z)
| TransferChecked (from mint to authority : Pubkey) (amount decimals : Z)
| TransferCheckedWithFee (from mint to authority : Pubkey) (amount decimals fee : Z)
| SetMintAuthority (mint current_authority : Pubkey) (new_authority : option Pubkey)
| InitializeMint2 (mint : Pubkey) (decimals : Z) (mint_authority freeze_authority : Pubkey)
| CreateAssociatedTokenAccount (payer wallet mint : Pubkey)
| CreateMetadataV1 (metadata mint authority payer : Pubkey) (name symbol : bytes).

Class SplToken := {
  spl_token_ID : Pubkey;
  spl_token_2022_ID : Pubkey;
  associated_token_ID : Pubkey;
  token_metadata_ID : Pubkey;
  sysvar_instructions_ID : Pubkey;
  bpf_loader_ID : Pubkey;
  bpf_loader_deprecated_ID : Pubkey;
  loader_v4_ID : Pubkey;
  (** [StateWithExtensions::<Mint>::unpack], [Mint::unpack_from_slice] *)
  mint_unpack : bytes -> option MintState;
  mint_unpack_from_slice : bytes -> option MintState;
  (** [get_extension_types()?.contains(&TransferFeeConfig)] *)
  mint_has_transfer_fee : bytes -> option bool;
  (** [get_extension::<TransferFeeConfig>()] and [calculate_epoch_fee(epoch, amount)] *)
  FeeConfig : Type;
  mint_fee_config : bytes -> option FeeConfig;
  calculate_epoch_fee : FeeConfig -> Z -> Z -> option Z;
  (** [get_extension::<MetadataPointer>()], its address, and the name and symbol of the
      [TokenMetadata] extension *)
  mint_metadata_pointer : bytes -> option (option Pubkey);
  mint_token_metadata : bytes -> option (bytes * bytes);
  (** [Metadata::from_bytes]: mint, name, symbol; [Metadata::find_pda] *)
  metadata_from_bytes : bytes -> option (Pubkey * bytes * bytes);
  metadata_find_pda : Pubkey -> Pubkey;
  MAX_NAME_LENGTH : nat;
  MAX_SYMBOL_LENGTH : nat;
  token_account_unpack : bytes -> option TokenAccountState;
  (** wallet, mint, token program *)
  get_associated_token_address : Pubkey -> Pubkey -> Pubkey -> Pubkey;
  (** bytes of a mint account of the program *)
  mint_space : Z;
  (** [Clock::epoch] at a unix time *)
  clock_epoch : Z -> Z;
  (** the program invoked (the token program, for [CreateAssociatedTokenAccount] too) *)
  token_invoke : Pubkey -> TokenInstruction -> Ledger -> Result Ledger
}.

Section token.
Context {ids : ProgramIds} {spl : SplToken}.

Definition is_token_program (p : Pubkey) : bool :=
  bool_decide (p = spl_token_ID) || bool_decide (p = spl_token_2022_ID).

(** The accounts of one token program. *)
Definition account_bytes (d : AccountData) : option bytes := if d is DOther b then Some b else None.
Definition owned_bytes (L : Ledger) (p k : Pubkey) : option bytes :=
  a ← L !! k; if bool_decide (owner a = p) then account_bytes (data a) else None.
Definition mint_at (L : Ledger) (p k : Pubkey) : option MintState := owned_bytes L p k ≫= mint_unpack.
Definition token_at (L : Ledger) (p k : Pubkey) : option TokenAccountState :=
  owned_bytes L p k ≫= token_account_unpack.

Definition with_supply (m : MintState) (s : Z) : MintState := mkMint (ms_mint_authority m) s (ms_decimals m).
Definition with_authority (m : MintState) (a : option Pubkey) : MintState :=
  mkMint a (ms_supply m) (ms_decimals m).
Definition with_amount (t : TokenAccountState) (n : Z) : TokenAccountState := mkToken (ta_mint t) (ta_owner t) n.

(** The data of the accounts that the programs of this repository own. *)
Definition repository_programs : list Pubkey :=
  [gateway_ID; governance_ID; operators_ID; gas_service_ID; its_ID; memo_ID].
Definition programs_kept (L L' : Ledger) : Prop :=
  forall pid, pid ∈ repository_programs -> omap (owned_data pid) L' = omap (owned_data pid) L.

(** The two mints or token accounts an instruction changes, and nothing else. *)
Definition only_changes (ks : list Pubkey) (L L' : Ledger) : Prop := forall k, k ∉ ks -> L' !! k = L !! k.
End token.

(** Documented behaviour: an account is a mint or a token account; the instructions need the authority of the mint or of the account and
    enough tokens, and move exactly the amount (less the fee of a mint with a transfer fee); a new mint
    has no supply, and the metadata of a fungible token leaves its mint alone; only accounts of the
    token, metadata and system programs change. *)
Class SplTokenLaws `{!ProgramIds, !SplToken} : Prop := {
  mint_not_token b : is_Some (mint_unpack b) -> token_account_unpack b = None;
  token_program_ids p : is_token_program p = true ->
    p ∉ repository_programs /\ p <> system_program_ID;
  token_frame p ix L L' : token_invoke p ix L = Ok L' -> programs_kept L L';
  token_accounts_kept p ix L L' q k : token_invoke p ix L = Ok L' -> is_token_program q = true ->
    is_Some (owned_bytes L q k) -> is_Some (owned_bytes L' q k);
  mint_to_ok p m t au n L L' : token_invoke p (MintTo m t au n) L = Ok L' ->
    exists ms ts, mint_at L p m = Some ms /\ token_at L p t = Some ts /\ ta_mint ts = m /\
      ms_mint_authority ms = Some au /\ 0 <= n /\ ms_supply ms + n < 2 ^ 64 /\
      mint_at L' p m = Some (with_supply ms (ms_supply ms + n)) /\
      token_at L' p t = Some (with_amount ts (ta_amount ts + n)) /\ only_changes [m; t] L L';
  burn_ok p m f au n L L' : token_invoke p (Burn m f au n) L = Ok L' ->
    exists ms fs, mint_at L p m = Some ms /\ token_at L p f = Some fs /\ ta_mint fs = m /\
      0 <= n <= ta_amount fs /\
      mint_at L' p m = Some (with_supply ms (ms_supply ms - n)) /\
      token_at L' p f = Some (with_amount fs (ta_amount fs - n)) /\ only_changes [m; f] L L';
  transfer_checked_ok p f m t au n d L L' : token_invoke p (TransferChecked f m t au n d) L = Ok L' ->
    exists ms fs ts w, mint_at L p m = Some ms /\ token_at L p f = Some fs /\ token_at L p t = Some ts /\
      ta_mint fs = m /\ ta_mint ts = m /\ n <= ta_amount fs /\ 0 <= w <= n /\
      (owned_bytes L p m ≫= mint_has_transfer_fee = Some false -> w = 0) /\
      (f <> t -> token_at L' p f = Some (with_amount fs (ta_amount fs - n)) /\
                 token_at L' p t = Some (with_amount ts (ta_amount ts + n - w))) /\
      (f = t -> L' = L) /\ only_changes [f; t] L L';
  transfer_checked_with_fee_ok p f m t au n d w L L' :
    token_invoke p (TransferCheckedWithFee f m t au n d w) L = Ok L' ->
    exists ms fs ts, mint_at L p m = Some ms /\ token_at L p f = Some fs /\ token_at L p t = Some ts /\
      ta_mint fs = m /\ ta_mint ts = m /\ n <= ta_amount fs /\ 0 <= w <= n /\
      (f <> t -> token_at L' p f = Some (with_amount fs (ta_amount fs - n)) /\
                 token_at L' p t = Some (with_amount ts (ta_amount ts + n - w))) /\
      (f = t -> L' = L) /\ only_changes [f; t] L L';
  set_mint_authority_ok p m cur new L L' : token_invoke p (SetMintAuthority m cur new) L = Ok L' ->
    exists ms, mint_at L p m = Some ms /\ ms_mint_authority ms = Some cur /\
      mint_at L' p m = Some (with_authority ms new) /\ only_changes [m] L L';
  create_associated_ok p payer wallet mint L L' :
    token_invoke p (CreateAssociatedTokenAccount payer wallet mint) L = Ok L' ->
    let k := get_associated_token_address wallet mint p in
    token_at L' p k = Some (mkToken mint wallet 0) /\
    forall q j, is_token_program q = true -> j <> k -> owned_bytes L' q j = owned_bytes L q j;
  initialize_mint_ok p m d au fr L L' : token_invoke p (InitializeMint2 m d au fr) L = Ok L' ->
    mint_at L' p m = Some (mkMint (Some au) 0 d) /\ only_changes [m] L L';
  create_metadata_ok p md m au payer n y L L' : token_invoke p (CreateMetadataV1 md m au payer n y) L = Ok L' ->
    forall q j, is_token_program q = true -> owned_bytes L' q j = owned_bytes L q j
}.

(** ** Account attributes *)

Section attributes.
Context {pda : SolanaPda} {ids : ProgramIds} {system : SolanaSystem} {spl : SplToken}.

Definition token_cpi (p : Pubkey) (ix : TokenInstruction) : Instr unit :=
  with_ledger (fun L => L ← token_invoke p ix L; mret (tt, L)).

(** [Interface<'info, TokenInterface>] *)
Definition token_interface (p : Pubkey) : Instr unit :=
  require (is_token_program p) (EAnchor InvalidProgramId).

(** [InterfaceAccount<'info, T>]: the program that owns it, and its bytes. *)
Definition interface_bytes (k : Pubkey) : Instr (Pubkey * bytes) := fun w =>
  match ledger w !! k with
  | None => Err (EAnchor AccountNotInitialized)
  | Some a =>
    if is_token_program (owner a) then
      match account_bytes (data a) with
      | Some b => Ok (owner a, b, w)
      | None => Err (EAnchor AccountDidNotDeserialize)
      end
    else Err (EAnchor AccountOwnedByWrongProgram)
  end.
Definition load_mint (k : Pubkey) : Instr (Pubkey * MintState) :=
  a ← interface_bytes k;
  m ← lift (ok_or (mint_unpack a.2) (EAnchor AccountDidNotDeserialize));
  mret (a.1, m).
Definition load_token_account (k : Pubkey) : Instr (Pubkey * TokenAccountState) :=
  a ← interface_bytes k;
  t ← lift (ok_or (token_account_unpack a.2) (EAnchor AccountDidNotDeserialize));
  mret (a.1, t).

(** [try_borrow_data] of a mint that was deserialised. *)
Definition mint_data (k : Pubkey) : Instr bytes := a ← interface_bytes k; mret a.2.

(** [mint::token_program = p] *)
Definition mint_token_program (mint_owner p : Pubkey) : Instr unit :=
  require (bool_decide (mint_owner = p)) (EAnchor ConstraintMintTokenProgram).

(** [associated_token::mint, authority, token_program] of an existing account. *)
Definition associated_token (k : Pubkey) (a : Pubkey * TokenAccountState) (mint authority p : Pubkey) : Instr unit :=
  _ ← require (bool_decide (a.1 = p)) (EAnchor ConstraintAssociatedTokenTokenProgram);
  _ ← require (bool_decide (ta_owner a.2 = authority)) (EAnchor ConstraintTokenOwner);
  require (bool_decide (k = get_associated_token_address authority mint p)) (EAnchor ConstraintAssociated).

(** The same with [init_if_needed, payer]: an account the system program still owns is created. *)
Definition associated_token_if_needed (payer k mint authority p : Pubkey) : Instr unit := fun w =>
  (_ ← (if bool_decide (from_option owner system_program_ID (ledger w !! k) = system_program_ID)
        then _ ← require (bool_decide (k = get_associated_token_address authority mint p)) ERuntime;
             token_cpi p (CreateAssociatedTokenAccount payer authority mint)
        else mret tt);
   a ← load_token_account k;
   _ ← require (bool_decide (ta_mint a.2 = mint)) (EAnchor ConstraintTokenMint);
   _ ← require (bool_decide (ta_owner a.2 = authority)) (EAnchor ConstraintTokenOwner);
   _ ← require (bool_decide (a.1 = p)) (EAnchor ConstraintAssociatedTokenTokenProgram);
   require (bool_decide (k = get_associated_token_address authority mint p))
     (EAnchor AccountNotAssociatedTokenAccount)) w.

(** [init, payer, mint::decimals, mint::authority, mint::freeze_authority, mint::token_program,
    seeds, bump]: the account is created for the token program, then initialised. *)
Definition init_mint (payer k : Pubkey) (decimals : Z) (authority p : Pubkey) (seeds : list bytes) : Instr byte :=
  b ← constraint_seeds_find seeds its_ID k;
  _ ← with_ledger (fun L => L ← sys_create_account L payer k mint_space p; mret (tt, L));
  _ ← token_cpi p (InitializeMint2 k decimals authority authority);
  mret b.
End attributes.

(** ** Inversion *)

Section lemmas.
Context {pda : SolanaPda} {ids : ProgramIds} {system : SolanaSystem} {spl : SplToken}.
Context {ids_laws : ProgramIdsLaws} {system_laws : SolanaSystemLaws} {spl_laws : SplTokenLaws}.

Lemma its_in_repository : its_ID ∈ repository_programs.
Proof. unfold repository_programs. set_solver. Qed.
Lemma gateway_in_repository : gateway_ID ∈ repository_programs.
Proof. unfold repository_programs. set_solver. Qed.

Lemma token_cpi_ok p ix w u w' :
  token_cpi p ix w = Ok (u, w') <->
  exists L, token_invoke p ix (ledger w) = Ok L /\ w' = mkWorld L (now w) (log w).
Proof.
  unfold token_cpi, with_ledger. destruct u. destruct (token_invoke _ _ _) as [L|]; simpl; naive_solver.
Qed.

(** A CPI into a token program changes no data of the programs of the repository. *)
Lemma token_cpi_state p ix w u w' pid :
  token_cpi p ix w = Ok (u, w') -> pid ∈ repository_programs ->
  state_of pid w' = state_of pid w /\ now w' = now w /\ log w' = log w.
Proof.
  intros (L & HL & ->)%token_cpi_ok Hp. split_and!; [|done|done]. by apply (token_frame p ix).
Qed.

Lemma interface_bytes_ok k w a w' :
  interface_bytes k w = Ok (a, w') <->
  w' = w /\ is_token_program a.1 = true /\ owned_bytes (ledger w) a.1 k = Some a.2.
Proof.
  unfold interface_bytes, owned_bytes. destruct a as [p b]. simpl.
  destruct (ledger w !! k) as [[l o d]|]; simpl; [|naive_solver].
  destruct (is_token_program o) eqn:Ho.
  - destruct (account_bytes d) eqn:Hd.
    + split; [intros [= -> -> ->]|]; [by rewrite bool_decide_eq_true_2, Ho|].
      intros (-> & _ & H). case_bool_decide; [|done]. congruence.
    + split; [done|]. intros (-> & _ & H). by case_bool_decide.
  - split; [done|]. intros (-> & Hp & H). case_bool_decide; [|done]. congruence.
Qed.

Lemma load_mint_ok k w a w' :
  load_mint k w = Ok (a, w') <->
  w' = w /\ is_token_program a.1 = true /\ mint_at (ledger w) a.1 k = Some a.2.
Proof.
  unfold load_mint, mint_at. rewrite instr_bind_ok. destruct a as [p m]. simpl. split.
  - intros ([q b] & w1 & H & H2). apply interface_bytes_ok in H as (-> & Hp & Hb). simpl in *.
    inv_instr. simplify_eq. by rewrite Hb.
  - intros (-> & Hp & H). apply bind_Some in H as (b & Hb & Hm). exists (p, b), w.
    split; [by apply interface_bytes_ok|]. simpl. rewrite Hm. done.
Qed.

Lemma load_token_account_ok k w a w' :
  load_token_account k w = Ok (a, w') <->
  w' = w /\ is_token_program a.1 = true /\ token_at (ledger w) a.1 k = Some a.2.
Proof.
  unfold load_token_account, token_at. rewrite instr_bind_ok. destruct a as [p m]. simpl. split.
  - intros ([q b] & w1 & H & H2). apply interface_bytes_ok in H as (-> & Hp & Hb). simpl in *.
    inv_instr. simplify_eq. by rewrite Hb.
  - intros (-> & Hp & H). apply bind_Some in H as (b & Hb & Hm). exists (p, b), w.
    split; [by apply interface_bytes_ok|]. simpl. rewrite Hm. done.
Qed.

Lemma mint_data_ok k w b w' :
  mint_data k w = Ok (b, w') <->
  w' = w /\ exists p, is_token_program p = true /\ owned_bytes (ledger w) p k = Some b.
Proof.
  unfold mint_data. rewrite instr_bind_ok. split.
  - intros ([q c] & w1 & H & H2). apply interface_bytes_ok in H as (-> & Hp & Hb). simpl in *.
    inv_instr. naive_solver.
  - intros (-> & p & Hp & H). exists (p, b), w. split; [by apply interface_bytes_ok|done].
Qed.
End lemmas.
