(* ===== verification/Gateway.v ===== *)
(** * Instructions of the gateway program

    programs/solana-axelar-gateway/src/instructions: for each instruction the record of its
    accounts, the checks of its [#[derive(Accounts)]] structure and its handler, composed as the
    entry point does. The two extra accounts of [#[event_cpi]] are left out: [emit_cpi!] appends
    to the log. *)

From stdpp Require Import base gmap list.
From Stdlib Require Import ZArith.
From S2P Require Import Prelude Errors External StdInts StdTypes GatewayState Ledger.

Section gateway.
Context `{!Keccak, !RsMerkle, !Secp256k1, !BitVec, !Bnum, !SolanaPda, !ProgramIds, !SolanaSystem}.
Context `{!Digestable VerifierSetLeaf, !Digestable Message, !Digestable MessageLeaf}.

Definition DISCRIMINATOR_LEN : Z := 8.

(** [seeds = [GatewayConfig::SEED_PREFIX], bump = gateway_root_pda.load()?.bump] *)
Definition gateway_root_seeds (k : Pubkey) : Instr unit :=
  c ← load GatewayConfig.t k;
  constraint_seeds GatewayConfig.pda_seeds (GatewayConfig.bump c) gateway_ID k.

(** ** initialize_config.rs *)

Record InitializeConfig := {
  ic_payer : AccountInfo;
  ic_upgrade_authority : AccountInfo;
  ic_program_data : AccountInfo;
  ic_gateway_root_pda : AccountInfo;
  ic_system_program : Pubkey;
  ic_verifier_set_tracker_pda : AccountInfo
}.

(** The bumps of the two new accounts. *)
Definition initialize_config_accounts (a : InitializeConfig) (params : InitializeConfigParams)
    : Instr (byte * byte) :=
  _ ← signer_account (ic_payer a);
  _ ← signer_account (ic_upgrade_authority a);
  program_data ← load ProgramData (key (ic_program_data a));
  _ ← program_account system_program_ID (ic_system_program a);
  b1 ← init_account GatewayConfig.t (key (ic_payer a)) (key (ic_gateway_root_pda a))
         (DISCRIMINATOR_LEN + 152) GatewayConfig.pda_seeds;
  b2 ← init_account VerifierSetTracker.t (key (ic_payer a)) (key (ic_verifier_set_tracker_pda a))
         (DISCRIMINATOR_LEN + 72)
         (VerifierSetTracker.pda_seeds (ivs_hash (icp_initial_verifier_set params)));
  _ ← constraint_mut (ic_payer a);
  _ ← constraint_seeds_find [arr_bytes gateway_ID] bpf_loader_upgradeable_ID (key (ic_program_data a));
  _ ← require (bool_decide (upgrade_authority_address program_data
                            = Some (key (ic_upgrade_authority a))))
              (EGateway GatewayInvalidUpgradeAuthority);
  _ ← constraint_mut (ic_gateway_root_pda a);
  _ ← constraint_mut (ic_verifier_set_tracker_pda a);
  mret (b1, b2).

Definition initialize_config_handler (a : InitializeConfig) (bumps : byte * byte)
    (params : InitializeConfigParams) : Instr unit :=
  config ← load GatewayConfig.t (key (ic_gateway_root_pda a));
  unix_timestamp ← get_clock;
  last_rotation_timestamp ← lift (ok_or (try_into_uint 64 unix_timestamp) (EGateway InvalidTimestamp));
  _ ← store (key (ic_gateway_root_pda a))
    {| GatewayConfig.current_epoch := U256.from_uint 1;
       GatewayConfig.previous_verifier_set_retention := icp_previous_verifier_retention params;
       GatewayConfig.minimum_rotation_delay := icp_minimum_rotation_delay params;
       GatewayConfig.last_rotation_timestamp := last_rotation_timestamp;
       GatewayConfig.operator := icp_operator params;
       GatewayConfig.domain_separator := icp_domain_separator params;
       GatewayConfig.bump := bumps.1;
       GatewayConfig.padding_ := GatewayConfig.padding_ config |};
  set_tracker ← load VerifierSetTracker.t (key (ic_verifier_set_tracker_pda a));
  store (key (ic_verifier_set_tracker_pda a))
    {| VerifierSetTracker.bump := bumps.2;
       VerifierSetTracker.padding_ := VerifierSetTracker.padding_ set_tracker;
       VerifierSetTracker.epoch := U256.from_uint 1;
       VerifierSetTracker.verifier_set_hash := ivs_hash (icp_initial_verifier_set params) |}.

Definition initialize_config (a : InitializeConfig) (params : InitializeConfigParams) : Instr unit :=
  bumps ← initialize_config_accounts a params;
  initialize_config_handler a bumps params.

(** ** initialize_payload_verification_session.rs *)

Record InitializePayloadVerificationSession := {
  ip_payer : AccountInfo;
  ip_gateway_root_pda : AccountInfo;
  ip_verification_session_account : AccountInfo;
  ip_verifier_set_tracker_pda : AccountInfo;
  ip_system_program : Pubkey
}.

Definition initialize_payload_verification_session_accounts (a : InitializePayloadVerificationSession)
    (merkle_root : array 32) (payload_type : PayloadType) : Instr byte :=
  _ ← signer_account (ip_payer a);
  config ← load GatewayConfig.t (key (ip_gateway_root_pda a));
  tracker ← load VerifierSetTracker.t (key (ip_verifier_set_tracker_pda a));
  _ ← program_account system_program_ID (ip_system_program a);
  b ← init_account Session.t (key (ip_payer a)) (key (ip_verification_session_account a))
        (DISCRIMINATOR_LEN + 96)
        (Session.pda_seeds merkle_root (payload_type_into_u8 payload_type)
           (VerifierSetTracker.verifier_set_hash tracker));
  _ ← constraint_mut (ip_payer a);
  _ ← gateway_root_seeds (key (ip_gateway_root_pda a));
  _ ← constraint_mut (ip_verification_session_account a);
  _ ← constraint_seeds_find (VerifierSetTracker.pda_seeds (VerifierSetTracker.verifier_set_hash tracker))
        gateway_ID (key (ip_verifier_set_tracker_pda a));
  _ ← require (is_ok (GatewayConfig.assert_valid_epoch config (VerifierSetTracker.epoch tracker)))
        (EGateway VerifierSetTooOld);
  mret b.

Definition initialize_payload_verification_session_handler (a : InitializePayloadVerificationSession)
    (b : byte) : Instr unit :=
  session ← load Session.t (key (ip_verification_session_account a));
  tracker ← load VerifierSetTracker.t (key (ip_verifier_set_tracker_pda a));
  let signing_verifier_set_hash := VerifierSetTracker.verifier_set_hash tracker in
  let sv := Session.signature_verification session in
  store (key (ip_verification_session_account a))
    {| Session.signature_verification :=
         {| SignatureVerification.accumulated_threshold := SignatureVerification.accumulated_threshold sv;
            SignatureVerification.signature_slots := SignatureVerification.signature_slots sv;
            SignatureVerification.signing_verifier_set_hash := signing_verifier_set_hash |};
       Session.bump := b;
       Session.pad_ := Session.pad_ session |}.

Definition initialize_payload_verification_session (a : InitializePayloadVerificationSession)
    (merkle_root : array 32) (payload_type : PayloadType) : Instr unit :=
  b ← initialize_payload_verification_session_accounts a merkle_root payload_type;
  initialize_payload_verification_session_handler a b.

(** ** verify_signature.rs *)

Record VerifySignature := {
  vg_gateway_root_pda : AccountInfo;
  vg_verification_session_account : AccountInfo;
  vg_verifier_set_tracker_pda : AccountInfo
}.

Definition verify_signature_accounts (a : VerifySignature) (payload_merkle_root : array 32)
    (verifier_info : SigningVerifierSetInfo) : Instr unit :=
  config ← load GatewayConfig.t (key (vg_gateway_root_pda a));
  session ← load Session.t (key (vg_verification_session_account a));
  tracker ← load VerifierSetTracker.t (key (vg_verifier_set_tracker_pda a));
  _ ← gateway_root_seeds (key (vg_gateway_root_pda a));
  _ ← require (bool_decide (GatewayConfig.domain_separator config
                            = vl_domain_separator (si_leaf verifier_info)))
        (EGateway InvalidDomainSeparator);
  _ ← require (is_ok (GatewayConfig.assert_valid_epoch config (VerifierSetTracker.epoch tracker)))
        (EGateway VerifierSetTooOld);
  _ ← constraint_seeds
        (Session.pda_seeds payload_merkle_root (payload_type_into_u8 (si_payload_type verifier_info))
           (SignatureVerification.signing_verifier_set_hash (Session.signature_verification session)))
        (Session.bump session) gateway_ID (key (vg_verification_session_account a));
  _ ← constraint_mut (vg_verification_session_account a);
  _ ← constraint_seeds_find (VerifierSetTracker.pda_seeds (VerifierSetTracker.verifier_set_hash tracker))
        gateway_ID (key (vg_verifier_set_tracker_pda a));
  mret tt.

Definition verify_signature_handler (a : VerifySignature) (payload_merkle_root : array 32)
    (verifier_info : SigningVerifierSetInfo) : Instr unit :=
  tracker ← load VerifierSetTracker.t (key (vg_verifier_set_tracker_pda a));
  session ← load Session.t (key (vg_verification_session_account a));
  session ← lift (Session.process_signature session payload_merkle_root
                    (VerifierSetTracker.verifier_set_hash tracker) verifier_info);
  store (key (vg_verification_session_account a)) session.

Definition verify_signature (a : VerifySignature) (payload_merkle_root : array 32)
    (verifier_info : SigningVerifierSetInfo) : Instr unit :=
  _ ← verify_signature_accounts a payload_merkle_root verifier_info;
  verify_signature_handler a payload_merkle_root verifier_info.

(** ** approve_message.rs *)

Record ApproveMessage := {
  am_gateway_root_pda : AccountInfo;
  am_funder : AccountInfo;
  am_verification_session_account : AccountInfo;
  am_incoming_message_pda : AccountInfo;
  am_system_program : Pubkey
}.

(** [seeds], [bump] and [is_valid] of the session that approves [payload_merkle_root]. *)
Definition session_constraints (k : Pubkey) (payload_merkle_root : array 32) (payload_type : PayloadType)
    : Instr Session.t :=
  session ← load Session.t k;
  _ ← constraint_seeds
        (Session.pda_seeds payload_merkle_root (payload_type_into_u8 payload_type)
           (SignatureVerification.signing_verifier_set_hash (Session.signature_verification session)))
        (Session.bump session) gateway_ID k;
  _ ← require (Session.is_valid session) (EGateway SigningSessionNotValid);
  mret session.

Definition approve_message_accounts (a : ApproveMessage) (merklized_message : MerklizedMessage)
    (payload_merkle_root : array 32) : Instr byte :=
  _ ← load GatewayConfig.t (key (am_gateway_root_pda a));
  _ ← signer_account (am_funder a);
  _ ← load Session.t (key (am_verification_session_account a));
  _ ← program_account system_program_ID (am_system_program a);
  b ← init_account IncomingMessage.t (key (am_funder a)) (key (am_incoming_message_pda a))
        (DISCRIMINATOR_LEN + 70)
        (IncomingMessage.pda_seeds (command_id (ml_message (mm_leaf merklized_message))));
  _ ← gateway_root_seeds (key (am_gateway_root_pda a));
  _ ← constraint_mut (am_funder a);
  _ ← session_constraints (key (am_verification_session_account a)) payload_merkle_root ApproveMessages;
  _ ← constraint_mut (am_incoming_message_pda a);
  mret b.

Definition approve_message_handler (a : ApproveMessage) (b : byte) (merklized_message : MerklizedMessage)
    (payload_merkle_root : array 32) : Instr unit :=
  let leaf := mm_leaf merklized_message in
  let message := ml_message leaf in
  gateway_config ← load GatewayConfig.t (key (am_gateway_root_pda a));
  incoming_message_pda ← load IncomingMessage.t (key (am_incoming_message_pda a));
  _ ← require (bool_decide (ml_domain_separator leaf = GatewayConfig.domain_separator gateway_config))
        (EGateway InvalidDomainSeparator);
  let lh := leaf_hash leaf in
  let mh := message_hash message in
  proof ← lift (ok_or (proof_from_bytes (mm_proof merklized_message)) (EGateway InvalidMerkleProof));
  _ ← require (proof_verify SolanaHasher proof payload_merkle_root [ml_position leaf] [lh] (ml_set_size leaf))
        (EGateway LeafNodeNotPartOfMerkleRoot);
  let cid := command_id message in
  signing_pda_bump ←
    match pubkey_from_str (destination_address message) with
    | Some destination_address_pubkey =>
      p ← lift (ValidateMessageSigner.find_pda cid destination_address_pubkey); mret p.2
    | None => mret Byte.x00
    end;
  _ ← store (key (am_incoming_message_pda a))
    {| IncomingMessage.bump := b;
       IncomingMessage.signing_pda_bump := signing_pda_bump;
       IncomingMessage.pad_ := IncomingMessage.pad_ incoming_message_pda;
       IncomingMessage.status := MessageStatus.approved;
       IncomingMessage.message_hash := mh;
       IncomingMessage.payload_hash := payload_hash message |};
  emit (EvGateway (MessageApprovedEvent cid (destination_address message) (payload_hash message)
    (chain (cc_id message)) (id (cc_id message)) (source_address message) (destination_chain message))).

Definition approve_message (a : ApproveMessage) (merklized_message : MerklizedMessage)
    (payload_merkle_root : array 32) : Instr unit :=
  b ← approve_message_accounts a merklized_message payload_merkle_root;
  approve_message_handler a b merklized_message payload_merkle_root.

(** ** validate_message.rs *)

Record ValidateMessage := {
  vm_incoming_message_pda : AccountInfo;
  vm_caller : AccountInfo;
  vm_gateway_root_pda : AccountInfo
}.

Definition validate_caller_pda (caller : AccountInfo) (message : Message)
    (incoming_message : IncomingMessage.t) : Result bool :=
  destination_address ← ok_or (pubkey_from_str (destination_address message))
                              (EGateway InvalidDestinationAddress);
  let cid := command_id message in
  expected_signing_pda ← ValidateMessageSigner.create_pda cid
    (IncomingMessage.signing_pda_bump incoming_message) destination_address;
  mret (bool_decide (key caller = expected_signing_pda)).

Definition validate_message_accounts (a : ValidateMessage) (message : Message) : Instr unit :=
  incoming ← load IncomingMessage.t (key (vm_incoming_message_pda a));
  _ ← load GatewayConfig.t (key (vm_gateway_root_pda a));
  _ ← constraint_seeds (IncomingMessage.pda_seeds (command_id message)) (IncomingMessage.bump incoming)
        gateway_ID (key (vm_incoming_message_pda a));
  _ ← constraint_mut (vm_incoming_message_pda a);
  _ ← require (MessageStatus.is_approved (IncomingMessage.status incoming)) (EGateway MessageNotApproved);
  _ ← require (bool_decide (IncomingMessage.message_hash incoming = message_hash message))
        (EGateway InvalidMessageHash);
  _ ← constraint_signer (vm_caller a);
  valid ← lift (validate_caller_pda (vm_caller a) message incoming);
  _ ← require valid (EGateway InvalidSigningPDA);
  gateway_root_seeds (key (vm_gateway_root_pda a)).

Definition validate_message_handler (a : ValidateMessage) (message : Message) : Instr unit :=
  incoming ← load IncomingMessage.t (key (vm_incoming_message_pda a));
  _ ← store (key (vm_incoming_message_pda a))
    {| IncomingMessage.bump := IncomingMessage.bump incoming;
       IncomingMessage.signing_pda_bump := IncomingMessage.signing_pda_bump incoming;
       IncomingMessage.pad_ := IncomingMessage.pad_ incoming;
       IncomingMessage.status := MessageStatus.executed;
       IncomingMessage.message_hash := IncomingMessage.message_hash incoming;
       IncomingMessage.payload_hash := IncomingMessage.payload_hash incoming |};
  destination_address ← lift (ok_or (pubkey_from_str (destination_address message))
                                    (EGateway InvalidDestinationAddress));
  let cid := command_id message in
  emit (EvGateway (MessageExecutedEvent cid destination_address (payload_hash message)
    (chain (cc_id message)) (id (cc_id message)) (source_address message) (destination_chain message))).

Definition validate_message (a : ValidateMessage) (message : Message) : Instr unit :=
  _ ← validate_message_accounts a message;
  validate_message_handler a message.

(** ** rotate_signers.rs *)

Record RotateSigners := {
  rs_gateway_root_pda : AccountInfo;
  rs_verification_session_account : AccountInfo;
  rs_verifier_set_tracker_pda : AccountInfo;
  rs_new_verifier_set_tracker : AccountInfo;
  rs_payer : AccountInfo;
  rs_system_program : Pubkey;
  rs_operator : option AccountInfo
}.

Definition optional_signer (o : option AccountInfo) : Instr unit :=
  match o with Some a => signer_account a | None => mret tt end.

Definition rotate_signers_accounts (a : RotateSigners) (new_verifier_set_merkle_root : array 32)
    : Instr byte :=
  _ ← load GatewayConfig.t (key (rs_gateway_root_pda a));
  session ← load Session.t (key (rs_verification_session_account a));
  tracker ← load VerifierSetTracker.t (key (rs_verifier_set_tracker_pda a));
  _ ← signer_account (rs_payer a);
  _ ← program_account system_program_ID (rs_system_program a);
  _ ← optional_signer (rs_operator a);
  b ← init_account VerifierSetTracker.t (key (rs_payer a)) (key (rs_new_verifier_set_tracker a))
        (DISCRIMINATOR_LEN + 72) (VerifierSetTracker.pda_seeds new_verifier_set_merkle_root);
  _ ← gateway_root_seeds (key (rs_gateway_root_pda a));
  _ ← constraint_mut (rs_gateway_root_pda a);
  session ← session_constraints (key (rs_verification_session_account a)) new_verifier_set_merkle_root
              StdTypes.RotateSigners;
  let signing_verifier_set_hash :=
    SignatureVerification.signing_verifier_set_hash (Session.signature_verification session) in
  _ ← constraint_seeds (VerifierSetTracker.pda_seeds signing_verifier_set_hash)
        (VerifierSetTracker.bump tracker) gateway_ID (key (rs_verifier_set_tracker_pda a));
  _ ← require (bool_decide (VerifierSetTracker.verifier_set_hash tracker = signing_verifier_set_hash))
        (EGateway InvalidVerifierSetTrackerProvided);
  _ ← require (bool_decide (VerifierSetTracker.verifier_set_hash tracker <> new_verifier_set_merkle_root))
        (EGateway DuplicateVerifierSetRotation);
  _ ← constraint_mut (rs_new_verifier_set_tracker a);
  _ ← constraint_mut (rs_payer a);
  mret b.

Definition enough_time_till_next_rotation (current_time : Z) (config : GatewayConfig.t) : Result bool :=
  secs_since_last_rotation ← ok_or (checked_sub current_time (GatewayConfig.last_rotation_timestamp config)) EPanic;
  mret (GatewayConfig.minimum_rotation_delay config <=? secs_since_last_rotation).

(** [operator.is_none_or(..)] *)
Definition enforce_rotation_delay (operator : option AccountInfo) (config : GatewayConfig.t) : bool :=
  match operator with
  | None => true
  | Some o =>
    let operator_matches := bool_decide (key o = GatewayConfig.operator config) in
    let operator_is_signer := is_signer o in
    negb (operator_matches && operator_is_signer)
  end.

Definition rotate_signers_handler (a : RotateSigners) (b : byte) (new_verifier_set_merkle_root : array 32)
    : Instr unit :=
  config ← load GatewayConfig.t (key (rs_gateway_root_pda a));
  tracker ← load VerifierSetTracker.t (key (rs_verifier_set_tracker_pda a));
  let epoch := VerifierSetTracker.epoch tracker in
  _ ← lift (GatewayConfig.assert_valid_epoch config epoch);
  let enforce := enforce_rotation_delay (rs_operator a) config in
  let is_latest := bool_decide (GatewayConfig.current_epoch config = VerifierSetTracker.epoch tracker) in
  _ ← require (negb (enforce && negb is_latest)) (EGateway ProofNotSignedByLatestVerifierSet);
  unix_timestamp ← get_clock;
  current_time ← lift (ok_or (try_into_uint 64 unix_timestamp) (EProgram PE_ArithmeticOverflow));
  not_enough ← if enforce
               then enough ← lift (enough_time_till_next_rotation current_time config); mret (negb enough)
               else mret false;
  _ ← require (negb not_enough) (EGateway RotationCooldownNotDone);
  current_epoch ← lift (ok_or (U256.checked_add (GatewayConfig.current_epoch config) U256.ONE)
                              (EGateway EpochCalculationOverflow));
  _ ← store (key (rs_gateway_root_pda a))
    {| GatewayConfig.current_epoch := current_epoch;
       GatewayConfig.previous_verifier_set_retention := GatewayConfig.previous_verifier_set_retention config;
       GatewayConfig.minimum_rotation_delay := GatewayConfig.minimum_rotation_delay config;
       GatewayConfig.last_rotation_timestamp := current_time;
       GatewayConfig.operator := GatewayConfig.operator config;
       GatewayConfig.domain_separator := GatewayConfig.domain_separator config;
       GatewayConfig.bump := GatewayConfig.bump config;
       GatewayConfig.padding_ := GatewayConfig.padding_ config |};
  new_tracker ← load VerifierSetTracker.t (key (rs_new_verifier_set_tracker a));
  _ ← store (key (rs_new_verifier_set_tracker a))
    {| VerifierSetTracker.bump := b;
       VerifierSetTracker.padding_ := VerifierSetTracker.padding_ new_tracker;
       VerifierSetTracker.epoch := current_epoch;
       VerifierSetTracker.verifier_set_hash := new_verifier_set_merkle_root |};
  emit (EvGateway (VerifierSetRotatedEvent current_epoch new_verifier_set_merkle_root)).

Definition rotate_signers (a : RotateSigners) (new_verifier_set_merkle_root : array 32) : Instr unit :=
  b ← rotate_signers_accounts a new_verifier_set_merkle_root;
  rotate_signers_handler a b new_verifier_set_merkle_root.

(** ** call_contract.rs *)

Record CallContract := {
  cc_caller : AccountInfo;
  cc_signing_pda : option AccountInfo;
  cc_gateway_root_pda : AccountInfo
}.

Definition call_contract_accounts (a : CallContract) : Instr unit :=
  _ ← optional_signer (cc_signing_pda a);
  _ ← load GatewayConfig.t (key (cc_gateway_root_pda a));
  gateway_root_seeds (key (cc_gateway_root_pda a)).

Definition call_contract_handler (a : CallContract) (destination_chain destination_contract_address
    payload : bytes) (signing_pda_bump : byte) : Instr unit :=
  let caller := cc_caller a in
  _ ← (if is_signer caller then mret tt
       else
         expected_signing_pda ← lift (map_err (fun _ => EGateway InvalidSigningPDABump)
           (CallContractSigner.create_pda signing_pda_bump (key caller)));
         pda ← lift (ok_or (cc_signing_pda a) (EGateway InvalidSigningPDA));
         require (bool_decide (key pda = expected_signing_pda)) (EGateway InvalidSigningPDA));
  let payload_hash := keccak_hash payload in
  emit (EvGateway (CallContractEvent (key caller) payload_hash destination_chain
    destination_contract_address payload)).

Definition call_contract (a : CallContract) (destination_chain destination_contract_address
    payload : bytes) (signing_pda_bump : byte) : Instr unit :=
  _ ← call_contract_accounts a;
  call_contract_handler a destination_chain destination_contract_address payload signing_pda_bump.

(** ** transfer_operatorship.rs *)

Record TransferOperatorship := {
  to_gateway_root_pda : AccountInfo;
  to_operator_or_upgrade_authority : AccountInfo;
  to_program_data : AccountInfo;
  to_new_operator : AccountInfo
}.

Definition transfer_operatorship_accounts (a : TransferOperatorship) : Instr unit :=
  config ← load GatewayConfig.t (key (to_gateway_root_pda a));
  _ ← signer_account (to_operator_or_upgrade_authority a);
  program_data ← load ProgramData (key (to_program_data a));
  _ ← gateway_root_seeds (key (to_gateway_root_pda a));
  _ ← constraint_mut (to_gateway_root_pda a);
  _ ← require (bool_decide (GatewayConfig.operator config = key (to_operator_or_upgrade_authority a)) ||
               bool_decide (upgrade_authority_address program_data
                            = Some (key (to_operator_or_upgrade_authority a))))
        (EGateway InvalidOperatorOrAuthorityAccount);
  _ ← constraint_seeds_find [arr_bytes gateway_ID] bpf_loader_upgradeable_ID (key (to_program_data a));
  require (bool_decide (key (to_new_operator a) <> GatewayConfig.operator config))
    (EProgram PE_InvalidInstructionData).

Definition transfer_operatorship_handler (a : TransferOperatorship) : Instr unit :=
  config ← load GatewayConfig.t (key (to_gateway_root_pda a));
  _ ← store (key (to_gateway_root_pda a))
    {| GatewayConfig.current_epoch := GatewayConfig.current_epoch config;
       GatewayConfig.previous_verifier_set_retention := GatewayConfig.previous_verifier_set_retention config;
       GatewayConfig.minimum_rotation_delay := GatewayConfig.minimum_rotation_delay config;
       GatewayConfig.last_rotation_timestamp := GatewayConfig.last_rotation_timestamp config;
       GatewayConfig.operator := key (to_new_operator a);
       GatewayConfig.domain_separator := GatewayConfig.domain_separator config;
       GatewayConfig.bump := GatewayConfig.bump config;
       GatewayConfig.padding_ := GatewayConfig.padding_ config |};
  emit (EvGateway (OperatorshipTransferredEvent (key (to_new_operator a)))).

Definition transfer_operatorship (a : TransferOperatorship) : Instr unit :=
  _ ← transfer_operatorship_accounts a;
  transfer_operatorship_handler a.

(** ** lib.rs: the instructions of [#[program]] and their dispatch *)

Inductive GatewayInstruction :=
| IxCallContract (a : CallContract) (destination_chain destination_contract_address payload : bytes)
    (signing_pda_bump : byte)
| IxInitializeConfig (a : InitializeConfig) (params : InitializeConfigParams)
| IxInitializePayloadVerificationSession (a : InitializePayloadVerificationSession)
    (merkle_root : array 32) (payload_type : PayloadType)
| IxVerifySignature (a : VerifySignature) (payload_merkle_root : array 32)
    (verifier_info : SigningVerifierSetInfo)
| IxApproveMessage (a : ApproveMessage) (merklized_message : MerklizedMessage)
    (payload_merkle_root : array 32)
| IxValidateMessage (a : ValidateMessage) (message : Message)
| IxRotateSigners (a : RotateSigners) (new_verifier_set_merkle_root : array 32)
| IxTransferOperatorship (a : TransferOperatorship).

Definition gateway_entry (ix : GatewayInstruction) : Instr unit :=
  match ix with
  | IxCallContract a dc dca p b => call_contract a dc dca p b
  | IxInitializeConfig a p => initialize_config a p
  | IxInitializePayloadVerificationSession a m t => initialize_payload_verification_session a m t
  | IxVerifySignature a r i => verify_signature a r i
  | IxApproveMessage a m r => approve_message a m r
  | IxValidateMessage a m => validate_message a m
  | IxRotateSigners a r => rotate_signers a r
  | IxTransferOperatorship a => transfer_operatorship a
  end.
End gateway.
