(* ===== verification/GatewayLemmas.v ===== *)
(** * Effects of the gateway's instructions

    For each instruction of [Gateway.v], what a successful run has checked and what it changed,
    over the view [gw w] of the accounts the gateway owns. *)

From stdpp Require Import base gmap list.
From Stdlib Require Import ZArith Lia.
From S2P Require Import Prelude Errors External StdInts StdTypes GatewayState GatewaySession Ledger LedgerLemmas Gateway.

Section effects.
Context {keccak : Keccak} {merkle : RsMerkle} {secp : Secp256k1} {bits : BitVec} {bnum : Bnum}
  {pda : SolanaPda} {ids : ProgramIds} {system : SolanaSystem}.
Context {leaf_digest : Digestable VerifierSetLeaf} {message_digest : Digestable Message}
  {message_leaf_digest : Digestable MessageLeaf}.
Context {ids_laws : ProgramIdsLaws} {system_laws : SolanaSystemLaws}.

Definition gw (w : World) : gmap (array 32) AccountData := state_of gateway_ID w.

Lemma gateway_ne_system : gateway_ID <> system_program_ID.
Proof.
  intros E. pose proof (NoDup_lookup _ 0 6 gateway_ID program_ids_nodup eq_refl) as H.
  specialize (H (f_equal Some (eq_sym E))). done.
Qed.

(** [load], [store] and [init] on accounts of the gateway. *)
Lemma gw_load {T} (acc : AnchorAccount T) k w x w' :
  program_of (T := T) = gateway_ID -> load T k w = Ok (x, w') -> gw w !! k = Some (wrap x) /\ w' = w.
Proof. intros Hp H. apply load_ok in H. unfold gw. by rewrite <- Hp. Qed.

Lemma gw_store {T} (acc : AnchorAccount T) k (x : T) w u w' d :
  store k x w = Ok (u, w') -> gw w !! k = Some d ->
  gw w' = <[k := wrap x]> (gw w) /\ now w' = now w /\ log w' = log w.
Proof. intros H Hd. by destruct (store_ok T acc k x w u w' gateway_ID d H Hd) as (? & _ & ? & ?). Qed.

Lemma gw_init {T} (acc : AnchorAccount T) payer k space seeds w b w' :
  program_of (T := T) = gateway_ID -> init_account T payer k space seeds w = Ok (b, w') ->
  find_program_address seeds gateway_ID = Some (k, b) /\ gw w !! k = None /\
  gw w' = <[k := wrap zeroed_of]> (gw w) /\ now w' = now w /\ log w' = log w.
Proof.
  intros Hp H. pose proof gateway_ne_system.
  apply init_account_ok in H as (Hf & Hn & Hs & _ & Hnow & Hl); [|by rewrite Hp].
  rewrite Hp in *. unfold gw. split_and!; [done|by apply Hn|done..].
Qed.

(** [gateway_root_seeds] and [session_constraints]. *)
Lemma gateway_root_seeds_ok k w u w' :
  gateway_root_seeds k w = Ok (u, w') ->
  exists c, gw w !! k = Some (DGatewayConfig c) /\
    create_program_address (GatewayConfig.pda_seeds ++ [[GatewayConfig.bump c]]) gateway_ID = Some k /\
    w' = w.
Proof. unfold gateway_root_seeds. intros H. inv_instr. by eexists. Qed.

Definition session_seeds_ok (k : Pubkey) (root : array 32) (ty : PayloadType) (s : Session.t) : Prop :=
  create_program_address
    (Session.pda_seeds root (payload_type_into_u8 ty) (set_hash s) ++ [[Session.bump s]]) gateway_ID = Some k.

Lemma session_constraints_ok k root ty w s w' :
  session_constraints k root ty w = Ok (s, w') ->
  gw w !! k = Some (DSession s) /\ session_seeds_ok k root ty s /\ Session.is_valid s = true /\ w' = w.
Proof. unfold session_constraints. intros H. inv_instr. done. Qed.

Lemma optional_signer_ok o w u w' :
  optional_signer o w = Ok (u, w') -> (forall a, o = Some a -> is_signer a = true) /\ w' = w.
Proof. destruct o; simpl; intros H; inv_instr; [|done]. split; [|done]. by intros ? [= <-]. Qed.

(** Invert a run of a gateway instruction: every loaded account as a lookup in [gw], one name per
    account. *)
Ltac gw_norm :=
  cbn [wrap zeroed_of program_of GatewayConfig_account VerifierSetTracker_account
    IncomingMessage_account Session_account ProgramData_account] in *;
  repeat match goal with
  | H : context [state_of gateway_ID ?w] |- _ => change (state_of gateway_ID w) with (gw w) in H
  end;
  repeat match goal with
  | H : gateway_root_seeds _ _ = Ok _ |- _ => apply gateway_root_seeds_ok in H as (? & ? & ? & ->)
  | H : session_constraints _ _ _ _ = Ok _ |- _ => apply session_constraints_ok in H as (? & ? & ? & ->)
  | H : optional_signer _ _ = Ok _ |- _ => apply optional_signer_ok in H as (? & ->)
  end;
  bool_props;
  repeat match goal with
  | H1 : gw ?w !! ?k = Some ?x, H2 : gw ?w !! ?k = Some ?y |- _ =>
    rewrite H1 in H2; first [injection H2 as H2; subst | clear H2]
  | u : unit |- _ => clear u || destruct u
  end.

(** Replace the map after an [init] or a [store] by its value in every lookup, and simplify. *)
Ltac gw_subst E :=
  match type of E with gw ?w = _ =>
    repeat match goal with
    | H : context [gw w] |- _ => assert_fails (constr_eq H E); rewrite E in H
    end; clear E
  end;
  repeat match goal with
  | H : context [<[?k := _]> _ !! ?k] |- _ => rewrite lookup_insert_eq in H
  | H : context [<[?k := _]> _ !! ?j] |- _ => rewrite lookup_insert_ne in H by congruence
  end;
  gw_norm; simplify_eq.

(** ** verify_signature *)

Lemma verify_signature_ok a root info w u w' :
  verify_signature a root info w = Ok (u, w') ->
  exists c s t s', gw w !! key (vg_gateway_root_pda a) = Some (DGatewayConfig c) /\
    gw w !! key (vg_verification_session_account a) = Some (DSession s) /\
    gw w !! key (vg_verifier_set_tracker_pda a) = Some (DVerifierSetTracker t) /\
    GatewayConfig.domain_separator c = vl_domain_separator (si_leaf info) /\
    is_ok (GatewayConfig.assert_valid_epoch c (VerifierSetTracker.epoch t)) = true /\
    session_seeds_ok (key (vg_verification_session_account a)) root (si_payload_type info) s /\
    Session.process_signature s root (VerifierSetTracker.verifier_set_hash t) info = Ok s' /\
    gw w' = <[key (vg_verification_session_account a) := DSession s']> (gw w) /\
    now w' = now w /\ log w' = log w.
Proof.
  unfold verify_signature, verify_signature_accounts, verify_signature_handler. intros H.
  inv_instr. gw_norm.
  match goal with H : store _ _ _ = _ |- _ => eapply gw_store in H as (Hst & Hn & Hl); [|eassumption] end.
  do 4 eexists. split_and!; eauto.
Qed.

(** ** initialize_payload_verification_session *)

Lemma initialize_session_ok a root ty w u w' :
  initialize_payload_verification_session a root ty w = Ok (u, w') ->
  let k := key (ip_verification_session_account a) in
  exists c t b, gw w !! key (ip_gateway_root_pda a) = Some (DGatewayConfig c) /\
    gw w !! key (ip_verifier_set_tracker_pda a) = Some (DVerifierSetTracker t) /\
    is_ok (GatewayConfig.assert_valid_epoch c (VerifierSetTracker.epoch t)) = true /\
    find_program_address (Session.pda_seeds root (payload_type_into_u8 ty)
      (VerifierSetTracker.verifier_set_hash t)) gateway_ID = Some (k, b) /\
    gw w !! k = None /\
    gw w' = <[k := DSession (fresh_session (VerifierSetTracker.verifier_set_hash t) b)]> (gw w) /\
    now w' = now w /\ log w' = log w.
Proof.
  intros H k. subst k. unfold initialize_payload_verification_session,
    initialize_payload_verification_session_accounts,
    initialize_payload_verification_session_handler in H. inv_instr.
  match goal with H : init_account _ _ _ _ _ _ = _ |- _ =>
    apply gw_init in H as (Hf & Hnone & Hgw & Hn & Hl); [|done] end.
  gw_norm.
  match goal with H : store _ _ _ = _ |- _ => eapply gw_store in H as (Hst & Hn' & Hl'); [|eassumption] end.
  set (k := key (ip_verification_session_account a)) in *.
  assert (k <> key (ip_verifier_set_tracker_pda a)) by congruence.
  assert (k <> key (ip_gateway_root_pda a)) by congruence. gw_subst Hgw.
  rewrite insert_insert_eq in Hst.
  do 3 eexists. split_and!; [eassumption..|exact Hst|congruence|congruence].
Qed.

(** ** approve_message *)

Lemma signing_bump_ok cid da w (sb : byte) w' :
  match pubkey_from_str da with
  | Some dest => p ← lift (ValidateMessageSigner.find_pda cid dest); mret p.2
  | None => mret Byte.x00
  end w = Ok (sb, w') ->
  w' = w /\ forall dest, pubkey_from_str da = Some dest ->
    exists p, find_program_address (ValidateMessageSigner.pda_seeds cid) dest = Some (p, sb).
Proof.
  destruct (pubkey_from_str da) as [dest|]; intros H; inv_instr; [|done].
  destruct x as [p b]. split; [done|]. intros ? [= <-]. exists p.
  unfold ValidateMessageSigner.find_pda, find_program_address_or_panic in *. by inv_result.
Qed.

Lemma approve_message_ok a mm root w u w' :
  approve_message a mm root w = Ok (u, w') ->
  let k := key (am_incoming_message_pda a) in
  let m := ml_message (mm_leaf mm) in
  exists c s b sb, gw w !! key (am_gateway_root_pda a) = Some (DGatewayConfig c) /\
    gw w !! key (am_verification_session_account a) = Some (DSession s) /\
    session_seeds_ok (key (am_verification_session_account a)) root StdTypes.ApproveMessages s /\
    Session.is_valid s = true /\
    ml_domain_separator (mm_leaf mm) = GatewayConfig.domain_separator c /\
    leaf_proven SolanaHasher root (mm_proof mm) (mm_leaf mm) (ml_position (mm_leaf mm))
      (ml_set_size (mm_leaf mm)) /\
    (forall dest, pubkey_from_str (destination_address m) = Some dest ->
       exists p, find_program_address (ValidateMessageSigner.pda_seeds (command_id m)) dest = Some (p, sb)) /\
    find_program_address (IncomingMessage.pda_seeds (command_id m)) gateway_ID = Some (k, b) /\
    gw w !! k = None /\
    gw w' = <[k := DIncomingMessage {| IncomingMessage.bump := b; IncomingMessage.signing_pda_bump := sb;
                IncomingMessage.pad_ := arr_zero 3; IncomingMessage.status := MessageStatus.approved;
                IncomingMessage.message_hash := message_hash m;
                IncomingMessage.payload_hash := payload_hash m |}]> (gw w) /\
    now w' = now w /\
    log w' = EvGateway (MessageApprovedEvent (command_id m) (destination_address m) (payload_hash m)
      (chain (cc_id m)) (id (cc_id m)) (source_address m) (destination_chain m)) :: log w.
Proof.
  intros H k m. subst k. unfold approve_message, approve_message_accounts, approve_message_handler in H.
  inv_instr.
  match goal with H : init_account _ _ _ _ _ _ = _ |- _ =>
    apply gw_init in H as (Hf & Hnone & Hgw & Hn & Hl); [|done] end.
  gw_norm. set (k := key (am_incoming_message_pda a)) in *.
  match goal with H : _ = Ok (?sb, _), Hs : store _ _ _ = _ |- _ =>
    apply signing_bump_ok in H as (-> & Hsb) end.
  match goal with H : store _ _ _ = _ |- _ => eapply gw_store in H as (Hst & Hn' & Hl'); [|eassumption] end.
  assert (k <> key (am_gateway_root_pda a)) by congruence.
  assert (k <> key (am_verification_session_account a)) by congruence. gw_subst Hgw.
  rewrite insert_insert_eq in Hst.
  do 4 eexists. split_and!; try eassumption.
  - eexists. eauto.
  - simpl. congruence.
  - simpl. f_equal. congruence.
Qed.

(** ** validate_message *)

Definition executed_of (m : IncomingMessage.t) : IncomingMessage.t :=
  {| IncomingMessage.bump := IncomingMessage.bump m;
     IncomingMessage.signing_pda_bump := IncomingMessage.signing_pda_bump m;
     IncomingMessage.pad_ := IncomingMessage.pad_ m;
     IncomingMessage.status := MessageStatus.executed;
     IncomingMessage.message_hash := IncomingMessage.message_hash m;
     IncomingMessage.payload_hash := IncomingMessage.payload_hash m |}.

Lemma validate_message_ok a m w u w' :
  validate_message a m w = Ok (u, w') ->
  let k := key (vm_incoming_message_pda a) in
  exists inc dest, gw w !! k = Some (DIncomingMessage inc) /\
    create_program_address (IncomingMessage.pda_seeds (command_id m) ++ [[IncomingMessage.bump inc]])
      gateway_ID = Some k /\
    MessageStatus.is_approved (IncomingMessage.status inc) = true /\
    IncomingMessage.message_hash inc = message_hash m /\
    pubkey_from_str (destination_address m) = Some dest /\
    is_signer (vm_caller a) = true /\
    ValidateMessageSigner.create_pda (command_id m) (IncomingMessage.signing_pda_bump inc) dest
      = Ok (key (vm_caller a)) /\
    gw w' = <[k := DIncomingMessage (executed_of inc)]> (gw w) /\
    now w' = now w /\
    log w' = EvGateway (MessageExecutedEvent (command_id m) dest (payload_hash m)
      (chain (cc_id m)) (id (cc_id m)) (source_address m) (destination_chain m)) :: log w.
Proof.
  intros H k. subst k. unfold validate_message, validate_message_accounts, validate_message_handler in H.
  inv_instr. gw_norm. unfold validate_caller_pda in *. inv_result. bool_props.
  match goal with H : store _ _ _ = _ |- _ => eapply gw_store in H as (Hst & Hn & Hl); [|eassumption] end.
  do 2 eexists. split_and!; try eassumption.
  - congruence.
  - simpl. f_equal. done.
Qed.

(** ** rotate_signers *)

Definition rotated_config (c : GatewayConfig.t) (epoch : U256.t) (t : Z) : GatewayConfig.t :=
  {| GatewayConfig.current_epoch := epoch;
     GatewayConfig.previous_verifier_set_retention := GatewayConfig.previous_verifier_set_retention c;
     GatewayConfig.minimum_rotation_delay := GatewayConfig.minimum_rotation_delay c;
     GatewayConfig.last_rotation_timestamp := t;
     GatewayConfig.operator := GatewayConfig.operator c;
     GatewayConfig.domain_separator := GatewayConfig.domain_separator c;
     GatewayConfig.bump := GatewayConfig.bump c;
     GatewayConfig.padding_ := GatewayConfig.padding_ c |}.

Definition new_tracker (b : byte) (epoch : U256.t) (hash : array 32) : VerifierSetTracker.t :=
  {| VerifierSetTracker.bump := b; VerifierSetTracker.padding_ := arr_zero 7;
     VerifierSetTracker.epoch := epoch; VerifierSetTracker.verifier_set_hash := hash |}.

(** The guards of the handler, over the loaded accounts. *)
Record rotation_allowed (c : GatewayConfig.t) (t : VerifierSetTracker.t) (op : option AccountInfo)
    (time : Z) (epoch : U256.t) : Prop := {
  ra_epoch_valid : GatewayConfig.assert_valid_epoch c (VerifierSetTracker.epoch t) = Ok tt;
  ra_latest : enforce_rotation_delay op c = true ->
    GatewayConfig.current_epoch c = VerifierSetTracker.epoch t;
  ra_time : uint 64 time;
  ra_delay : enforce_rotation_delay op c = true ->
    GatewayConfig.last_rotation_timestamp c <= time /\
    GatewayConfig.minimum_rotation_delay c <= time - GatewayConfig.last_rotation_timestamp c;
  ra_next : U256.checked_add (GatewayConfig.current_epoch c) U256.ONE = Some epoch
}.

(** The delay check, as one statement. *)
Lemma rotation_delay_ok (enforce : bool) time c w w' :
  (if enforce then enough ← lift (enough_time_till_next_rotation time c); mret (negb enough)
   else mret false) w = Ok (false, w') ->
  w' = w /\ (enforce = true -> GatewayConfig.last_rotation_timestamp c <= time /\
    GatewayConfig.minimum_rotation_delay c <= time - GatewayConfig.last_rotation_timestamp c).
Proof.
  destruct enforce; intros H; inv_instr; [|done].
  unfold enough_time_till_next_rotation in *. inv_result.
  match goal with H : false = negb _ |- _ => symmetry in H; apply negb_false_iff in H end.
  bool_props. split; [done|]. intros _.
  match goal with H : checked_sub _ _ = _ |- _ => apply checked_sub_some in H as [-> ?] end. lia.
Qed.

Lemma rotate_signers_handler_ok a b root w u w' c t :
  key (rs_new_verifier_set_tracker a) <> key (rs_gateway_root_pda a) ->
  gw w !! key (rs_gateway_root_pda a) = Some (DGatewayConfig c) ->
  gw w !! key (rs_verifier_set_tracker_pda a) = Some (DVerifierSetTracker t) ->
  gw w !! key (rs_new_verifier_set_tracker a) = Some (DVerifierSetTracker VerifierSetTracker.zeroed) ->
  rotate_signers_handler a b root w = Ok (u, w') ->
  exists epoch, rotation_allowed c t (rs_operator a) (now w) epoch /\
    gw w' = <[key (rs_new_verifier_set_tracker a) := DVerifierSetTracker (new_tracker b epoch root)]>
              (<[key (rs_gateway_root_pda a) := DGatewayConfig (rotated_config c epoch (now w))]> (gw w)) /\
    now w' = now w /\ log w' = EvGateway (VerifierSetRotatedEvent epoch root) :: log w.
Proof.
  intros Hne Hc Ht Hnew H. unfold rotate_signers_handler in H. inv_instr. gw_norm.
  match goal with H : (if _ then _ else _) _ = Ok (false, _) |- _ =>
    apply rotation_delay_ok in H as (-> & Hdelay) end.
  repeat match goal with H : try_into_uint _ _ = Some _ |- _ => apply try_into_uint_some in H as [-> ?] end.
  match goal with H : store _ _ ?w0 = Ok (_, ?w1), H2 : store _ _ ?w1 = Ok (_, ?w2) |- _ =>
    eapply gw_store in H as (Hst & Hn & Hl); [|eassumption];
    eapply gw_store in H2 as (Hst2 & Hn2 & Hl2); [|eassumption] end.
  rewrite Hst in Hst2. gw_subst Hst. cbn [wrap VerifierSetTracker_account GatewayConfig_account] in Hst2.
  eexists. split_and!; [split; try eassumption| exact Hst2 |simpl; congruence|simpl; congruence].
  intros He. rewrite He in *. simpl in *.
  match goal with H : negb (bool_decide _) = false |- _ => by apply negb_false_iff, bool_decide_eq_true in H end.
Qed.

Lemma rotate_signers_ok a root w u w' :
  rotate_signers a root w = Ok (u, w') ->
  exists c s t b epoch, gw w !! key (rs_gateway_root_pda a) = Some (DGatewayConfig c) /\
    gw w !! key (rs_verification_session_account a) = Some (DSession s) /\
    gw w !! key (rs_verifier_set_tracker_pda a) = Some (DVerifierSetTracker t) /\
    session_seeds_ok (key (rs_verification_session_account a)) root StdTypes.RotateSigners s /\
    Session.is_valid s = true /\
    VerifierSetTracker.verifier_set_hash t = set_hash s /\ VerifierSetTracker.verifier_set_hash t <> root /\
    (forall o, rs_operator a = Some o -> is_signer o = true) /\
    find_program_address (VerifierSetTracker.pda_seeds root) gateway_ID
      = Some (key (rs_new_verifier_set_tracker a), b) /\
    gw w !! key (rs_new_verifier_set_tracker a) = None /\
    rotation_allowed c t (rs_operator a) (now w) epoch /\
    gw w' = <[key (rs_new_verifier_set_tracker a) := DVerifierSetTracker (new_tracker b epoch root)]>
              (<[key (rs_gateway_root_pda a) := DGatewayConfig (rotated_config c epoch (now w))]> (gw w)) /\
    now w' = now w /\ log w' = EvGateway (VerifierSetRotatedEvent epoch root) :: log w.
Proof.
  intros H. unfold rotate_signers, rotate_signers_accounts in H. inv_instr.
  match goal with H : init_account _ _ _ _ _ _ = _ |- _ =>
    apply gw_init in H as (Hf & Hnone & Hgw & Hn & Hl); [|done] end.
  gw_norm.
  set (kn := key (rs_new_verifier_set_tracker a)) in *.
  assert (kn <> key (rs_gateway_root_pda a)) as Hne by congruence.
  assert (kn <> key (rs_verification_session_account a)) as Hne2 by congruence.
  assert (kn <> key (rs_verifier_set_tracker_pda a)) as Hne3 by congruence.
  match goal with H : rotate_signers_handler _ _ _ _ = _ |- _ =>
    eapply rotate_signers_handler_ok in H as (epoch & Hra & Hgw' & Hn' & Hl'); [|exact Hne|..] end.
  all: try (rewrite Hgw; try rewrite lookup_insert_ne by congruence; try rewrite lookup_insert_eq; eassumption || reflexivity).
  gw_subst Hgw. rewrite Hn in *. do 5 eexists. split_and!; try eassumption; try congruence.
  rewrite Hgw'. fold kn. rewrite (insert_insert_ne (gw w) _ kn) by done. by rewrite insert_insert_eq.
Qed.

(** ** transfer_operatorship, call_contract *)

Lemma transfer_operatorship_ok a w u w' :
  transfer_operatorship a w = Ok (u, w') ->
  exists c pd, gw w !! key (to_gateway_root_pda a) = Some (DGatewayConfig c) /\
    is_signer (to_operator_or_upgrade_authority a) = true /\
    state_of bpf_loader_upgradeable_ID w !! key (to_program_data a) = Some (DProgramData pd) /\
    (exists b, find_program_address [arr_bytes gateway_ID] bpf_loader_upgradeable_ID
      = Some (key (to_program_data a), b)) /\
    (GatewayConfig.operator c = key (to_operator_or_upgrade_authority a) \/
     pd = Some (key (to_operator_or_upgrade_authority a))) /\
    key (to_new_operator a) <> GatewayConfig.operator c /\
    gw w' = <[key (to_gateway_root_pda a) := DGatewayConfig
      {| GatewayConfig.current_epoch := GatewayConfig.current_epoch c;
         GatewayConfig.previous_verifier_set_retention := GatewayConfig.previous_verifier_set_retention c;
         GatewayConfig.minimum_rotation_delay := GatewayConfig.minimum_rotation_delay c;
         GatewayConfig.last_rotation_timestamp := GatewayConfig.last_rotation_timestamp c;
         GatewayConfig.operator := key (to_new_operator a);
         GatewayConfig.domain_separator := GatewayConfig.domain_separator c;
         GatewayConfig.bump := GatewayConfig.bump c;
         GatewayConfig.padding_ := GatewayConfig.padding_ c |}]> (gw w) /\
    now w' = now w /\ log w' = EvGateway (OperatorshipTransferredEvent (key (to_new_operator a))) :: log w.
Proof.
  intros H. unfold transfer_operatorship, transfer_operatorship_accounts, transfer_operatorship_handler in H.
  inv_instr. gw_norm.
  match goal with H : store _ _ _ = _ |- _ => eapply gw_store in H as (Hst & Hn & Hl); [|eassumption] end.
  match goal with H : (_ || _)%bool = true |- _ =>
    apply orb_true_iff in H; rewrite !bool_decide_eq_true in H end.
  do 2 eexists. split_and!; try eassumption; [by eexists|simpl; congruence].
Qed.

Lemma call_contract_ok a dc dca payload b w u w' :
  call_contract a dc dca payload b w = Ok (u, w') ->
  gw w' = gw w /\ now w' = now w /\
  (is_signer (cc_caller a) = true \/
   exists p, cc_signing_pda a = Some p /\ is_signer p = true /\
     create_program_address [CallContractSigner.SEED_PREFIX; [b]] (key (cc_caller a)) = Some (key p)) /\
  log w' = EvGateway (CallContractEvent (key (cc_caller a)) (keccak_hash payload) dc dca payload) :: log w.
Proof.
  intros H. unfold call_contract, call_contract_accounts, call_contract_handler in H.
  inv_instr. gw_norm. destruct (is_signer (cc_caller a)); inv_instr.
  - split_and!; auto.
  - unfold CallContractSigner.create_pda in *. inv_result. bool_props. subst.
    split_and!; auto. right. eexists. split_and!; eauto.
Qed.

(** ** initialize_config *)

Lemma initialize_config_ok a params w u w' :
  initialize_config a params w = Ok (u, w') ->
  exists b1 b2, is_signer (ic_upgrade_authority a) = true /\
    state_of bpf_loader_upgradeable_ID w !! key (ic_program_data a)
      = Some (DProgramData (Some (key (ic_upgrade_authority a)))) /\
    (exists b, find_program_address [arr_bytes gateway_ID] bpf_loader_upgradeable_ID
      = Some (key (ic_program_data a), b)) /\
    find_program_address GatewayConfig.pda_seeds gateway_ID = Some (key (ic_gateway_root_pda a), b1) /\
    find_program_address (VerifierSetTracker.pda_seeds (ivs_hash (icp_initial_verifier_set params)))
      gateway_ID = Some (key (ic_verifier_set_tracker_pda a), b2) /\
    key (ic_gateway_root_pda a) <> key (ic_verifier_set_tracker_pda a) /\
    gw w !! key (ic_gateway_root_pda a) = None /\ gw w !! key (ic_verifier_set_tracker_pda a) = None /\
    uint 64 (now w) /\
    gw w' = <[key (ic_verifier_set_tracker_pda a) := DVerifierSetTracker
                (new_tracker b2 (U256.from_uint 1) (ivs_hash (icp_initial_verifier_set params)))]>
      (<[key (ic_gateway_root_pda a) := DGatewayConfig
           {| GatewayConfig.current_epoch := U256.from_uint 1;
              GatewayConfig.previous_verifier_set_retention := icp_previous_verifier_retention params;
              GatewayConfig.minimum_rotation_delay := icp_minimum_rotation_delay params;
              GatewayConfig.last_rotation_timestamp := now w;
              GatewayConfig.operator := icp_operator params;
              GatewayConfig.domain_separator := icp_domain_separator params;
              GatewayConfig.bump := b1;
              GatewayConfig.padding_ := arr_zero 7 |}]> (gw w)) /\
    now w' = now w /\ log w' = log w.
Proof.
  intros H. unfold initialize_config, initialize_config_accounts, initialize_config_handler in H. inv_instr.
  match goal with H1 : init_account GatewayConfig.t _ _ _ _ _ = _,
                  H2 : init_account VerifierSetTracker.t _ _ _ _ _ = _ |- _ =>
    apply gw_init in H1 as (Hf & Hnone & Hgw & Hn & Hl); [|done];
    apply gw_init in H2 as (Hf2 & Hnone2 & Hgw2 & Hn2 & Hl2); [|done] end.
  gw_norm. set (k1 := key (ic_gateway_root_pda a)) in *.
  set (k2 := key (ic_verifier_set_tracker_pda a)) in *.
  rewrite Hgw in Hnone2, Hgw2. apply lookup_insert_None in Hnone2 as [Hnone2 Hne].
  repeat match goal with H : try_into_uint _ _ = Some _ |- _ => apply try_into_uint_some in H as [-> Hu] end.
  match goal with H : store _ _ ?w0 = Ok (_, ?w1), H2 : store _ _ ?w1 = Ok (_, ?w2) |- _ =>
    eapply gw_store in H as (Hst & Hn3 & Hl3); [|eassumption];
    eapply gw_store in H2 as (Hst2 & Hn4 & Hl4); [|eassumption] end.
  rewrite Hst in Hst2. gw_subst Hst. gw_subst Hgw2.
  cbn [wrap VerifierSetTracker_account GatewayConfig_account fst snd] in Hst2.
  do 2 eexists. split_and!; try eassumption; try congruence; [by eexists|].
  rewrite Hst2, Hn2, Hn, (insert_insert_ne _ k1 k2) by done.
  by rewrite !insert_insert_eq.
Qed.
End effects.
