(* ===== verification/GatewaySpec.v ===== *)
(** * Abstract gateway

    What the gateway promises, as a transition system over four maps (configuration, verifier set
    trackers, incoming messages, sessions), the sequence of emitted events and the clock. Each rule
    carries the conditions under which it may happen. The refinement theorem states that every
    successful instruction of [Gateway.v] is a step of this system. *)

From stdpp Require Import base gmap list.
From Stdlib Require Import ZArith Lia.
From S2P Require Import Prelude Errors External StdInts StdTypes GatewayState GatewaySession Ledger LedgerLemmas Gateway GatewayLemmas.

Record GState := mkGState {
  g_configs : gmap (array 32) GatewayConfig.t;
  g_trackers : gmap (array 32) VerifierSetTracker.t;
  g_messages : gmap (array 32) IncomingMessage.t;
  g_sessions : gmap (array 32) Session.t;
  g_events : list GatewayEvent;                (** newest first *)
  g_time : Z
}.

(** No account of the gateway at this address. *)
Definition fresh_key (s : GState) (k : Pubkey) : Prop :=
  g_configs s !! k = None /\ g_trackers s !! k = None /\ g_messages s !! k = None /\
  g_sessions s !! k = None.

Section spec.
Context {keccak : Keccak} {merkle : RsMerkle} {secp : Secp256k1} {bits : BitVec} {bnum : Bnum}
  {pda : SolanaPda} {ids : ProgramIds} {system : SolanaSystem}.
Context {leaf_digest : Digestable VerifierSetLeaf} {message_digest : Digestable Message}
  {message_leaf_digest : Digestable MessageLeaf}.

Definition approved_event (m : Message) : GatewayEvent :=
  MessageApprovedEvent (command_id m) (destination_address m) (payload_hash m)
    (chain (cc_id m)) (id (cc_id m)) (source_address m) (destination_chain m).
Definition executed_event (m : Message) (dest : Pubkey) : GatewayEvent :=
  MessageExecutedEvent (command_id m) dest (payload_hash m)
    (chain (cc_id m)) (id (cc_id m)) (source_address m) (destination_chain m).

Definition approved_message (m : Message) (b sb : byte) : IncomingMessage.t :=
  {| IncomingMessage.bump := b; IncomingMessage.signing_pda_bump := sb;
     IncomingMessage.pad_ := arr_zero 3; IncomingMessage.status := MessageStatus.approved;
     IncomingMessage.message_hash := message_hash m; IncomingMessage.payload_hash := payload_hash m |}.

Definition initial_config (p : InitializeConfigParams) (t : Z) (b : byte) : GatewayConfig.t :=
  {| GatewayConfig.current_epoch := U256.from_uint 1;
     GatewayConfig.previous_verifier_set_retention := icp_previous_verifier_retention p;
     GatewayConfig.minimum_rotation_delay := icp_minimum_rotation_delay p;
     GatewayConfig.last_rotation_timestamp := t;
     GatewayConfig.operator := icp_operator p;
     GatewayConfig.domain_separator := icp_domain_separator p;
     GatewayConfig.bump := b;
     GatewayConfig.padding_ := arr_zero 7 |}.

Definition with_operator (c : GatewayConfig.t) (o : Pubkey) : GatewayConfig.t :=
  {| GatewayConfig.current_epoch := GatewayConfig.current_epoch c;
     GatewayConfig.previous_verifier_set_retention := GatewayConfig.previous_verifier_set_retention c;
     GatewayConfig.minimum_rotation_delay := GatewayConfig.minimum_rotation_delay c;
     GatewayConfig.last_rotation_timestamp := GatewayConfig.last_rotation_timestamp c;
     GatewayConfig.operator := o;
     GatewayConfig.domain_separator := GatewayConfig.domain_separator c;
     GatewayConfig.bump := GatewayConfig.bump c;
     GatewayConfig.padding_ := GatewayConfig.padding_ c |}.

(** The rules, each labelled by the instruction that performs it; [authority] is the gateway's
    upgrade authority, recorded by the loader. *)
Inductive astep (authority : option Pubkey) : GatewayInstruction -> GState -> GState -> Prop :=
| AInitializeConfig a p s b1 b2 :
    is_signer (ic_upgrade_authority a) = true -> authority = Some (key (ic_upgrade_authority a)) ->
    find_program_address GatewayConfig.pda_seeds gateway_ID = Some (key (ic_gateway_root_pda a), b1) ->
    find_program_address (VerifierSetTracker.pda_seeds (ivs_hash (icp_initial_verifier_set p)))
      gateway_ID = Some (key (ic_verifier_set_tracker_pda a), b2) ->
    fresh_key s (key (ic_gateway_root_pda a)) -> fresh_key s (key (ic_verifier_set_tracker_pda a)) ->
    key (ic_gateway_root_pda a) <> key (ic_verifier_set_tracker_pda a) ->
    uint 64 (g_time s) ->
    astep authority (IxInitializeConfig a p) s
      (mkGState (<[key (ic_gateway_root_pda a) := initial_config p (g_time s) b1]> (g_configs s))
        (<[key (ic_verifier_set_tracker_pda a) := new_tracker b2 (U256.from_uint 1)
             (ivs_hash (icp_initial_verifier_set p))]> (g_trackers s))
        (g_messages s) (g_sessions s) (g_events s) (g_time s))
| AInitializeSession a root ty s c t b :
    g_configs s !! key (ip_gateway_root_pda a) = Some c ->
    g_trackers s !! key (ip_verifier_set_tracker_pda a) = Some t ->
    is_ok (GatewayConfig.assert_valid_epoch c (VerifierSetTracker.epoch t)) = true ->
    find_program_address (Session.pda_seeds root (payload_type_into_u8 ty)
      (VerifierSetTracker.verifier_set_hash t)) gateway_ID
      = Some (key (ip_verification_session_account a), b) ->
    fresh_key s (key (ip_verification_session_account a)) ->
    astep authority (IxInitializePayloadVerificationSession a root ty) s
      (mkGState (g_configs s) (g_trackers s) (g_messages s)
        (<[key (ip_verification_session_account a) :=
             fresh_session (VerifierSetTracker.verifier_set_hash t) b]> (g_sessions s))
        (g_events s) (g_time s))
| AVerifySignature a root info s c x t x' :
    g_configs s !! key (vg_gateway_root_pda a) = Some c ->
    g_sessions s !! key (vg_verification_session_account a) = Some x ->
    g_trackers s !! key (vg_verifier_set_tracker_pda a) = Some t ->
    GatewayConfig.domain_separator c = vl_domain_separator (si_leaf info) ->
    is_ok (GatewayConfig.assert_valid_epoch c (VerifierSetTracker.epoch t)) = true ->
    session_seeds_ok (key (vg_verification_session_account a)) root (si_payload_type info) x ->
    Session.process_signature x root (VerifierSetTracker.verifier_set_hash t) info = Ok x' ->
    astep authority (IxVerifySignature a root info) s
      (mkGState (g_configs s) (g_trackers s) (g_messages s)
        (<[key (vg_verification_session_account a) := x']> (g_sessions s)) (g_events s) (g_time s))
| AApproveMessage a mm root s c x b sb :
    let m := ml_message (mm_leaf mm) in
    g_configs s !! key (am_gateway_root_pda a) = Some c ->
    g_sessions s !! key (am_verification_session_account a) = Some x ->
    session_seeds_ok (key (am_verification_session_account a)) root StdTypes.ApproveMessages x ->
    Session.is_valid x = true ->
    ml_domain_separator (mm_leaf mm) = GatewayConfig.domain_separator c ->
    leaf_proven SolanaHasher root (mm_proof mm) (mm_leaf mm) (ml_position (mm_leaf mm))
      (ml_set_size (mm_leaf mm)) ->
    find_program_address (IncomingMessage.pda_seeds (command_id m)) gateway_ID
      = Some (key (am_incoming_message_pda a), b) ->
    fresh_key s (key (am_incoming_message_pda a)) ->
    astep authority (IxApproveMessage a mm root) s
      (mkGState (g_configs s) (g_trackers s)
        (<[key (am_incoming_message_pda a) := approved_message m b sb]> (g_messages s))
        (g_sessions s) (approved_event m :: g_events s) (g_time s))
| AValidateMessage a m s inc dest :
    g_messages s !! key (vm_incoming_message_pda a) = Some inc ->
    create_program_address (IncomingMessage.pda_seeds (command_id m) ++ [[IncomingMessage.bump inc]])
      gateway_ID = Some (key (vm_incoming_message_pda a)) ->
    MessageStatus.is_approved (IncomingMessage.status inc) = true ->
    IncomingMessage.message_hash inc = message_hash m ->
    pubkey_from_str (destination_address m) = Some dest ->
    is_signer (vm_caller a) = true ->
    ValidateMessageSigner.create_pda (command_id m) (IncomingMessage.signing_pda_bump inc) dest
      = Ok (key (vm_caller a)) ->
    astep authority (IxValidateMessage a m) s
      (mkGState (g_configs s) (g_trackers s)
        (<[key (vm_incoming_message_pda a) := executed_of inc]> (g_messages s))
        (g_sessions s) (executed_event m dest :: g_events s) (g_time s))
| ARotateSigners a root s c x t b epoch :
    g_configs s !! key (rs_gateway_root_pda a) = Some c ->
    g_sessions s !! key (rs_verification_session_account a) = Some x ->
    g_trackers s !! key (rs_verifier_set_tracker_pda a) = Some t ->
    session_seeds_ok (key (rs_verification_session_account a)) root StdTypes.RotateSigners x ->
    Session.is_valid x = true ->
    VerifierSetTracker.verifier_set_hash t = set_hash x -> VerifierSetTracker.verifier_set_hash t <> root ->
    (forall o, rs_operator a = Some o -> is_signer o = true) ->
    find_program_address (VerifierSetTracker.pda_seeds root) gateway_ID
      = Some (key (rs_new_verifier_set_tracker a), b) ->
    fresh_key s (key (rs_new_verifier_set_tracker a)) ->
    rotation_allowed c t (rs_operator a) (g_time s) epoch ->
    astep authority (IxRotateSigners a root) s
      (mkGState (<[key (rs_gateway_root_pda a) := rotated_config c epoch (g_time s)]> (g_configs s))
        (<[key (rs_new_verifier_set_tracker a) := new_tracker b epoch root]> (g_trackers s))
        (g_messages s) (g_sessions s) (VerifierSetRotatedEvent epoch root :: g_events s) (g_time s))
| ATransferOperatorship a s c :
    g_configs s !! key (to_gateway_root_pda a) = Some c ->
    is_signer (to_operator_or_upgrade_authority a) = true ->
    GatewayConfig.operator c = key (to_operator_or_upgrade_authority a) \/
      authority = Some (key (to_operator_or_upgrade_authority a)) ->
    key (to_new_operator a) <> GatewayConfig.operator c ->
    astep authority (IxTransferOperatorship a) s
      (mkGState (<[key (to_gateway_root_pda a) := with_operator c (key (to_new_operator a))]> (g_configs s))
        (g_trackers s) (g_messages s) (g_sessions s)
        (OperatorshipTransferredEvent (key (to_new_operator a)) :: g_events s) (g_time s))
| ACallContract a dc dca payload b s :
    is_signer (cc_caller a) = true \/
      (exists p, cc_signing_pda a = Some p /\ is_signer p = true /\
        create_program_address [CallContractSigner.SEED_PREFIX; [b]] (key (cc_caller a)) = Some (key p)) ->
    astep authority (IxCallContract a dc dca payload b) s
      (mkGState (g_configs s) (g_trackers s) (g_messages s) (g_sessions s)
        (CallContractEvent (key (cc_caller a)) (keccak_hash payload) dc dca payload :: g_events s)
        (g_time s)).

(** The authority that the loader's account of the gateway program names. *)
Definition upgrade_authority (w : World) : option Pubkey :=
  p ← find_program_address [arr_bytes gateway_ID] bpf_loader_upgradeable_ID;
  d ← state_of bpf_loader_upgradeable_ID w !! p.1;
  match d with DProgramData a => a | _ => None end.

(** ** The abstraction function *)

Definition gateway_events (l : list Event) : list GatewayEvent :=
  omap (fun e => if e is EvGateway g then Some g else None) l.

Definition abs (w : World) : GState :=
  mkGState (view _ GatewayConfig_account (gw w)) (view _ VerifierSetTracker_account (gw w))
    (view _ IncomingMessage_account (gw w)) (view _ Session_account (gw w))
    (gateway_events (log w)) (now w).

Lemma gw_fresh_key w k : gw w !! k = None -> fresh_key (abs w) k.
Proof. intros H. unfold fresh_key, abs. simpl. by rewrite !view_lookup_None. Qed.

Lemma events_cons g l : gateway_events (EvGateway g :: l) = g :: gateway_events l.
Proof. done. Qed.
End spec.

Section refinement.
Context {keccak : Keccak} {merkle : RsMerkle} {secp : Secp256k1} {bits : BitVec} {bnum : Bnum}
  {pda : SolanaPda} {ids : ProgramIds} {system : SolanaSystem}.
Context {leaf_digest : Digestable VerifierSetLeaf} {message_digest : Digestable Message}
  {message_leaf_digest : Digestable MessageLeaf}.
Context {ids_laws : ProgramIdsLaws} {system_laws : SolanaSystemLaws}.

(** The abstraction of a world whose gateway accounts are [m]. *)
Definition absm (m : gmap (array 32) AccountData) (l : list Event) (t : Z) : GState :=
  mkGState (view _ GatewayConfig_account m) (view _ VerifierSetTracker_account m)
    (view _ IncomingMessage_account m) (view _ Session_account m) (gateway_events l) t.

Lemma abs_eq w m l t : gw w = m -> log w = l -> now w = t -> abs w = absm m l t.
Proof. by intros <- <- <-. Qed.

(** The address [k] is free or holds an account of type [T]. *)
Definition holds (T : Type) (acc : AnchorAccount T) (m : gmap (array 32) AccountData) (k : Pubkey) : Prop :=
  m !! k = None \/ exists x : T, m !! k = Some (wrap x).

Lemma holds_other T acc T' (acc' : AnchorAccount T') m k :
  holds T acc m k -> (forall x : T, unwrap (T := T') (wrap x) = None) -> view T' acc' m !! k = None.
Proof. intros [H|[x H]] Hw; [by apply view_lookup_None|eapply view_other; [exact H|apply Hw]]. Qed.

(** An insertion changes the view of its own type and no other. *)
Ltac insert_view := intros Hk; unfold absm; f_equal;
  first [ apply view_insert
        | apply view_insert_other; [done|];
          match goal with |- view ?T ?acc _ !! _ = None =>
            exact (holds_other _ _ T acc _ _ Hk (fun _ => eq_refl)) end ].

Lemma absm_config m l t k c : holds _ GatewayConfig_account m k ->
  absm (<[k := DGatewayConfig c]> m) l t = let s := absm m l t in
  mkGState (<[k := c]> (g_configs s)) (g_trackers s) (g_messages s) (g_sessions s) (g_events s) t.
Proof. insert_view. Qed.

Lemma absm_tracker m l t k c : holds _ VerifierSetTracker_account m k ->
  absm (<[k := DVerifierSetTracker c]> m) l t = let s := absm m l t in
  mkGState (g_configs s) (<[k := c]> (g_trackers s)) (g_messages s) (g_sessions s) (g_events s) t.
Proof. insert_view. Qed.

Lemma absm_message m l t k c : holds _ IncomingMessage_account m k ->
  absm (<[k := DIncomingMessage c]> m) l t = let s := absm m l t in
  mkGState (g_configs s) (g_trackers s) (<[k := c]> (g_messages s)) (g_sessions s) (g_events s) t.
Proof. insert_view. Qed.

Lemma absm_session m l t k c : holds _ Session_account m k ->
  absm (<[k := DSession c]> m) l t = let s := absm m l t in
  mkGState (g_configs s) (g_trackers s) (g_messages s) (<[k := c]> (g_sessions s)) (g_events s) t.
Proof. insert_view. Qed.

Lemma absm_event m l t g : absm m (EvGateway g :: l) t = let s := absm m l t in
  mkGState (g_configs s) (g_trackers s) (g_messages s) (g_sessions s) (g :: g_events s) t.
Proof. done. Qed.

Lemma holds_free T acc m k : m !! k = None -> holds T acc m k.
Proof. by left. Qed.
Lemma holds_same T (acc : AnchorAccount T) m k x : m !! k = Some (wrap x) -> holds T acc m k.
Proof. right. by exists x. Qed.
Lemma holds_insert T acc m k j d : k <> j -> m !! j = None -> holds T acc (<[k := d]> m) j.
Proof. intros H Hn. left. by rewrite lookup_insert_ne. Qed.

Lemma abs_config w k c : gw w !! k = Some (DGatewayConfig c) <-> g_configs (abs w) !! k = Some c.
Proof. symmetry. apply (view_lookup _ GatewayConfig_account). Qed.
Lemma abs_tracker w k c : gw w !! k = Some (DVerifierSetTracker c) <-> g_trackers (abs w) !! k = Some c.
Proof. symmetry. apply (view_lookup _ VerifierSetTracker_account). Qed.
Lemma abs_message w k c : gw w !! k = Some (DIncomingMessage c) <-> g_messages (abs w) !! k = Some c.
Proof. symmetry. apply (view_lookup _ IncomingMessage_account). Qed.
Lemma abs_session w k c : gw w !! k = Some (DSession c) <-> g_sessions (abs w) !! k = Some c.
Proof. symmetry. apply (view_lookup _ Session_account). Qed.

Lemma upgrade_authority_eq w k b a :
  find_program_address [arr_bytes gateway_ID] bpf_loader_upgradeable_ID = Some (k, b) ->
  state_of bpf_loader_upgradeable_ID w !! k = Some (DProgramData a) -> upgrade_authority w = a.
Proof. intros Hf Hk. unfold upgrade_authority. rewrite Hf. simpl. by rewrite Hk. Qed.

(** The conditions of the four lemmas, from the looked-up accounts. *)
Ltac holds_tac :=
  match goal with
  | |- holds ?T ?acc (<[_ := _]> _) _ => apply (holds_insert T acc); congruence
  | |- holds ?T ?acc _ _ => first [by apply (holds_free T acc) | by eapply (holds_same T acc)]
  end.

Ltac absm_simpl :=
  cbv zeta; cbn [g_configs g_trackers g_messages g_sessions g_events g_time];
  repeat match goal with
  | |- context [absm (gw ?w) (log ?w) (now ?w)] => change (absm (gw w) (log w) (now w)) with (abs w)
  end.

Lemma gateway_entry_astep ix w u w' :
  gateway_entry ix w = Ok (u, w') -> astep (upgrade_authority w) ix (abs w) (abs w').
Proof.
  intros Hrun. destruct ix; simpl in Hrun.
  - apply call_contract_ok in Hrun as (Hg & Hn & Hauth & Hl).
    rewrite (abs_eq w' _ _ _ Hg Hl Hn). by apply ACallContract.
  - apply initialize_config_ok in Hrun
      as (b1 & b2 & Hsig & Hpd & [b0 Hf0] & Hf1 & Hf2 & Hne & Hk1 & Hk2 & Hu & Hg & Hn & Hl).
    rewrite (abs_eq w' _ _ _ Hg Hl Hn).
    rewrite absm_tracker, absm_config by holds_tac.
    apply (upgrade_authority_eq _ _ _ _ Hf0) in Hpd. absm_simpl. apply AInitializeConfig; auto using gw_fresh_key.
  - apply initialize_session_ok in Hrun as (c & t & b & Hc & Ht & Hv & Hf & Hk & Hg & Hn & Hl).
    rewrite (abs_eq w' _ _ _ Hg Hl Hn), absm_session by holds_tac.
    absm_simpl. eapply AInitializeSession; try by (eassumption || apply gw_fresh_key || apply abs_config || apply abs_tracker || apply abs_session).
  - apply verify_signature_ok in Hrun as (c & s & t & s' & Hc & Hs & Ht & Hd & Hv & Hk & Hp & Hg & Hn & Hl).
    rewrite (abs_eq w' _ _ _ Hg Hl Hn), absm_session by holds_tac.
    absm_simpl. eapply AVerifySignature; try by (eassumption || apply abs_config || apply abs_tracker || apply abs_session || apply abs_message).
  - apply approve_message_ok in Hrun
      as (c & s & b & sb & Hc & Hs & Hk & Hv & Hd & Hp & _ & Hf & Hfr & Hg & Hn & Hl).
    rewrite (abs_eq w' _ _ _ Hg Hl Hn), absm_message, absm_event by holds_tac.
    absm_simpl. eapply AApproveMessage; try by (eassumption || apply gw_fresh_key || apply abs_config || apply abs_tracker || apply abs_session).
  - apply validate_message_ok in Hrun
      as (inc & dest & Hi & Hk & Ha & Hh & Hd & Hs & Hc & Hg & Hn & Hl).
    rewrite (abs_eq w' _ _ _ Hg Hl Hn), absm_message, absm_event by holds_tac.
    absm_simpl. eapply AValidateMessage; try by (eassumption || apply abs_config || apply abs_tracker || apply abs_session || apply abs_message).
  - apply rotate_signers_ok in Hrun
      as (c & s & t & b & e & Hc & Hs & Ht & Hk & Hv & Hh & Hr & Ho & Hf & Hfr & Ha & Hg & Hn & Hl).
    rewrite (abs_eq w' _ _ _ Hg Hl Hn).
    rewrite absm_tracker, absm_config, absm_event by holds_tac.
    absm_simpl. eapply ARotateSigners; try by (eassumption || apply gw_fresh_key || apply abs_config || apply abs_tracker || apply abs_session).
  - apply transfer_operatorship_ok in Hrun as (c & pd & Hc & Hs & Hpd & [b0 Hf0] & Ho & Hne & Hg & Hn & Hl).
    apply (upgrade_authority_eq _ _ _ _ Hf0) in Hpd as <-.
    rewrite (abs_eq w' _ _ _ Hg Hl Hn), absm_config, absm_event by holds_tac.
    absm_simpl. eapply ATransferOperatorship; try by (eassumption || apply abs_config || apply abs_tracker || apply abs_session || apply abs_message).
Qed.

(** C8: The gateway refines its abstract system: every instruction that succeeds on a world is a
    step of the abstract gateway between the abstractions of the two worlds, under the rule of
    that instruction and with exactly the effect that rule states; in particular the maps of the
    other account types, and all other accounts of the gateway, are left as they were. *)
Theorem gateway_refines_spec ix w u w' (Hrun : gateway_entry ix w = Ok (u, w')) :
  astep (upgrade_authority w) ix (abs w) (abs w').
Proof. by eapply gateway_entry_astep. Qed.
End refinement.
