(* ===== verification/GatewaySafety.v ===== *)
(** * Safety of the gateway

    Invariants of the worlds that sequences of gateway instructions reach, with everything other
    programs may do in between: the epochs of the verifier sets, the life of a message, and the
    signatures behind every session. The invariants are proved on the abstract gateway of
    [GatewaySpec.v] and carried to the program by its refinement lemma. *)

From stdpp Require Import base gmap list sets.
From Stdlib Require Import ZArith Lia.
From S2P Require Import Prelude Errors External StdInts StdTypes GatewayState GatewaySession Ledger LedgerLemmas Gateway GatewayLemmas GatewaySpec.

Section safety.
Context {keccak : Keccak} {merkle : RsMerkle} {secp : Secp256k1} {bits : BitVec} {bnum : Bnum}
  {pda : SolanaPda} {ids : ProgramIds} {system : SolanaSystem}.
Context {leaf_digest : Digestable VerifierSetLeaf} {message_digest : Digestable Message}
  {message_leaf_digest : Digestable MessageLeaf}.
Context {bnum_laws : BnumLaws} {pda_laws : SolanaPdaLaws} {bits_laws : BitVecLaws}.

(** The instructions that are ever submitted. *)
Variable submitted : GatewayInstruction -> Prop.

(** The abstract gateway with the passage of time. *)
Inductive greachable : GState -> Prop :=
| greach_init t : greachable (mkGState ∅ ∅ ∅ ∅ [] t)
| greach_step authority ix s s' :
    greachable s -> submitted ix -> astep authority ix s s' -> greachable s'
| greach_time s t :
    greachable s -> g_time s <= t ->
    greachable (mkGState (g_configs s) (g_trackers s) (g_messages s) (g_sessions s) (g_events s) t).

(** ** Epochs *)

(** Two addresses found for the same seeds are one. *)
Lemma find_eq seeds pid k1 b1 k2 b2 :
  find_program_address seeds pid = Some (k1, b1) -> find_program_address seeds pid = Some (k2, b2) ->
  k1 = k2 /\ b1 = b2.
Proof. intros H1 H2. rewrite H1 in H2. by simplify_eq. Qed.

Definition epoch_of (t : VerifierSetTracker.t) : Z := U256.val (VerifierSetTracker.epoch t).
Definition current_epoch_of (c : GatewayConfig.t) : Z := U256.val (GatewayConfig.current_epoch c).

Record config_ok (time : Z) (k : Pubkey) (c : GatewayConfig.t) : Prop := {
  co_address : find_program_address GatewayConfig.pda_seeds gateway_ID = Some (k, GatewayConfig.bump c);
  co_wf : U256.wf (GatewayConfig.current_epoch c);
  co_epoch : 1 <= current_epoch_of c;
  co_rotation : 0 <= GatewayConfig.last_rotation_timestamp c <= time
}.

Record tracker_ok (k : Pubkey) (t : VerifierSetTracker.t) : Prop := {
  to_address : find_program_address (VerifierSetTracker.pda_seeds (VerifierSetTracker.verifier_set_hash t))
    gateway_ID = Some (k, VerifierSetTracker.bump t);
  to_wf : U256.wf (VerifierSetTracker.epoch t)
}.

(** The epochs 1 to the current one each belong to exactly one tracker, and no tracker has
    another epoch. *)
Record epoch_inv (s : GState) : Prop := {
  ei_config k c : g_configs s !! k = Some c -> config_ok (g_time s) k c;
  ei_tracker k t : g_trackers s !! k = Some t -> tracker_ok k t;
  ei_bound k t : g_trackers s !! k = Some t ->
    exists kc c, g_configs s !! kc = Some c /\ 1 <= epoch_of t <= current_epoch_of c;
  ei_unique k1 k2 t1 t2 : g_trackers s !! k1 = Some t1 -> g_trackers s !! k2 = Some t2 ->
    epoch_of t1 = epoch_of t2 -> k1 = k2;
  ei_complete kc c e : g_configs s !! kc = Some c -> 1 <= e <= current_epoch_of c ->
    exists k t, g_trackers s !! k = Some t /\ epoch_of t = e
}.

Lemma config_unique s k1 k2 c1 c2 :
  epoch_inv s -> g_configs s !! k1 = Some c1 -> g_configs s !! k2 = Some c2 -> k1 = k2.
Proof.
  intros Hi H1 H2. apply (ei_config _ Hi) in H1 as [H1 _ _ _], H2 as [H2 _ _ _].
  by destruct (find_eq _ _ _ _ _ _ H1 H2).
Qed.

Lemma first_epoch : U256.wf (U256.from_uint 1) /\ U256.val (U256.from_uint 1) = 1.
Proof. destruct (U256.val_from_uint 1); [unfold uint; lia|done]. Qed.

Lemma next_epoch c epoch :
  U256.wf (GatewayConfig.current_epoch c) ->
  U256.checked_add (GatewayConfig.current_epoch c) U256.ONE = Some epoch ->
  U256.wf epoch /\ U256.val epoch = current_epoch_of c + 1.
Proof.
  intros Hw H. apply U256.checked_add_spec in H; [done..|]. unfold U256.wf, u64x4_wf, uint.
  simpl. lia.
Qed.

(** A step that leaves the trackers, and each configuration's epoch, alone. *)
Lemma epoch_inv_frame s s' :
  epoch_inv s -> g_trackers s' = g_trackers s ->
  (forall k c', g_configs s' !! k = Some c' -> config_ok (g_time s') k c' /\
     exists c, g_configs s !! k = Some c /\ current_epoch_of c' = current_epoch_of c) ->
  (forall k c, g_configs s !! k = Some c -> exists c', g_configs s' !! k = Some c') ->
  epoch_inv s'.
Proof.
  intros Hi Ht Hc Hc'. split; rewrite ?Ht.
  - intros k c Hk. by apply Hc.
  - apply (ei_tracker _ Hi).
  - intros k t Hk. destruct (ei_bound _ Hi _ _ Hk) as (kc & c & Hkc & Hb).
    destruct (Hc' _ _ Hkc) as [c' Hkc']. exists kc, c'. split; [done|].
    destruct (Hc _ _ Hkc') as (_ & c2 & Hk2 & He). rewrite Hkc in Hk2. injection Hk2 as <-. lia.
  - apply (ei_unique _ Hi).
  - intros kc c' e Hkc He. destruct (Hc _ _ Hkc) as (_ & c & Hk & Heq).
    apply (ei_complete _ Hi kc c); [done|lia].
Qed.

Lemma no_config s k b : epoch_inv s ->
  find_program_address GatewayConfig.pda_seeds gateway_ID = Some (k, b) -> g_configs s !! k = None ->
  g_configs s = ∅.
Proof.
  intros Hi Hf Hfresh. apply map_empty. intros k'. destruct (g_configs s !! k') as [c|] eqn:Hk; [|done].
  destruct (find_eq _ _ _ _ _ _ (co_address _ _ _ (ei_config _ Hi _ _ Hk)) Hf) as [-> _]. congruence.
Qed.

Lemma epoch_inv_initialize s k1 k2 p b1 b2 :
  epoch_inv s -> uint 64 (g_time s) ->
  find_program_address GatewayConfig.pda_seeds gateway_ID = Some (k1, b1) ->
  find_program_address (VerifierSetTracker.pda_seeds (ivs_hash (icp_initial_verifier_set p)))
    gateway_ID = Some (k2, b2) ->
  g_configs s !! k1 = None ->
  epoch_inv (mkGState (<[k1 := initial_config p (g_time s) b1]> (g_configs s))
    (<[k2 := new_tracker b2 (U256.from_uint 1) (ivs_hash (icp_initial_verifier_set p))]> (g_trackers s))
    (g_messages s) (g_sessions s) (g_events s) (g_time s)).
Proof.
  intros Hi Htime Hf1 Hf2 Hfresh. destruct first_epoch as [Hwf Hval].
  pose proof (no_config _ _ _ Hi Hf1 Hfresh) as Hc.
  assert (g_trackers s = ∅) as Ht.
  { apply map_empty. intros k. destruct (g_trackers s !! k) as [t|] eqn:Hk; [|done].
    destruct (ei_bound _ Hi _ _ Hk) as (kc & c & Hkc & _). by rewrite Hc, lookup_empty in Hkc. }
  rewrite Hc, Ht. unfold uint in Htime. split; simpl.
  - intros k c [<- <-]%lookup_singleton_Some. split; [done|done| |simpl; lia].
    unfold current_epoch_of. simpl. lia.
  - intros k t [<- <-]%lookup_singleton_Some. done.
  - intros k t [<- <-]%lookup_singleton_Some. exists k1. eexists. rewrite lookup_insert_eq.
    split; [done|]. unfold epoch_of, current_epoch_of. simpl. lia.
  - intros ???? [<- _]%lookup_singleton_Some [<- _]%lookup_singleton_Some. done.
  - intros kc c e [<- <-]%lookup_singleton_Some. unfold current_epoch_of. simpl. intros He.
    exists k2. eexists. rewrite lookup_insert_eq. split; [done|]. unfold epoch_of. simpl. lia.
Qed.

Lemma epoch_inv_rotate s kc kn c t op b epoch root evs :
  epoch_inv s -> g_configs s !! kc = Some c ->
  find_program_address (VerifierSetTracker.pda_seeds root) gateway_ID = Some (kn, b) ->
  g_trackers s !! kn = None -> rotation_allowed c t op (g_time s) epoch ->
  epoch_inv (mkGState (<[kc := rotated_config c epoch (g_time s)]> (g_configs s))
    (<[kn := new_tracker b epoch root]> (g_trackers s)) (g_messages s) (g_sessions s) evs (g_time s)).
Proof.
  intros Hi Hc Hf Hfresh Hra. pose proof (ei_config _ Hi _ _ Hc) as [Hca Hcw Hce Hcr].
  destruct (next_epoch _ _ Hcw (ra_next _ _ _ _ _ Hra)) as [Hnw Hnv].
  pose proof (ra_time _ _ _ _ _ Hra) as Hu. unfold uint in Hu.
  assert (forall k c', g_configs s !! k = Some c' -> k = kc /\ c' = c) as Huniq.
  { intros k c' Hk. pose proof (config_unique _ _ _ _ _ Hi Hk Hc). subst. split; congruence. }
  assert (forall k t', g_trackers s !! k = Some t' -> 1 <= epoch_of t' <= current_epoch_of c) as Hbound.
  { intros k t' Hk. destruct (ei_bound _ Hi _ _ Hk) as (k' & c' & Hk' & Hb).
    by destruct (Huniq _ _ Hk') as [_ ->]. }
  assert (epoch_of (new_tracker b epoch root) = current_epoch_of c + 1) as Hnew by done.
  assert (current_epoch_of (rotated_config c epoch (g_time s)) = current_epoch_of c + 1) as Hcur by done.
  split; simpl.
  - intros k c' [[<- <-]|[Hne Hk]]%lookup_insert_Some; [|by destruct (Huniq _ _ Hk)].
    split; [done|done|lia|]. simpl. lia.
  - intros k t' [[<- <-]|[Hne Hk]]%lookup_insert_Some; [done|by apply (ei_tracker _ Hi)].
  - intros k t' Hk. exists kc. eexists. rewrite lookup_insert_eq. split; [done|].
    apply lookup_insert_Some in Hk as [[<- <-]|[Hne Hk]]; [lia|]. apply Hbound in Hk. lia.
  - intros k1 k2 t1 t2 H1 H2 He.
    apply lookup_insert_Some in H1 as [[<- <-]|[Hn1 H1]], H2 as [[<- <-]|[Hn2 H2]]; [done| | |].
    + apply Hbound in H2. lia.
    + apply Hbound in H1. lia.
    + by eapply (ei_unique _ Hi).
  - intros k c' e [[<- <-]|[Hne Hk]]%lookup_insert_Some; [|by destruct (Huniq _ _ Hk)]. intros He.
    destruct (decide (e = current_epoch_of c + 1)) as [->|Hlt].
    + exists kn. eexists. by rewrite lookup_insert_eq.
    + destruct (ei_complete _ Hi _ _ e Hc) as (k & t' & Hk & Het); [lia|].
      exists k, t'. split; [|done]. rewrite lookup_insert_ne; [done|congruence].
Qed.

Lemma greachable_epoch_inv s : greachable s -> epoch_inv s.
Proof.
  induction 1 as [t|authority ix s s' Hs IH _ Hstep|s t Hs IH Ht].
  - split; simpl; intros *; by rewrite lookup_empty.
  - destruct Hstep;
      try (apply (epoch_inv_frame s); simpl; [done|done|intros k' c' Hk'; split; [by apply (ei_config _ IH)|eauto]|eauto]).
    + eapply epoch_inv_initialize; try eassumption. by match goal with H : fresh_key _ (key (ic_gateway_root_pda _)) |- _ => destruct H end.
    + match goal with H : fresh_key _ _ |- _ => destruct H as (_ & ? & _) end.
      by eapply epoch_inv_rotate.
    + apply (epoch_inv_frame s); simpl; [done|done| |].
      * intros k' c' [[<- <-]|[Hne Hk]]%lookup_insert_Some; [|split; [by apply (ei_config _ IH)|eauto]].
        match goal with H : g_configs _ !! _ = Some _ |- _ =>
          split; [by destruct (ei_config _ IH _ _ H); split|by eauto] end.
      * intros k' c' Hk. destruct (decide (key (to_gateway_root_pda a) = k')) as [<-|Hne].
        -- eexists. by rewrite lookup_insert_eq.
        -- eexists. by rewrite lookup_insert_ne.
  - apply (epoch_inv_frame s); simpl; [done|done| |eauto].
    intros k c Hk. split; [|by eauto]. destruct (ei_config _ IH _ _ Hk). split; [done..|lia].
Qed.

(** ** Messages *)

Definition approved_ids (evs : list GatewayEvent) : list (array 32) :=
  omap (fun e => if e is MessageApprovedEvent i _ _ _ _ _ _ then Some i else None) evs.
Definition executed_ids (evs : list GatewayEvent) : list (array 32) :=
  omap (fun e => if e is MessageExecutedEvent i _ _ _ _ _ _ then Some i else None) evs.

(** The message an instruction carries. *)
Definition carries (ix : GatewayInstruction) (m : Message) : Prop :=
  match ix with
  | IxApproveMessage _ mm _ => m = ml_message (mm_leaf mm)
  | IxValidateMessage _ m' => m = m'
  | _ => False
  end.

(** A message that some submitted instruction carries. *)
Definition occurs (m : Message) : Prop := exists ix, submitted ix /\ carries ix m.

Section messages.
(** No two different messages among these have the same hash. *)
Hypothesis message_hash_inj : forall m1 m2,
  occurs m1 -> occurs m2 -> message_hash m1 = message_hash m2 -> m1 = m2.

Record message_inv (s : GState) : Prop := {
  mi_message k inc : g_messages s !! k = Some inc ->
    exists m, occurs m /\
      find_program_address (IncomingMessage.pda_seeds (command_id m)) gateway_ID
        = Some (k, IncomingMessage.bump inc) /\
      IncomingMessage.message_hash inc = message_hash m /\
      IncomingMessage.payload_hash inc = payload_hash m /\
      approved_event m ∈ g_events s /\
      (MessageStatus.is_approved (IncomingMessage.status inc) = true ->
         command_id m ∉ executed_ids (g_events s));
  mi_approved i : i ∈ approved_ids (g_events s) -> exists k b inc,
    find_program_address (IncomingMessage.pda_seeds i) gateway_ID = Some (k, b) /\
    g_messages s !! k = Some inc;
  mi_executed i d ph a b c e : MessageExecutedEvent i d ph a b c e ∈ g_events s ->
    exists m, i = command_id m /\ pubkey_from_str (destination_address m) = Some d /\
      MessageExecutedEvent i d ph a b c e = executed_event m d /\ approved_event m ∈ g_events s;
  mi_once_approved : NoDup (approved_ids (g_events s));
  mi_once_executed : NoDup (executed_ids (g_events s))
}.

(** Steps that touch neither the messages nor their events. *)
Lemma message_inv_frame s s' evs :
  message_inv s -> g_messages s' = g_messages s -> g_events s' = evs ++ g_events s ->
  Forall (fun e => match e with
    | MessageApprovedEvent _ _ _ _ _ _ _ | MessageExecutedEvent _ _ _ _ _ _ _ => False
    | _ => True end) evs ->
  message_inv s'.
Proof.
  intros [H1 H2 H3 H4 H5] Hm He Hevs.
  assert (approved_ids (g_events s') = approved_ids (g_events s)) as Ha.
  { rewrite He. clear -Hevs. induction Hevs as [|[] evs]; simpl; [done|..]; done. }
  assert (executed_ids (g_events s') = executed_ids (g_events s)) as Hx.
  { rewrite He. clear -Hevs. induction Hevs as [|[] evs]; simpl; [done|..]; done. }
  split; rewrite ?Ha, ?Hx, ?Hm; [|done| |done|done].
  - intros k inc Hk. destruct (H1 k inc Hk) as (m & Ho & Hf & Hh & Hp & Happ & Hex).
    exists m. rewrite He. split_and!; try done. apply elem_of_app. by right.
  - intros * Hin. rewrite He in Hin. apply elem_of_app in Hin as [Hin|Hin].
    + rewrite Forall_forall in Hevs. by destruct (Hevs _ Hin).
    + destruct (H3 _ _ _ _ _ _ _ Hin) as (m & -> & Hd & Heq & Happ). exists m. rewrite He.
      split_and!; try done. apply elem_of_app. by right.
Qed.

Lemma message_inv_approve s k m b sb :
  message_inv s -> occurs m ->
  find_program_address (IncomingMessage.pda_seeds (command_id m)) gateway_ID = Some (k, b) ->
  g_messages s !! k = None ->
  message_inv (mkGState (g_configs s) (g_trackers s) (<[k := approved_message m b sb]> (g_messages s))
    (g_sessions s) (approved_event m :: g_events s) (g_time s)).
Proof.
  intros [H1 H2 H3 H4 H5] Ho Hf Hk.
  assert (command_id m ∉ approved_ids (g_events s)) as Hna.
  { intros Hin. destruct (H2 _ Hin) as (k' & b' & inc & Hf' & Hk').
    destruct (find_eq _ _ _ _ _ _ Hf Hf') as [-> _]. congruence. }
  assert (forall i, i ∈ executed_ids (g_events s) -> i ∈ approved_ids (g_events s)) as Hsub.
  { intros i Hi. apply list_elem_of_omap in Hi as (e & He & Hi). destruct e; simplify_eq/=.
    destruct (H3 _ _ _ _ _ _ _ He) as (m' & -> & _ & _ & Happ).
    apply list_elem_of_omap. by exists (approved_event m'). }
  split; simpl.
  - intros k' inc [[<- <-]|[Hne Hk']]%lookup_insert_Some.
    + exists m. split_and!; [done..|by left|]. intros _ Hin. by apply Hna, Hsub.
    + destruct (H1 k' inc Hk') as (m' & Hm'). exists m'.
      destruct Hm' as (? & ? & ? & ? & ? & ?). split_and!; try done. by right.
  - intros i [->|Hin]%elem_of_cons.
    + exists k, b. eexists. by rewrite lookup_insert_eq.
    + destruct (H2 i Hin) as (k' & b' & inc & Hf' & Hk'). exists k', b', inc.
      split; [done|]. rewrite lookup_insert_ne; [done|congruence].
  - intros * [Heq|Hin]%elem_of_cons; [done|].
    destruct (H3 _ _ _ _ _ _ _ Hin) as (m' & ? & ? & ? & ?). exists m'. split_and!; try done. by right.
  - by constructor.
  - done.
Qed.

Lemma message_inv_validate s k inc m dest :
  message_inv s -> occurs m -> g_messages s !! k = Some inc ->
  MessageStatus.is_approved (IncomingMessage.status inc) = true ->
  IncomingMessage.message_hash inc = message_hash m ->
  pubkey_from_str (destination_address m) = Some dest ->
  message_inv (mkGState (g_configs s) (g_trackers s) (<[k := executed_of inc]> (g_messages s))
    (g_sessions s) (executed_event m dest :: g_events s) (g_time s)).
Proof.
  intros [H1 H2 H3 H4 H5] Ho Hk Happ Hh Hd.
  destruct (H1 k inc Hk) as (m0 & Ho0 & Hf0 & Hh0 & Hp0 & Hev0 & Hex0).
  assert (m0 = m) as -> by (apply message_hash_inj; congruence). specialize (Hex0 Happ).
  split; simpl.
  - intros k' inc' [[<- <-]|[Hne Hk']]%lookup_insert_Some.
    + exists m. split_and!; try done. by right.
    + destruct (H1 k' inc' Hk') as (m' & ? & Hf' & ? & ? & ? & Hx). exists m'.
      split_and!; try done; [by right|]. intros Ha. apply not_elem_of_cons. split; [|by apply Hx].
      intros E. rewrite E in Hf'. by destruct (find_eq _ _ _ _ _ _ Hf0 Hf').
  - intros i Hin. destruct (H2 i Hin) as (k' & b' & inc' & Hf' & Hk'). exists k', b'.
    destruct (decide (k = k')) as [<-|Hne].
    + eexists. by rewrite lookup_insert_eq.
    + exists inc'. by rewrite lookup_insert_ne.
  - intros * [Heq|Hin]%elem_of_cons.
    + injection Heq as -> -> -> -> -> -> ->. exists m. split_and!; try done. by right.
    + destruct (H3 _ _ _ _ _ _ _ Hin) as (m' & ? & ? & ? & ?). exists m'. split_and!; try done. by right.
  - done.
  - by constructor.
Qed.

Lemma message_inv_start t : message_inv (mkGState ∅ ∅ ∅ ∅ [] t).
Proof. split; simpl; try constructor; intros *; rewrite ?lookup_empty; [done|by intros ?%elem_of_nil..]. Qed.

Lemma message_inv_step authority ix s s' :
  message_inv s -> submitted ix -> astep authority ix s s' -> message_inv s'.
Proof.
  intros IH Hsub Hstep.
  destruct Hstep; try (by apply (message_inv_frame s _ []); [..|constructor]);
    try (eapply (message_inv_frame s _ [_]); [done|done|reflexivity|by repeat constructor]).
  - apply message_inv_approve; try done.
    + by eexists.
    + by match goal with H : fresh_key _ _ |- _ => destruct H as (_ & _ & ? & _) end.
  - apply message_inv_validate; try done. by eexists.
Qed.

Lemma greachable_message_inv s : greachable s -> message_inv s.
Proof.
  induction 1 as [t|authority ix s s' Hs IH Hsub Hstep|s t Hs IH Ht].
  - apply message_inv_start.
  - by eapply message_inv_step.
  - by apply (message_inv_frame s _ []).
Qed.

End messages.

(** ** Sessions, approvals and rotations *)

(** The roots and payload types of the sessions that submitted instructions name. *)
Definition names_session (root : array 32) (ty : PayloadType) : Prop :=
  (exists a, submitted (IxInitializePayloadVerificationSession a root ty)) \/
  (exists a i, submitted (IxVerifySignature a root i) /\ si_payload_type i = ty) \/
  (exists a mm, submitted (IxApproveMessage a mm root) /\ ty = StdTypes.ApproveMessages) \/
  (exists a, submitted (IxRotateSigners a root) /\ ty = StdTypes.RotateSigners).

(** No address is that of two different sessions among these. *)
Hypothesis session_address_inj : forall r1 t1 r2 t2 vh b k,
  names_session r1 t1 -> names_session r2 t2 ->
  create_program_address (Session.pda_seeds r1 (payload_type_into_u8 t1) vh ++ [[b]]) gateway_ID = Some k ->
  create_program_address (Session.pda_seeds r2 (payload_type_into_u8 t2) vh ++ [[b]]) gateway_ID = Some k ->
  r1 = r2 /\ t1 = t2.

(** The quorum of the verifier set with this root: the leaves submitted with a proof against the
    root carry it. *)
Variable quorum_of : array 32 -> Z.
Hypothesis quorum_of_uint : forall vh, uint 128 (quorum_of vh).
Hypothesis leaves_wf : forall a root i, submitted (IxVerifySignature a root i) -> leaf_wf (si_leaf i).
Hypothesis leaves_sound : forall a root i vh,
  submitted (IxVerifySignature a root i) -> accepted root vh i -> vl_quorum (si_leaf i) = quorum_of vh.

(** The signature of one signer, as some instruction submitted it. *)
Definition submitted_info (root : array 32) (ty : PayloadType) (i : SigningVerifierSetInfo) : Prop :=
  si_payload_type i = ty /\ exists a, submitted (IxVerifySignature a root i).

(** Distinct positions of the verifier set [vh], of weights that reach its quorum, have each a
    leaf of this domain proven against [vh] and an ECDSA signature on [root]. *)
Definition signed_by_quorum (ds root : array 32) (ty : PayloadType) (vh : array 32) : Prop :=
  exists infos, infos <> [] /\ quorum_of vh <= sum_map weight infos /\ NoDup (map position infos) /\
    Forall (accepted root vh) infos /\ Forall (submitted_info root ty) infos /\
    Forall (fun i => vl_domain_separator (si_leaf i) = ds) infos.

(** ... by a verifier set the gateway has registered, for the domain of its configuration. *)
Definition backed (s : GState) (root : array 32) (ty : PayloadType) (vh : array 32) : Prop :=
  (exists kt t, g_trackers s !! kt = Some t /\ VerifierSetTracker.verifier_set_hash t = vh) /\
  forall kc c, g_configs s !! kc = Some c ->
    signed_by_quorum (GatewayConfig.domain_separator c) root ty vh.

(** A session account is the result of the signatures accepted since its creation. *)
Definition session_ok (s : GState) (k : Pubkey) (x : Session.t) : Prop :=
  exists root ty vh infos, names_session root ty /\
    find_program_address (Session.pda_seeds root (payload_type_into_u8 ty) vh) gateway_ID
      = Some (k, Session.bump x) /\
    process_all (fresh_session vh (Session.bump x)) root vh infos = Ok x /\
    Forall (submitted_info root ty) infos /\
    (exists kt t, g_trackers s !! kt = Some t /\ VerifierSetTracker.verifier_set_hash t = vh) /\
    forall kc c, g_configs s !! kc = Some c ->
      Forall (fun i => vl_domain_separator (si_leaf i) = GatewayConfig.domain_separator c) infos.

Definition event_ok (s : GState) (e : GatewayEvent) : Prop :=
  match e with
  | MessageApprovedEvent _ _ _ _ _ _ _ => exists root vh leaf proof,
      e = approved_event (ml_message leaf) /\
      leaf_proven SolanaHasher root proof leaf (ml_position leaf) (ml_set_size leaf) /\
      backed s root StdTypes.ApproveMessages vh
  | VerifierSetRotatedEvent _ root => exists vh, vh <> root /\ backed s root StdTypes.RotateSigners vh
  | _ => True
  end.

Record trust_inv (s : GState) : Prop := {
  ti_session k x : g_sessions s !! k = Some x -> session_ok s k x;
  ti_event e : e ∈ g_events s -> event_ok s e;
  ti_tracker k t : g_trackers s !! k = Some t ->
    VerifierSetTracker.epoch t = U256.from_uint 1 \/
    VerifierSetRotatedEvent (VerifierSetTracker.epoch t) (VerifierSetTracker.verifier_set_hash t) ∈ g_events s
}.

(** Trackers stay, and so does the domain of the configuration. *)
Record grows (s s' : GState) : Prop := {
  gr_trackers : g_trackers s ⊆ g_trackers s';
  gr_domain k c' : g_configs s' !! k = Some c' -> exists c, g_configs s !! k = Some c /\
    GatewayConfig.domain_separator c' = GatewayConfig.domain_separator c;
  gr_events : g_events s ⊆ g_events s'
}.

Lemma tracker_grows s s' vh : grows s s' ->
  (exists kt t, g_trackers s !! kt = Some t /\ VerifierSetTracker.verifier_set_hash t = vh) ->
  exists kt t, g_trackers s' !! kt = Some t /\ VerifierSetTracker.verifier_set_hash t = vh.
Proof. intros Hg (kt & t & Hk & Hh). exists kt, t. split; [|done]. by eapply lookup_weaken, gr_trackers. Qed.

Lemma backed_grows s s' root ty vh : grows s s' -> backed s root ty vh -> backed s' root ty vh.
Proof.
  intros Hg [Ht Hs]. split; [by eapply tracker_grows|]. intros kc c' Hk.
  destruct (gr_domain _ _ Hg _ _ Hk) as (c & Hc & ->). by eapply Hs.
Qed.

Lemma session_ok_grows s s' k x : grows s s' -> session_ok s k x -> session_ok s' k x.
Proof.
  intros Hg (root & ty & vh & infos & Hn & Hf & Hp & Hi & Ht & Hd). exists root, ty, vh, infos.
  split_and!; try done; [by eapply tracker_grows|]. intros kc c' Hk.
  destruct (gr_domain _ _ Hg _ _ Hk) as (c & Hc & ->). by eapply Hd.
Qed.

Lemma event_ok_grows s s' e : grows s s' -> event_ok s e -> event_ok s' e.
Proof.
  intros Hg. destruct e; simpl; try done.
  - intros (root & vh & leaf & proof & ? & ? & Hb). exists root, vh, leaf, proof.
    split_and!; try done. by eapply backed_grows.
  - intros (vh & ? & Hb). exists vh. split; [done|]. by eapply backed_grows.
Qed.

(** A step that leaves the sessions and the trackers alone, and adds justified events. *)
Lemma trust_inv_grow s s' :
  trust_inv s -> grows s s' -> g_sessions s' = g_sessions s ->
  (forall e, e ∈ g_events s' -> e ∈ g_events s \/ event_ok s' e) ->
  (forall k t, g_trackers s' !! k = Some t -> g_trackers s !! k = Some t \/
     VerifierSetRotatedEvent (VerifierSetTracker.epoch t) (VerifierSetTracker.verifier_set_hash t) ∈ g_events s') ->
  trust_inv s'.
Proof.
  intros [H1 H2 H3] Hg Hs He Ht. split.
  - intros k x. rewrite Hs. intros Hk. by eapply session_ok_grows, H1.
  - intros e Hin. destruct (He e Hin) as [Hin'|]; [|done]. by eapply event_ok_grows, H2.
  - intros k t Hk. destruct (Ht k t Hk) as [Hk'|]; [|by right].
    destruct (H3 k t Hk') as [|Hin]; [by left|]. right. by apply (gr_events _ _ Hg).
Qed.

(** A step that writes one justified session. *)
Lemma trust_inv_session s s' k x :
  trust_inv s -> g_trackers s' = g_trackers s -> g_configs s' = g_configs s ->
  g_events s' = g_events s -> g_sessions s' = <[k := x]> (g_sessions s) -> session_ok s k x ->
  trust_inv s'.
Proof.
  intros [H1 H2 H3] Ht Hc He Hs Hx.
  assert (grows s s') as Hg by (split; rewrite ?Ht, ?Hc, ?He; eauto).
  split; rewrite ?Ht, ?He, ?Hs; [| |done].
  - intros k' x' [[<- <-]|[_ Hk]]%lookup_insert_Some; eapply session_ok_grows; eauto.
  - intros e Hin. eapply event_ok_grows; eauto.
Qed.

Lemma process_all_hash y r vh infos x : process_all y r vh infos = Ok x -> set_hash x = set_hash y.
Proof.
  revert y. induction infos as [|i infos IH]; intros y Hr; simpl in Hr; [by injection Hr as <-|].
  inv_result. match goal with H : Session.process_signature _ _ _ _ = _ |- _ =>
    apply process_signature_frame in H as (? & _ & _) end.
  match goal with H : process_all _ _ _ _ = _ |- _ => apply IH in H end. congruence.
Qed.

(** The session of an address is the one whose seeds are named with it. *)
Lemma session_of_seeds s k x root ty :
  session_ok s k x -> names_session root ty -> session_seeds_ok k root ty x ->
  exists infos, find_program_address (Session.pda_seeds root (payload_type_into_u8 ty) (set_hash x)) gateway_ID
      = Some (k, Session.bump x) /\
    process_all (fresh_session (set_hash x) (Session.bump x)) root (set_hash x) infos = Ok x /\
    Forall (submitted_info root ty) infos /\
    (exists kt t, g_trackers s !! kt = Some t /\ VerifierSetTracker.verifier_set_hash t = set_hash x) /\
    forall kc c, g_configs s !! kc = Some c ->
      Forall (fun i => vl_domain_separator (si_leaf i) = GatewayConfig.domain_separator c) infos.
Proof.
  intros (r & t & vh & infos & Hn & Hf & Hp & Hi & Ht & Hd) Hn' Hk.
  assert (set_hash x = vh) as E.
  { by apply process_all_hash in Hp. }
  rewrite E in *. apply find_create in Hf as Hf'. unfold session_seeds_ok in Hk.
  rewrite E in Hk.
  destruct (session_address_inj _ _ _ _ _ _ _ Hn Hn' Hf' Hk) as [-> ->]. by exists infos.
Qed.

Lemma process_all_accepted y r vh infos x :
  Forall (fun i => leaf_wf (si_leaf i)) infos -> process_all y r vh infos = Ok x ->
  Forall (accepted r vh) infos.
Proof.
  intros Hw. revert y. induction Hw as [|i infos Hi _ IH]; intros y Hr; simpl in Hr; [constructor|].
  inv_result. constructor; [|by eapply IH].
  match goal with H : Session.process_signature _ _ _ _ = _ |- _ =>
    by apply process_signature_ok in H as (_ & ? & _) end.
Qed.

(** What the validity of a session establishes. *)
Lemma valid_session_backed s k x root ty :
  session_ok s k x -> names_session root ty -> session_seeds_ok k root ty x ->
  Session.is_valid x = true -> backed s root ty (set_hash x).
Proof.
  intros Hok Hn Hk Hv.
  destruct (session_of_seeds _ _ _ _ _ Hok Hn Hk) as (infos & _ & Hp & Hi & Ht & Hd).
  assert (Forall (fun i => leaf_wf (si_leaf i)) infos) as Hw.
  { eapply Forall_impl; [exact Hi|]. intros i [_ [a Ha]]. by eapply leaves_wf. }
  pose proof (process_all_accepted _ _ _ _ _ Hw Hp) as Hacc.
  assert (leaves_at (quorum_of (set_hash x)) infos) as Hl.
  { unfold leaves_at. rewrite Forall_forall in *. intros i Hin. split; [by apply Hw|].
    destruct (Hi i Hin) as [_ [a Ha]]. by eapply leaves_sound, Hacc. }
  destruct (session_run_facts _ _ _ _ _ _ (quorum_of_uint _) Hl Hp) as (Hv' & Hnd & _ & _).
  rewrite Hv in Hv'. symmetry in Hv'. apply bool_decide_eq_true in Hv' as [Hne Hq].
  split; [done|]. intros kc c Hc. exists infos. split_and!; try done. by eapply Hd.
Qed.

Lemma session_ok_fresh s a root ty b kt t k :
  submitted (IxInitializePayloadVerificationSession a root ty) -> g_trackers s !! kt = Some t ->
  find_program_address (Session.pda_seeds root (payload_type_into_u8 ty)
    (VerifierSetTracker.verifier_set_hash t)) gateway_ID = Some (k, b) ->
  session_ok s k (fresh_session (VerifierSetTracker.verifier_set_hash t) b).
Proof.
  intros Hsub Ht Hf. exists root, ty, (VerifierSetTracker.verifier_set_hash t), [].
  split_and!; try done; [left; by exists a|by exists kt, t].
Qed.

Lemma session_ok_step s a root info k x t x' kc c :
  epoch_inv s -> submitted (IxVerifySignature a root info) -> session_ok s k x ->
  session_seeds_ok k root (si_payload_type info) x -> g_configs s !! kc = Some c ->
  GatewayConfig.domain_separator c = vl_domain_separator (si_leaf info) ->
  Session.process_signature x root (VerifierSetTracker.verifier_set_hash t) info = Ok x' ->
  session_ok s k x'.
Proof.
  intros He Hsub Hok Hk Hc Hds Hp.
  assert (names_session root (si_payload_type info)) as Hn by (right; left; by exists a, info).
  destruct (session_of_seeds _ _ _ _ _ Hok Hn Hk) as (infos & Hf & Hr & Hi & Ht & Hd).
  apply process_signature_frame in Hp as Hp'. destruct Hp' as (Hh & Hb & Hv). rewrite <- Hv in Hp.
  exists root, (si_payload_type info), (set_hash x), (infos ++ [info]). rewrite Hb.
  split_and!; try done.
  - rewrite process_all_app, Hr. cbn [mbind result_bind process_all]. by rewrite Hp.
  - apply Forall_app. split; [done|]. apply Forall_singleton. split; [done|by exists a].
  - intros kc' c' Hc'. pose proof (config_unique _ _ _ _ _ He Hc' Hc) as ->.
    rewrite Hc in Hc'. injection Hc' as <-. apply Forall_app. split; [by eapply Hd|].
    by apply Forall_singleton.
Qed.

Lemma trust_inv_no_trackers s : epoch_inv s -> trust_inv s -> g_configs s = ∅ ->
  g_sessions s = ∅ /\ forall e, e ∈ g_events s -> forall s', event_ok s' e.
Proof.
  intros He [H1 H2 H3] Hc.
  assert (forall k t, g_trackers s !! k = Some t -> False) as Hno.
  { intros k t Hk. destruct (ei_bound _ He _ _ Hk) as (kc & c & Hkc & _).
    by rewrite Hc, lookup_empty in Hkc. }
  split.
  - apply map_empty. intros k. destruct (g_sessions s !! k) as [x|] eqn:Hk; [|done].
    destruct (H1 _ _ Hk) as (? & ? & ? & ? & ? & ? & ? & ? & (kt & t & Ht & _) & _). by destruct (Hno kt t).
  - intros e Hin s'. specialize (H2 e Hin). destruct e; try done; simpl in H2.
    + destruct H2 as (? & ? & ? & ? & ? & ? & (kt & t & Ht & _) & _). by destruct (Hno kt t).
    + destruct H2 as (? & ? & (kt & t & Ht & _) & _). by destruct (Hno kt t).
Qed.

Lemma trust_inv_initialize s k1 k2 p b1 b2 :
  epoch_inv s -> trust_inv s ->
  find_program_address GatewayConfig.pda_seeds gateway_ID = Some (k1, b1) -> g_configs s !! k1 = None ->
  trust_inv (mkGState (<[k1 := initial_config p (g_time s) b1]> (g_configs s))
    (<[k2 := new_tracker b2 (U256.from_uint 1) (ivs_hash (icp_initial_verifier_set p))]> (g_trackers s))
    (g_messages s) (g_sessions s) (g_events s) (g_time s)).
Proof.
  intros He Hi Hf Hfresh. pose proof (no_config _ _ _ He Hf Hfresh) as Hc.
  destruct (trust_inv_no_trackers _ He Hi Hc) as [Hs Hev]. split; simpl.
  - intros k x. by rewrite Hs, lookup_empty.
  - intros e Hin. by apply Hev.
  - intros k t [[<- <-]|[_ Hk]]%lookup_insert_Some; [by left|]. by apply (ti_tracker _ Hi) in Hk.
Qed.

Lemma greachable_trust_inv s : greachable s -> trust_inv s.
Proof.
  induction 1 as [t|authority ix s s' Hs IH Hsub Hstep|s t Hs IH Ht].
  - split; simpl; intros *; rewrite ?lookup_empty; [done|by intros ?%elem_of_nil|done].
  - pose proof (greachable_epoch_inv _ Hs) as He. destruct Hstep.
    + apply trust_inv_initialize; try done.
      by match goal with H : fresh_key _ (key (ic_gateway_root_pda _)) |- _ => destruct H end.
    + eapply (trust_inv_session s); try done. by eapply session_ok_fresh.
    + eapply (trust_inv_session s); try done. eapply session_ok_step; try eassumption.
      by apply (ti_session _ IH).
    + apply (trust_inv_grow s); simpl; try done; [split; simpl; [done|by eauto|set_solver]| |by eauto].
      intros e [->|Hin]%elem_of_cons; [|by left]. right. do 4 eexists. split_and!; [done|eassumption|].
      eapply (backed_grows s); [split; simpl; [done|by eauto|set_solver]|].
      eapply valid_session_backed; try eassumption; [by apply (ti_session _ IH)|].
      right. right. left. by exists a, mm.
    + apply (trust_inv_grow s); simpl; try done; [split; simpl; [done|by eauto|set_solver]| |by eauto].
      intros e [->|Hin]%elem_of_cons; [by right|by left].
    + match goal with H : fresh_key _ _ |- _ => destruct H as (_ & Hfr & _) end.
      match goal with |- trust_inv ?s' => assert (grows s s') as Hg end.
      { split; simpl; [by apply insert_subseteq| |set_solver].
        intros k' c' [[<- <-]|[_ Hk]]%lookup_insert_Some; [by eexists|by eauto]. }
      eapply (trust_inv_grow s); simpl; try done.
      * intros e [->|Hin]%elem_of_cons; [|by left]. right. eexists. split.
        -- match goal with H : _ <> root |- _ => exact H end.
        -- match goal with H : VerifierSetTracker.verifier_set_hash _ = set_hash _ |- _ => rewrite H end.
           eapply backed_grows; [exact Hg|]. eapply valid_session_backed; try eassumption;
             [by apply (ti_session _ IH)|]. right. right. right. by exists a.
      * intros k' t' [[<- <-]|[_ Hk]]%lookup_insert_Some; [right; by left|by left].
    + apply (trust_inv_grow s); simpl; try done.
      * split; simpl; [done| |set_solver].
        intros k' c' [[<- <-]|[_ Hk]]%lookup_insert_Some; [by eexists|by eauto].
      * intros e [->|Hin]%elem_of_cons; [by right|by left].
      * by eauto.
    + apply (trust_inv_grow s); simpl; try done; [split; simpl; [done|by eauto|set_solver]| |by eauto].
      intros e [->|Hin]%elem_of_cons; [by right|by left].
  - apply (trust_inv_grow s); simpl; try done; [split; simpl; [done|by eauto|done]|by eauto..].
Qed.
End safety.
