(* ===== verification/GatewayOutcomes.v ===== *)
(** * Outcomes of the gateway's operations

    Exact results of the gateway's handlers and account checks, errors and their order included,
    in terms of the integers and accounts they read. *)

From stdpp Require Import base gmap list sets.
From Stdlib Require Import ZArith Lia.
From S2P Require Import Prelude Errors External StdInts StdTypes GatewayState GatewaySession Ledger LedgerLemmas Gateway GatewayLemmas GatewaySpec GatewaySafety.

Section outcomes.
Context {keccak : Keccak} {merkle : RsMerkle} {secp : Secp256k1} {bits : BitVec} {bnum : Bnum}
  {pda : SolanaPda} {ids : ProgramIds} {system : SolanaSystem}.
Context {leaf_digest : Digestable VerifierSetLeaf} {message_digest : Digestable Message}
  {message_leaf_digest : Digestable MessageLeaf}.
Context {bnum_laws : BnumLaws} {pda_laws : SolanaPdaLaws} {bits_laws : BitVecLaws}
  {ids_laws : ProgramIdsLaws} {system_laws : SolanaSystemLaws}.

Lemma gw_store_eval {T} (acc : AnchorAccount T) k (x : T) w d :
  gw w !! k = Some d -> exists w', store k x w = Ok (tt, w') /\ gw w' = <[k := wrap x]> (gw w) /\
    now w' = now w /\ log w' = log w.
Proof. apply (store_eval T acc). Qed.

(** The gateway's root account, with its seeds. *)
Definition root_loaded (w : World) (k : Pubkey) (c : GatewayConfig.t) : Prop :=
  gw w !! k = Some (DGatewayConfig c) /\
  create_program_address (GatewayConfig.pda_seeds ++ [[GatewayConfig.bump c]]) gateway_ID = Some k.

Lemma gateway_root_seeds_eval k w c : root_loaded w k c -> gateway_root_seeds k w = Ok (tt, w).
Proof.
  intros [Hk Hs]. unfold gateway_root_seeds. erewrite bind_eval by (by apply load_ok; split).
  by apply constraint_seeds_ok.
Qed.

(** ** Epochs *)

(** What [assert_valid_epoch] decides, on integers. *)
Definition epoch_verdict (current retention epoch : Z) : Result unit :=
  if current <? epoch then Err (EGateway EpochCalculationOverflow)
  else if current - epoch <? retention then Ok tt else Err (EGateway VerifierSetTooOld).

Lemma assert_valid_epoch_eval c e :
  U256.wf (GatewayConfig.current_epoch c) -> U256.wf (GatewayConfig.previous_verifier_set_retention c) ->
  U256.wf e ->
  GatewayConfig.assert_valid_epoch c e =
    epoch_verdict (current_epoch_of c) (U256.val (GatewayConfig.previous_verifier_set_retention c)) (U256.val e).
Proof.
  intros H1 H2 H3. unfold GatewayConfig.assert_valid_epoch, epoch_verdict, current_epoch_of.
  destruct (U256.checked_sub (GatewayConfig.current_epoch c) e) as [d|] eqn:Hd; simpl.
  - apply U256.checked_sub_spec in Hd as [Hw Hv]; [|done..].
    pose proof (U256.val_range d Hw) as Hr. unfold u256_ge. rewrite U256.cmp_spec by done. rewrite Hv in *.
    destruct (Z.ltb_spec (U256.val (GatewayConfig.current_epoch c)) (U256.val e)); [lia|].
    destruct (Z.compare_spec (U256.val (GatewayConfig.current_epoch c) - U256.val e)
      (U256.val (GatewayConfig.previous_verifier_set_retention c)));
      match goal with |- context [?a <? ?b] => destruct (Z.ltb_spec a b) end; simpl; done || lia.
  - apply U256.checked_sub_none in Hd; [|done..].
    by destruct (Z.ltb_spec (U256.val (GatewayConfig.current_epoch c)) (U256.val e)); [|lia].
Qed.

(** ** Rotation *)

(** What [rotate_signers] decides, on integers; the order is that of its checks. *)
Definition rotation_verdict (enforce : bool) (current retention epoch last delay time : Z) : Result unit :=
  _ ← epoch_verdict current retention epoch;
  if enforce && negb (current =? epoch) then Err (EGateway ProofNotSignedByLatestVerifierSet)
  else if negb ((0 <=? time) && (time <? 2 ^ 64)) then Err (EProgram PE_ArithmeticOverflow)
  else if enforce && (time - last <? delay) then Err (EGateway RotationCooldownNotDone)
  else if 2 ^ 256 <=? current + 1 then Err (EGateway EpochCalculationOverflow)
  else Ok tt.

(** The integers of a configuration and a tracker that exist in a reachable world. *)
Record rotation_wf (c : GatewayConfig.t) (t : VerifierSetTracker.t) (time : Z) : Prop := {
  rw_current : U256.wf (GatewayConfig.current_epoch c);
  rw_retention : U256.wf (GatewayConfig.previous_verifier_set_retention c);
  rw_epoch : U256.wf (VerifierSetTracker.epoch t);
  rw_last : 0 <= GatewayConfig.last_rotation_timestamp c <= time
}.

Lemma next_epoch_eval c :
  U256.wf (GatewayConfig.current_epoch c) ->
  if 2 ^ 256 <=? current_epoch_of c + 1
  then U256.checked_add (GatewayConfig.current_epoch c) U256.ONE = None
  else exists e, U256.checked_add (GatewayConfig.current_epoch c) U256.ONE = Some e.
Proof.
  intros Hw. assert (U256.wf U256.ONE) as H1 by (unfold U256.wf, u64x4_wf, uint; simpl; lia).
  assert (U256.val U256.ONE = 1) as Hv by done. unfold current_epoch_of.
  destruct (U256.checked_add (GatewayConfig.current_epoch c) U256.ONE) as [e|] eqn:He.
  - destruct (Z.leb_spec (2 ^ 256) (U256.val (GatewayConfig.current_epoch c) + 1)); [|by exists e].
    rewrite <- Hv in H at 1. apply (U256.checked_add_none _ _ Hw H1) in H. congruence.
  - apply (U256.checked_add_none _ _ Hw H1) in He. rewrite Hv in He.
    by destruct (Z.leb_spec (2 ^ 256) (U256.val (GatewayConfig.current_epoch c) + 1)); [|lia].
Qed.

(** The verdict of the delay check. *)
Lemma rotation_delay_eval (enforce : bool) time c w :
  GatewayConfig.last_rotation_timestamp c <= time ->
  (if enforce then enough ← lift (enough_time_till_next_rotation time c); mret (negb enough)
   else mret false) w =
  Ok (enforce && (time - GatewayConfig.last_rotation_timestamp c <? GatewayConfig.minimum_rotation_delay c), w).
Proof.
  intros Hl. destruct enforce; [|done]. unfold enough_time_till_next_rotation.
  rewrite (proj2 (checked_sub_some time _ _) (conj eq_refl Hl)). cbn.
  unfold mret, instr_ret. do 2 f_equal. by rewrite Z.ltb_antisym.
Qed.

(** The operator of the configuration is passed, and signed. *)
Definition operator_signed (op : option AccountInfo) (c : GatewayConfig.t) : bool :=
  if op is Some o then is_signer o && bool_decide (key o = GatewayConfig.operator c) else false.

Lemma enforce_rotation_delay_signed op c : enforce_rotation_delay op c = negb (operator_signed op c).
Proof. destruct op as [o|]; [|done]. cbn. by rewrite andb_comm. Qed.

(** The handler after the load of the accounts, up to the new epoch. *)
Definition rotation_checks (op : option AccountInfo) (c : GatewayConfig.t) (t : VerifierSetTracker.t)
    (time : Z) : Result unit :=
  rotation_verdict (negb (operator_signed op c)) (current_epoch_of c)
    (U256.val (GatewayConfig.previous_verifier_set_retention c)) (epoch_of t)
    (GatewayConfig.last_rotation_timestamp c) (GatewayConfig.minimum_rotation_delay c) time.

Lemma latest_eval c t :
  U256.wf (GatewayConfig.current_epoch c) -> U256.wf (VerifierSetTracker.epoch t) ->
  bool_decide (GatewayConfig.current_epoch c = VerifierSetTracker.epoch t)
    = (current_epoch_of c =? epoch_of t).
Proof.
  intros Hc Ht. destruct (Z.eqb_spec (current_epoch_of c) (epoch_of t)) as [He|He].
  - by apply bool_decide_eq_true, U256.val_inj.
  - apply bool_decide_eq_false. intros E. apply He. unfold current_epoch_of, epoch_of. by rewrite E.
Qed.

Lemma rotate_signers_handler_eval a b root w c t n :
  rotation_wf c t (now w) ->
  gw w !! key (rs_gateway_root_pda a) = Some (DGatewayConfig c) ->
  gw w !! key (rs_verifier_set_tracker_pda a) = Some (DVerifierSetTracker t) ->
  gw w !! key (rs_new_verifier_set_tracker a) = Some (DVerifierSetTracker n) ->
  key (rs_new_verifier_set_tracker a) <> key (rs_gateway_root_pda a) ->
  match rotation_checks (rs_operator a) c t (now w) with
  | Ok _ => exists w', rotate_signers_handler a b root w = Ok (tt, w')
  | Err e => rotate_signers_handler a b root w = Err e
  end.
Proof.
  intros [Hc Hr Ht Hl] Hkc Hkt Hkn Hne. unfold rotation_checks, rotation_verdict, rotate_signers_handler.
  rewrite <- enforce_rotation_delay_signed. do 2 run_instr. cbv zeta. rewrite assert_valid_epoch_eval by done. fold (epoch_of t).
  destruct (epoch_verdict _ _ _) as [[]|e] eqn:Hev; cbn [mbind result_bind]; [|done].
  erewrite bind_eval by (apply lift_ok; split; [done|reflexivity]). cbv beta. rewrite latest_eval by done.
  destruct (enforce_rotation_delay _ _ && _); [done|].
  do 2 run_instr. unfold try_into_uint.
  destruct ((0 <=? now w) && (now w <? 2 ^ 64)) eqn:Htime; cbn [negb]; [|done].
  erewrite bind_eval by (apply lift_ok; split; [done|reflexivity]). cbv beta.
  erewrite bind_eval by (apply rotation_delay_eval; lia). cbv beta.
  destruct (enforce_rotation_delay _ _ && _); [done|].
  run_instr. pose proof (next_epoch_eval c Hc) as He. destruct (2 ^ 256 <=? _).
  - by rewrite He.
  - destruct He as [e He]. rewrite He.
    erewrite bind_eval by (apply lift_ok; split; [done|reflexivity]). cbv beta.
    match goal with |- context [store ?k ?x] =>
      destruct (gw_store_eval GatewayConfig_account k x w _ Hkc) as (w1 & Hs1 & Hg1 & _) end.
    erewrite bind_eval by exact Hs1. cbv beta.
    assert (gw w1 !! key (rs_new_verifier_set_tracker a) = Some (DVerifierSetTracker n)) as Hkn1
      by (rewrite Hg1, lookup_insert_ne by congruence; done).
    run_instr.
    match goal with |- context [store ?k ?x] =>
      destruct (gw_store_eval VerifierSetTracker_account k x w1 _ Hkn1) as (w2 & Hs2 & _) end.
    erewrite bind_eval by exact Hs2. by eexists.
Qed.

(** The age check of verifier sets, exactly. On well-formed integers it refuses an epoch after
    the current one with [EpochCalculationOverflow] and an epoch at least [retention] older than it
    with [VerifierSetTooOld], and accepts every other; so it accepts the current epoch and the
    [retention - 1] epochs before it. *)
Theorem assert_valid_epoch_exact c e
    (Hc : U256.wf (GatewayConfig.current_epoch c))
    (Hr : U256.wf (GatewayConfig.previous_verifier_set_retention c)) (He : U256.wf e) :
  let retention := U256.val (GatewayConfig.previous_verifier_set_retention c) in
  (GatewayConfig.assert_valid_epoch c e = Err (EGateway EpochCalculationOverflow)
     <-> current_epoch_of c < U256.val e) /\
  (GatewayConfig.assert_valid_epoch c e = Err (EGateway VerifierSetTooOld)
     <-> U256.val e + retention <= current_epoch_of c) /\
  (GatewayConfig.assert_valid_epoch c e = Ok tt
     <-> U256.val e <= current_epoch_of c < U256.val e + retention).
Proof.
  cbv zeta. rewrite assert_valid_epoch_eval by done. unfold epoch_verdict.
  pose proof (U256.val_range _ Hr).
  destruct (Z.ltb_spec (current_epoch_of c) (U256.val e)); [split_and!; split; done || lia|].
  match goal with |- context [?a <? ?b] => destruct (Z.ltb_spec a b) end; split_and!; split; done || lia.
Qed.

(** C27: Outcome of a rotation. With a configuration and a tracker as a reachable world has them
    (the last rotation is not in the future), the handler of [rotate_signers] never panics, and it
    refuses, in this order: a signing set that is too old or of a later epoch; one that is not the
    latest, and a rotation before the minimum delay, both unless the operator signed; a clock out of
    range; and an epoch without successor. In every other case it succeeds: the new tracker and the
    configuration get the next epoch, the configuration gets the time, and one event is emitted. *)
Theorem rotate_signers_outcome a b root w c t (Hwf : rotation_wf c t (now w))
    (Hc : gw w !! key (rs_gateway_root_pda a) = Some (DGatewayConfig c))
    (Ht : gw w !! key (rs_verifier_set_tracker_pda a) = Some (DVerifierSetTracker t))
    (Hn : gw w !! key (rs_new_verifier_set_tracker a) = Some (DVerifierSetTracker VerifierSetTracker.zeroed))
    (Hne : key (rs_new_verifier_set_tracker a) <> key (rs_gateway_root_pda a)) :
  match rotation_checks (rs_operator a) c t (now w) with
  | Err e => rotate_signers_handler a b root w = Err e
  | Ok _ => exists w' epoch, rotate_signers_handler a b root w = Ok (tt, w') /\
      U256.val epoch = current_epoch_of c + 1 /\
      gw w' = <[key (rs_new_verifier_set_tracker a) := DVerifierSetTracker (new_tracker b epoch root)]>
        (<[key (rs_gateway_root_pda a) := DGatewayConfig (rotated_config c epoch (now w))]> (gw w)) /\
      log w' = EvGateway (VerifierSetRotatedEvent epoch root) :: log w
  end.
Proof.
  pose proof (rotate_signers_handler_eval a b root w c t _ Hwf Hc Ht Hn Hne) as H.
  destruct (rotation_checks _ _ _ _); [|done]. destruct H as [w' Hrun].
  destruct (rotate_signers_handler_ok a b root w tt w' c t) as (e & Hra & Hg & _ & Hl); [done..|].
  exists w', e. split_and!; [done| |done|done].
  apply next_epoch; [apply Hwf|exact (ra_next _ _ _ _ _ Hra)].
Qed.

(** ** Execution of messages *)

(** The accounts of [validate_message] are those of the message and of the gateway. *)
Record validate_loaded (a : ValidateMessage) (m : Message) (w : World) (c : GatewayConfig.t)
    (inc : IncomingMessage.t) : Prop := {
  vl_incoming : gw w !! key (vm_incoming_message_pda a) = Some (DIncomingMessage inc);
  vl_seeds : create_program_address (IncomingMessage.pda_seeds (command_id m) ++ [[IncomingMessage.bump inc]])
      gateway_ID = Some (key (vm_incoming_message_pda a));
  vl_writable : is_writable (vm_incoming_message_pda a) = true;
  vl_root : root_loaded w (key (vm_gateway_root_pda a)) c
}.

(** The caller is the address that the destination program signs with for this message. *)
Definition caller_of_destination (a : ValidateMessage) (m : Message) (inc : IncomingMessage.t) : Prop :=
  is_signer (vm_caller a) = true /\
  exists dest, pubkey_from_str (destination_address m) = Some dest /\
    create_program_address [ValidateMessageSigner.SEED_PREFIX; arr_bytes (command_id m);
      [IncomingMessage.signing_pda_bump inc]] dest = Some (key (vm_caller a)).

Lemma validate_message_eval a m w c inc :
  validate_loaded a m w c inc -> MessageStatus.is_approved (IncomingMessage.status inc) = true ->
  IncomingMessage.message_hash inc = message_hash m -> caller_of_destination a m inc ->
  exists w', validate_message a m w = Ok (tt, w').
Proof.
  intros [Hi Hs Hw Hr] Ha Hh (Hsig & dest & Hd & Hp).
  assert (validate_caller_pda (vm_caller a) m inc = Ok true) as Hv.
  { unfold validate_caller_pda. rewrite Hd. cbn. unfold ValidateMessageSigner.create_pda. rewrite Hp.
    cbn. by rewrite bool_decide_eq_true_2. }
  unfold validate_message, validate_message_accounts.
  assert (gw w !! key (vm_gateway_root_pda a) = Some (DGatewayConfig c)) as Hc by apply Hr.
  erewrite bind_eval.
  2: { do 7 run_instr. erewrite bind_eval by (apply lift_ok; split; [exact Hv|reflexivity]).
       cbv beta. run_instr. by apply (gateway_root_seeds_eval _ _ c). }
  unfold validate_message_handler. run_instr.
  match goal with |- context [store ?k ?x] =>
    destruct (gw_store_eval IncomingMessage_account k x w _ Hi) as (w1 & Hs1 & _) end.
  erewrite bind_eval by exact Hs1. cbv beta. rewrite Hd.
  erewrite bind_eval by (apply lift_ok; split; reflexivity). by eexists.
Qed.

Lemma validate_message_not_approved a m w c inc :
  validate_loaded a m w c inc -> MessageStatus.is_approved (IncomingMessage.status inc) = false ->
  validate_message a m w = Err (EGateway MessageNotApproved).
Proof.
  intros [Hi Hs Hw Hr] Ha. unfold validate_message. apply bind_err. unfold validate_message_accounts.
  assert (gw w !! key (vm_gateway_root_pda a) = Some (DGatewayConfig c)) as Hc by apply Hr.
  do 4 run_instr. apply bind_err. by apply require_false.
Qed.

(** The accounts of [a'] are those of [a], writable as [validate_message] needs. *)
Definition same_accounts (a a' : ValidateMessage) : Prop :=
  key (vm_incoming_message_pda a') = key (vm_incoming_message_pda a) /\
  key (vm_gateway_root_pda a') = key (vm_gateway_root_pda a) /\
  is_writable (vm_incoming_message_pda a') = true.

Lemma validate_loaded_after a a' m w u w' c inc :
  validate_loaded a m w c inc -> same_accounts a a' -> validate_message a m w = Ok (u, w') ->
  validate_loaded a' m w' c (executed_of inc).
Proof.
  intros [Hi Hs _ [Hr Hrs]] (Hk1 & Hk2 & Hw) Hrun.
  apply validate_message_ok in Hrun as (inc' & dest & Hi' & _ & _ & _ & _ & _ & _ & Hg & _).
  rewrite Hi in Hi'. injection Hi' as <-. split; rewrite ?Hk1, ?Hk2; [|done|done|split].
  - by rewrite Hg, lookup_insert_eq.
  - by rewrite Hg, lookup_insert_ne by congruence.
  - done.
Qed.

(** C28: Execution of a message, exactly. With the accounts of the message, [validate_message]
    succeeds if and only if the message is approved, has the approved hash, and the signing address
    that its destination program derives for it signed; right after a success, whoever calls, every
    [validate_message] for the message fails with [MessageNotApproved]. *)
Theorem validate_message_exact a m w c inc (Hl : validate_loaded a m w c inc) :
  ((exists w', validate_message a m w = Ok (tt, w')) <->
     MessageStatus.is_approved (IncomingMessage.status inc) = true /\
     IncomingMessage.message_hash inc = message_hash m /\ caller_of_destination a m inc) /\
  forall w' a', validate_message a m w = Ok (tt, w') -> same_accounts a a' ->
    validate_message a' m w' = Err (EGateway MessageNotApproved).
Proof.
  split.
  - split.
    + intros [w' Hrun]. apply validate_message_ok in Hrun
        as (inc' & dest & Hi & _ & Ha & Hh & Hd & Hsig & Hp & _).
      rewrite (vl_incoming _ _ _ _ _ Hl) in Hi. injection Hi as <-. split_and!; [done..|].
      split; [done|]. exists dest. split; [done|]. unfold ValidateMessageSigner.create_pda in Hp.
      by apply ok_or_ok in Hp.
    + intros (Ha & Hh & Hcall). by eapply validate_message_eval.
  - intros w' a' Hrun Hsame. apply (validate_message_not_approved _ _ _ c (executed_of inc)); [|done].
    by eapply validate_loaded_after.
Qed.

(** An approved message can be executed. After a successful [approve_message] for a message
    whose destination address is a program, [validate_message] with the message's accounts succeeds
    when the address that the destination program signs with is the signer. *)
Theorem approved_message_executable a mm root w u w1 v (m := ml_message (mm_leaf mm)) dest p sb
    (Happ : approve_message a mm root w = Ok (u, w1))
    (Hroot : exists c, root_loaded w (key (am_gateway_root_pda a)) c)
    (Hd : pubkey_from_str (destination_address m) = Some dest)
    (Hp : ValidateMessageSigner.find_pda (command_id m) dest = Ok (p, sb))
    (Hv1 : key (vm_incoming_message_pda v) = key (am_incoming_message_pda a))
    (Hv2 : is_writable (vm_incoming_message_pda v) = true)
    (Hv3 : key (vm_gateway_root_pda v) = key (am_gateway_root_pda a))
    (Hv4 : key (vm_caller v) = p) (Hv5 : is_signer (vm_caller v) = true) :
  exists w2, validate_message v m w1 = Ok (tt, w2).
Proof.
  subst m. apply approve_message_ok in Happ as (_ & _ & b & sb' & _ & _ & _ & _ & _ & _ & Hsb & Hf & Hfree & Hg & _).
  destruct Hroot as (c & Hc & Hcs).
  destruct (Hsb _ Hd) as [p' Hp']. unfold ValidateMessageSigner.find_pda, find_program_address_or_panic in Hp.
  apply ok_or_ok in Hp. rewrite Hp' in Hp. injection Hp as -> ->.
  eapply (validate_message_eval v _ w1 c); [split; rewrite ?Hv1, ?Hv3|..].
  - by rewrite Hg, lookup_insert_eq.
  - by apply find_create in Hf.
  - done.
  - split; [|done]. by rewrite Hg, lookup_insert_ne by congruence.
  - done.
  - done.
  - split; [done|]. exists dest. split; [done|]. cbn. rewrite Hv4.
    by apply find_create in Hp'.
Qed.

(** Outgoing calls, exactly. With the gateway's root account, [call_contract] succeeds if and
    only if the calling account signed, or the caller is a program whose signing address, derived
    with the given bump, signed; it then emits exactly the call, in the name of the caller and with
    the hash of the payload, and changes no account. *)
Theorem call_contract_exact a dc dca payload b w c
    (Hroot : root_loaded w (key (cc_gateway_root_pda a)) c)
    (Hpda : forall p, cc_signing_pda a = Some p -> is_signer p = true) :
  let authorized := is_signer (cc_caller a) = true \/
    exists p, cc_signing_pda a = Some p /\
      create_program_address [CallContractSigner.SEED_PREFIX; [b]] (key (cc_caller a)) = Some (key p) in
  (authorized -> call_contract a dc dca payload b w = Ok (tt, mkWorld (ledger w) (now w)
     (EvGateway (CallContractEvent (key (cc_caller a)) (keccak_hash payload) dc dca payload) :: log w))) /\
  (~ authorized -> exists e, call_contract a dc dca payload b w = Err (EGateway e)).
Proof.
  intros authorized.
  assert (call_contract_accounts a w = Ok (tt, w)) as Hacc.
  { unfold call_contract_accounts. erewrite bind_eval.
    2: { destruct (cc_signing_pda a) as [p|]; simpl; [by apply require_eval, Hpda|done]. }
    cbv beta. destruct Hroot as [Hc Hs]. run_instr. by apply (gateway_root_seeds_eval _ _ c). }
  unfold call_contract. rewrite (bind_eval _ _ _ _ _ Hacc). unfold call_contract_handler.
  destruct (is_signer (cc_caller a)) eqn:Hsig; [split; [done|]; intros Hn; destruct Hn; by left|].
  unfold CallContractSigner.create_pda.
  destruct (create_program_address _ _) as [k|] eqn:Hk; cbn -[bool_decide].
  - destruct (cc_signing_pda a) as [p|] eqn:Hp; cbn -[bool_decide]; [|split; [|by eexists]].
    + cbv [mbind instr_bind lift require emit].
      destruct (decide (key p = k)) as [<-|Hne].
      * rewrite bool_decide_eq_true_2 by done. split; [done|]. intros Hn. destruct Hn. right. by exists p.
      * rewrite bool_decide_eq_false_2 by done. split; [|by eexists].
        intros [?|(p' & [= <-] & [= ?])]; congruence.
    + intros [?|(p' & ? & _)]; congruence.
  - split; [|by eexists]. intros [?|(p' & _ & ?)]; congruence.
Qed.
End outcomes.
