(* ===== verification/GatewayReach.v ===== *)
(** * Theorems about the gateway program

    The worlds that the program reaches, and the properties that hold in them or of each of its
    instructions. The invariants come from [GatewaySafety.v] through the refinement of
    [GatewaySpec.v]; the outcome theorems evaluate the handlers of [Gateway.v]. *)

From stdpp Require Import base gmap list sets.
From Stdlib Require Import ZArith Lia.
From S2P Require Import Prelude Errors External StdInts StdTypes GatewayState GatewaySession Ledger LedgerLemmas Gateway GatewayLemmas GatewaySpec GatewaySafety.

Section reach.
Context {keccak : Keccak} {merkle : RsMerkle} {secp : Secp256k1} {bits : BitVec} {bnum : Bnum}
  {pda : SolanaPda} {ids : ProgramIds} {system : SolanaSystem}.
Context {leaf_digest : Digestable VerifierSetLeaf} {message_digest : Digestable Message}
  {message_leaf_digest : Digestable MessageLeaf}.
Context {bnum_laws : BnumLaws} {pda_laws : SolanaPdaLaws} {bits_laws : BitVecLaws}
  {ids_laws : ProgramIdsLaws} {system_laws : SolanaSystemLaws}.

Variable submitted : GatewayInstruction -> Prop.

(** The worlds reached from one without gateway accounts by the instructions ever submitted to the
    gateway, in any order, directly or by other programs. In between, the other programs do
    anything but change the data of the accounts the gateway owns, and time passes. *)
Inductive reachable : World -> Prop :=
| reach_start w : gw w = ∅ -> gateway_events (log w) = [] -> reachable w
| reach_gateway ix w u w' :
    reachable w -> submitted ix -> gateway_entry ix w = Ok (u, w') -> reachable w'
| reach_other w w' :
    reachable w -> gw w' = gw w -> gateway_events (log w') = gateway_events (log w) ->
    now w <= now w' -> reachable w'.

Lemma reachable_abs w : reachable w -> greachable submitted (abs w).
Proof.
  induction 1 as [w Hg He|ix w u w' Hw IH Hsub Hrun|w w' Hw IH Hg He Ht].
  - unfold abs. rewrite Hg, He, !view_empty. constructor.
  - eapply greach_step; [exact IH|exact Hsub|]. by eapply gateway_entry_astep.
  - unfold abs. rewrite Hg, He. by apply (greach_time submitted (abs w)).
Qed.

(** C13: Epochs of the verifier sets. In every reachable world with a gateway configuration, each
    epoch from 1 to the configuration's current one belongs to exactly one verifier set tracker,
    and every tracker has an epoch in that range. *)
Theorem gateway_epochs w kc c (Hw : reachable w) (Hc : gw w !! kc = Some (DGatewayConfig c)) :
  (forall e, 1 <= e <= current_epoch_of c -> exists k t,
     gw w !! k = Some (DVerifierSetTracker t) /\ epoch_of t = e /\
     forall k' t', gw w !! k' = Some (DVerifierSetTracker t') -> epoch_of t' = e -> k' = k) /\
  (forall k t, gw w !! k = Some (DVerifierSetTracker t) -> 1 <= epoch_of t <= current_epoch_of c).
Proof.
  pose proof (greachable_epoch_inv _ _ (reachable_abs _ Hw)) as Hi. apply abs_config in Hc. split.
  - intros e He. destruct (ei_complete _ Hi _ _ _ Hc He) as (k & t & Hk & Ht). exists k, t.
    split_and!; [by apply abs_tracker|done|]. intros k' t' Hk' Ht'. apply abs_tracker in Hk'.
    eapply (ei_unique _ Hi); [done..|congruence].
  - intros k t Hk. apply abs_tracker in Hk. destruct (ei_bound _ Hi _ _ Hk) as (kc' & c' & Hc' & Hb).
    pose proof (config_unique _ _ _ _ _ Hi Hc Hc') as <-. rewrite Hc in Hc'. by injection Hc' as <-.
Qed.

(** C2: A message is approved at most once and executed at most once, and only after its approval:
    in every reachable world the command ids of the approval events are distinct, those of the
    execution events are distinct, and every execution event carries the command id, the payload
    hash and the origin of an approved message, and the program its destination address names. No
    two submitted messages are assumed to have the same hash. *)
Theorem message_executed_once w (Hw : reachable w)
    (Hinj : forall m1 m2, occurs submitted m1 -> occurs submitted m2 ->
       message_hash m1 = message_hash m2 -> m1 = m2) :
  NoDup (approved_ids (gateway_events (log w))) /\ NoDup (executed_ids (gateway_events (log w))) /\
  forall i d ph sc ci sa dc, MessageExecutedEvent i d ph sc ci sa dc ∈ gateway_events (log w) ->
    exists m, pubkey_from_str (destination_address m) = Some d /\
      MessageExecutedEvent i d ph sc ci sa dc = executed_event m d /\
      approved_event m ∈ gateway_events (log w).
Proof.
  destruct (greachable_message_inv _ Hinj _ (reachable_abs _ Hw)) as [_ _ H3 H4 H5].
  split_and!; [done|done|]. intros * Hin.
  destruct (H3 _ _ _ _ _ _ _ Hin) as (m & _ & ? & ? & ?). by exists m.
Qed.

(** The hypotheses of the two theorems on signatures, about the submitted instructions only: the
    session addresses they name do not collide, the integers of their leaves are in range, and the
    leaves they prove against the root of a verifier set carry the quorum of that set. *)
Record sound_submissions (quorum_of : array 32 -> Z) : Prop := {
  ss_address r1 t1 r2 t2 vh b k :
    names_session submitted r1 t1 -> names_session submitted r2 t2 ->
    create_program_address (Session.pda_seeds r1 (payload_type_into_u8 t1) vh ++ [[b]]) gateway_ID = Some k ->
    create_program_address (Session.pda_seeds r2 (payload_type_into_u8 t2) vh ++ [[b]]) gateway_ID = Some k ->
    r1 = r2 /\ t1 = t2;
  ss_quorum vh : uint 128 (quorum_of vh);
  ss_leaf a root i : submitted (IxVerifySignature a root i) -> leaf_wf (si_leaf i);
  ss_sound a root i vh : submitted (IxVerifySignature a root i) -> accepted root vh i ->
    vl_quorum (si_leaf i) = quorum_of vh
}.

Lemma reachable_trust quorum_of w : sound_submissions quorum_of -> reachable w ->
  trust_inv submitted quorum_of (abs w).
Proof.
  intros [H1 H2 H3 H4] Hw. exact (greachable_trust_inv _ H1 _ H2 H3 H4 _ (reachable_abs _ Hw)).
Qed.

(** C1: Every approved message was signed by a quorum. In every reachable world, the message of
    each approval event is in a leaf with a Merkle proof against a payload root, and that root is
    signed for the domain of the gateway's configuration, as a batch of messages, by distinct
    positions of a registered verifier set whose weights reach its quorum. *)
Theorem approvals_signed_by_quorum quorum_of w e (Hs : sound_submissions quorum_of) (Hw : reachable w)
    (He : e ∈ gateway_events (log w)) (Happ : exists m, e = approved_event m) :
  exists root vh leaf proof, e = approved_event (ml_message leaf) /\
    leaf_proven SolanaHasher root proof leaf (ml_position leaf) (ml_set_size leaf) /\
    (exists kt t, gw w !! kt = Some (DVerifierSetTracker t) /\ VerifierSetTracker.verifier_set_hash t = vh) /\
    forall kc c, gw w !! kc = Some (DGatewayConfig c) ->
      signed_by_quorum submitted quorum_of (GatewayConfig.domain_separator c) root
        StdTypes.ApproveMessages vh.
Proof.
  pose proof (ti_event _ _ _ (reachable_trust _ _ Hs Hw) _ He) as Hok. destruct Happ as [m ->].
  destruct Hok as (root & vh & leaf & proof & Hm & Hl & (kt & t & Ht & Hh) & Hsig).
  exists root, vh, leaf, proof. split_and!; [done|done| |].
  - exists kt, t. split; [by apply abs_tracker|done].
  - intros kc c Hc. apply abs_config in Hc. by eapply Hsig.
Qed.

(** C7: The verifier sets form a chain of trust. In every reachable world, each verifier set
    tracker is of epoch 1, set by the upgrade authority at initialisation, or its root was signed
    as a rotation, for the domain of the gateway's configuration, by a quorum of another verifier
    set that the gateway has registered. *)
Theorem verifier_sets_chain_of_trust quorum_of w k t (Hs : sound_submissions quorum_of)
    (Hw : reachable w) (Hk : gw w !! k = Some (DVerifierSetTracker t)) :
  epoch_of t = 1 \/
  exists kt t', gw w !! kt = Some (DVerifierSetTracker t') /\
    VerifierSetTracker.verifier_set_hash t' <> VerifierSetTracker.verifier_set_hash t /\
    forall kc c, gw w !! kc = Some (DGatewayConfig c) ->
      signed_by_quorum submitted quorum_of (GatewayConfig.domain_separator c)
        (VerifierSetTracker.verifier_set_hash t) StdTypes.RotateSigners
        (VerifierSetTracker.verifier_set_hash t').
Proof.
  pose proof (reachable_trust _ _ Hs Hw) as Hi. apply abs_tracker in Hk.
  destruct (ti_tracker _ _ _ Hi _ _ Hk) as [He|He].
  - left. unfold epoch_of. rewrite He. apply U256.val_from_uint. unfold uint. lia.
  - right. destruct (ti_event _ _ _ Hi _ He) as (vh & Hne & (kt & t' & Ht & Hh) & Hsig).
    exists kt, t'. rewrite Hh. split_and!; [by apply abs_tracker|done|].
    intros kc c Hc. apply abs_config in Hc. by eapply Hsig.
Qed.

Lemma rotation_allowed_facts c t op time epoch :
  U256.wf (GatewayConfig.current_epoch c) -> rotation_allowed c t op time epoch ->
  U256.val epoch = current_epoch_of c + 1 /\
  ((exists o, op = Some o /\ is_signer o = true /\ key o = GatewayConfig.operator c) \/
   GatewayConfig.minimum_rotation_delay c <= time - GatewayConfig.last_rotation_timestamp c /\
   epoch_of t = current_epoch_of c).
Proof.
  intros Hwf H. split; [by apply next_epoch; [|exact (ra_next _ _ _ _ _ H)]|].
  destruct (enforce_rotation_delay op c) eqn:Hf.
  - right. split; [by apply (ra_delay _ _ _ _ _ H)|].
    unfold epoch_of. by rewrite <- (ra_latest _ _ _ _ _ H Hf).
  - left. unfold enforce_rotation_delay in Hf. destruct op as [o|]; [|done].
    apply negb_false_iff, andb_true_iff in Hf as [Ho Hsig]. apply bool_decide_eq_true in Ho.
    by exists o.
Qed.

(** Changes of the configuration. A successful instruction leaves an existing configuration at
    its address with the same domain separator, retention, minimum rotation delay and bump. Its
    epoch changes only by a rotation, to the next epoch and with the time of the rotation recorded,
    and unless the operator signed, the minimum delay had passed and the signing set was the latest
    one. Its operator changes only by a transfer that the operator or the upgrade authority signed. *)
Theorem gateway_config_changes ix w u w' kc c (Hrun : gateway_entry ix w = Ok (u, w'))
    (Hc : gw w !! kc = Some (DGatewayConfig c)) (Hwf : U256.wf (GatewayConfig.current_epoch c)) :
  exists c', gw w' !! kc = Some (DGatewayConfig c') /\
    GatewayConfig.domain_separator c' = GatewayConfig.domain_separator c /\
    GatewayConfig.previous_verifier_set_retention c' = GatewayConfig.previous_verifier_set_retention c /\
    GatewayConfig.minimum_rotation_delay c' = GatewayConfig.minimum_rotation_delay c /\
    GatewayConfig.bump c' = GatewayConfig.bump c /\
    (GatewayConfig.current_epoch c' = GatewayConfig.current_epoch c /\
       GatewayConfig.last_rotation_timestamp c' = GatewayConfig.last_rotation_timestamp c \/
     exists a root t, ix = IxRotateSigners a root /\
       gw w !! key (rs_verifier_set_tracker_pda a) = Some (DVerifierSetTracker t) /\
       current_epoch_of c' = current_epoch_of c + 1 /\
       GatewayConfig.last_rotation_timestamp c' = now w /\
       ((exists o, rs_operator a = Some o /\ is_signer o = true /\ key o = GatewayConfig.operator c) \/
        GatewayConfig.minimum_rotation_delay c <= now w - GatewayConfig.last_rotation_timestamp c /\
        epoch_of t = current_epoch_of c)) /\
    (GatewayConfig.operator c' = GatewayConfig.operator c \/
     exists a, ix = IxTransferOperatorship a /\
       GatewayConfig.operator c' = key (to_new_operator a) /\
       is_signer (to_operator_or_upgrade_authority a) = true /\
       (key (to_operator_or_upgrade_authority a) = GatewayConfig.operator c \/
        upgrade_authority w = Some (key (to_operator_or_upgrade_authority a)))).
Proof.
  apply gateway_entry_astep in Hrun. apply abs_config in Hc. setoid_rewrite abs_config.
  setoid_rewrite abs_tracker. change (now w) with (g_time (abs w)).
  revert Hrun Hc. generalize (abs w) as s, (abs w') as s', (upgrade_authority w) as authority.
  intros s s' authority Hstep Hc. destruct Hstep; try (exists c; simpl; by auto 12).
  - exists c. simpl. match goal with H : fresh_key _ (key (ic_gateway_root_pda _)) |- _ => destruct H as [Hf _] end.
    rewrite lookup_insert_ne by congruence. by auto 12.
  - simpl. destruct (decide (key (rs_gateway_root_pda a) = kc)) as [<-|Hne];
      [|rewrite lookup_insert_ne by done; exists c; by auto 12].
    simplify_eq. rewrite lookup_insert_eq. eexists. split; [done|].
    split_and!; try done; [|by left]. right. exists a, root, t.
    match goal with H : rotation_allowed _ _ _ _ _ |- _ =>
      pose proof (rotation_allowed_facts _ _ _ _ _ Hwf H) as [? ?] end. by split_and!.
  - simpl. destruct (decide (key (to_gateway_root_pda a) = kc)) as [<-|Hne];
      [|rewrite lookup_insert_ne by done; exists c; by auto 12].
    simplify_eq. rewrite lookup_insert_eq. eexists. split; [done|].
    split_and!; try done; [by left|]. right. exists a. split_and!; try done. naive_solver.
Qed.
End reach.
