(* ===== verification/Executable.v ===== *)
(** * The executable interface

    programs/solana-axelar-gateway/src/executable.rs: how a program that receives a message checks
    its payload and has the gateway mark the message executed, and how a relayer builds the
    instruction that starts it. [pid] is the id of the receiving program. *)

From stdpp Require Import base gmap list.
From Stdlib Require Import ZArith Lia.
From S2P Require Import Prelude Errors External StdInts StdTypes GatewayState Payload Ledger LedgerLemmas Gateway GatewayLemmas GatewayOutcomes.

Definition EXECUTE_IX_DISC : bytes := map byte_of_Z [130; 221; 242; 154; 13; 193; 189; 29].
Definition EXECUTE_PROGRAM_ACCOUNTS_START_INDEX : nat := 5.

(** [AxelarExecuteAccounts], and the references to it that the validation takes. *)
Record AxelarExecutableAccounts := {
  ex_incoming_message_pda : AccountInfo;
  ex_signing_pda : AccountInfo;
  ex_gateway_root_pda : AccountInfo;
  ex_axelar_gateway_program : Pubkey
}.

Section executable.
Context {keccak : Keccak} {merkle : RsMerkle} {secp : Secp256k1} {bits : BitVec} {bnum : Bnum}
  {pda : SolanaPda} {ids : ProgramIds} {system : SolanaSystem}.
Context {leaf_digest : Digestable VerifierSetLeaf} {message_digest : Digestable Message}
  {message_leaf_digest : Digestable MessageLeaf}.
Context {vecs : BorshVec} {abi : SolAbi}.

(** The checks of the macro [executable_accounts!]. *)
Definition executable_accounts (pid : Pubkey) (a : AxelarExecutableAccounts) (message : Message)
    : Instr unit :=
  incoming ← load IncomingMessage.t (key (ex_incoming_message_pda a));
  _ ← load GatewayConfig.t (key (ex_gateway_root_pda a));
  _ ← program_account gateway_ID (ex_axelar_gateway_program a);
  _ ← constraint_seeds (IncomingMessage.pda_seeds (command_id message)) (IncomingMessage.bump incoming)
        gateway_ID (key (ex_incoming_message_pda a));
  _ ← constraint_mut (ex_incoming_message_pda a);
  _ ← constraint_seeds (ValidateMessageSigner.pda_seeds (command_id message))
        (IncomingMessage.signing_pda_bump incoming) pid (key (ex_signing_pda a));
  gateway_root_seeds (key (ex_gateway_root_pda a)).

Definition validate_message_raw (pid : Pubkey) (a : AxelarExecutableAccounts) (message : Message)
    (payload : bytes) : Instr unit :=
  let computed_payload_hash := keccak_hash payload in
  _ ← require (bool_decide (computed_payload_hash = payload_hash message)) (executable_error InvalidPayloadHash);
  let cid := command_id message in
  incoming ← load IncomingMessage.t (key (ex_incoming_message_pda a));
  let signer_seeds := [ValidateMessageSigner.SEED_PREFIX; arr_bytes cid;
                       [IncomingMessage.signing_pda_bump incoming]] in
  incoming_message_pda ← invoke_signed_account pid signer_seeds (ex_incoming_message_pda a) false true;
  caller ← invoke_signed_account pid signer_seeds (ex_signing_pda a) true false;
  gateway_root_pda ← invoke_signed_account pid signer_seeds (ex_gateway_root_pda a) false false;
  Gateway.validate_message {| vm_incoming_message_pda := incoming_message_pda; vm_caller := caller;
                              vm_gateway_root_pda := gateway_root_pda |} message.

(** [account_metas] is [accounts.to_account_metas(None)]. *)
Definition validate_message (pid : Pubkey) (a : AxelarExecutableAccounts) (account_metas : list AccountMeta)
    (message : Message) (payload_without_accounts : bytes) (encoding_scheme : EncodingScheme) : Instr unit :=
  instruction_accounts ← lift (if (EXECUTE_PROGRAM_ACCOUNTS_START_INDEX <=? length account_metas)%nat
    then Ok (drop EXECUTE_PROGRAM_ACCOUNTS_START_INDEX account_metas) else Err EPanic);
  let payload := payload_new repr_from_meta payload_without_accounts instruction_accounts encoding_scheme in
  encoded ← lift (map_err EGateway (encode payload));
  validate_message_raw pid a message encoded.

(** ** helpers *)

Record AxelarExecuteInstruction := {
  ei_message : Message;
  ei_payload_without_accounts : bytes;
  ei_encoding_scheme : EncodingScheme
}.

(** The client's [AxelarExecuteAccounts]. *)
Record ExecuteAccountKeys := {
  ek_incoming_message_pda : Pubkey;
  ek_signing_pda : Pubkey;
  ek_gateway_root_pda : Pubkey;
  ek_event_authority : Pubkey;
  ek_axelar_gateway_program : Pubkey
}.

Definition meta_new (k : Pubkey) (s : bool) : AccountMeta :=
  {| meta_pubkey := k; meta_is_signer := s; meta_is_writable := true |}.
Definition meta_new_readonly (k : Pubkey) (s : bool) : AccountMeta :=
  {| meta_pubkey := k; meta_is_signer := s; meta_is_writable := false |}.

Definition to_account_metas (self : ExecuteAccountKeys) : list AccountMeta :=
  [meta_new (ek_incoming_message_pda self) false;
   meta_new_readonly (ek_signing_pda self) false;
   meta_new_readonly (ek_gateway_root_pda self) false;
   meta_new_readonly (ek_event_authority self) false;
   meta_new_readonly (ek_axelar_gateway_program self) false].

(** [solana_program::instruction::Instruction] *)
Record Instruction := {
  ix_program_id : Pubkey;
  ix_accounts : list AccountMeta;
  ix_data : bytes
}.

(** [invoke_signed] of an instruction of another program, as the Solana runtime runs it: the calling
    program, its signer seeds, the instruction and the accounts. *)
Class Runtime := invoke_program : Pubkey -> list bytes -> Instruction -> list AccountInfo -> Instr unit.

Definition create_execute_instruction `{!Borsh AxelarExecuteInstruction} (program_id : Pubkey)
    (message : Message) (payload : AxelarMessagePayload) (execute_accounts : ExecuteAccountKeys)
    : Result Instruction :=
  body ← ok_or (borsh_serialize {| ei_message := message;
                  ei_payload_without_accounts := payload_without_accounts payload;
                  ei_encoding_scheme := payload_encoding_scheme payload |}) EPanic;
  let data := EXECUTE_IX_DISC ++ body in
  let accounts := to_account_metas execute_accounts ++ account_meta payload in
  mret {| ix_program_id := program_id; ix_accounts := accounts; ix_data := data |}.
End executable.

Section theorems.
Context {keccak : Keccak} {merkle : RsMerkle} {secp : Secp256k1} {bits : BitVec} {bnum : Bnum}
  {pda : SolanaPda} {ids : ProgramIds} {system : SolanaSystem}.
Context {leaf_digest : Digestable VerifierSetLeaf} {message_digest : Digestable Message}
  {message_leaf_digest : Digestable MessageLeaf}.
Context {vecs : BorshVec} {abi : SolAbi}.
Context {bnum_laws : BnumLaws} {pda_laws : SolanaPdaLaws} {bits_laws : BitVecLaws}
  {ids_laws : ProgramIdsLaws} {system_laws : SolanaSystemLaws} {vec_laws : BorshVecLaws} {abi_laws : SolAbiLaws}.

Lemma executable_accounts_ok pid a m w u w' :
  executable_accounts pid a m w = Ok (u, w') ->
  exists inc c, validate_loaded
      {| vm_incoming_message_pda := ex_incoming_message_pda a; vm_caller := ex_signing_pda a;
         vm_gateway_root_pda := ex_gateway_root_pda a |} m w c inc /\
    create_program_address [ValidateMessageSigner.SEED_PREFIX; arr_bytes (command_id m);
      [IncomingMessage.signing_pda_bump inc]] pid = Some (key (ex_signing_pda a)).
Proof.
  unfold executable_accounts. intros H. inv_instr.
  match goal with H : gateway_root_seeds _ _ = _ |- _ => apply gateway_root_seeds_ok in H as (c & Hc & Hcs & _) end.
  do 2 eexists. split; [|match goal with H : create_program_address _ pid = _ |- _ => exact H end].
  split; [eassumption..|split; eassumption].
Qed.

Lemma executable_accounts_world pid a m w u w' : executable_accounts pid a m w = Ok (u, w') -> w' = w.
Proof.
  unfold executable_accounts. intros H. inv_instr.
  match goal with H : gateway_root_seeds _ _ = _ |- _ => by apply gateway_root_seeds_ok in H as (? & _ & _ & ->) end.
Qed.

Lemma invoke_signed_account_ok pid seeds a s m w b w' :
  invoke_signed_account pid seeds a s m w = Ok (b, w') ->
  b = {| key := key a; is_signer := s; is_writable := m |} /\ w' = w /\
  (m = true -> is_writable a = true) /\
  (s = true -> is_signer a = true \/ create_program_address seeds pid = Some (key a)).
Proof.
  unfold invoke_signed_account. intros H. inv_instr. split_and!; try done.
  - intros ->. done.
  - intros ->. match goal with H : (_ || _)%bool = true |- _ => apply orb_true_iff in H as [?|E]; [by left|] end.
    right. apply bool_decide_eq_true in E. congruence.
Qed.

(** Only data of the program [pid] changes. *)
Definition ledger_frame (pid : Pubkey) (w w' : World) : Prop :=
  forall pid', pid' <> pid -> state_of pid' w' = state_of pid' w.

(** [validate_message] writes the message's account, of the gateway, and nothing else. *)
Lemma validate_message_other a m w u w' :
  Gateway.validate_message a m w = Ok (u, w') -> ledger_frame gateway_ID w w'.
Proof.
  unfold Gateway.validate_message, validate_message_accounts, validate_message_handler. intros H pid Hp.
  inv_instr. cbn [wrap program_of IncomingMessage_account] in *.
  match goal with H : gateway_root_seeds _ _ = _ |- _ => apply gateway_root_seeds_ok in H as (? & _ & _ & ->) end.
  match goal with H : store _ _ _ = _, H2 : state_of gateway_ID _ !! _ = Some (DIncomingMessage _) |- _ =>
    destruct (store_ok _ _ _ _ _ _ _ gateway_ID _ H H2) as (_ & Ho & _) end.
  by apply Ho.
Qed.

(** A reception that succeeds: the payload has the hash of the message, which the gateway had
    approved and now holds as executed. *)
Lemma validate_message_raw_ok pid a m payload w u w' :
  validate_message_raw pid a m payload w = Ok (u, w') ->
  keccak_hash payload = payload_hash m /\
  (exists inc, gw w !! key (ex_incoming_message_pda a) = Some (DIncomingMessage inc) /\
     MessageStatus.is_approved (IncomingMessage.status inc) = true /\
     IncomingMessage.message_hash inc = message_hash m /\
     gw w' = <[key (ex_incoming_message_pda a) := DIncomingMessage (executed_of inc)]> (gw w)) /\
  (exists dest, pubkey_from_str (destination_address m) = Some dest /\ log w' = EvGateway (MessageExecutedEvent (command_id m) dest (payload_hash m)
      (chain (cc_id m)) (id (cc_id m)) (source_address m) (destination_chain m)) :: log w) /\
  ledger_frame gateway_ID w w' /\ now w' = now w.
Proof.
  unfold validate_message_raw. intros H. inv_instr. bool_props.
  repeat match goal with Hi : invoke_signed_account _ _ _ _ _ _ = _ |- _ =>
    apply invoke_signed_account_ok in Hi as (-> & -> & _) end.
  match goal with Hv : Gateway.validate_message _ _ _ = _ |- _ =>
    pose proof (validate_message_other _ _ _ _ _ Hv) as Hot;
    apply validate_message_ok in Hv as (inc & dest & Hi & _ & Ha & Hh & Hd & _ & _ & Hg & Hn & Hl) end.
  cbn [vm_incoming_message_pda key] in *. split_and!; try done; [|by exists dest].
  by exists inc.
Qed.

(** The called accounts, after the checks of the macro. *)
Definition called (a : AxelarExecutableAccounts) : ValidateMessage :=
  {| vm_incoming_message_pda := {| key := key (ex_incoming_message_pda a); is_signer := false; is_writable := true |};
     vm_caller := {| key := key (ex_signing_pda a); is_signer := true; is_writable := false |};
     vm_gateway_root_pda := {| key := key (ex_gateway_root_pda a); is_signer := false; is_writable := false |} |}.

Lemma invoke_signed_account_eval pid seeds a s m w k :
  create_program_address seeds pid = Some k -> (s = true -> key a = k) -> (m = true -> is_writable a = true) ->
  invoke_signed_account pid seeds a s m w = Ok ({| key := key a; is_signer := s; is_writable := m |}, w).
Proof.
  intros Hk Hs Hm. unfold invoke_signed_account. rewrite Hk.
  erewrite bind_eval by (apply lift_ok; split; reflexivity). cbv beta.
  erewrite bind_eval; [|apply require_eval].
  - cbv beta. erewrite bind_eval; [|apply require_eval]; [done|].
    destruct m; [by rewrite Hm|done].
  - destruct s; [|done]. rewrite bool_decide_eq_true_2 by auto. apply orb_true_r.
Qed.

Lemma validate_message_raw_eval pid a m payload w :
  executable_accounts pid a m w = Ok (tt, w) -> keccak_hash payload = payload_hash m ->
  validate_message_raw pid a m payload w = Gateway.validate_message (called a) m w.
Proof.
  intros Ha Hh. apply executable_accounts_ok in Ha as (inc & c & [Hi Hs Hw Hr] & Hk).
  unfold validate_message_raw. run_instr. cbn [vm_incoming_message_pda vm_gateway_root_pda] in *. run_instr.
  do 3 (erewrite bind_eval by (by eapply invoke_signed_account_eval); cbv beta). done.
Qed.

Lemma called_loaded pid a m w u w' :
  executable_accounts pid a m w = Ok (u, w') ->
  exists inc c, validate_loaded (called a) m w c inc /\
    create_program_address [ValidateMessageSigner.SEED_PREFIX; arr_bytes (command_id m);
      [IncomingMessage.signing_pda_bump inc]] pid = Some (key (ex_signing_pda a)).
Proof.
  intros (inc & c & [Hi Hs Hw Hr] & Hk)%executable_accounts_ok. exists inc, c. by split.
Qed.

(** C38: Reception of a message, exactly. With the accounts that the macro checks, and a message
    whose destination address is the receiving program, [validate_message_raw] refuses a payload
    without the hash of the message with the error 7000; otherwise it succeeds exactly when the
    gateway has the message approved with this hash, which it marks executed, and the same
    reception fails from then on with [MessageNotApproved]. *)
Theorem receive_message_exact pid a m payload w inc
    (Ha : executable_accounts pid a m w = Ok (tt, w))
    (Hinc : gw w !! key (ex_incoming_message_pda a) = Some (DIncomingMessage inc))
    (Hd : pubkey_from_str (destination_address m) = Some pid) :
  (keccak_hash payload <> payload_hash m ->
     validate_message_raw pid a m payload w = Err (EProgram (PE_Custom 7000))) /\
  (keccak_hash payload = payload_hash m ->
     ((exists w', validate_message_raw pid a m payload w = Ok (tt, w')) <->
        MessageStatus.is_approved (IncomingMessage.status inc) = true /\
        IncomingMessage.message_hash inc = message_hash m) /\
     forall w', validate_message_raw pid a m payload w = Ok (tt, w') ->
       gw w' = <[key (ex_incoming_message_pda a) := DIncomingMessage (executed_of inc)]> (gw w) /\
       validate_message_raw pid a m payload w' = Err (EGateway MessageNotApproved)).
Proof.
  split; [|intros Hh].
  - intros Hne. unfold validate_message_raw. apply bind_err. apply require_false.
    by apply bool_decide_eq_false.
  - rewrite validate_message_raw_eval by done.
    destruct (called_loaded _ _ _ _ _ _ Ha) as (inc' & c & Hl & Hk).
    pose proof (vl_incoming _ _ _ _ _ Hl) as Hi. cbn in Hi. rewrite Hinc in Hi. injection Hi as <-.
    assert (caller_of_destination (called a) m inc) as Hcall by (split; [done|]; by exists pid).
    split; [split|].
    + intros [w' Hrun]. apply validate_message_ok in Hrun as (inc' & dest & Hi & _ & Hap & Hmh & _).
      cbn in Hi. rewrite Hinc in Hi. injection Hi as <-. done.
    + intros [Hap Hmh]. by eapply validate_message_eval.
    + intros w' Hrun. pose proof Hrun as Hok.
      apply validate_message_ok in Hok as (inc' & dest & Hi & _ & _ & _ & _ & _ & _ & Hg & _).
      cbn in Hi, Hg. rewrite Hinc in Hi. injection Hi as <-. split; [done|].
      assert (validate_loaded (called a) m w' c (executed_of inc)) as Hl' by (by eapply validate_loaded_after).
      unfold validate_message_raw. erewrite bind_eval by run_check. cbv beta.
      pose proof (vl_incoming _ _ _ _ _ Hl') as Hi'. cbn in Hi'.
      erewrite bind_eval by (apply load_ok; split; [exact Hi'|reflexivity]). cbv beta.
      apply executable_accounts_ok in Ha as (inc' & c' & [Hi2 _ Hw2 _] & _). cbn in Hi2, Hw2.
      do 3 (erewrite bind_eval by (by eapply invoke_signed_account_eval); cbv beta).
      by apply (validate_message_not_approved (called a) _ _ c (executed_of inc)).
Qed.

(** C37: What a program executes is what was approved. If the payload hash of the message is the
    hash of an encoded payload, a successful [validate_message] has reconstructed, from the
    instruction's bytes and from the accounts after the first five, exactly that payload: the same
    bytes, the same accounts with the same flags in the same order, and the same scheme; unless two
    different byte strings with one Keccak hash are at hand. *)
Theorem executed_payload_is_approved pid a metas m p scheme w u w' approved encoded
    (Hrun : validate_message pid a metas m p scheme w = Ok (u, w'))
    (Happ : encode approved = Ok encoded) (Hm : payload_hash m = keccak_hash encoded) :
  (payload_without_accounts approved = p /\ payload_encoding_scheme approved = scheme /\
   account_meta approved = drop 5 metas) \/
  exists e, encode (payload_new repr_from_meta p (drop 5 metas) scheme) = Ok e /\ keccak_collision e encoded.
Proof.
  unfold validate_message in Hrun. inv_instr.
  match goal with H : (if _ then _ else _) = Ok _ |- _ => destruct (_ <=? _)%nat in H; [injection H as <-|done] end.
  match goal with H : encode (payload_new _ _ _ _) = Ok _ |- _ => rename H into He end.
  unfold validate_message_raw in Hrun. inv_instr. bool_props.
  match goal with H : keccak_hash ?e = payload_hash m |- _ => rename H into Hh; rename e into e0 end.
  destruct (decide (e0 = encoded)) as [->|Hne].
  - left. pose proof (encode_inj _ _ _ Happ He) as ->. split_and!; [done..|].
    unfold account_meta, payload_new. cbn [payload_solana_accounts]. apply meta_repr_meta.
  - right. eexists. split; [exact He|]. split; [done|congruence].
Qed.

(** The relayer's instruction starts the approved execution. The instruction that
    [create_execute_instruction] builds carries, in the accounts after the first five and in its
    data, the payload it was built from: the receiving program reads back the message, the bytes
    and the scheme after the discriminator, and reconstructs the payload. *)
Lemma execute_instruction_roundtrip {codec : Borsh AxelarExecuteInstruction}
    {codec_laws : BorshLaws AxelarExecuteInstruction} program_id m payload keys ix
    (Hix : create_execute_instruction program_id m payload keys = Ok ix) :
  take 8 (ix_data ix) = EXECUTE_IX_DISC /\
  exists args, borsh_deserialize (drop 8 (ix_data ix)) = Some (args, []) /\ ei_message args = m /\
    payload_new repr_from_meta (ei_payload_without_accounts args)
      (drop EXECUTE_PROGRAM_ACCOUNTS_START_INDEX (ix_accounts ix)) (ei_encoding_scheme args) = payload.
Proof.
  unfold create_execute_instruction in Hix. inv_result. cbn [ix_data ix_accounts].
  match goal with H : borsh_serialize ?a = Some ?b |- _ =>
    pose proof (borsh_roundtrip a b [] H) as Hr; rewrite app_nil_r in Hr end.
  split; [done|]. eexists. split; [exact Hr|]. split; [done|].
  unfold payload_new, account_meta. destruct payload as [p l s]. cbn [ei_payload_without_accounts
    ei_encoding_scheme payload_without_accounts payload_solana_accounts payload_encoding_scheme].
  f_equal. apply repr_meta_repr.
Qed.
End theorems.
