(* ===== verification/Operators.v ===== *)
(** * The operators program

    programs/solana-axelar-operators/src/instructions: the four instructions, what each one changes
    of the accounts of the program, and the invariant that the registry counts the operators. *)

From stdpp Require Import base gmap list.
From Stdlib Require Import ZArith Lia.
From S2P Require Import Prelude Errors External StdInts StdTypes GatewayState OperatorsState Ledger LedgerLemmas.

Section operators.
Context {pda : SolanaPda} {ids : ProgramIds} {system : SolanaSystem}.

(** ** initialize.rs *)

Record OperatorsInitialize := {
  oi_payer : AccountInfo;
  oi_owner : AccountInfo;
  oi_registry : AccountInfo;
  oi_system_program : Pubkey
}.

Definition operators_initialize (a : OperatorsInitialize) : Instr unit :=
  _ ← signer_account (oi_payer a);
  _ ← signer_account (oi_owner a);
  _ ← program_account system_program_ID (oi_system_program a);
  b ← init_account OperatorRegistry.t (key (oi_payer a)) (key (oi_registry a)) (8 + 41)
        OperatorRegistry.pda_seeds;
  _ ← constraint_mut (oi_payer a);
  _ ← constraint_mut (oi_registry a);
  store (key (oi_registry a))
    {| OperatorRegistry.owner := key (oi_owner a);
       OperatorRegistry.operator_count := 0;
       OperatorRegistry.bump := b |}.

(** The constraints on [owner] and [registry] that the other instructions share. *)
Definition owner_constraints (o : AccountInfo) (registry : OperatorRegistry.t) : Instr unit :=
  _ ← constraint_mut o;
  constraint_address (key o) (OperatorRegistry.owner registry) (EOperators UnauthorizedOwner).

Definition registry_constraints (r : AccountInfo) (registry : OperatorRegistry.t) : Instr unit :=
  _ ← constraint_seeds OperatorRegistry.pda_seeds (OperatorRegistry.bump registry) operators_ID (key r);
  constraint_mut r.

Definition set_operator_count (r : OperatorRegistry.t) (n : Z) : OperatorRegistry.t :=
  {| OperatorRegistry.owner := OperatorRegistry.owner r;
     OperatorRegistry.operator_count := n;
     OperatorRegistry.bump := OperatorRegistry.bump r |}.

(** ** add_operator.rs *)

Record AddOperator := {
  ao_owner : AccountInfo;
  ao_operator_to_add : AccountInfo;
  ao_registry : AccountInfo;
  ao_operator_account : AccountInfo;
  ao_system_program : Pubkey
}.

Definition add_operator (a : AddOperator) : Instr unit :=
  _ ← signer_account (ao_owner a);
  registry ← load OperatorRegistry.t (key (ao_registry a));
  _ ← program_account system_program_ID (ao_system_program a);
  b ← init_account OperatorAccount.t (key (ao_owner a)) (key (ao_operator_account a)) (8 + 1)
        (OperatorAccount.pda_seeds (key (ao_operator_to_add a)));
  _ ← owner_constraints (ao_owner a) registry;
  _ ← registry_constraints (ao_registry a) registry;
  _ ← constraint_mut (ao_operator_account a);
  operator_count ← lift (ok_or (checked_add 64 (OperatorRegistry.operator_count registry) 1)
                               (EProgram PE_ArithmeticOverflow));
  _ ← store (key (ao_registry a)) (set_operator_count registry operator_count);
  store (key (ao_operator_account a)) {| OperatorAccount.bump := b |}.

(** ** remove_operator.rs *)

Record RemoveOperator := {
  ro_owner : AccountInfo;
  ro_operator_to_remove : AccountInfo;
  ro_registry : AccountInfo;
  ro_operator_account : AccountInfo
}.

Definition remove_operator (a : RemoveOperator) : Instr unit :=
  _ ← signer_account (ro_owner a);
  registry ← load OperatorRegistry.t (key (ro_registry a));
  operator_account ← load OperatorAccount.t (key (ro_operator_account a));
  _ ← owner_constraints (ro_owner a) registry;
  _ ← registry_constraints (ro_registry a) registry;
  _ ← constraint_seeds (OperatorAccount.pda_seeds (key (ro_operator_to_remove a)))
        (OperatorAccount.bump operator_account) operators_ID (key (ro_operator_account a));
  _ ← constraint_mut (ro_operator_account a);
  operator_count ← lift (ok_or (checked_sub (OperatorRegistry.operator_count registry) 1)
                               (EProgram PE_InvalidAccountData));
  _ ← store (key (ro_registry a)) (set_operator_count registry operator_count);
  close_account (key (ro_operator_account a)) (key (ro_owner a)).

(** ** transfer_owner.rs *)

Record TransferOwner := {
  tw_owner : AccountInfo;
  tw_new_owner : AccountInfo;
  tw_registry : AccountInfo
}.

Definition transfer_owner (a : TransferOwner) : Instr unit :=
  _ ← signer_account (tw_owner a);
  registry ← load OperatorRegistry.t (key (tw_registry a));
  _ ← owner_constraints (tw_owner a) registry;
  _ ← require (bool_decide (key (tw_new_owner a) <> OperatorRegistry.owner registry)) (EOperators SameOwner);
  _ ← registry_constraints (tw_registry a) registry;
  _ ← emit (EvOperators (OwnershipTransferred (key (tw_owner a)) (key (tw_new_owner a))));
  store (key (tw_registry a))
    {| OperatorRegistry.owner := key (tw_new_owner a);
       OperatorRegistry.operator_count := OperatorRegistry.operator_count registry;
       OperatorRegistry.bump := OperatorRegistry.bump registry |}.

(** ** lib.rs *)

Inductive OperatorsInstruction :=
| OxInitialize (a : OperatorsInitialize)
| OxAddOperator (a : AddOperator)
| OxRemoveOperator (a : RemoveOperator)
| OxTransferOwner (a : TransferOwner).

Definition operators_entry (ix : OperatorsInstruction) : Instr unit :=
  match ix with
  | OxInitialize a => operators_initialize a
  | OxAddOperator a => add_operator a
  | OxRemoveOperator a => remove_operator a
  | OxTransferOwner a => transfer_owner a
  end.
End operators.

Section theorems.
Context {pda : SolanaPda} {ids : ProgramIds} {system : SolanaSystem}.
Context {pda_laws : SolanaPdaLaws} {ids_laws : ProgramIdsLaws} {system_laws : SolanaSystemLaws}.

(** The data of the accounts the program owns, and those of its two types. *)
Definition op (w : World) : gmap (array 32) AccountData := state_of operators_ID w.
Definition registries (w : World) : gmap (array 32) OperatorRegistry.t := view _ OperatorRegistry_account (op w).
Definition operators (w : World) : gmap (array 32) OperatorAccount.t := view _ OperatorAccount_account (op w).

Lemma registries_lookup w k r : registries w !! k = Some r <-> op w !! k = Some (DOperatorRegistry r).
Proof. apply (view_lookup _ OperatorRegistry_account). Qed.
Lemma operators_lookup w k o : operators w !! k = Some o <-> op w !! k = Some (DOperatorAccount o).
Proof. apply (view_lookup _ OperatorAccount_account). Qed.

Lemma op_ne : operators_ID <> system_program_ID.
Proof. apply program_ne_system. Qed.

(** The two views after a write of either type. *)
Lemma write_registry w w' k r :
  op w' = <[k := DOperatorRegistry r]> (op w) -> operators w !! k = None ->
  registries w' = <[k := r]> (registries w) /\ operators w' = operators w.
Proof.
  intros E Hn. unfold registries, operators in *. rewrite E. split.
  - apply (view_insert _ OperatorRegistry_account).
  - by apply view_insert_other.
Qed.

Lemma write_operator w w' k o :
  op w' = <[k := DOperatorAccount o]> (op w) -> registries w !! k = None ->
  operators w' = <[k := o]> (operators w) /\ registries w' = registries w.
Proof.
  intros E Hn. unfold registries, operators in *. rewrite E. split.
  - apply (view_insert _ OperatorAccount_account).
  - by apply view_insert_other.
Qed.

Lemma not_operator w k r : op w !! k = Some (DOperatorRegistry r) -> operators w !! k = None.
Proof. intros E. by eapply view_other. Qed.
Lemma not_registry w k o : op w !! k = Some (DOperatorAccount o) -> registries w !! k = None.
Proof. intros E. by eapply view_other. Qed.
Lemma free_views w k : op w !! k = None -> registries w !! k = None /\ operators w !! k = None.
Proof. intros E. split; by apply view_lookup_None. Qed.

(** ** Effects *)

Lemma operators_initialize_ok a w u w' :
  operators_initialize a w = Ok (u, w') ->
  exists b, find_program_address OperatorRegistry.pda_seeds operators_ID = Some (key (oi_registry a), b) /\
    op w !! key (oi_registry a) = None /\ is_signer (oi_owner a) = true /\
    op w' = <[key (oi_registry a) := DOperatorRegistry (OperatorRegistry.mk (key (oi_owner a)) 0 b)]> (op w).
Proof.
  unfold operators_initialize. intros H. inv_instr.
  match goal with H : init_account _ _ _ _ _ _ = _ |- _ =>
    apply init_account_ok in H as (Hf & Hn & Hg & _ & _); [|apply op_ne] end.
  match goal with H : store _ _ _ = _ |- _ =>
    eapply (store_ok _ _ _ _ _ _ _ operators_ID) in H as (Hs & _);
      [|cbn [program_of OperatorRegistry_account] in Hg; by rewrite Hg, lookup_insert_eq] end.
  cbn [program_of OperatorRegistry_account] in *. unfold op. rewrite Hs, Hg, insert_insert_eq.
  eexists. split_and!; try done. apply Hn, op_ne.
Qed.

Lemma owner_constraints_ok o r w u w' :
  owner_constraints o r w = Ok (u, w') -> key o = OperatorRegistry.owner r /\ w' = w.
Proof. unfold owner_constraints. intros H. inv_instr. by bool_props. Qed.

Lemma registry_constraints_ok a r w u w' :
  registry_constraints a r w = Ok (u, w') ->
  create_program_address (OperatorRegistry.pda_seeds ++ [[OperatorRegistry.bump r]]) operators_ID = Some (key a) /\
  w' = w.
Proof. unfold registry_constraints. intros H. by inv_instr. Qed.

Ltac op_norm :=
  cbn [wrap program_of zeroed_of OperatorRegistry_account OperatorAccount_account] in *;
  repeat match goal with
  | H : owner_constraints _ _ _ = Ok _ |- _ => apply owner_constraints_ok in H as (? & ->)
  | H : registry_constraints _ _ _ = Ok _ |- _ => apply registry_constraints_ok in H as (? & ->)
  end;
  fold (op) in *; bool_props.

Lemma add_operator_ok a w u w' :
  add_operator a w = Ok (u, w') ->
  exists r b, op w !! key (ao_registry a) = Some (DOperatorRegistry r) /\
    is_signer (ao_owner a) = true /\ key (ao_owner a) = OperatorRegistry.owner r /\
    find_program_address (OperatorAccount.pda_seeds (key (ao_operator_to_add a))) operators_ID
      = Some (key (ao_operator_account a), b) /\
    op w !! key (ao_operator_account a) = None /\
    OperatorRegistry.operator_count r + 1 < 2 ^ 64 /\
    op w' = <[key (ao_operator_account a) := DOperatorAccount (OperatorAccount.mk b)]>
      (<[key (ao_registry a) := DOperatorRegistry
           (set_operator_count r (OperatorRegistry.operator_count r + 1))]> (op w)).
Proof.
  unfold add_operator. intros H. inv_instr.
  match goal with H : init_account _ _ _ _ _ _ = _ |- _ =>
    apply init_account_ok in H as (Hf & Hn & Hg & _ & _); [|apply op_ne] end.
  op_norm. specialize (Hn operators_ID op_ne). unfold op.
  assert (key (ao_operator_account a) <> key (ao_registry a)) as Hne by congruence.
  repeat match goal with H : checked_add _ _ _ = Some _ |- _ => apply checked_add_some in H as [-> ?] end.
  match goal with H : store _ _ ?w0 = Ok (_, ?w1), H2 : store _ _ ?w1 = Ok (_, ?w2) |- _ =>
    eapply (store_ok _ _ _ _ _ _ _ operators_ID) in H as (Hs & _);
      [|rewrite Hg, lookup_insert_ne by done; eassumption];
    eapply (store_ok _ _ _ _ _ _ _ operators_ID) in H2 as (Hs2 & _);
      [|rewrite Hs, Hg, lookup_insert_ne by congruence; by rewrite lookup_insert_eq] end.
  do 2 eexists. split_and!; try eassumption.
  rewrite Hs2, Hs, Hg. rewrite (insert_insert_ne (state_of operators_ID w) _ _) by done.
  by rewrite insert_insert_eq.
Qed.

Lemma remove_operator_ok a w u w' :
  remove_operator a w = Ok (u, w') ->
  exists r o, op w !! key (ro_registry a) = Some (DOperatorRegistry r) /\
    is_signer (ro_owner a) = true /\ key (ro_owner a) = OperatorRegistry.owner r /\
    op w !! key (ro_operator_account a) = Some (DOperatorAccount o) /\
    create_program_address (OperatorAccount.pda_seeds (key (ro_operator_to_remove a))
      ++ [[OperatorAccount.bump o]]) operators_ID = Some (key (ro_operator_account a)) /\
    op w' = delete (key (ro_operator_account a))
      (<[key (ro_registry a) := DOperatorRegistry
           (set_operator_count r (OperatorRegistry.operator_count r - 1))]> (op w)).
Proof.
  unfold remove_operator. intros H. inv_instr. op_norm. unfold op.
  repeat match goal with H : checked_sub _ _ = Some _ |- _ => apply checked_sub_some in H as [-> ?] end.
  match goal with H : store _ _ _ = Ok _, H2 : close_account _ _ _ = Ok _ |- _ =>
    eapply (store_ok _ _ _ _ _ _ _ operators_ID) in H as (Hs & _); [|eassumption];
    apply (close_account_ok operators_ID) in H2 as (Hc & _); [|apply op_ne] end.
  do 2 eexists. split_and!; try eassumption. by rewrite Hc, Hs.
Qed.

Lemma transfer_owner_ok a w u w' :
  transfer_owner a w = Ok (u, w') ->
  exists r, op w !! key (tw_registry a) = Some (DOperatorRegistry r) /\
    is_signer (tw_owner a) = true /\ key (tw_owner a) = OperatorRegistry.owner r /\
    key (tw_new_owner a) <> OperatorRegistry.owner r /\
    op w' = <[key (tw_registry a) := DOperatorRegistry (OperatorRegistry.mk (key (tw_new_owner a))
      (OperatorRegistry.operator_count r) (OperatorRegistry.bump r))]> (op w).
Proof.
  unfold transfer_owner. intros H. inv_instr. op_norm. unfold op.
  match goal with H : store _ _ _ = Ok _ |- _ =>
    eapply (store_ok _ _ _ _ _ _ _ operators_ID) in H as (Hs & _); [|eassumption] end.
  eexists. split_and!; try eassumption.
Qed.

(** ** Reachable worlds *)

(** From a world without accounts of the program: its instructions, and whatever the other
    programs do, who cannot change the data of its accounts. *)
Inductive operators_reachable : World -> Prop :=
| or_start w : op w = ∅ -> operators_reachable w
| or_step ix w u w' : operators_reachable w -> operators_entry ix w = Ok (u, w') -> operators_reachable w'
| or_other w w' : operators_reachable w -> op w' = op w -> operators_reachable w'.

Record op_inv (w : World) : Prop := {
  oi_address k r : registries w !! k = Some r ->
    find_program_address OperatorRegistry.pda_seeds operators_ID = Some (k, OperatorRegistry.bump r);
  oi_count k r : registries w !! k = Some r ->
    OperatorRegistry.operator_count r = Z.of_nat (size (operators w)) /\
    uint 64 (OperatorRegistry.operator_count r);
  oi_none : registries w = ∅ -> operators w = ∅;
  oi_operator k o : operators w !! k = Some o -> exists who,
    find_program_address (OperatorAccount.pda_seeds who) operators_ID = Some (k, OperatorAccount.bump o)
}.

Lemma registry_unique w k1 k2 r1 r2 :
  op_inv w -> registries w !! k1 = Some r1 -> registries w !! k2 = Some r2 -> k1 = k2 /\ r1 = r2.
Proof.
  intros Hi H1 H2. pose proof (oi_address _ Hi _ _ H1) as E1. pose proof (oi_address _ Hi _ _ H2) as E2.
  rewrite E1 in E2. injection E2 as <- _. split; congruence.
Qed.

(** A step that rewrites the registry in place and changes the operators accordingly. *)
Lemma op_inv_update w w' k r r' :
  op_inv w -> registries w !! k = Some r -> registries w' = <[k := r']> (registries w) ->
  OperatorRegistry.bump r' = OperatorRegistry.bump r ->
  OperatorRegistry.operator_count r' = Z.of_nat (size (operators w')) ->
  uint 64 (OperatorRegistry.operator_count r') ->
  (forall j o, operators w' !! j = Some o -> operators w !! j = Some o \/ exists who,
     find_program_address (OperatorAccount.pda_seeds who) operators_ID = Some (j, OperatorAccount.bump o)) ->
  op_inv w'.
Proof.
  intros Hi Hk Hr Hb Hc Hu Ho.
  assert (forall j x, registries w' !! j = Some x -> j = k /\ x = r') as Huniq.
  { intros j x Hj. rewrite Hr in Hj. apply lookup_insert_Some in Hj as [[<- <-]|[Hne Hj]]; [done|].
    by destruct (registry_unique _ _ _ _ _ Hi Hj Hk). }
  split.
  - intros j x [-> ->]%Huniq. rewrite Hb. by apply (oi_address _ Hi).
  - by intros j x [-> ->]%Huniq.
  - intros E. rewrite Hr in E. by apply insert_non_empty in E.
  - intros j o Hj. destruct (Ho _ _ Hj) as [Hj'|]; [|done]. by apply (oi_operator _ Hi) in Hj'.
Qed.

Lemma op_inv_initialize a w u w' : op_inv w -> operators_initialize a w = Ok (u, w') -> op_inv w'.
Proof.
  intros Hi Hrun. apply operators_initialize_ok in Hrun as (b & Hf & Hfree & _ & Hop).
  destruct (free_views _ _ Hfree) as [Hfr Hfo].
  destruct (write_registry _ _ _ _ Hop Hfo) as [Hr Ho].
  assert (registries w = ∅) as Hn.
  { apply map_empty. intros k. destruct (registries w !! k) as [r|] eqn:Hk; [|done].
    pose proof (oi_address _ Hi _ _ Hk). congruence. }
  rewrite Hn in Hr. pose proof (oi_none _ Hi Hn) as He. split; rewrite ?Hr, ?Ho, ?He.
  - by intros k r [<- <-]%lookup_singleton_Some.
  - intros k r [<- <-]%lookup_singleton_Some. simpl. rewrite map_size_empty. done.
  - intros E. by apply insert_non_empty in E.
  - intros k o. by rewrite lookup_empty.
Qed.

(** The additions and removals, over the two views. *)
Lemma add_operator_views a w u w' :
  add_operator a w = Ok (u, w') ->
  exists r b, registries w !! key (ao_registry a) = Some r /\
    operators w !! key (ao_operator_account a) = None /\
    is_signer (ao_owner a) = true /\ key (ao_owner a) = OperatorRegistry.owner r /\
    find_program_address (OperatorAccount.pda_seeds (key (ao_operator_to_add a))) operators_ID
      = Some (key (ao_operator_account a), b) /\
    OperatorRegistry.operator_count r + 1 < 2 ^ 64 /\
    registries w' = <[key (ao_registry a) := set_operator_count r (OperatorRegistry.operator_count r + 1)]>
      (registries w) /\
    operators w' = <[key (ao_operator_account a) := OperatorAccount.mk b]> (operators w).
Proof.
  intros Hrun. apply add_operator_ok in Hrun as (r & b & Hk & Hsig & Ho & Hf & Hfree & Hu & Hop).
  destruct (free_views _ _ Hfree) as [Hfr Hfo].
  assert (key (ao_registry a) <> key (ao_operator_account a)) as Hne by congruence.
  exists r, b. split_and!; try done; [by apply registries_lookup|..];
    unfold registries, operators in *; rewrite Hop.
  - rewrite view_insert_other; [by apply (view_insert _ OperatorRegistry_account)|done|].
    rewrite (view_insert _ OperatorRegistry_account). by rewrite lookup_insert_ne.
  - rewrite (view_insert _ OperatorAccount_account). f_equal.
    apply view_insert_other; [done|]. by eapply not_operator.
Qed.

Lemma remove_operator_views a w u w' :
  remove_operator a w = Ok (u, w') ->
  exists r o, registries w !! key (ro_registry a) = Some r /\
    is_signer (ro_owner a) = true /\ key (ro_owner a) = OperatorRegistry.owner r /\
    operators w !! key (ro_operator_account a) = Some o /\
    registries w' = <[key (ro_registry a) := set_operator_count r (OperatorRegistry.operator_count r - 1)]>
      (registries w) /\
    operators w' = delete (key (ro_operator_account a)) (operators w).
Proof.
  intros Hrun. apply remove_operator_ok in Hrun as (r & o & Hk & Hsig & Ho & Hko & _ & Hop).
  assert (key (ro_registry a) <> key (ro_operator_account a)) as Hne by congruence.
  exists r, o. split_and!; try done; [by apply registries_lookup|by apply operators_lookup|..];
    unfold registries, operators in *; rewrite Hop, !view_delete.
  - rewrite (view_insert _ OperatorRegistry_account). rewrite delete_id; [done|].
    rewrite lookup_insert_ne by done. by eapply not_registry.
  - f_equal. apply view_insert_other; [done|]. by eapply not_operator.
Qed.

Lemma op_inv_add a w u w' : op_inv w -> add_operator a w = Ok (u, w') -> op_inv w'.
Proof.
  intros Hi Hrun. apply add_operator_views in Hrun as (r & b & Hk' & Hfo & _ & _ & Hf & Hu & Hr & Ho).
  destruct (oi_count _ Hi _ _ Hk') as [Hc Hcu].
  eapply (op_inv_update w); [done|exact Hk'|exact Hr|done| | |].
  - simpl. rewrite Ho, map_size_insert_None by done. lia.
  - simpl. unfold uint in *. lia.
  - intros j o. rewrite Ho. intros [[<- <-]|[_ Hj]]%lookup_insert_Some; [right; by eexists|by left].
Qed.

Lemma op_inv_remove a w u w' : op_inv w -> remove_operator a w = Ok (u, w') -> op_inv w'.
Proof.
  intros Hi Hrun. apply remove_operator_views in Hrun as (r & o & Hk' & _ & _ & Hko' & Hr & Ho).
  destruct (oi_count _ Hi _ _ Hk') as [Hc Hcu].
  assert (0 < size (operators w))%nat as Hpos.
  { destruct (size (operators w)) eqn:E; [|lia]. apply map_size_empty_inv in E. by rewrite E, lookup_empty in Hko'. }
  eapply (op_inv_update w); [done|exact Hk'|exact Hr|done| | |].
  - simpl. rewrite Ho, map_size_delete, Hko'. simpl. lia.
  - simpl. unfold uint in *. lia.
  - intros j o'. rewrite Ho. intros [_ Hj]%lookup_delete_Some. by left.
Qed.

Lemma op_inv_transfer a w u w' : op_inv w -> transfer_owner a w = Ok (u, w') -> op_inv w'.
Proof.
  intros Hi Hrun. apply transfer_owner_ok in Hrun as (r & Hk & _ & _ & _ & Hop).
  apply registries_lookup in Hk as Hk'. pose proof (not_operator _ _ _ Hk) as Hno.
  destruct (write_registry _ _ _ _ Hop Hno) as [Hr Ho]. destruct (oi_count _ Hi _ _ Hk') as [Hc Hcu].
  eapply (op_inv_update w); [done|exact Hk'|exact Hr|done|by rewrite Ho|done|].
  intros j o'. rewrite Ho. by left.
Qed.

Lemma operators_reachable_inv w : operators_reachable w -> op_inv w.
Proof.
  induction 1 as [w Hw|ix w u w' Hw IH Hrun|w w' Hw IH Heq].
  - split; unfold registries, operators; rewrite Hw, !view_empty; try (intros *; by rewrite lookup_empty).
    done.
  - destruct ix; simpl in Hrun; eauto using op_inv_initialize, op_inv_add, op_inv_remove, op_inv_transfer.
  - destruct IH as [H1 H2 H3 H4]. unfold registries, operators in *. rewrite <- Heq in *. by split.
Qed.

(** C33: The registry counts the operators. In every reachable world with a registry, the operator
    count is a u64 equal to the number of operator accounts, each at the address derived for some
    operator; there are no operators before there is a registry; and removing an operator never
    runs into the count underflow that the code calls impossible. *)
Theorem registry_counts_operators w (Hw : operators_reachable w) :
  (forall k r, op w !! k = Some (DOperatorRegistry r) ->
     OperatorRegistry.operator_count r = Z.of_nat (size (operators w)) /\
     uint 64 (OperatorRegistry.operator_count r)) /\
  (registries w = ∅ -> operators w = ∅) /\
  (forall k o, op w !! k = Some (DOperatorAccount o) -> exists who,
     find_program_address (OperatorAccount.pda_seeds who) operators_ID = Some (k, OperatorAccount.bump o)) /\
  forall a, remove_operator a w <> Err (EProgram PE_InvalidAccountData).
Proof.
  pose proof (operators_reachable_inv _ Hw) as Hi. split_and!.
  - intros k r Hk. apply registries_lookup in Hk. by apply (oi_count _ Hi k).
  - apply (oi_none _ Hi).
  - intros k o Hk. apply operators_lookup in Hk. by apply (oi_operator _ Hi).
  - intros a E. unfold remove_operator, owner_constraints, registry_constraints, signer_account,
      constraint_mut, constraint_address in E. inv_err; try done. inv_instr.
    match goal with H1 : state_of _ w !! _ = Some (wrap ?r), H2 : state_of _ w !! _ = Some (wrap ?o),
      H3 : checked_sub (OperatorRegistry.operator_count ?r) 1 = None |- _ =>
      apply (registries_lookup w) in H1; apply (operators_lookup w) in H2;
      destruct (oi_count _ Hi _ _ H1) as [Hc _]; unfold checked_sub in H3;
      destruct (Z.leb_spec 1 (OperatorRegistry.operator_count r)); [done|];
      assert (size (operators w) = 0%nat) as Hz by lia; apply map_size_empty_inv in Hz;
      by rewrite Hz, lookup_empty in H2
    end.
Qed.

(** Who changes the operators. A successful instruction keeps every registry at its address
    with its bump, and the accounts of the operators as they were, except that the owner, by
    signing, adds the account of one operator, or removes one, or hands the ownership to another key.
    (A second initialisation fails.) *)
Theorem operators_authority ix w u w' k r (Hrun : operators_entry ix w = Ok (u, w'))
    (Hk : op w !! k = Some (DOperatorRegistry r)) (Hi : operators_reachable w) :
  exists r', op w' !! k = Some (DOperatorRegistry r') /\
    OperatorRegistry.bump r' = OperatorRegistry.bump r /\
    ((exists a b, ix = OxAddOperator a /\ is_signer (ao_owner a) = true /\
        key (ao_owner a) = OperatorRegistry.owner r /\ OperatorRegistry.owner r' = OperatorRegistry.owner r /\
        find_program_address (OperatorAccount.pda_seeds (key (ao_operator_to_add a))) operators_ID
          = Some (key (ao_operator_account a), b) /\
        operators w !! key (ao_operator_account a) = None /\
        operators w' = <[key (ao_operator_account a) := OperatorAccount.mk b]> (operators w)) \/
     (exists a o, ix = OxRemoveOperator a /\ is_signer (ro_owner a) = true /\
        key (ro_owner a) = OperatorRegistry.owner r /\ OperatorRegistry.owner r' = OperatorRegistry.owner r /\
        operators w !! key (ro_operator_account a) = Some o /\
        operators w' = delete (key (ro_operator_account a)) (operators w)) \/
     (exists a, ix = OxTransferOwner a /\ is_signer (tw_owner a) = true /\
        key (tw_owner a) = OperatorRegistry.owner r /\ OperatorRegistry.owner r' = key (tw_new_owner a) /\
        key (tw_new_owner a) <> OperatorRegistry.owner r /\ operators w' = operators w)).
Proof.
  apply operators_reachable_inv in Hi. apply registries_lookup in Hk as Hk'.
  destruct ix as [a|a|a|a]; simpl in Hrun.
  - apply operators_initialize_ok in Hrun as (b & Hf & Hfree & _). apply (oi_address _ Hi) in Hk'.
    rewrite Hf in Hk'. injection Hk' as <- _. congruence.
  - pose proof Hrun as Hv. apply add_operator_views in Hv as (r0 & b & Hr & Hfr & Hsig & Ho & Hf & _ & Hr' & Hop).
    destruct (registry_unique _ _ _ _ _ Hi Hk' Hr) as [-> ->]. eexists. split; [|split].
    + apply registries_lookup. by rewrite Hr', lookup_insert_eq.
    + done.
    + left. by exists a, b.
  - pose proof Hrun as Hv. apply remove_operator_views in Hv as (r0 & o & Hr & Hsig & Ho & Hx & Hr' & Hop).
    destruct (registry_unique _ _ _ _ _ Hi Hk' Hr) as [-> ->]. eexists. split; [|split].
    + apply registries_lookup. by rewrite Hr', lookup_insert_eq.
    + done.
    + right. left. by exists a, o.
  - apply transfer_owner_ok in Hrun as (r0 & Hr & Hsig & Ho & Hne & Hop).
    destruct (write_registry _ _ _ _ Hop (not_operator _ _ _ Hr)) as [Hr' Hop'].
    apply registries_lookup in Hr.
    destruct (registry_unique _ _ _ _ _ Hi Hk' Hr) as [-> ->]. eexists. split; [|split].
    + apply registries_lookup. by rewrite Hr', lookup_insert_eq.
    + done.
    + right. right. by exists a.
Qed.
End theorems.
