(* ===== verification/GasService.v ===== *)
(** * The gas service program

    programs/solana-axelar-gas-service/src/instructions: the payments into the treasury, by anyone,
    and out of it, by an operator, with the balances they leave. *)

From stdpp Require Import base gmap list.
From Stdlib Require Import ZArith Lia.
From S2P Require Import Prelude Errors External StdInts StdTypes GatewayState OperatorsState Ledger LedgerLemmas.

Section gas.
Context {pda : SolanaPda} {ids : ProgramIds} {system : SolanaSystem}.

(** [seeds = [OperatorAccount::SEED_PREFIX, operator], bump = operator_pda.bump,
    seeds::program = solana_axelar_operators::ID] *)
Definition operator_pda_constraints (operator operator_pda : Pubkey) (o : OperatorAccount.t) : Instr unit :=
  constraint_seeds (OperatorAccount.pda_seeds operator) (OperatorAccount.bump o) operators_ID operator_pda.

(** [mut, seeds = [Treasury::SEED_PREFIX], bump = treasury.load()?.bump] *)
Definition treasury_constraints (a : AccountInfo) : Instr unit :=
  t ← load Treasury.t (key a);
  _ ← constraint_seeds Treasury.pda_seeds (Treasury.bump t) gas_service_ID (key a);
  constraint_mut a.

(** ** initialize.rs *)

Record GasInitialize := {
  gi_payer : AccountInfo;
  gi_operator : AccountInfo;
  gi_operator_pda : AccountInfo;
  gi_system_program : Pubkey;
  gi_treasury : AccountInfo
}.

Definition gas_initialize (a : GasInitialize) : Instr unit :=
  _ ← signer_account (gi_payer a);
  _ ← signer_account (gi_operator a);
  operator_pda ← load OperatorAccount.t (key (gi_operator_pda a));
  _ ← program_account system_program_ID (gi_system_program a);
  b ← init_account Treasury.t (key (gi_payer a)) (key (gi_treasury a)) (8 + 1) Treasury.pda_seeds;
  _ ← constraint_mut (gi_payer a);
  _ ← operator_pda_constraints (key (gi_operator a)) (key (gi_operator_pda a)) operator_pda;
  _ ← constraint_mut (gi_treasury a);
  store (key (gi_treasury a)) {| Treasury.bump := b |}.

(** ** pay_gas.rs, add_gas.rs *)

(** [PayGas] and [AddGas] have the same accounts. *)
Record PayGas := {
  pg_sender : AccountInfo;
  pg_treasury : AccountInfo;
  pg_system_program : Pubkey
}.

Definition pay_gas_accounts (a : PayGas) : Instr unit :=
  _ ← signer_account (pg_sender a);
  _ ← load Treasury.t (key (pg_treasury a));
  _ ← program_account system_program_ID (pg_system_program a);
  _ ← constraint_mut (pg_sender a);
  treasury_constraints (pg_treasury a).

Definition pay_gas (a : PayGas) (destination_chain destination_address : bytes) (payload_hash : array 32)
    (amount : Z) (refund_address : Pubkey) : Instr unit :=
  _ ← pay_gas_accounts a;
  _ ← require (negb (amount =? 0)) (EProgram PE_InvalidInstructionData);
  _ ← system_transfer (key (pg_sender a)) (key (pg_treasury a)) amount;
  emit (EvGas (GasPaidEvent (key (pg_sender a)) destination_chain destination_address payload_hash
    amount refund_address None)).

Definition add_gas (a : PayGas) (message_id : bytes) (amount : Z) (refund_address : Pubkey) : Instr unit :=
  _ ← pay_gas_accounts a;
  _ ← require (negb (amount =? 0)) (EProgram PE_InvalidInstructionData);
  _ ← system_transfer (key (pg_sender a)) (key (pg_treasury a)) amount;
  emit (EvGas (GasAddedEvent (key (pg_sender a)) message_id amount refund_address None)).

(** ** collect_fees.rs, refund_fees.rs *)

(** The accounts of [CollectFees] and of [RefundFees], which differ in the order of the last two. *)
Record CollectFees := {
  cf_operator : AccountInfo;
  cf_operator_pda : AccountInfo;
  cf_treasury : AccountInfo;
  cf_receiver : AccountInfo
}.

Definition collect_fees_accounts (a : CollectFees) : Instr unit :=
  _ ← signer_account (cf_operator a);
  operator_pda ← load OperatorAccount.t (key (cf_operator_pda a));
  _ ← load Treasury.t (key (cf_treasury a));
  _ ← operator_pda_constraints (key (cf_operator a)) (key (cf_operator_pda a)) operator_pda;
  _ ← treasury_constraints (cf_treasury a);
  constraint_mut (cf_receiver a).

Definition refund_fees_accounts (a : CollectFees) : Instr unit :=
  _ ← signer_account (cf_operator a);
  operator_pda ← load OperatorAccount.t (key (cf_operator_pda a));
  _ ← load Treasury.t (key (cf_treasury a));
  _ ← operator_pda_constraints (key (cf_operator a)) (key (cf_operator_pda a)) operator_pda;
  _ ← constraint_mut (cf_receiver a);
  treasury_constraints (cf_treasury a).

(** [Rent::get()?.is_exempt(treasury.get_lamports(), Treasury::INIT_SPACE + 8)] *)
Definition treasury_rent_exempt (k : Pubkey) : Instr unit :=
  l ← get_lamports k;
  require (rent_is_exempt l (1 + 8)) (EProgram PE_InvalidAccountData).

Definition collect_native_fees (a : CollectFees) (amount : Z) : Instr unit :=
  _ ← collect_fees_accounts a;
  _ ← require (negb (amount =? 0)) (EProgram PE_InvalidInstructionData);
  _ ← transfer_lamports_anchor (key (cf_treasury a)) (key (cf_receiver a)) amount;
  _ ← treasury_rent_exempt (key (cf_treasury a));
  emit (EvGas (GasCollectedEvent (key (cf_receiver a)) amount None)).

Definition refund_native_fees (a : CollectFees) (message_id : bytes) (amount : Z) : Instr unit :=
  _ ← refund_fees_accounts a;
  _ ← require (negb (amount =? 0)) (EProgram PE_InvalidInstructionData);
  _ ← transfer_lamports_anchor (key (cf_treasury a)) (key (cf_receiver a)) amount;
  _ ← treasury_rent_exempt (key (cf_treasury a));
  emit (EvGas (GasRefundedEvent (key (cf_receiver a)) message_id amount None)).

(** ** lib.rs *)

Inductive GasInstruction :=
| GxInitialize (a : GasInitialize)
| GxPayGas (a : PayGas) (destination_chain destination_address : bytes) (payload_hash : array 32)
    (amount : Z) (refund_address : Pubkey)
| GxAddGas (a : PayGas) (message_id : bytes) (amount : Z) (refund_address : Pubkey)
| GxCollectFees (a : CollectFees) (amount : Z)
| GxRefundFees (a : CollectFees) (message_id : bytes) (amount : Z).

Definition gas_service_entry (ix : GasInstruction) : Instr unit :=
  match ix with
  | GxInitialize a => gas_initialize a
  | GxPayGas a dc da ph n r => pay_gas a dc da ph n r
  | GxAddGas a m n r => add_gas a m n r
  | GxCollectFees a n => collect_native_fees a n
  | GxRefundFees a m n => refund_native_fees a m n
  end.
End gas.

Section theorems.
Context {pda : SolanaPda} {ids : ProgramIds} {system : SolanaSystem}.
Context {pda_laws : SolanaPdaLaws} {ids_laws : ProgramIdsLaws} {system_laws : SolanaSystemLaws}.

(** The treasury account of the program at the address [k]. *)
Definition treasury_at (w : World) (k : Pubkey) (t : Treasury.t) : Prop :=
  state_of gas_service_ID w !! k = Some (DTreasury t).

(** An operator: the signer of an operator account of the operators program. *)
Definition signed_by_operator (w : World) (a : CollectFees) : Prop :=
  is_signer (cf_operator a) = true /\
  exists o, state_of operators_ID w !! key (cf_operator_pda a) = Some (DOperatorAccount o) /\
    create_program_address (OperatorAccount.pda_seeds (key (cf_operator a)) ++ [[OperatorAccount.bump o]])
      operators_ID = Some (key (cf_operator_pda a)).

Definition treasury_seeds_ok (k : Pubkey) (t : Treasury.t) : Prop :=
  create_program_address (Treasury.pda_seeds ++ [[Treasury.bump t]]) gas_service_ID = Some k.

Lemma treasury_constraints_ok a w u w' :
  treasury_constraints a w = Ok (u, w') ->
  exists t, treasury_at w (key a) t /\ treasury_seeds_ok (key a) t /\ w' = w.
Proof. unfold treasury_constraints. intros H. inv_instr. by eexists. Qed.

Lemma treasury_rent_exempt_ok k w u w' :
  treasury_rent_exempt k w = Ok (u, w') -> rent_is_exempt (lamports_of (ledger w) k) 9 = true /\ w' = w.
Proof.
  unfold treasury_rent_exempt. intros H. apply instr_bind_ok in H as (l & w1 & H1 & H).
  injection H1 as <- <-. by apply require_ok in H.
Qed.

Lemma gas_payment_ok a amount w u1 w1 u2 w2 u3 w3 :
  pay_gas_accounts a w = Ok (u1, w1) ->
  require (negb (amount =? 0)) (EProgram PE_InvalidInstructionData) w1 = Ok (u2, w2) ->
  system_transfer (key (pg_sender a)) (key (pg_treasury a)) amount w2 = Ok (u3, w3) ->
  0 < amount /\ is_signer (pg_sender a) = true /\
  (exists t, treasury_at w (key (pg_treasury a)) t /\ treasury_seeds_ok (key (pg_treasury a)) t) /\
  key (pg_sender a) <> key (pg_treasury a) /\
  moved (ledger w) (ledger w3) (key (pg_sender a)) (key (pg_treasury a)) amount /\
  now w3 = now w /\ log w3 = log w.
Proof.
  intros H1 H2 H3. unfold pay_gas_accounts in H1. inv_instr.
  match goal with H : treasury_constraints _ _ = _ |- _ =>
    apply treasury_constraints_ok in H as (t & Ht & Hs & ->) end.
  apply system_transfer_ok in H3 as (Hpos & (y & Hx & Ho) & Hm & Hn & Hl).
  bool_props. split_and!; try done; [|by exists t|].
  - lia.
  - intros E. rewrite E in Hx. apply state_of_lookup in Ht as [l Ht]. rewrite Hx in Ht.
    injection Ht as ->. simpl in Ho. by destruct program_ne_system as (_ & _ & _ & Hne & _).
Qed.

Lemma gas_withdrawal_ok a amount w u2 w2 u3 w3 u4 w4 :
  require (negb (amount =? 0)) (EProgram PE_InvalidInstructionData) w = Ok (u2, w2) ->
  transfer_lamports_anchor (key (cf_treasury a)) (key (cf_receiver a)) amount w2 = Ok (u3, w3) ->
  treasury_rent_exempt (key (cf_treasury a)) w3 = Ok (u4, w4) ->
  amount <> 0 /\ moved (ledger w) (ledger w4) (key (cf_treasury a)) (key (cf_receiver a)) amount /\
  rent_is_exempt (lamports_of (ledger w4) (key (cf_treasury a))) 9 = true /\
  now w4 = now w /\ log w4 = log w.
Proof.
  intros H2 H3 H4. inv_instr. apply transfer_lamports_ok in H3 as (Hm & Hn & Hl).
  apply treasury_rent_exempt_ok in H4 as (Hr & ->). bool_props. done.
Qed.

Lemma collect_accounts_ok a w u w' :
  collect_fees_accounts a w = Ok (u, w') \/ refund_fees_accounts a w = Ok (u, w') ->
  signed_by_operator w a /\
  (exists t, treasury_at w (key (cf_treasury a)) t /\ treasury_seeds_ok (key (cf_treasury a)) t) /\ w' = w.
Proof.
  unfold collect_fees_accounts, refund_fees_accounts, operator_pda_constraints.
  intros [H|H]; inv_instr; match goal with H : treasury_constraints _ _ = _ |- _ =>
    apply treasury_constraints_ok in H as (t & Ht & Hs & ->) end;
    inv_instr; unfold signed_by_operator; split_and!; try done; eexists; split; eassumption.
Qed.

(** Gas payments are exact. A successful [pay_gas] or [add_gas] was signed by the sender, for
    a positive amount; it moves that amount from the sender to the program's treasury, which is
    another account, leaves every other account and the data of all of them as they were, conserves
    the lamports, and emits the one event that reports the payment. *)
Theorem gas_payments_exact ix w u w' (Hrun : gas_service_entry ix w = Ok (u, w')) :
  match ix with
  | GxPayGas a _ _ _ amount _ | GxAddGas a _ amount _ =>
    0 < amount /\ is_signer (pg_sender a) = true /\
    (exists t, treasury_at w (key (pg_treasury a)) t /\ treasury_seeds_ok (key (pg_treasury a)) t) /\
    key (pg_sender a) <> key (pg_treasury a) /\
    moved (ledger w) (ledger w') (key (pg_sender a)) (key (pg_treasury a)) amount /\
    log w' = EvGas (match ix with
      | GxPayGas _ dc da ph _ r => GasPaidEvent (key (pg_sender a)) dc da ph amount r None
      | GxAddGas _ m _ r => GasAddedEvent (key (pg_sender a)) m amount r None
      | _ => GasCollectedEvent (key (pg_sender a)) amount None
      end) :: log w
  | _ => True
  end.
Proof.
  destruct ix as [|a dc da ph amount r|a m amount r| |]; simpl in *; try done.
  all: unfold pay_gas, add_gas in Hrun; apply instr_bind_ok in Hrun as (u1 & w1 & H1 & Hrun);
    apply instr_bind_ok in Hrun as (u2 & w2 & H2 & Hrun);
    apply instr_bind_ok in Hrun as (u3 & w3 & H3 & Hrun);
    pose proof (gas_payment_ok _ _ _ _ _ _ _ _ _ H1 H2 H3) as (? & ? & ? & ? & ? & ? & Hl);
    apply emit_ok in Hrun; subst w'; split_and!; try done; simpl; by rewrite Hl.
Qed.

(** The amounts are u64. *)
Definition gas_ix_wf (ix : GasInstruction) : Prop :=
  match ix with
  | GxInitialize _ => True
  | GxPayGas _ _ _ _ n _ | GxAddGas _ _ n _ | GxCollectFees _ n | GxRefundFees _ _ n => uint 64 n
  end.

(** A withdrawal of [amount] by the accounts [a]. *)
Definition withdraws (ix : GasInstruction) (a : CollectFees) (amount : Z) : Prop :=
  ix = GxCollectFees a amount \/ exists m, ix = GxRefundFees a m amount.

Lemma withdrawal_run ix a amount w u w' :
  withdraws ix a amount -> gas_service_entry ix w = Ok (u, w') ->
  signed_by_operator w a /\ amount <> 0 /\
  (exists t, treasury_at w (key (cf_treasury a)) t /\ treasury_seeds_ok (key (cf_treasury a)) t) /\
  moved (ledger w) (ledger w') (key (cf_treasury a)) (key (cf_receiver a)) amount /\
  rent_is_exempt (lamports_of (ledger w') (key (cf_treasury a))) 9 = true.
Proof.
  intros Hix Hrun.
  assert (exists u1 w1 u2 w2 u3 w3 u4 w4 e,
    (collect_fees_accounts a w = Ok (u1, w1) \/ refund_fees_accounts a w = Ok (u1, w1)) /\
    require (negb (amount =? 0)) (EProgram PE_InvalidInstructionData) w1 = Ok (u2, w2) /\
    transfer_lamports_anchor (key (cf_treasury a)) (key (cf_receiver a)) amount w2 = Ok (u3, w3) /\
    treasury_rent_exempt (key (cf_treasury a)) w3 = Ok (u4, w4) /\ emit (EvGas e) w4 = Ok (u, w'))
    as (u1 & w1 & u2 & w2 & u3 & w3 & u4 & w4 & e & H1 & H2 & H3 & H4 & H5).
  { destruct Hix as [->|[m ->]]; simpl in Hrun; unfold collect_native_fees, refund_native_fees in Hrun;
      apply instr_bind_ok in Hrun as (u1 & w1 & H1 & Hrun);
      apply instr_bind_ok in Hrun as (u2 & w2 & H2 & Hrun);
      apply instr_bind_ok in Hrun as (u3 & w3 & H3 & Hrun);
      apply instr_bind_ok in Hrun as (u4 & w4 & H4 & Hrun); eauto 15. }
  apply collect_accounts_ok in H1 as (Hop & Ht & ->).
  destruct (gas_withdrawal_ok _ _ _ _ _ _ _ _ _ H2 H3 H4) as (Hn & Hm & Hr & _ & _).
  apply emit_ok in H5. subst w'. done.
Qed.

(** A treasury's account after a move of lamports. *)
Lemma treasury_moved w w' from to amount k t :
  treasury_at w k t -> moved (ledger w) (ledger w') from to amount -> treasury_at w' k t.
Proof.
  intros Ht (_ & _ & _ & _ & Hd & _). apply state_of_lookup in Ht as [l Hk]. apply Hd in Hk.
  unfold treasury_at. apply state_of_lookup. destruct (ledger w' !! k) as [[l' o d]|]; [|done].
  simplify_eq/=. by exists l'.
Qed.

(** The other instructions only add to a treasury. *)
Lemma gas_payment_treasury ix a n w u w' k t (P : Prop) :
  (exists dc da ph r, ix = GxPayGas a dc da ph n r) \/ (exists m r, ix = GxAddGas a m n r) ->
  gas_service_entry ix w = Ok (u, w') -> treasury_at w k t ->
  treasury_at w' k t /\ (lamports_of (ledger w) k <= lamports_of (ledger w') k \/ P).
Proof.
  intros Hix Hrun Hk.
  assert (exists u1 w1 u2 w2 u3 w3, pay_gas_accounts a w = Ok (u1, w1) /\
    require (negb (n =? 0)) (EProgram PE_InvalidInstructionData) w1 = Ok (u2, w2) /\
    system_transfer (key (pg_sender a)) (key (pg_treasury a)) n w2 = Ok (u3, w3) /\ ledger w' = ledger w3)
    as (u1 & w1 & u2 & w2 & u3 & w3 & H1 & H2 & H3 & Hw).
  { destruct Hix as [(dc & da & ph & r & ->)|(m & r & ->)]; simpl in Hrun; unfold pay_gas, add_gas in Hrun;
      apply instr_bind_ok in Hrun as (u1 & w1 & H1 & Hrun);
      apply instr_bind_ok in Hrun as (u2 & w2 & H2 & Hrun);
      apply instr_bind_ok in Hrun as (u3 & w3 & H3 & Hrun);
      apply emit_ok in Hrun; subst w'; eauto 15. }
  destruct (gas_payment_ok _ _ _ _ _ _ _ _ _ H1 H2 H3) as (Hn & _ & (t0 & Ht0 & _) & Hne & Hm & _).
  rewrite <- Hw in Hm. split; [by eapply treasury_moved|]. left.
  destruct Hm as (_ & Hne' & _ & Hoth & _). destruct (Hne' Hne) as [_ Ht].
  assert (k <> key (pg_sender a)) as Hks.
  { intros ->. inv_instr. apply system_transfer_ok in H3 as (_ & (y & Hy & Ho) & _).
    unfold pay_gas_accounts in H1. inv_instr.
    match goal with H : treasury_constraints _ _ = _ |- _ =>
      apply treasury_constraints_ok in H as (_ & _ & _ & ->) end.
    apply state_of_lookup in Hk as [l Hk]. rewrite Hy in Hk. injection Hk as ->. simpl in Ho.
    by destruct program_ne_system as (_ & _ & _ & Hs & _). }
  destruct (decide (k = key (pg_treasury a))) as [->|Hkt]; [lia|].
  unfold lamports_of. by rewrite Hoth.
Qed.

Lemma gas_initialize_treasury a w u w' k t (P : Prop) :
  gas_initialize a w = Ok (u, w') -> treasury_at w k t ->
  treasury_at w' k t /\ (lamports_of (ledger w) k <= lamports_of (ledger w') k \/ P).
Proof.
  unfold gas_initialize, operator_pda_constraints. intros H Hk. inv_instr.
  pose proof Hk as Hk0. apply state_of_lookup in Hk as [l Hk].
  destruct program_ne_system as (_ & _ & _ & Hs & _).
  match goal with H : init_account _ _ _ _ _ _ = _ |- _ =>
    pose proof H as Hi; eapply init_account_other in H; [|exact Hk|exact Hs];
    apply init_account_ok in Hi as (_ & Hfree & _); [|exact Hs] end.
  assert (k <> key (gi_treasury a)) as Hne.
  { intros ->. specialize (Hfree gas_service_ID Hs). congruence. }
  match goal with H : store _ _ _ = _ |- _ => eapply store_other in H; [|exact Hne] end.
  assert (ledger w' !! k = ledger w !! k) as E by congruence.
  split; [|left; unfold lamports_of; by rewrite E].
  apply state_of_lookup. rewrite E. by exists l.
Qed.

(** C32: The treasury is safe. A successful instruction of the program keeps every treasury account
    at its address with its data, and its balance does not fall, unless the instruction is a
    collection or a refund from it that a registered operator signed: then exactly the amount
    leaves it for the receiver, and what remains is rent exempt. *)
Theorem treasury_safe ix w u w' k t (Hrun : gas_service_entry ix w = Ok (u, w'))
    (Hwf : gas_ix_wf ix) (Hk : treasury_at w k t) :
  treasury_at w' k t /\
  (lamports_of (ledger w) k <= lamports_of (ledger w') k \/
   exists a amount, withdraws ix a amount /\ signed_by_operator w a /\ k = key (cf_treasury a) /\
     lamports_of (ledger w') k = lamports_of (ledger w) k - amount /\
     lamports_of (ledger w') (key (cf_receiver a)) = lamports_of (ledger w) (key (cf_receiver a)) + amount /\
     rent_is_exempt (lamports_of (ledger w') k) 9 = true).
Proof.
  assert (forall a amount, withdraws ix a amount -> treasury_at w' k t /\
    (lamports_of (ledger w) k <= lamports_of (ledger w') k \/
     exists a amount, withdraws ix a amount /\ signed_by_operator w a /\ k = key (cf_treasury a) /\
     lamports_of (ledger w') k = lamports_of (ledger w) k - amount /\
     lamports_of (ledger w') (key (cf_receiver a)) = lamports_of (ledger w) (key (cf_receiver a)) + amount /\
     rent_is_exempt (lamports_of (ledger w') k) 9 = true)) as Hwd.
  { intros a amount Hx. destruct (withdrawal_run _ _ _ _ _ _ Hx Hrun) as (Hop & Hn & _ & Hm & Hr).
    assert (0 <= amount) as Hpos by (destruct Hx as [->|[m ->]]; simpl in Hwf; unfold uint in Hwf; lia).
    split; [by eapply treasury_moved|]. destruct Hm as (_ & Hne & Heq & Hoth & _).
    destruct (decide (k = key (cf_treasury a))) as [->|Hk1].
    - destruct (decide (key (cf_treasury a) = key (cf_receiver a))) as [E|Hk2]; [left; rewrite Heq; [lia|done]|].
      right. exists a, amount. destruct (Hne Hk2). done.
    - left. destruct (decide (k = key (cf_receiver a))) as [->|Hk2].
      + destruct (Hne (fun E => Hk1 (eq_sym E))). lia.
      + unfold lamports_of. rewrite Hoth by done. done. }
  destruct ix as [a|a dc da ph n r|a m n r|a n|a m n].
  - by apply (gas_initialize_treasury a w u w').
  - eapply (gas_payment_treasury _ a n); [left; by eauto 10|done..].
  - eapply (gas_payment_treasury _ a n); [right; by eauto 10|done..].
  - apply (Hwd a n). by left.
  - apply (Hwd a n). right. by exists m.
Qed.
End theorems.
