(* ===== verification/Its.v ===== *)
(** * ITS: configuration and roles

    programs/solana-axelar-its/src/instructions/config, instructions/token_manager and
    instructions/interchain_token/transfer_interchain_token_mintership.rs. *)

From stdpp Require Import base gmap list.
From Stdlib Require Import ZArith Lia.
From S2P Require Import Prelude Errors External GatewayState ItsState Ledger LedgerLemmas SplToken.

Section its.
Context {pda : SolanaPda} {ids : ProgramIds} {system : SolanaSystem} {realloc : AnchorRealloc}.

(** [seeds = [InterchainTokenService::SEED_PREFIX], bump = its_root_pda.bump] *)
Definition its_root_seeds (k : Pubkey) (c : InterchainTokenService.t) : Instr unit :=
  constraint_seeds InterchainTokenService.pda_seeds (InterchainTokenService.bump c) its_ID k.
(** [constraint = !its_root_pda.paused @ ItsError::Paused] *)
Definition not_paused (c : InterchainTokenService.t) : Instr unit :=
  require (negb (InterchainTokenService.paused c)) (EIts Paused).
(** [seeds = [TokenManager::SEED_PREFIX, its_root_pda, token_id], bump = token_manager.bump] *)
Definition token_manager_seeds (k its_root : Pubkey) (token_id : array 32) (m : TokenManager.t) : Instr unit :=
  constraint_seeds (TokenManager.pda_seeds token_id its_root) (TokenManager.bump m) its_ID k.
(** [seeds = [UserRoles::SEED_PREFIX, resource, user], bump = roles.bump] *)
Definition user_roles_seeds (k resource user : Pubkey) (r : UserRoles.t) : Instr unit :=
  constraint_seeds (UserRoles.pda_seeds resource user) (UserRoles.bump r) its_ID k.

Definition USER_ROLES_SPACE : Z := 8 + UserRoles.INIT_SPACE.
Definition TOKEN_MANAGER_SPACE : Z := 8 + TokenManager.INIT_SPACE.

(** [init_if_needed] of the roles of [user] on [resource]. *)
Definition init_user_roles (payer k resource user : Pubkey) : Instr (UserRoles.t * byte) :=
  init_if_needed UserRoles.t payer k USER_ROLES_SPACE (UserRoles.pda_seeds resource user).

(** The program's upgrade authority, as recorded by the loader. *)
Definition its_program_data (program_data : AccountInfo) (d : ProgramData) (payer : AccountInfo) : Instr unit :=
  _ ← constraint_seeds_find [arr_bytes its_ID] bpf_loader_upgradeable_ID (key program_data);
  require (bool_decide (upgrade_authority_address d = Some (key payer))) (EIts ItsInvalidAccountData).

(** [Option<Account<'info, T>>] *)
Definition load_option (T : Type) `{!AnchorAccount T} (a : option AccountInfo) : Instr (option T) :=
  match a with None => mret None | Some a => x ← load T (key a); mret (Some x) end.

(** ** config/initialize.rs *)

Record ItsInitialize := {
  ti_payer : AccountInfo;
  ti_program_data : AccountInfo;
  ti_its_root_pda : AccountInfo;
  ti_system_program : Pubkey;
  ti_operator : AccountInfo;
  ti_user_roles_account : AccountInfo
}.

Definition its_initialize (a : ItsInitialize) (chain_name its_hub_address : bytes) : Instr unit :=
  _ ← signer_account (ti_payer a);
  program_data ← load ProgramData (key (ti_program_data a));
  _ ← program_account system_program_ID (ti_system_program a);
  _ ← signer_account (ti_operator a);
  root_bump ← init_account InterchainTokenService.t (key (ti_payer a)) (key (ti_its_root_pda a))
    (InterchainTokenService.space_for (InterchainTokenService.len its_hub_address)
       (InterchainTokenService.len chain_name) 0)
    InterchainTokenService.pda_seeds;
  roles_bump ← init_account UserRoles.t (key (ti_payer a)) (key (ti_user_roles_account a)) USER_ROLES_SPACE
    (UserRoles.pda_seeds (key (ti_its_root_pda a)) (key (ti_operator a)));
  _ ← constraint_mut (ti_payer a);
  _ ← its_program_data (ti_program_data a) program_data (ti_payer a);
  _ ← constraint_mut (ti_its_root_pda a);
  _ ← constraint_mut (ti_user_roles_account a);
  _ ← store (key (ti_its_root_pda a)) (InterchainTokenService.new root_bump chain_name its_hub_address);
  store (key (ti_user_roles_account a)) (UserRoles.mk ROLE_OPERATOR roles_bump).

(** ** config/set_pause_status.rs *)

Record SetPauseStatus := {
  sp_payer : AccountInfo;
  sp_program_data : AccountInfo;
  sp_its_root_pda : AccountInfo
}.

Definition set_pause_status (a : SetPauseStatus) (paused : bool) : Instr unit :=
  _ ← signer_account (sp_payer a);
  program_data ← load ProgramData (key (sp_program_data a));
  root ← load InterchainTokenService.t (key (sp_its_root_pda a));
  _ ← constraint_mut (sp_payer a);
  _ ← its_program_data (sp_program_data a) program_data (sp_payer a);
  _ ← its_root_seeds (key (sp_its_root_pda a)) root;
  _ ← constraint_mut (sp_its_root_pda a);
  _ ← require (negb (Bool.eqb (InterchainTokenService.paused root) paused)) (EIts ItsInvalidArgument);
  store (key (sp_its_root_pda a)) (InterchainTokenService.set_paused root paused).

(** ** config/set_trusted_chain.rs, config/remove_trusted_chain.rs *)

(** The two instructions have the same accounts. *)
Record SetTrustedChain := {
  tc_payer : AccountInfo;
  tc_user_roles : option AccountInfo;
  tc_program_data : option AccountInfo;
  tc_its_root_pda : AccountInfo;
  tc_system_program : Pubkey
}.

(** The checks of [payer], [user_roles] and [program_data]. *)
Definition trusted_chain_authority (a : SetTrustedChain) (user_roles : option UserRoles.t)
    (program_data : option ProgramData) : Instr unit :=
  _ ← constraint_mut (tc_payer a);
  _ ← require (bool_decide (is_Some user_roles) || bool_decide (is_Some program_data)) (EIts ItsMissingRequiredSignature);
  _ ← match tc_user_roles a, user_roles with
      | Some k, Some r =>
          _ ← user_roles_seeds (key k) (key (tc_its_root_pda a)) (key (tc_payer a)) r;
          require (UserRoles.has_operator_role r) (EIts MissingOperatorRole)
      | _, _ => mret tt
      end;
  match tc_program_data a, program_data with
  | Some k, Some d => its_program_data k d (tc_payer a)
  | _, _ => mret tt
  end.

Definition trusted_chain_accounts (a : SetTrustedChain) : Instr InterchainTokenService.t :=
  _ ← signer_account (tc_payer a);
  user_roles ← load_option UserRoles.t (tc_user_roles a);
  program_data ← load_option ProgramData (tc_program_data a);
  root ← load InterchainTokenService.t (key (tc_its_root_pda a));
  _ ← program_account system_program_ID (tc_system_program a);
  _ ← trusted_chain_authority a user_roles program_data;
  mret root.

Definition set_trusted_chain (a : SetTrustedChain) (chain_name : bytes) : Instr unit :=
  root ← trusted_chain_accounts a;
  _ ← realloc_account (key (tc_payer a)) (key (tc_its_root_pda a))
        (InterchainTokenService.space_with_chain_added root chain_name);
  _ ← its_root_seeds (key (tc_its_root_pda a)) root;
  _ ← constraint_mut (tc_its_root_pda a);
  _ ← require (negb (InterchainTokenService.is_trusted_chain root chain_name)) (EIts TrustedChainAlreadySet);
  let root := InterchainTokenService.add_trusted_chain root chain_name in
  _ ← emit (EvIts (TrustedChainSet chain_name));
  store (key (tc_its_root_pda a)) root.

Definition remove_trusted_chain (a : SetTrustedChain) (chain_name : bytes) : Instr unit :=
  root ← trusted_chain_accounts a;
  _ ← realloc_account (key (tc_payer a)) (key (tc_its_root_pda a))
        (InterchainTokenService.space_with_chain_removed root chain_name);
  _ ← its_root_seeds (key (tc_its_root_pda a)) root;
  _ ← constraint_mut (tc_its_root_pda a);
  _ ← require (InterchainTokenService.is_trusted_chain root chain_name) (EIts TrustedChainNotSet);
  let root := InterchainTokenService.remove_trusted_chain root chain_name in
  _ ← emit (EvIts (TrustedChainRemoved chain_name));
  store (key (tc_its_root_pda a)) root.

(** ** config/set_flow_limit.rs *)

Record SetFlowLimit := {
  fl_payer : AccountInfo;
  fl_operator : AccountInfo;
  fl_its_root_pda : AccountInfo;
  fl_its_roles_pda : AccountInfo;
  fl_token_manager_pda : AccountInfo;
  fl_system_program : Pubkey
}.

(** The token manager with another limit. *)
Definition with_flow_limit (m : TokenManager.t) (flow_limit : option Z) : TokenManager.t :=
  TokenManager.set_flow_slot m (FlowState.set_flow_limit (TokenManager.flow_slot m) flow_limit).

Definition set_flow_limit (a : SetFlowLimit) (flow_limit : option Z) : Instr unit :=
  _ ← signer_account (fl_payer a);
  _ ← signer_account (fl_operator a);
  root ← load InterchainTokenService.t (key (fl_its_root_pda a));
  roles ← load UserRoles.t (key (fl_its_roles_pda a));
  manager ← load TokenManager.t (key (fl_token_manager_pda a));
  _ ← program_account system_program_ID (fl_system_program a);
  _ ← constraint_mut (fl_payer a);
  _ ← its_root_seeds (key (fl_its_root_pda a)) root;
  _ ← user_roles_seeds (key (fl_its_roles_pda a)) (key (fl_its_root_pda a)) (key (fl_operator a)) roles;
  _ ← require (UserRoles.has_operator_role roles) (EIts MissingOperatorRole);
  _ ← token_manager_seeds (key (fl_token_manager_pda a)) (key (fl_its_root_pda a)) (TokenManager.token_id manager) manager;
  _ ← constraint_mut (fl_token_manager_pda a);
  _ ← require (bool_decide (FlowState.flow_limit (TokenManager.flow_slot manager) <> flow_limit))
        (EIts ItsInvalidArgument);
  _ ← emit (EvIts (FlowLimitSet (TokenManager.token_id manager) (key (fl_operator a)) flow_limit));
  store (key (fl_token_manager_pda a)) (with_flow_limit manager flow_limit).

(** ** The transfer of a role, shared by three instructions *)

(** [origin_roles.remove(role)], [destination_roles.insert(role)]; an account left without roles is
    closed, and on exit Anchor writes the others back. *)
Definition move_role (role : Z) (payer origin_key destination_key : Pubkey) (origin destination : UserRoles.t)
    (destination_bump : byte) : Instr unit :=
  let origin := UserRoles.remove origin role in
  let destination := UserRoles.set_bump (UserRoles.insert destination role) destination_bump in
  _ ← (if UserRoles.has_roles origin then store origin_key origin else close_account origin_key payer);
  store destination_key destination.

(** ** config/transfer_operatorship.rs *)

Record ItsTransferOperatorship := {
  xo_system_program : Pubkey;
  xo_payer : AccountInfo;
  xo_origin_user_account : AccountInfo;
  xo_origin_roles_account : AccountInfo;
  xo_resource_account : AccountInfo;
  xo_destination_user_account : AccountInfo;
  xo_destination_roles_account : AccountInfo
}.

Definition its_transfer_operatorship (a : ItsTransferOperatorship) : Instr unit :=
  _ ← program_account system_program_ID (xo_system_program a);
  _ ← signer_account (xo_payer a);
  _ ← signer_account (xo_origin_user_account a);
  origin ← load UserRoles.t (key (xo_origin_roles_account a));
  root ← load InterchainTokenService.t (key (xo_resource_account a));
  dest ← init_user_roles (key (xo_payer a)) (key (xo_destination_roles_account a)) (key (xo_resource_account a))
           (key (xo_destination_user_account a));
  _ ← constraint_mut (xo_payer a);
  _ ← user_roles_seeds (key (xo_origin_roles_account a)) (key (xo_resource_account a))
        (key (xo_origin_user_account a)) origin;
  _ ← constraint_mut (xo_origin_roles_account a);
  _ ← require (UserRoles.has_operator_role origin) (EIts MissingOperatorRole);
  _ ← its_root_seeds (key (xo_resource_account a)) root;
  _ ← require (bool_decide (key (xo_destination_user_account a) <> key (xo_origin_user_account a)))
        (EIts ItsInvalidArgument);
  _ ← constraint_mut (xo_destination_roles_account a);
  move_role ROLE_OPERATOR (key (xo_payer a)) (key (xo_origin_roles_account a)) (key (xo_destination_roles_account a))
    origin dest.1 dest.2.

(** ** token_manager/transfer_token_manager_operatorship.rs *)

Record TransferTokenManagerOperatorship := {
  xm_system_program : Pubkey;
  xm_payer : AccountInfo;
  xm_origin_user_account : AccountInfo;
  xm_origin_roles_account : AccountInfo;
  xm_its_root_pda : AccountInfo;
  xm_token_manager_account : AccountInfo;
  xm_destination_user_account : AccountInfo;
  xm_destination_roles_account : AccountInfo
}.

Definition transfer_token_manager_operatorship (a : TransferTokenManagerOperatorship) : Instr unit :=
  _ ← program_account system_program_ID (xm_system_program a);
  _ ← signer_account (xm_payer a);
  _ ← signer_account (xm_origin_user_account a);
  origin ← load UserRoles.t (key (xm_origin_roles_account a));
  root ← load InterchainTokenService.t (key (xm_its_root_pda a));
  manager ← load TokenManager.t (key (xm_token_manager_account a));
  dest ← init_user_roles (key (xm_payer a)) (key (xm_destination_roles_account a)) (key (xm_token_manager_account a))
           (key (xm_destination_user_account a));
  _ ← constraint_mut (xm_payer a);
  _ ← user_roles_seeds (key (xm_origin_roles_account a)) (key (xm_token_manager_account a))
        (key (xm_origin_user_account a)) origin;
  _ ← constraint_mut (xm_origin_roles_account a);
  _ ← require (UserRoles.has_operator_role origin) (EIts MissingOperatorRole);
  _ ← its_root_seeds (key (xm_its_root_pda a)) root;
  _ ← token_manager_seeds (key (xm_token_manager_account a)) (key (xm_its_root_pda a))
        (TokenManager.token_id manager) manager;
  _ ← require (bool_decide (key (xm_destination_user_account a) <> key (xm_origin_user_account a)))
        (EIts ItsInvalidArgument);
  _ ← constraint_mut (xm_destination_roles_account a);
  move_role ROLE_OPERATOR (key (xm_payer a)) (key (xm_origin_roles_account a)) (key (xm_destination_roles_account a))
    origin dest.1 dest.2.

(** ** interchain_token/transfer_interchain_token_mintership.rs *)

Record TransferInterchainTokenMintership := {
  mm_payer : AccountInfo;
  mm_its_root_pda : AccountInfo;
  mm_token_manager_account : AccountInfo;
  mm_sender_user_account : AccountInfo;
  mm_sender_roles_account : AccountInfo;
  mm_destination_user_account : AccountInfo;
  mm_destination_roles_account : AccountInfo;
  mm_system_program : Pubkey
}.

Definition transfer_interchain_token_mintership (a : TransferInterchainTokenMintership) : Instr unit :=
  _ ← signer_account (mm_payer a);
  root ← load InterchainTokenService.t (key (mm_its_root_pda a));
  manager ← load TokenManager.t (key (mm_token_manager_account a));
  _ ← signer_account (mm_sender_user_account a);
  sender ← load UserRoles.t (key (mm_sender_roles_account a));
  _ ← program_account system_program_ID (mm_system_program a);
  dest ← init_user_roles (key (mm_payer a)) (key (mm_destination_roles_account a)) (key (mm_token_manager_account a))
           (key (mm_destination_user_account a));
  _ ← constraint_mut (mm_payer a);
  _ ← its_root_seeds (key (mm_its_root_pda a)) root;
  _ ← token_manager_seeds (key (mm_token_manager_account a)) (key (mm_its_root_pda a))
        (TokenManager.token_id manager) manager;
  _ ← user_roles_seeds (key (mm_sender_roles_account a)) (key (mm_token_manager_account a))
        (key (mm_sender_user_account a)) sender;
  _ ← constraint_mut (mm_sender_roles_account a);
  _ ← require (UserRoles.has_minter_role sender) (EIts MissingMinterRole);
  _ ← require (bool_decide (key (mm_destination_user_account a) <> key (mm_sender_user_account a)))
        (EIts ItsInvalidArgument);
  _ ← constraint_mut (mm_destination_roles_account a);
  move_role ROLE_MINTER (key (mm_payer a)) (key (mm_sender_roles_account a)) (key (mm_destination_roles_account a))
    sender dest.1 dest.2.

(** ** token_manager/add_token_manager_flow_limiter.rs, remove_token_manager_flow_limiter.rs *)

(** The two instructions have the same accounts. *)
Record FlowLimiterAccounts := {
  ft_system_program : Pubkey;
  ft_payer : AccountInfo;
  ft_authority_user_account : AccountInfo;
  ft_authority_roles_account : AccountInfo;
  ft_its_root_pda : AccountInfo;
  ft_token_manager_pda : AccountInfo;
  ft_target_user_account : AccountInfo;
  ft_target_roles_account : AccountInfo
}.

(** The checks both share, on the deserialised accounts. *)
Definition flow_limiter_authority (a : FlowLimiterAccounts) (authority : UserRoles.t)
    (root : InterchainTokenService.t) (manager : TokenManager.t) : Instr unit :=
  _ ← constraint_mut (ft_payer a);
  _ ← user_roles_seeds (key (ft_authority_roles_account a)) (key (ft_token_manager_pda a))
        (key (ft_authority_user_account a)) authority;
  _ ← require (UserRoles.has_operator_role authority) (EIts MissingOperatorRole);
  _ ← its_root_seeds (key (ft_its_root_pda a)) root;
  token_manager_seeds (key (ft_token_manager_pda a)) (key (ft_its_root_pda a)) (TokenManager.token_id manager) manager.

Definition add_token_manager_flow_limiter (a : FlowLimiterAccounts) : Instr unit :=
  _ ← program_account system_program_ID (ft_system_program a);
  _ ← signer_account (ft_payer a);
  _ ← signer_account (ft_authority_user_account a);
  authority ← load UserRoles.t (key (ft_authority_roles_account a));
  root ← load InterchainTokenService.t (key (ft_its_root_pda a));
  manager ← load TokenManager.t (key (ft_token_manager_pda a));
  target ← init_user_roles (key (ft_payer a)) (key (ft_target_roles_account a)) (key (ft_token_manager_pda a))
             (key (ft_target_user_account a));
  _ ← flow_limiter_authority a authority root manager;
  _ ← constraint_mut (ft_target_roles_account a);
  _ ← require (negb (UserRoles.has_flow_limiter_role target.1)) (EIts ItsInvalidArgument);
  store (key (ft_target_roles_account a)) (UserRoles.set_bump (UserRoles.insert target.1 ROLE_FLOW_LIMITER) target.2).

Definition remove_token_manager_flow_limiter (a : FlowLimiterAccounts) : Instr unit :=
  _ ← program_account system_program_ID (ft_system_program a);
  _ ← signer_account (ft_payer a);
  _ ← signer_account (ft_authority_user_account a);
  authority ← load UserRoles.t (key (ft_authority_roles_account a));
  root ← load InterchainTokenService.t (key (ft_its_root_pda a));
  manager ← load TokenManager.t (key (ft_token_manager_pda a));
  target ← load UserRoles.t (key (ft_target_roles_account a));
  _ ← flow_limiter_authority a authority root manager;
  _ ← user_roles_seeds (key (ft_target_roles_account a)) (key (ft_token_manager_pda a))
        (key (ft_target_user_account a)) target;
  _ ← constraint_mut (ft_target_roles_account a);
  _ ← require (UserRoles.has_flow_limiter_role target) (EIts MissingFlowLimiterRole);
  let target := UserRoles.remove target ROLE_FLOW_LIMITER in
  if UserRoles.has_roles target then store (key (ft_target_roles_account a)) target
  else close_account (key (ft_target_roles_account a)) (key (ft_payer a)).

(** ** token_manager/set_token_manager_flow_limit.rs *)

Record SetTokenManagerFlowLimit := {
  ml_payer : AccountInfo;
  ml_flow_limiter : AccountInfo;
  ml_its_root_pda : AccountInfo;
  ml_token_manager_pda : AccountInfo;
  ml_flow_limiter_roles_pda : AccountInfo;
  ml_system_program : Pubkey
}.

Definition set_token_manager_flow_limit (a : SetTokenManagerFlowLimit) (flow_limit : option Z) : Instr unit :=
  _ ← signer_account (ml_payer a);
  _ ← signer_account (ml_flow_limiter a);
  root ← load InterchainTokenService.t (key (ml_its_root_pda a));
  manager ← load TokenManager.t (key (ml_token_manager_pda a));
  roles ← load UserRoles.t (key (ml_flow_limiter_roles_pda a));
  _ ← program_account system_program_ID (ml_system_program a);
  _ ← constraint_mut (ml_payer a);
  _ ← its_root_seeds (key (ml_its_root_pda a)) root;
  _ ← token_manager_seeds (key (ml_token_manager_pda a)) (key (ml_its_root_pda a)) (TokenManager.token_id manager) manager;
  _ ← constraint_mut (ml_token_manager_pda a);
  _ ← user_roles_seeds (key (ml_flow_limiter_roles_pda a)) (key (ml_token_manager_pda a)) (key (ml_flow_limiter a)) roles;
  _ ← require (UserRoles.has_flow_limiter_role roles) (EIts MissingFlowLimiterRole);
  _ ← emit (EvIts (FlowLimitSet (TokenManager.token_id manager) (key (ml_flow_limiter a)) flow_limit));
  store (key (ml_token_manager_pda a)) (with_flow_limit manager flow_limit).

(** ** token_manager/handover_mint_authority.rs *)

Record HandoverMintAuthority := {
  hm_payer : AccountInfo;
  hm_authority : AccountInfo;
  hm_mint : AccountInfo;
  hm_its_root : AccountInfo;
  hm_token_manager : AccountInfo;
  hm_minter_roles : AccountInfo;
  hm_token_program : Pubkey;
  hm_system_program : Pubkey
}.

Definition handover_mint_authority `{!SplToken} (a : HandoverMintAuthority) (token_id : array 32) : Instr unit :=
  _ ← signer_account (hm_payer a);
  _ ← signer_account (hm_authority a);
  mint ← load_mint (key (hm_mint a));
  root ← load InterchainTokenService.t (key (hm_its_root a));
  manager ← load TokenManager.t (key (hm_token_manager a));
  _ ← token_interface (hm_token_program a);
  _ ← program_account system_program_ID (hm_system_program a);
  minter ← init_user_roles (key (hm_payer a)) (key (hm_minter_roles a)) (key (hm_token_manager a))
             (key (hm_authority a));
  _ ← constraint_mut (hm_payer a);
  _ ← constraint_mut (hm_mint a);
  _ ← require (bool_decide (key (hm_mint a) = TokenManager.token_address manager)) (EIts TokenMintTokenManagerMissmatch);
  _ ← require (bool_decide (ms_mint_authority mint.2 = Some (key (hm_authority a)))) (EAnchor ConstraintMintMintAuthority);
  _ ← mint_token_program mint.1 (hm_token_program a);
  _ ← its_root_seeds (key (hm_its_root a)) root;
  _ ← token_manager_seeds (key (hm_token_manager a)) (key (hm_its_root a)) token_id manager;
  _ ← require (bool_decide (TokenManager.ty manager = MintBurn) || bool_decide (TokenManager.ty manager = MintBurnFrom))
        (EIts InvalidTokenManagerType);
  _ ← constraint_mut (hm_minter_roles a);
  current ← invoke_account (hm_authority a) true false;
  account ← invoke_account (hm_mint a) false true;
  _ ← token_cpi (hm_token_program a) (SetMintAuthority (key account) (key current) (Some (key (hm_token_manager a))));
  store (key (hm_minter_roles a)) (UserRoles.set_bump (UserRoles.insert minter.1 ROLE_MINTER) minter.2).
End its.
