(* ===== verification/ItsOutbound.v ===== *)
(** * ITS: messages to the hub

    programs/solana-axelar-its/src/gmp.rs and the instructions that send: interchain_transfer,
    link_token, register_token_metadata and the two deploy_remote instructions. The calls into the
    gateway and the gas service are the definitions of [Gateway.v] and [GasService.v]. *)

From stdpp Require Import base gmap list.
From Stdlib Require Import ZArith Lia.
From S2P Require Import Prelude Errors External StdInts StdTypes GatewayState ItsState Ledger LedgerLemmas SplToken Gateway GasService Its.

Section outbound.
Context {keccak : Keccak} {pda : SolanaPda} {ids : ProgramIds} {system : SolanaSystem} {spl : SplToken}
  {network : ItsNetwork}.
Context {hub_codec : Borsh encoding.HubMessage}.

(** ** gmp.rs *)

(** [its_program] is the program itself. *)
Record GMPAccounts := {
  gm_payer : AccountInfo;
  gm_system_program : Pubkey;
  gm_gateway_root_pda : AccountInfo;
  gm_call_contract_signing_pda : AccountInfo;
  gm_its_hub_address : bytes;
  gm_gas_treasury : AccountInfo
}.

(** The call of the gas service, when gas is paid. *)
Definition pay_hub_gas (g : GMPAccounts) (payload_hash : array 32) (gas_value : Z) : Instr unit :=
  if 0 <? gas_value then
    sender ← invoke_account (gm_payer g) true true;
    treasury ← invoke_account (gm_gas_treasury g) false true;
    pay_gas {| pg_sender := sender; pg_treasury := treasury; pg_system_program := gm_system_program g |}
      ITS_HUB_CHAIN_NAME (gm_its_hub_address g) payload_hash gas_value (key (gm_payer g))
  else mret tt.

Definition send_to_hub (g : GMPAccounts) (payload : encoding.HubMessage) (gas_value : Z) : Instr unit :=
  _ ← require (if payload is encoding.ReceiveFromHub _ _ then false else true) (EIts ItsInvalidInstructionData);
  payload ← lift (ok_or (borsh_serialize payload) (EIts SerializationError));
  let payload_hash := keccak_hash payload in
  let destination_address := gm_its_hub_address g in
  _ ← pay_hub_gas g payload_hash gas_value;
  expected ← lift (CallContractSigner.find_pda its_ID);
  _ ← require (bool_decide (expected.1 = key (gm_call_contract_signing_pda g))) (EIts ItsInvalidAccountData);
  let signer_seeds := [CallContractSigner.SEED_PREFIX; [expected.2]] in
  signing_pda ← invoke_signed_account its_ID signer_seeds (gm_call_contract_signing_pda g) true false;
  gateway_root_pda ← invoke_signed_account its_ID signer_seeds (gm_gateway_root_pda g) false false;
  call_contract {| cc_caller := {| key := its_ID; is_signer := false; is_writable := false |};
                   cc_signing_pda := Some signing_pda; cc_gateway_root_pda := gateway_root_pda |}
    ITS_HUB_CHAIN_NAME destination_address payload expected.2.

Definition send_to_hub_wrap (g : GMPAccounts) (message : encoding.Message) (destination_chain : bytes)
    (gas_value : Z) : Instr unit :=
  let payload := encoding.SendToHub destination_chain message in
  send_to_hub g payload gas_value.

(** ** Mints *)

Definition get_mint_decimals (token_mint : Pubkey) : Instr Z :=
  mint_data ← mint_data token_mint;
  mint ← lift (ok_or (mint_unpack mint_data) (EProgram PE_InvalidAccountData));
  mret (ms_decimals mint).

Definition get_fee_and_decimals (token_mint : Pubkey) (amount : Z) : Instr (Z * Z) :=
  mint_data ← mint_data token_mint;
  mint ← lift (ok_or (mint_unpack mint_data) (EProgram PE_InvalidAccountData));
  fee_config ← lift (ok_or (mint_fee_config mint_data) (EProgram PE_InvalidAccountData));
  unix_timestamp ← get_clock;
  let epoch := clock_epoch unix_timestamp in
  fee ← lift (ok_or (calculate_epoch_fee fee_config epoch amount) (EIts ItsArithmeticOverflow));
  mret (fee, ms_decimals mint).

Definition mintable (ty : TokenManagerType) : bool :=
  match ty with NativeInterchainToken | MintBurn | MintBurnFrom => true | _ => false end.

Definition validate_token_manager_type (ty : TokenManagerType) (token_mint token_manager_pda : Pubkey) : Instr unit :=
  mint_data ← mint_data token_mint;
  mint ← lift (ok_or (mint_unpack_from_slice mint_data) (EProgram PE_InvalidAccountData));
  match ms_mint_authority mint with
  | None => require (negb (mintable ty)) (EIts ItsInvalidInstructionData)
  | Some k => require (negb (mintable ty && negb (bool_decide (k = token_manager_pda)))) (EIts ItsInvalidInstructionData)
  end.

(** [current_flow_epoch] *)
Definition current_flow_epoch : Instr Z :=
  unix_timestamp ← get_clock; lift (flow_epoch_with_timestamp unix_timestamp).

(** ** interchain_token/interchain_transfer.rs *)

Record InterchainTransfer := {
  ix_payer : AccountInfo;
  ix_authority : AccountInfo;
  ix_gateway_root_pda : AccountInfo;
  ix_gateway_program : Pubkey;
  ix_call_contract_signing_pda : AccountInfo;
  ix_gas_treasury : AccountInfo;
  ix_gas_service : Pubkey;
  ix_its_root_pda : AccountInfo;
  ix_token_manager_pda : AccountInfo;
  ix_token_program : Pubkey;
  ix_token_mint : AccountInfo;
  ix_authority_token_account : AccountInfo;
  ix_token_manager_ata : AccountInfo;
  ix_system_program : Pubkey
}.

Definition interchain_transfer_accounts (a : InterchainTransfer) (token_id : array 32) (destination_chain : bytes)
    : Instr (InterchainTokenService.t * TokenManager.t) :=
  _ ← signer_account (ix_payer a);
  _ ← signer_account (ix_authority a);
  _ ← program_account gateway_ID (ix_gateway_program a);
  _ ← program_account gas_service_ID (ix_gas_service a);
  root ← load InterchainTokenService.t (key (ix_its_root_pda a));
  manager ← load TokenManager.t (key (ix_token_manager_pda a));
  _ ← token_interface (ix_token_program a);
  mint ← load_mint (key (ix_token_mint a));
  source ← load_token_account (key (ix_authority_token_account a));
  ata ← load_token_account (key (ix_token_manager_ata a));
  _ ← program_account system_program_ID (ix_system_program a);
  _ ← constraint_mut (ix_payer a);
  _ ← constraint_mut (ix_gas_treasury a);
  _ ← its_root_seeds (key (ix_its_root_pda a)) root;
  _ ← not_paused root;
  _ ← require (InterchainTokenService.is_trusted_chain root destination_chain) (EIts UntrustedDestinationChain);
  _ ← token_manager_seeds (key (ix_token_manager_pda a)) (key (ix_its_root_pda a)) token_id manager;
  _ ← constraint_mut (ix_token_manager_pda a);
  _ ← require (bool_decide (TokenManager.token_address manager = key (ix_token_mint a))) (EIts TokenMintTokenManagerMissmatch);
  _ ← constraint_mut (ix_token_mint a);
  _ ← mint_token_program mint.1 (ix_token_program a);
  _ ← constraint_mut (ix_authority_token_account a);
  _ ← require (bool_decide (ta_owner source.2 = key (ix_authority a))) (EAnchor ConstraintTokenOwner);
  _ ← require (bool_decide (ta_mint source.2 = key (ix_token_mint a))) (EAnchor ConstraintTokenMint);
  _ ← require (bool_decide (source.1 = ix_token_program a)) (EAnchor ConstraintTokenTokenProgram);
  _ ← associated_token (key (ix_token_manager_ata a)) ata (key (ix_token_mint a)) (key (ix_token_manager_pda a))
        (ix_token_program a);
  _ ← constraint_mut (ix_token_manager_ata a);
  mret (root, manager).

(** [to_gmp_accounts] *)
Definition interchain_transfer_gmp (a : InterchainTransfer) (root : InterchainTokenService.t) : GMPAccounts :=
  {| gm_payer := ix_payer a; gm_system_program := ix_system_program a;
     gm_gateway_root_pda := ix_gateway_root_pda a;
     gm_call_contract_signing_pda := ix_call_contract_signing_pda a;
     gm_its_hub_address := InterchainTokenService.its_hub_address root;
     gm_gas_treasury := ix_gas_treasury a |}.

(** Who sends: the program whose derived address signed, or the user who signed. *)
Definition transfer_source (authority : AccountInfo) (caller_program_id : option Pubkey)
    (caller_pda_seeds : option (list bytes)) : Instr Pubkey := fun w =>
  match caller_program_id, caller_pda_seeds with
  | Some source_id, Some seeds =>
      (expected ← lift (find_program_address_or_panic seeds source_id);
       _ ← require (bool_decide (expected.1 = key authority)) (EIts ItsInvalidAccountData);
       mret source_id) w
  | None, None =>
      (_ ← require (bool_decide (from_option owner system_program_ID (ledger w !! key authority) = system_program_ID))
             (EIts CallerNotUserAccount);
       mret (key authority)) w
  | _, _ => Err (EIts InconsistentSourceIdAndPdaSeeds)
  end.

Definition burn_from_source (a : InterchainTransfer) (amount : Z) : Instr unit :=
  mint ← invoke_account (ix_token_mint a) false true;
  from ← invoke_account (ix_authority_token_account a) false true;
  authority ← invoke_account (ix_authority a) true false;
  token_cpi (ix_token_program a) (Burn (key mint) (key from) (key authority) amount).

Definition outbound_transfer_to (a : InterchainTransfer) (amount decimals : Z) : Instr unit :=
  from ← invoke_account (ix_authority_token_account a) false true;
  to ← invoke_account (ix_token_manager_ata a) false true;
  authority ← invoke_account (ix_authority a) true false;
  token_cpi (ix_token_program a)
    (TransferChecked (key from) (key (ix_token_mint a)) (key to) (key authority) amount decimals).

Definition outbound_transfer_with_fee_to (a : InterchainTransfer) (amount decimals fee : Z) : Instr unit :=
  from ← invoke_account (ix_authority_token_account a) false true;
  to ← invoke_account (ix_token_manager_ata a) false true;
  authority ← invoke_account (ix_authority a) true false;
  token_cpi (ix_token_program a)
    (TransferCheckedWithFee (key from) (key (ix_token_mint a)) (key to) (key authority) amount decimals fee).

(** [track_token_flow]: the token manager with its new flow slot. *)
Definition outbound_track_token_flow (manager : TokenManager.t) (amount : Z) (direction : FlowDirection)
    : Instr TokenManager.t :=
  match FlowState.flow_limit (TokenManager.flow_slot manager) with
  | None => mret manager
  | Some _ =>
    current_epoch ← current_flow_epoch;
    let slot := FlowState.reset_for_epoch (TokenManager.flow_slot manager) current_epoch in
    slot ← lift (FlowState.add_flow slot amount direction);
    mret (TokenManager.set_flow_slot manager slot)
  end.

(** The amount the hub is told, and the token manager. *)
Definition take_token (a : InterchainTransfer) (manager : TokenManager.t) (amount : Z)
    : Instr (Z * TokenManager.t) :=
  _ ← validate_token_manager_type (TokenManager.ty manager) (key (ix_token_mint a)) (key (ix_token_manager_pda a));
  transferred ←
    match TokenManager.ty manager with
    | NativeInterchainToken | MintBurn | MintBurnFrom =>
        _ ← burn_from_source a amount; mret amount
    | LockUnlock =>
        decimals ← get_mint_decimals (key (ix_token_mint a));
        _ ← outbound_transfer_to a amount decimals; mret amount
    | LockUnlockFee =>
        fd ← get_fee_and_decimals (key (ix_token_mint a)) amount;
        _ ← outbound_transfer_with_fee_to a amount fd.2 fd.1;
        lift (ok_or (checked_sub amount fd.1) (EIts ItsArithmeticOverflow))
    end;
  manager ← outbound_track_token_flow manager transferred FlowOut;
  mret (transferred, manager).

(** [data.as_ref().filter(|d| !d.is_empty()).map(hash)] *)
Definition outbound_data_hash (data : option bytes) : option (array 32) :=
  d ← data; if bool_decide (d = []) then None else Some (keccak_hash d).

Definition process_outbound_transfer (a : InterchainTransfer) (root : InterchainTokenService.t)
    (manager : TokenManager.t) (token_id : array 32) (destination_chain destination_address : bytes)
    (amount gas_value : Z) (data : option bytes) (source_address : Pubkey) : Instr unit :=
  taken ← take_token a manager amount;
  let amount := taken.1 in
  _ ← emit (EvIts (InterchainTransferSent token_id source_address (key (ix_authority_token_account a))
        destination_chain destination_address amount (outbound_data_hash data)));
  let payload := encoding.MInterchainTransfer
    {| encoding.it_token_id := token_id; encoding.it_source_address := arr_bytes source_address;
       encoding.it_destination_address := destination_address; encoding.it_amount := amount;
       encoding.it_data := data |} in
  _ ← send_to_hub_wrap (interchain_transfer_gmp a root) payload destination_chain gas_value;
  store (key (ix_token_manager_pda a)) taken.2.

Definition interchain_transfer (a : InterchainTransfer) (token_id : array 32)
    (destination_chain destination_address : bytes) (amount gas_value : Z) (caller_program_id : option Pubkey)
    (caller_pda_seeds : option (list bytes)) (data : option bytes) : Instr unit :=
  accounts ← interchain_transfer_accounts a token_id destination_chain;
  _ ← require (negb (amount =? 0)) (EIts InvalidAmount);
  _ ← require (negb (bool_decide (destination_address = []))) (EIts ItsInvalidDestinationAddress);
  source_address ← transfer_source (ix_authority a) caller_program_id caller_pda_seeds;
  process_outbound_transfer a accounts.1 accounts.2 token_id destination_chain destination_address amount
    gas_value data source_address.

(** ** interchain_token/deploy_remote_interchain_token.rs: the metadata of a mint *)

(** [trim_end_matches('\0')] *)
Fixpoint drop_nul (l : bytes) : bytes := match l with Byte.x00 :: l => drop_nul l | _ => l end.
Definition trim_end_nul (s : bytes) : bytes := reverse (drop_nul (reverse s)).

(** The metadata embedded in a Token-2022 mint that points at itself. *)
Definition embedded_metadata (mint : Pubkey) (mint_data : bytes) : option (bytes * bytes) :=
  _ ← mint_unpack mint_data;
  pointer ← mint_metadata_pointer mint_data;
  metadata_address ← pointer;
  if bool_decide (metadata_address = mint) then mint_token_metadata mint_data else None.

(** [Metadata::from_bytes] of an account's data. *)
Definition metaplex_metadata (L : Ledger) (k : Pubkey) : option (Pubkey * bytes * bytes) :=
  a ← L !! k; b ← account_bytes (data a); metadata_from_bytes b.

Definition metaplex_name_symbol (mint metadata_account : Pubkey) : Instr (bytes * bytes) := fun w =>
  (_ ← require (bool_decide (from_option owner system_program_ID (ledger w !! metadata_account) = token_metadata_ID))
         (EIts InvalidMetaplexDataAccount);
   token_metadata ← lift (ok_or (metaplex_metadata (ledger w) metadata_account) (EProgram PE_InvalidAccountData));
   _ ← require (bool_decide (token_metadata.1.1 = mint)) (EIts ItsInvalidArgument);
   mret (trim_end_nul token_metadata.1.2, trim_end_nul token_metadata.2)) w.

Definition get_token_metadata (mint : Pubkey) (maybe_metadata_account : option Pubkey) : Instr (bytes * bytes) :=
  mint_data ← mint_data mint;
  match embedded_metadata mint mint_data with
  | Some m => mret m
  | None =>
      metadata_account ← lift (ok_or maybe_metadata_account (EIts NotEnoughAccountKeys));
      metaplex_name_symbol mint metadata_account
  end.

(** ** The accounts that the remaining instructions share *)

Record HubAccounts := {
  ha_payer : AccountInfo;
  ha_gateway_root_pda : AccountInfo;
  ha_gateway_program : Pubkey;
  ha_system_program : Pubkey;
  ha_its_root_pda : AccountInfo;
  ha_call_contract_signing_pda : AccountInfo;
  ha_gas_treasury : AccountInfo;
  ha_gas_service : Pubkey
}.

Definition hub_gmp (h : HubAccounts) (root : InterchainTokenService.t) : GMPAccounts :=
  {| gm_payer := ha_payer h; gm_system_program := ha_system_program h;
     gm_gateway_root_pda := ha_gateway_root_pda h;
     gm_call_contract_signing_pda := ha_call_contract_signing_pda h;
     gm_its_hub_address := InterchainTokenService.its_hub_address root;
     gm_gas_treasury := ha_gas_treasury h |}.

Definition hub_programs (h : HubAccounts) : Instr unit :=
  _ ← program_account gateway_ID (ha_gateway_program h);
  _ ← program_account system_program_ID (ha_system_program h);
  program_account gas_service_ID (ha_gas_service h).

(** The constraints on the destination chain of a message. *)
Definition remote_chain (root : InterchainTokenService.t) (destination_chain : bytes) : Instr unit :=
  _ ← require (bool_decide (InterchainTokenService.chain_name root <> destination_chain)) (EIts InvalidDestinationChain);
  require (InterchainTokenService.is_trusted_chain root destination_chain) (EIts UntrustedDestinationChain).

(** The constraints on the ITS root. *)
Definition its_root_active (k : Pubkey) (root : InterchainTokenService.t) : Instr unit :=
  _ ← its_root_seeds k root;
  not_paused root.

(** ** interchain_token/deploy_remote_interchain_token.rs *)

Record DeployRemoteInterchainToken := {
  dr_hub : HubAccounts;
  dr_deployer : AccountInfo;
  dr_token_mint : Pubkey;
  dr_metadata_account : Pubkey;
  dr_token_manager_pda : Pubkey
}.

(** The message of both deploy_remote handlers. *)
Definition send_remote_deployment (g : GMPAccounts) (token_id : array 32) (mint metadata_account : Pubkey)
    (decimals : Z) (destination_chain : bytes) (gas_value : Z) : Instr unit :=
  name_symbol ← get_token_metadata mint (Some metadata_account);
  _ ← emit (EvIts (InterchainTokenDeploymentStarted token_id destination_chain name_symbol.1 name_symbol.2
        decimals None));
  let payload := encoding.MDeployInterchainToken
    {| encoding.di_token_id := token_id; encoding.di_name := name_symbol.1; encoding.di_symbol := name_symbol.2;
       encoding.di_decimals := decimals; encoding.di_minter := None |} in
  send_to_hub_wrap g payload destination_chain gas_value.

Definition deploy_remote_interchain_token (a : DeployRemoteInterchainToken) (salt : array 32)
    (destination_chain : bytes) (gas_value : Z) : Instr unit :=
  let h := dr_hub a in
  let token_id := interchain_token_id (key (dr_deployer a)) salt in
  _ ← signer_account (ha_payer h);
  _ ← signer_account (dr_deployer a);
  mint ← load_mint (dr_token_mint a);
  manager ← load TokenManager.t (dr_token_manager_pda a);
  _ ← hub_programs h;
  root ← load InterchainTokenService.t (key (ha_its_root_pda h));
  _ ← constraint_mut (ha_payer h);
  _ ← constraint_seeds_find (TokenManager.mint_seeds token_id (key (ha_its_root_pda h))) its_ID (dr_token_mint a);
  _ ← constraint_address (dr_metadata_account a) (metadata_find_pda (dr_token_mint a)) (EAnchor ConstraintAddress);
  _ ← token_manager_seeds (dr_token_manager_pda a) (key (ha_its_root_pda h)) token_id manager;
  _ ← require (bool_decide (TokenManager.token_address manager = dr_token_mint a)) (EIts TokenMintTokenManagerMissmatch);
  _ ← its_root_active (key (ha_its_root_pda h)) root;
  _ ← remote_chain root destination_chain;
  _ ← constraint_mut (ha_gas_treasury h);
  send_remote_deployment (hub_gmp h root) token_id (dr_token_mint a) (dr_metadata_account a)
    (ms_decimals mint.2) destination_chain gas_value.

(** ** canonical_token/deploy_remote_canonical_token.rs *)

Record DeployRemoteCanonicalInterchainToken := {
  dc_hub : HubAccounts;
  dc_token_mint : Pubkey;
  dc_metadata_account : Pubkey;
  dc_token_manager_pda : Pubkey
}.

Definition deploy_remote_canonical_interchain_token (a : DeployRemoteCanonicalInterchainToken)
    (destination_chain : bytes) (gas_value : Z) : Instr unit :=
  let h := dc_hub a in
  let token_id := canonical_interchain_token_id (dc_token_mint a) in
  _ ← signer_account (ha_payer h);
  mint ← load_mint (dc_token_mint a);
  manager ← load TokenManager.t (dc_token_manager_pda a);
  _ ← load GatewayConfig.t (key (ha_gateway_root_pda h));
  _ ← hub_programs h;
  root ← load InterchainTokenService.t (key (ha_its_root_pda h));
  _ ← constraint_mut (ha_payer h);
  _ ← constraint_address (dc_metadata_account a) (metadata_find_pda (dc_token_mint a)) (EAnchor ConstraintAddress);
  _ ← token_manager_seeds (dc_token_manager_pda a) (key (ha_its_root_pda h)) token_id manager;
  _ ← require (bool_decide (TokenManager.token_address manager = dc_token_mint a)) (EIts TokenMintTokenManagerMissmatch);
  _ ← gateway_root_seeds (key (ha_gateway_root_pda h));
  _ ← its_root_active (key (ha_its_root_pda h)) root;
  _ ← remote_chain root destination_chain;
  _ ← constraint_mut (ha_gas_treasury h);
  send_remote_deployment (hub_gmp h root) token_id (dc_token_mint a) (dc_metadata_account a)
    (ms_decimals mint.2) destination_chain gas_value.

(** ** custom_token/register_token_metadata.rs *)

Record RegisterTokenMetadata := { rm_hub : HubAccounts; rm_token_mint : Pubkey }.

Definition register_token_metadata (a : RegisterTokenMetadata) (gas_value : Z) : Instr unit :=
  let h := rm_hub a in
  _ ← signer_account (ha_payer h);
  mint ← load_mint (rm_token_mint a);
  _ ← load GatewayConfig.t (key (ha_gateway_root_pda h));
  _ ← hub_programs h;
  root ← load InterchainTokenService.t (key (ha_its_root_pda h));
  _ ← constraint_mut (ha_payer h);
  _ ← gateway_root_seeds (key (ha_gateway_root_pda h));
  _ ← its_root_active (key (ha_its_root_pda h)) root;
  _ ← constraint_mut (ha_gas_treasury h);
  let decimals := ms_decimals mint.2 in
  _ ← emit (EvIts (TokenMetadataRegistered (rm_token_mint a) decimals));
  let payload := encoding.HRegisterTokenMetadata
    {| encoding.rt_decimals := decimals; encoding.rt_token_address := arr_bytes (rm_token_mint a) |} in
  send_to_hub (hub_gmp h root) payload gas_value.

(** ** custom_token/link_token.rs *)

Record LinkToken := { lk_hub : HubAccounts; lk_deployer : AccountInfo; lk_token_manager_pda : Pubkey }.

Definition link_params_option (link_params : bytes) : option bytes :=
  if bool_decide (link_params = []) then None else Some link_params.

Definition link_token (a : LinkToken) (salt : array 32) (destination_chain destination_token_address : bytes)
    (token_manager_type : TokenManagerType) (link_params : bytes) (gas_value : Z) : Instr (array 32) :=
  let h := lk_hub a in
  let token_id := interchain_token_id_internal (linked_token_deployer_salt (key (lk_deployer a)) salt) in
  _ ← signer_account (ha_payer h);
  _ ← signer_account (lk_deployer a);
  root ← load InterchainTokenService.t (key (ha_its_root_pda h));
  manager ← load TokenManager.t (lk_token_manager_pda a);
  _ ← hub_programs h;
  _ ← constraint_mut (ha_payer h);
  _ ← its_root_active (key (ha_its_root_pda h)) root;
  _ ← remote_chain root destination_chain;
  _ ← token_manager_seeds (lk_token_manager_pda a) (key (ha_its_root_pda h)) token_id manager;
  _ ← constraint_mut (ha_gas_treasury h);
  _ ← require (negb (bool_decide (token_manager_type = NativeInterchainToken))) (EIts ItsInvalidInstructionData);
  _ ← require (negb (bool_decide (destination_token_address = []))) (EIts ItsInvalidDestinationAddress);
  _ ← emit (EvIts (LinkTokenStarted token_id destination_chain (TokenManager.token_address manager)
        destination_token_address (type_into_u8 token_manager_type) (link_params_option link_params)));
  let payload := encoding.MLinkToken
    {| encoding.lt_token_id := token_id; encoding.lt_token_manager_type := type_into_u8 token_manager_type;
       encoding.lt_source_token_address := arr_bytes (TokenManager.token_address manager);
       encoding.lt_destination_token_address := destination_token_address;
       encoding.lt_params := link_params_option link_params |} in
  _ ← send_to_hub_wrap (hub_gmp h root) payload destination_chain gas_value;
  mret token_id.
End outbound.
