(* ===== verification/ItsDeploy.v ===== *)
(** * ITS: tokens and their managers

    programs/solana-axelar-its/src/instructions: the deployment of interchain tokens, the registration
    of canonical and custom tokens, the two deployments that arrive as messages (gmp/link_token.rs,
    gmp/deploy_interchain_token.rs), and minting. *)

From stdpp Require Import base gmap list.
From Stdlib Require Import ZArith Lia.
From S2P Require Import Prelude Errors External StdTypes GatewayState ItsState Ledger LedgerLemmas SplToken Its ItsOutbound.

Section deploy.
Context {keccak : Keccak} {pda : SolanaPda} {ids : ProgramIds} {system : SolanaSystem} {spl : SplToken}
  {network : ItsNetwork}.

(** ** state/token_manager.rs: the mint's extensions *)

Definition supports_mint_extensions (ty : TokenManagerType) (token_mint : bytes) : Result bool :=
  has_transfer_fee ← ok_or (mint_has_transfer_fee token_mint) (EProgram PE_InvalidAccountData);
  mret match ty, has_transfer_fee with
       | LockUnlock, true | LockUnlockFee, false => false
       | _, _ => true
       end.

Definition validate_mint_extension (ty : TokenManagerType) (token_mint : bytes) : Result unit :=
  supported ← supports_mint_extensions ty token_mint;
  ensure supported (EIts TokenManagerMintExtensionMismatch).

Definition validate_mint_extension_account (ty : TokenManagerType) (token_mint : Pubkey) : Instr unit :=
  mint_data ← mint_data token_mint;
  _ ← lift (ok_or (mint_unpack mint_data) (EProgram PE_InvalidAccountData));
  lift (validate_mint_extension ty mint_data).

(** ** Shared steps *)

(** The token manager signs with its seeds and [bump]. *)
Definition token_manager_signer (its_root : Pubkey) (token_id : array 32) (bump : byte) : list bytes :=
  TokenManager.pda_seeds token_id its_root ++ [[bump]].

(** [token_interface::mint_to] with the token manager as authority. *)
Definition mint_as_manager (token_program : Pubkey) (mint to manager : AccountInfo) (its_root : Pubkey)
    (token_id : array 32) (bump : byte) (amount : Z) : Instr unit :=
  let signer_seeds := token_manager_signer its_root token_id bump in
  mint ← invoke_signed_account its_ID signer_seeds mint false true;
  to ← invoke_signed_account its_ID signer_seeds to false true;
  authority ← invoke_signed_account its_ID signer_seeds manager true false;
  token_cpi token_program (MintTo (key mint) (key to) (key authority) amount).

(** [CreateV1CpiBuilder] with the token manager as authority. *)
Definition create_metadata_as_manager (mpl_metadata mint manager payer : AccountInfo) (its_root : Pubkey)
    (token_id : array 32) (bump : byte) (name symbol : bytes) : Instr unit :=
  let signer_seeds := token_manager_signer its_root token_id bump in
  metadata ← invoke_signed_account its_ID signer_seeds mpl_metadata false true;
  mint ← invoke_signed_account its_ID signer_seeds mint false true;
  authority ← invoke_signed_account its_ID signer_seeds manager true false;
  payer ← invoke_signed_account its_ID signer_seeds payer true true;
  token_cpi token_metadata_ID (CreateMetadataV1 (key metadata) (key mint) (key authority) (key payer) name symbol).

(** [init] of the token manager of [token_id]. *)
Definition init_token_manager (payer k its_root : Pubkey) (token_id : array 32) : Instr byte :=
  init_account TokenManager.t payer k TOKEN_MANAGER_SPACE (TokenManager.pda_seeds token_id its_root).

(** [init] of an optional roles account, whose seeds need the optional user. *)
Definition init_optional_roles (payer manager : Pubkey) (user roles : option AccountInfo) (missing : Error)
    : Instr (option byte) :=
  match roles with
  | None => mret None
  | Some r =>
      u ← lift (ok_or user missing);
      b ← init_account UserRoles.t payer (key r) USER_ROLES_SPACE (UserRoles.pda_seeds manager (key u));
      mret (Some b)
  end.

(** [init] makes the account [mut]. *)
Definition optional_mut (a : option AccountInfo) : Instr unit :=
  match a with Some a => constraint_mut a | None => mret tt end.

(** On exit: the roles of the optional account, when there is one. *)
Definition store_optional_roles (roles_account : option AccountInfo) (bump : option byte) (roles : Z) : Instr unit :=
  match roles_account, bump with
  | Some r, Some b => store (key r) (UserRoles.mk roles b)
  | _, _ => mret tt
  end.

Definition account_key_bytes (a : option AccountInfo) : option bytes := (fun x => arr_bytes (key x)) <$> a.

(** ** interchain_token/deploy_interchain_token.rs *)

Record DeployInterchainToken := {
  dt_payer : AccountInfo;
  dt_deployer : AccountInfo;
  dt_system_program : Pubkey;
  dt_its_root_pda : AccountInfo;
  dt_token_manager_pda : AccountInfo;
  dt_token_mint : AccountInfo;
  dt_token_manager_ata : AccountInfo;
  dt_token_program : Pubkey;
  dt_associated_token_program : Pubkey;
  dt_sysvar_instructions : Pubkey;
  dt_mpl_token_metadata_program : Pubkey;
  dt_mpl_token_metadata_account : AccountInfo;
  dt_deployer_ata : AccountInfo;
  dt_minter : option AccountInfo;
  dt_minter_roles_pda : option AccountInfo
}.

(** The bumps of the token manager and of the minter's roles. *)
Definition deploy_interchain_token_accounts (a : DeployInterchainToken) (salt : array 32) (decimals : Z)
    : Instr (byte * option byte) :=
  let token_id := interchain_token_id (key (dt_deployer a)) salt in
  let payer := key (dt_payer a) in
  let its_root := key (dt_its_root_pda a) in
  _ ← signer_account (dt_payer a);
  _ ← signer_account (dt_deployer a);
  _ ← program_account system_program_ID (dt_system_program a);
  root ← load InterchainTokenService.t its_root;
  _ ← program_account spl_token_2022_ID (dt_token_program a);
  _ ← program_account associated_token_ID (dt_associated_token_program a);
  manager_bump ← init_token_manager payer (key (dt_token_manager_pda a)) its_root token_id;
  _ ← init_mint payer (key (dt_token_mint a)) decimals (key (dt_token_manager_pda a)) (dt_token_program a)
        (TokenManager.mint_seeds token_id its_root);
  _ ← associated_token_if_needed payer (key (dt_token_manager_ata a)) (key (dt_token_mint a))
        (key (dt_token_manager_pda a)) (dt_token_program a);
  _ ← associated_token_if_needed payer (key (dt_deployer_ata a)) (key (dt_token_mint a))
        (key (dt_deployer a)) (dt_token_program a);
  minter_bump ← init_optional_roles payer (key (dt_token_manager_pda a)) (dt_minter a) (dt_minter_roles_pda a)
                  (EIts MinterNotProvided);
  _ ← constraint_mut (dt_payer a);
  _ ← its_root_active its_root root;
  _ ← constraint_mut (dt_token_manager_pda a);
  _ ← constraint_mut (dt_token_mint a);
  _ ← constraint_mut (dt_token_manager_ata a);
  _ ← constraint_address (dt_sysvar_instructions a) sysvar_instructions_ID (EAnchor ConstraintAddress);
  _ ← constraint_address (dt_mpl_token_metadata_program a) token_metadata_ID (EAnchor ConstraintAddress);
  _ ← constraint_mut (dt_mpl_token_metadata_account a);
  _ ← constraint_address (key (dt_mpl_token_metadata_account a)) (metadata_find_pda (key (dt_token_mint a)))
        (EAnchor ConstraintAddress);
  _ ← constraint_mut (dt_deployer_ata a);
  _ ← optional_mut (dt_minter_roles_pda a);
  mret (manager_bump, minter_bump).

Definition mint_initial_supply (a : DeployInterchainToken) (token_id : array 32) (initial_supply : Z)
    (token_manager_bump : byte) : Instr unit :=
  mint_as_manager (dt_token_program a) (dt_token_mint a) (dt_deployer_ata a)
    (dt_token_manager_pda a) (key (dt_its_root_pda a)) token_id token_manager_bump initial_supply.

Definition create_token_metadata (a : DeployInterchainToken) (name symbol : bytes) (token_id : array 32)
    (token_manager_bump : byte) : Instr unit :=
  create_metadata_as_manager (dt_mpl_token_metadata_account a) (dt_token_mint a)
    (dt_token_manager_pda a) (dt_payer a) (key (dt_its_root_pda a)) token_id token_manager_bump name symbol.

(** A token without minter needs a supply. *)
Definition check_minter_and_supply (minter minter_roles : option AccountInfo) (bump : option byte) (initial_supply : Z)
    : Result unit :=
  match minter, minter_roles, bump with
  | Some _, Some _, Some _ => mret tt
  | None, None, None => ensure (negb (initial_supply =? 0)) (EIts ZeroSupplyToken)
  | _, _, _ => Err (EIts ItsInvalidAccountData)
  end.

(** The events of both deployments. *)
Definition emit_deployed (token_id : array 32) (manager mint : Pubkey) (name symbol : bytes) (decimals : Z)
    (minter : option AccountInfo) : Instr unit :=
  _ ← emit (EvIts (TokenManagerDeployed token_id manager (type_into_u8 NativeInterchainToken) (account_key_bytes minter)));
  emit (EvIts (InterchainTokenDeployed token_id mint name symbol decimals (key <$> minter))).

Definition deploy_interchain_token (a : DeployInterchainToken) (salt : array 32) (name symbol : bytes)
    (decimals initial_supply : Z) : Instr (array 32) :=
  bumps ← deploy_interchain_token_accounts a salt decimals;
  let deploy_salt := interchain_token_deployer_salt (key (dt_deployer a)) salt in
  let token_id := interchain_token_id_internal deploy_salt in
  _ ← require ((length name <=? MAX_NAME_LENGTH)%nat && (length symbol <=? MAX_SYMBOL_LENGTH)%nat)
        (EIts ItsInvalidArgument);
  _ ← lift (check_minter_and_supply (dt_minter a) (dt_minter_roles_pda a) bumps.2 initial_supply);
  _ ← (if 0 <? initial_supply then mint_initial_supply a token_id initial_supply bumps.1 else mret tt);
  _ ← create_token_metadata a name symbol token_id bumps.1;
  _ ← emit_deployed token_id (key (dt_token_manager_pda a)) (key (dt_token_mint a)) name symbol decimals (dt_minter a);
  _ ← store (key (dt_token_manager_pda a))
        (TokenManager.init_account NativeInterchainToken token_id (key (dt_token_mint a))
           (key (dt_token_manager_ata a)) bumps.1);
  _ ← store_optional_roles (dt_minter_roles_pda a) bumps.2
        (Z.lor (Z.lor ROLE_OPERATOR ROLE_FLOW_LIMITER) ROLE_MINTER);
  mret token_id.

(** ** gmp/deploy_interchain_token.rs *)

Record ExecuteDeployInterchainToken := {
  ed_payer : AccountInfo;
  ed_system_program : Pubkey;
  ed_its_root_pda : AccountInfo;
  ed_token_manager_pda : AccountInfo;
  ed_token_mint : AccountInfo;
  ed_token_manager_ata : AccountInfo;
  ed_token_program : Pubkey;
  ed_associated_token_program : Pubkey;
  ed_sysvar_instructions : Pubkey;
  ed_mpl_token_metadata_program : Pubkey;
  ed_mpl_token_metadata_account : AccountInfo;
  ed_minter : option AccountInfo;
  ed_minter_roles_pda : option AccountInfo
}.

Definition execute_deploy_interchain_token_accounts (a : ExecuteDeployInterchainToken) (token_id : array 32)
    (decimals : Z) : Instr (byte * option byte) :=
  let payer := key (ed_payer a) in
  let its_root := key (ed_its_root_pda a) in
  _ ← signer_account (ed_payer a);
  _ ← program_account system_program_ID (ed_system_program a);
  root ← load InterchainTokenService.t its_root;
  _ ← program_account spl_token_2022_ID (ed_token_program a);
  _ ← program_account associated_token_ID (ed_associated_token_program a);
  manager_bump ← init_token_manager payer (key (ed_token_manager_pda a)) its_root token_id;
  _ ← init_mint payer (key (ed_token_mint a)) decimals (key (ed_token_manager_pda a)) (ed_token_program a)
        (TokenManager.mint_seeds token_id its_root);
  _ ← associated_token_if_needed payer (key (ed_token_manager_ata a)) (key (ed_token_mint a))
        (key (ed_token_manager_pda a)) (ed_token_program a);
  minter_bump ← init_optional_roles payer (key (ed_token_manager_pda a)) (ed_minter a) (ed_minter_roles_pda a)
                  (EIts MinterNotProvided);
  _ ← constraint_mut (ed_payer a);
  _ ← its_root_seeds its_root root;
  _ ← constraint_signer (ed_its_root_pda a);
  _ ← not_paused root;
  _ ← constraint_mut (ed_token_manager_pda a);
  _ ← constraint_mut (ed_token_mint a);
  _ ← constraint_mut (ed_token_manager_ata a);
  _ ← constraint_address (ed_sysvar_instructions a) sysvar_instructions_ID (EAnchor ConstraintAddress);
  _ ← constraint_address (ed_mpl_token_metadata_program a) token_metadata_ID (EAnchor ConstraintAddress);
  _ ← constraint_mut (ed_mpl_token_metadata_account a);
  _ ← constraint_address (key (ed_mpl_token_metadata_account a)) (metadata_find_pda (key (ed_token_mint a)))
        (EAnchor ConstraintAddress);
  _ ← optional_mut (ed_minter_roles_pda a);
  mret (manager_bump, minter_bump).

(** The minter of the message and the two optional accounts agree. *)
Definition check_minter (minter : bytes) (minter_account minter_roles : option AccountInfo) : Result unit :=
  match bool_decide (minter = []), minter_account, minter_roles with
  | true, None, None => mret tt
  | false, Some m, Some _ => ensure (bool_decide (arr_bytes (key m) = minter)) (EIts ItsInvalidArgument)
  | _, _, _ => Err (EIts ItsInvalidArgument)
  end.

Definition inbound_create_token_metadata (a : ExecuteDeployInterchainToken) (name symbol : bytes)
    (token_id : array 32) (token_manager_bump : byte) : Instr unit :=
  create_metadata_as_manager (ed_mpl_token_metadata_account a) (ed_token_mint a)
    (ed_token_manager_pda a) (ed_payer a) (key (ed_its_root_pda a)) token_id token_manager_bump name symbol.

Definition execute_deploy_interchain_token (a : ExecuteDeployInterchainToken) (token_id : array 32)
    (name symbol : bytes) (decimals : Z) (minter : bytes) : Instr unit :=
  bumps ← execute_deploy_interchain_token_accounts a token_id decimals;
  let truncated_name := truncate_utf8 name MAX_NAME_LENGTH in
  let truncated_symbol := truncate_utf8 symbol MAX_SYMBOL_LENGTH in
  _ ← lift (check_minter minter (ed_minter a) (ed_minter_roles_pda a));
  _ ← inbound_create_token_metadata a truncated_name truncated_symbol token_id bumps.1;
  _ ← emit_deployed token_id (key (ed_token_manager_pda a)) (key (ed_token_mint a)) truncated_name
        truncated_symbol decimals (ed_minter a);
  _ ← store (key (ed_token_manager_pda a))
        (TokenManager.init_account NativeInterchainToken token_id (key (ed_token_mint a))
           (key (ed_token_manager_ata a)) bumps.1);
  store_optional_roles (ed_minter_roles_pda a) bumps.2
    (Z.lor (Z.lor ROLE_OPERATOR ROLE_FLOW_LIMITER) ROLE_MINTER).

(** ** canonical_token/register_canonical_token.rs *)

Record RegisterCanonicalInterchainToken := {
  rc_payer : AccountInfo;
  rc_metadata_account : Pubkey;
  rc_system_program : Pubkey;
  rc_its_root_pda : AccountInfo;
  rc_token_manager_pda : AccountInfo;
  rc_token_mint : Pubkey;
  rc_token_manager_ata : AccountInfo;
  rc_token_program : Pubkey;
  rc_associated_token_program : Pubkey
}.

Definition register_canonical_accounts (a : RegisterCanonicalInterchainToken) : Instr byte :=
  let payer := key (rc_payer a) in
  let its_root := key (rc_its_root_pda a) in
  _ ← signer_account (rc_payer a);
  _ ← program_account system_program_ID (rc_system_program a);
  root ← load InterchainTokenService.t its_root;
  mint ← load_mint (rc_token_mint a);
  _ ← token_interface (rc_token_program a);
  _ ← program_account associated_token_ID (rc_associated_token_program a);
  manager_bump ← init_token_manager payer (key (rc_token_manager_pda a)) its_root
                   (canonical_interchain_token_id (rc_token_mint a));
  _ ← associated_token_if_needed payer (key (rc_token_manager_ata a)) (rc_token_mint a)
        (key (rc_token_manager_pda a)) (rc_token_program a);
  _ ← constraint_mut (rc_payer a);
  _ ← constraint_address (rc_metadata_account a) (metadata_find_pda (rc_token_mint a)) (EAnchor ConstraintAddress);
  _ ← its_root_active its_root root;
  _ ← constraint_mut (rc_token_manager_pda a);
  _ ← mint_token_program mint.1 (rc_token_program a);
  _ ← constraint_mut (rc_token_manager_ata a);
  mret manager_bump.

(** [if let Err(_err) = get_token_metadata(..)] *)
Definition has_token_metadata (mint metadata_account : Pubkey) : Instr unit := fun w =>
  match get_token_metadata mint (Some metadata_account) w with
  | Ok (_, w) => Ok (tt, w)
  | Err _ => Err (EIts ItsInvalidAccountData)
  end.

Definition register_canonical_interchain_token (a : RegisterCanonicalInterchainToken) : Instr (array 32) :=
  manager_bump ← register_canonical_accounts a;
  _ ← has_token_metadata (rc_token_mint a) (rc_metadata_account a);
  mint_data ← mint_data (rc_token_mint a);
  _ ← lift (ok_or (mint_unpack mint_data) (EProgram PE_InvalidAccountData));
  has_fee_extension ← lift (ok_or (mint_has_transfer_fee mint_data) (EProgram PE_InvalidAccountData));
  let token_manager_type := if has_fee_extension : bool then LockUnlockFee else LockUnlock in
  let deploy_salt := canonical_interchain_token_deploy_salt (rc_token_mint a) in
  let token_id := interchain_token_id_internal deploy_salt in
  _ ← emit (EvIts (TokenManagerDeployed token_id (key (rc_token_manager_pda a)) (type_into_u8 token_manager_type) None));
  _ ← store (key (rc_token_manager_pda a))
        (TokenManager.init_account token_manager_type token_id (rc_token_mint a) (key (rc_token_manager_ata a))
           manager_bump);
  mret token_id.

(** ** The token managers that link an existing mint *)

(** The accounts of [RegisterCustomToken] and [ExecuteLinkToken]; the first has a deployer, in the
    second the ITS root signs. *)
Record LinkAccounts := {
  la_payer : AccountInfo;
  la_system_program : Pubkey;
  la_its_root_pda : AccountInfo;
  la_token_manager_pda : AccountInfo;
  la_token_mint : Pubkey;
  la_token_manager_ata : AccountInfo;
  la_token_program : Pubkey;
  la_associated_token_program : Pubkey;
  la_operator : option AccountInfo;
  la_operator_roles_pda : option AccountInfo
}.

(** The accounts up to the creation of the new ones: the root, the mint, and the two bumps. *)
Definition link_accounts (a : LinkAccounts) (token_id : array 32)
    : Instr (InterchainTokenService.t * (Pubkey * MintState) * (byte * option byte)) :=
  let payer := key (la_payer a) in
  let its_root := key (la_its_root_pda a) in
  _ ← program_account system_program_ID (la_system_program a);
  root ← load InterchainTokenService.t its_root;
  mint ← load_mint (la_token_mint a);
  _ ← token_interface (la_token_program a);
  _ ← program_account associated_token_ID (la_associated_token_program a);
  manager_bump ← init_token_manager payer (key (la_token_manager_pda a)) its_root token_id;
  _ ← associated_token_if_needed payer (key (la_token_manager_ata a)) (la_token_mint a)
        (key (la_token_manager_pda a)) (la_token_program a);
  operator_bump ← init_optional_roles payer (key (la_token_manager_pda a)) (la_operator a) (la_operator_roles_pda a)
                    (EIts OperatorNotProvided);
  _ ← constraint_mut (la_payer a);
  mret (root, mint, (manager_bump, operator_bump)).

(** The constraints on the fields after the ITS root. *)
Definition link_constraints (a : LinkAccounts) (mint_owner : Pubkey) : Instr unit :=
  _ ← constraint_mut (la_token_manager_pda a);
  _ ← mint_token_program mint_owner (la_token_program a);
  _ ← constraint_mut (la_token_manager_ata a);
  optional_mut (la_operator_roles_pda a).

(** The operator that was asked for and the two optional accounts agree. *)
Definition check_operator (operator : option Pubkey) (operator_account operator_roles : option AccountInfo) : Result unit :=
  match operator, operator_account, operator_roles with
  | Some o, Some k, Some _ => ensure (bool_decide (o = key k)) (EIts ItsInvalidArgument)
  | None, None, None => mret tt
  | _, _, _ => Err (EIts ItsInvalidArgument)
  end.

(** The end of both handlers. *)
Definition link_manager (a : LinkAccounts) (ty : TokenManagerType) (token_id : array 32) (operator : option Pubkey)
    (bumps : byte * option byte) : Instr unit :=
  _ ← validate_mint_extension_account ty (la_token_mint a);
  _ ← emit (EvIts (TokenManagerDeployed token_id (key (la_token_manager_pda a)) (type_into_u8 ty)
        (arr_bytes <$> operator)));
  _ ← store (key (la_token_manager_pda a))
        (TokenManager.init_account ty token_id (la_token_mint a) (key (la_token_manager_ata a)) bumps.1);
  store_optional_roles (la_operator_roles_pda a) bumps.2 (Z.lor ROLE_OPERATOR ROLE_FLOW_LIMITER).

(** *** custom_token/register_custom_token.rs *)

Record RegisterCustomToken := { ru_accounts : LinkAccounts; ru_deployer : AccountInfo }.

Definition register_custom_token (a : RegisterCustomToken) (salt : array 32) (token_manager_type : TokenManagerType)
    (operator : option Pubkey) : Instr (array 32) :=
  let l := ru_accounts a in
  let token_id := interchain_token_id_internal (linked_token_deployer_salt (key (ru_deployer a)) salt) in
  _ ← signer_account (la_payer l);
  _ ← signer_account (ru_deployer a);
  linked ← link_accounts l token_id;
  _ ← its_root_active (key (la_its_root_pda l)) linked.1.1;
  _ ← link_constraints l linked.1.2.1;
  _ ← require (negb (bool_decide (token_manager_type = NativeInterchainToken))) (EIts ItsInvalidInstructionData);
  _ ← lift (check_operator operator (la_operator l) (la_operator_roles_pda l));
  _ ← link_manager l token_manager_type token_id operator linked.2;
  mret token_id.

(** *** gmp/link_token.rs *)

Definition execute_link_token (a : LinkAccounts) (token_id destination_token_address : array 32)
    (token_manager_type : Z) (link_params : bytes) : Instr unit :=
  _ ← signer_account (la_payer a);
  linked ← link_accounts a token_id;
  _ ← its_root_seeds (key (la_its_root_pda a)) linked.1.1;
  _ ← constraint_signer (la_its_root_pda a);
  _ ← not_paused linked.1.1;
  _ ← link_constraints a linked.1.2.1;
  token_manager_type ← lift (map_err (fun _ => EIts ItsInvalidInstructionData) (type_try_from_u8 token_manager_type));
  _ ← require (negb (bool_decide (NativeInterchainToken = token_manager_type))) (EIts ItsInvalidInstructionData);
  let token_address := destination_token_address in
  _ ← require (bool_decide (token_address = la_token_mint a)) (EIts InvalidTokenMint);
  let operator := arr_try_from 32 link_params in
  _ ← lift (check_operator operator (la_operator a) (la_operator_roles_pda a));
  link_manager a token_manager_type token_id operator linked.2.

(** ** interchain_token/mint_interchain_token.rs *)

Record MintInterchainToken := {
  mi_mint : AccountInfo;
  mi_destination_account : AccountInfo;
  mi_its_root_pda : AccountInfo;
  mi_token_manager_pda : AccountInfo;
  mi_minter : AccountInfo;
  mi_minter_roles_pda : AccountInfo;
  mi_token_program : Pubkey
}.

Definition mint_interchain_token (a : MintInterchainToken) (amount : Z) : Instr unit :=
  mint ← load_mint (key (mi_mint a));
  destination ← load_token_account (key (mi_destination_account a));
  root ← load InterchainTokenService.t (key (mi_its_root_pda a));
  manager ← load TokenManager.t (key (mi_token_manager_pda a));
  _ ← signer_account (mi_minter a);
  roles ← load UserRoles.t (key (mi_minter_roles_pda a));
  _ ← token_interface (mi_token_program a);
  _ ← constraint_mut (mi_mint a);
  _ ← mint_token_program mint.1 (mi_token_program a);
  _ ← constraint_mut (mi_destination_account a);
  _ ← require (bool_decide (ta_mint destination.2 = key (mi_mint a))) (EAnchor ConstraintTokenMint);
  _ ← require (bool_decide (destination.1 = mi_token_program a)) (EAnchor ConstraintTokenTokenProgram);
  _ ← its_root_active (key (mi_its_root_pda a)) root;
  _ ← token_manager_seeds (key (mi_token_manager_pda a)) (key (mi_its_root_pda a)) (TokenManager.token_id manager) manager;
  _ ← constraint_mut (mi_token_manager_pda a);
  _ ← require (bool_decide (TokenManager.token_address manager = key (mi_mint a))) (EIts TokenMintTokenManagerMissmatch);
  _ ← user_roles_seeds (key (mi_minter_roles_pda a)) (key (mi_token_manager_pda a)) (key (mi_minter a)) roles;
  _ ← require (UserRoles.has_minter_role roles) (EIts MissingMinterRole);
  _ ← require (negb (amount =? 0)) (EIts InvalidAmount);
  _ ← mint_as_manager (mi_token_program a) (mi_mint a) (mi_destination_account a) (mi_token_manager_pda a)
        (key (mi_its_root_pda a)) (TokenManager.token_id manager) (TokenManager.bump manager) amount;
  store (key (mi_token_manager_pda a)) manager.
End deploy.
