(* ===== verification/ItsExecute.v ===== *)
(** * ITS: messages from the hub, and the dispatch of the program

    programs/solana-axelar-its/src/executable.rs, instructions/gmp/interchain_transfer.rs,
    instructions/gmp/execute.rs and lib.rs. [execute] validates a message with the gateway and calls
    one of the program's own instructions with the ITS root as signer; an incoming transfer gives the
    tokens and may call the destination program, through the runtime. *)

From stdpp Require Import base gmap list.
From Stdlib Require Import ZArith Lia.
From S2P Require Import Prelude Errors External StdInts StdTypes GatewayState Payload ItsState Ledger LedgerLemmas SplToken Gateway Executable GasService Its ItsOutbound ItsDeploy.

(** ** executable.rs *)

Definition ITS_EXECUTE_IX_DISC : bytes := map byte_of_Z [251; 218; 49; 130; 208; 58; 231; 44].

Record AxelarExecuteWithInterchainTokenPayload := {
  ap_command_id : array 32;
  ap_source_chain : bytes;
  ap_source_address : bytes;
  ap_token_id : array 32;
  ap_token_mint : Pubkey;
  ap_amount : Z;                               (** u64 *)
  ap_data : bytes
}.

Section execute.
Context {keccak : Keccak} {merkle : RsMerkle} {secp : Secp256k1} {bits : BitVec} {bnum : Bnum}
  {pda : SolanaPda} {ids : ProgramIds} {system : SolanaSystem} {realloc : AnchorRealloc} {spl : SplToken}
  {network : ItsNetwork} {runtime : Runtime}.
Context {leaf_digest : Digestable VerifierSetLeaf} {message_digest : Digestable Message}
  {message_leaf_digest : Digestable MessageLeaf}.
Context {vecs : BorshVec} {abi : SolAbi}.
Context {hub_codec : Borsh encoding.HubMessage} {token_payload_codec : Borsh AxelarExecuteWithInterchainTokenPayload}.

(** The builder's [AxelarExecuteWithInterchainToken] and its metas, the execute PDA as a signer. *)
Record AxelarExecuteWithInterchainToken := {
  ae_token_program : Pubkey;
  ae_token_mint : AccountInfo;
  ae_destination_token_authority : AccountInfo;
  ae_destination_program_ata : AccountInfo;
  ae_interchain_transfer_execute : AccountInfo
}.

Definition with_token_account_metas (a : AxelarExecuteWithInterchainToken) : list AccountMeta :=
  [meta_new_readonly (ae_token_program a) false;
   meta_new (key (ae_token_mint a)) false;
   meta_new_readonly (key (ae_destination_token_authority a)) false;
   meta_new (key (ae_destination_program_ata a)) false;
   meta_new_readonly (key (ae_interchain_transfer_execute a)) true].

Definition with_token_account_infos (a : AxelarExecuteWithInterchainToken) : list AccountInfo :=
  [{| key := ae_token_program a; is_signer := false; is_writable := false |};
   ae_token_mint a; ae_destination_token_authority a; ae_destination_program_ata a;
   ae_interchain_transfer_execute a].

(** ** gmp/interchain_transfer.rs *)

Record ExecuteInterchainTransfer := {
  et_payer : AccountInfo;
  et_its_root_pda : AccountInfo;
  et_destination : AccountInfo;
  et_destination_token_authority : AccountInfo;
  et_destination_ata : AccountInfo;
  et_token_mint : AccountInfo;
  et_token_manager_pda : AccountInfo;
  et_token_manager_ata : AccountInfo;
  et_token_program : Pubkey;
  et_associated_token_program : Pubkey;
  et_system_program : Pubkey;
  et_interchain_transfer_execute : option AccountInfo;
  et_remaining_accounts : list AccountInfo
}.

(** The root, the token manager and the bump of the execute PDA. *)
Definition execute_interchain_transfer_accounts (a : ExecuteInterchainTransfer) (destination_address : Pubkey)
    (token_id : array 32) : Instr (TokenManager.t * option byte) :=
  let its_root := key (et_its_root_pda a) in
  _ ← signer_account (et_payer a);
  root ← load InterchainTokenService.t its_root;
  mint ← load_mint (key (et_token_mint a));
  manager ← load TokenManager.t (key (et_token_manager_pda a));
  ata ← load_token_account (key (et_token_manager_ata a));
  _ ← token_interface (et_token_program a);
  _ ← program_account associated_token_ID (et_associated_token_program a);
  _ ← program_account system_program_ID (et_system_program a);
  _ ← associated_token_if_needed (key (et_payer a)) (key (et_destination_ata a)) (key (et_token_mint a))
        (key (et_destination_token_authority a)) (et_token_program a);
  _ ← constraint_mut (et_payer a);
  _ ← its_root_seeds its_root root;
  _ ← constraint_signer (et_its_root_pda a);
  _ ← not_paused root;
  _ ← require (bool_decide (key (et_destination a) = destination_address)) (EIts InvalidDestinationAddressAccount);
  _ ← constraint_mut (et_destination_ata a);
  _ ← constraint_mut (et_token_mint a);
  _ ← mint_token_program mint.1 (et_token_program a);
  _ ← token_manager_seeds (key (et_token_manager_pda a)) its_root token_id manager;
  _ ← constraint_mut (et_token_manager_pda a);
  _ ← require (bool_decide (TokenManager.token_address manager = key (et_token_mint a))) (EIts TokenMintTokenManagerMissmatch);
  _ ← associated_token (key (et_token_manager_ata a)) ata (key (et_token_mint a)) (key (et_token_manager_pda a))
        (et_token_program a);
  _ ← constraint_mut (et_token_manager_ata a);
  execute_bump ← match et_interchain_transfer_execute a with
    | None => mret None
    | Some k => b ← constraint_seeds_find (InterchainTransferExecute.pda_seeds (key (et_destination a))) its_ID (key k);
                mret (Some b)
    end;
  mret (manager, execute_bump).

Definition is_bpf_loader_owned (owner : Pubkey) : bool :=
  bool_decide (owner = bpf_loader_ID) || bool_decide (owner = bpf_loader_deprecated_ID) ||
  bool_decide (owner = bpf_loader_upgradeable_ID) || bool_decide (owner = loader_v4_ID).

(** The authority that must hold the tokens: a program's derived authority, or the wallet itself. *)
Definition expected_authority (destination : Pubkey) : Instr Pubkey := fun w =>
  if is_bpf_loader_owned (from_option owner system_program_ID (ledger w !! destination))
  then (p ← lift (find_program_address_or_panic [ITS_TOKEN_AUTHORITY_SEED] destination); mret p.1) w
  else Ok (destination, w).

Definition check_destination_authority (destination destination_token_authority : Pubkey) : Instr unit :=
  expected ← expected_authority destination;
  require (bool_decide (destination_token_authority = expected)) (EIts InvalidDestinationTokenAuthority).

Definition track_token_flow (manager : TokenManager.t) (amount : Z) (direction : FlowDirection)
    : Instr TokenManager.t :=
  match FlowState.flow_limit (TokenManager.flow_slot manager) with
  | None => mret manager
  | Some _ =>
    current_epoch ← current_flow_epoch;
    let slot := FlowState.reset_for_epoch (TokenManager.flow_slot manager) current_epoch in
    slot ← lift (FlowState.add_flow slot amount direction);
    mret (TokenManager.set_flow_slot manager slot)
  end.

Definition mint_to_receiver (a : ExecuteInterchainTransfer) (token_id : array 32) (amount : Z)
    (token_manager_bump : byte) : Instr unit :=
  mint_as_manager (et_token_program a) (et_token_mint a) (et_destination_ata a)
    (et_token_manager_pda a) (key (et_its_root_pda a)) token_id token_manager_bump amount.

Definition transfer_to (a : ExecuteInterchainTransfer) (amount decimals : Z) (signer_seeds : list bytes) : Instr unit :=
  from ← invoke_signed_account its_ID signer_seeds (et_token_manager_ata a) false true;
  to ← invoke_signed_account its_ID signer_seeds (et_destination_ata a) false true;
  authority ← invoke_signed_account its_ID signer_seeds (et_token_manager_pda a) true false;
  token_cpi (et_token_program a)
    (TransferChecked (key from) (key (et_token_mint a)) (key to) (key authority) amount decimals).

Definition transfer_with_fee_to (a : ExecuteInterchainTransfer) (amount decimals fee : Z) (signer_seeds : list bytes)
    : Instr unit :=
  from ← invoke_signed_account its_ID signer_seeds (et_token_manager_ata a) false true;
  to ← invoke_signed_account its_ID signer_seeds (et_destination_ata a) false true;
  authority ← invoke_signed_account its_ID signer_seeds (et_token_manager_pda a) true false;
  token_cpi (et_token_program a)
    (TransferCheckedWithFee (key from) (key (et_token_mint a)) (key to) (key authority) amount decimals fee).

(** The amount the destination gets, and the token manager with its new flow slot. *)
Definition handle_give_token_transfer (a : ExecuteInterchainTransfer) (manager : TokenManager.t) (amount : Z)
    : Instr (Z * TokenManager.t) :=
  manager ← track_token_flow manager amount FlowIn;
  let token_id := TokenManager.token_id manager in
  let bump := TokenManager.bump manager in
  let signer_seeds := token_manager_signer (key (et_its_root_pda a)) token_id bump in
  transferred ←
    match TokenManager.ty manager with
    | NativeInterchainToken | MintBurn | MintBurnFrom =>
        _ ← mint_to_receiver a token_id amount bump; mret amount
    | LockUnlock =>
        decimals ← get_mint_decimals (key (et_token_mint a));
        _ ← transfer_to a amount decimals signer_seeds; mret amount
    | LockUnlockFee =>
        fd ← get_fee_and_decimals (key (et_token_mint a)) amount;
        _ ← transfer_with_fee_to a amount fd.2 fd.1 signer_seeds;
        lift (ok_or (checked_sub amount fd.1) (EIts ItsArithmeticOverflow))
    end;
  mret (transferred, manager).

Definition info_meta (i : AccountInfo) : AccountMeta :=
  {| meta_pubkey := key i; meta_is_signer := is_signer i; meta_is_writable := is_writable i |}.

(** The call of the destination program with the tokens. *)
Definition invoke_destination_program (a : ExecuteInterchainTransfer) (execute_bump : option byte)
    (message : Message) (source_chain source_address : bytes) (token_id : array 32) (transferred_amount : Z)
    (data : bytes) : Instr unit :=
  interchain_transfer_execute ← lift (ok_or (et_interchain_transfer_execute a) (EIts InterchainTransferExecutePdaMissing));
  bump ← lift (ok_or execute_bump (EIts InterchainTransferExecutePdaMissing));
  destination_payload ← lift (map_err EGateway (decode data));
  let destination_accounts := account_meta destination_payload in
  _ ← require (length destination_accounts =? length (et_remaining_accounts a))%nat (EProgram PE_NotEnoughAccountKeys);
  let remaining_metas := map info_meta (et_remaining_accounts a) in
  _ ← require (bool_decide (destination_accounts = remaining_metas)) (EIts ItsInvalidAccountData);
  let accounts := {| ae_token_program := et_token_program a; ae_token_mint := et_token_mint a;
    ae_destination_token_authority := et_destination_token_authority a;
    ae_destination_program_ata := et_destination_ata a;
    ae_interchain_transfer_execute := interchain_transfer_execute |} in
  ix_data ← lift (ok_or (borsh_serialize
    {| ap_command_id := command_id message; ap_source_chain := source_chain; ap_source_address := source_address;
       ap_token_id := token_id; ap_token_mint := key (et_token_mint a); ap_amount := transferred_amount;
       ap_data := payload_without_accounts destination_payload |}) EPanic);
  let ix := {| ix_program_id := key (et_destination a);
               ix_accounts := with_token_account_metas accounts ++ destination_accounts;
               ix_data := ITS_EXECUTE_IX_DISC ++ ix_data |} in
  invoke_program its_ID (InterchainTransferExecute.pda_seeds (key (et_destination a)) ++ [[bump]])
    ix (with_token_account_infos accounts ++ et_remaining_accounts a).

Definition execute_interchain_transfer (a : ExecuteInterchainTransfer) (message : Message)
    (source_chain source_address : bytes) (destination_address : Pubkey) (token_id : array 32) (amount : Z)
    (data : bytes) : Instr unit :=
  accounts ← execute_interchain_transfer_accounts a destination_address token_id;
  let manager := accounts.1 in
  _ ← require (negb (amount =? 0)) (EIts InvalidAmount);
  _ ← check_destination_authority (key (et_destination a)) (key (et_destination_token_authority a));
  _ ← validate_token_manager_type (TokenManager.ty manager) (key (et_token_mint a)) (key (et_token_manager_pda a));
  given ← handle_give_token_transfer a manager amount;
  let transferred_amount := given.1 in
  let data_hash := if bool_decide (data = []) then None else Some (keccak_hash data) in
  _ ← emit (EvIts (InterchainTransferReceived (command_id message) token_id source_chain source_address
        destination_address (key (et_destination_ata a)) transferred_amount data_hash));
  _ ← (if bool_decide (data = []) then mret tt
       else invoke_destination_program a accounts.2 message source_chain source_address token_id
              transferred_amount data);
  store (key (et_token_manager_pda a)) given.2.

(** ** gmp/execute.rs *)

Record Execute := {
  xe_executable : AxelarExecutableAccounts;
  xe_payer : AccountInfo;
  xe_its_root_pda : AccountInfo;
  xe_token_manager_pda : AccountInfo;
  xe_token_mint : AccountInfo;
  xe_token_manager_ata : AccountInfo;
  xe_token_program : Pubkey;
  xe_associated_token_program : Pubkey;
  xe_system_program : Pubkey;
  xe_remaining_accounts : list AccountInfo
}.

Definition execute_accounts (a : Execute) (message : Message) : Instr InterchainTokenService.t :=
  _ ← executable_accounts its_ID (xe_executable a) message;
  _ ← signer_account (xe_payer a);
  root ← load InterchainTokenService.t (key (xe_its_root_pda a));
  _ ← constraint_mut (xe_payer a);
  _ ← its_root_active (key (xe_its_root_pda a)) root;
  _ ← constraint_mut (xe_token_manager_pda a);
  _ ← constraint_mut (xe_token_mint a);
  _ ← constraint_mut (xe_token_manager_ata a);
  mret root.

(** An optional account in a list of metas is absent, or the program's own id. *)
Definition optional_account (o : option AccountInfo) : option AccountInfo :=
  a ← o; if bool_decide (key a = its_ID) then None else Some a.

(** [invoke_signed_with_its_root_pda] gives each account of the call the privileges of its meta. *)
Definition self_account (root : InterchainTokenService.t) (a : AccountInfo) (meta_signer meta_writable : bool)
    : Instr AccountInfo :=
  invoke_signed_account its_ID [InterchainTokenService.SEED_PREFIX; [InterchainTokenService.bump root]]
    a meta_signer meta_writable.

Definition self_option (root : InterchainTokenService.t) (o : option AccountInfo) (meta_writable : bool)
    : Instr (option AccountInfo) :=
  match o with
  | None => mret None
  | Some a => x ← self_account root a false meta_writable; mret (optional_account (Some x))
  end.

(** [iter.next().ok_or(ItsError::AccountNotProvided)?], and the rest of the iterator. *)
Definition next_account (l : list AccountInfo) : Result (AccountInfo * list AccountInfo) :=
  match l with a :: l => Ok (a, l) | [] => Err (EIts AccountNotProvided) end.

Definition cpi_execute_interchain_transfer (a : Execute) (root : InterchainTokenService.t)
    (transfer : encoding.InterchainTransfer) (message : Message) (source_chain : bytes) : Instr unit :=
  destination_address ← lift (ok_or (arr_try_from 32 (encoding.it_destination_address transfer))
                                    (EIts ItsInvalidAccountData));
  let data := default [] (encoding.it_data transfer) in
  destination ← lift (next_account (xe_remaining_accounts a));
  authority ← lift (next_account destination.2);
  ata ← lift (next_account authority.2);
  let interchain_transfer_execute := head ata.2 in
  let custom_accounts := tail ata.2 in
  payer ← self_account root (xe_payer a) true true;
  its_root ← self_account root (xe_its_root_pda a) true false;
  destination_ata ← self_account root ata.1 false true;
  token_mint ← self_account root (xe_token_mint a) false true;
  token_manager ← self_account root (xe_token_manager_pda a) false true;
  token_manager_ata ← self_account root (xe_token_manager_ata a) false true;
  execute_pda ← self_option root interchain_transfer_execute false;
  execute_interchain_transfer
    {| et_payer := payer; et_its_root_pda := its_root;
       et_destination := {| key := key destination.1; is_signer := false; is_writable := false |};
       et_destination_token_authority := {| key := key authority.1; is_signer := false; is_writable := false |};
       et_destination_ata := destination_ata; et_token_mint := token_mint;
       et_token_manager_pda := token_manager; et_token_manager_ata := token_manager_ata;
       et_token_program := xe_token_program a; et_associated_token_program := xe_associated_token_program a;
       et_system_program := xe_system_program a; et_interchain_transfer_execute := execute_pda;
       et_remaining_accounts := custom_accounts |}
    message source_chain (encoding.it_source_address transfer) destination_address
    (encoding.it_token_id transfer) (encoding.it_amount transfer) data.

Definition cpi_execute_link_token (a : Execute) (root : InterchainTokenService.t) (payload : encoding.LinkToken)
    : Instr unit :=
  destination_token_address ← lift (ok_or (arr_try_from 32 (encoding.lt_destination_token_address payload))
                                          (EIts ItsInvalidAccountData));
  let link_params := default [] (encoding.lt_params payload) in
  let operator := head (xe_remaining_accounts a) in
  let operator_roles_pda := head (tail (xe_remaining_accounts a)) in
  payer ← self_account root (xe_payer a) true true;
  its_root ← self_account root (xe_its_root_pda a) true false;
  token_manager ← self_account root (xe_token_manager_pda a) false true;
  token_manager_ata ← self_account root (xe_token_manager_ata a) false true;
  operator ← self_option root operator false;
  operator_roles ← self_option root operator_roles_pda true;
  execute_link_token
    {| la_payer := payer; la_system_program := xe_system_program a; la_its_root_pda := its_root;
       la_token_manager_pda := token_manager; la_token_mint := key (xe_token_mint a);
       la_token_manager_ata := token_manager_ata; la_token_program := xe_token_program a;
       la_associated_token_program := xe_associated_token_program a; la_operator := operator;
       la_operator_roles_pda := operator_roles |}
    (encoding.lt_token_id payload) destination_token_address (encoding.lt_token_manager_type payload) link_params.

Definition cpi_execute_deploy_interchain_token (a : Execute) (root : InterchainTokenService.t)
    (deploy : encoding.DeployInterchainToken) : Instr unit :=
  let minter := default [] (encoding.di_minter deploy) in
  sysvar_instructions ← lift (next_account (xe_remaining_accounts a));
  mpl_program ← lift (next_account sysvar_instructions.2);
  mpl_account ← lift (next_account mpl_program.2);
  let minter_account := head mpl_account.2 in
  let minter_roles_pda := head (tail mpl_account.2) in
  payer ← self_account root (xe_payer a) true true;
  its_root ← self_account root (xe_its_root_pda a) true false;
  token_manager ← self_account root (xe_token_manager_pda a) false true;
  token_mint ← self_account root (xe_token_mint a) false true;
  token_manager_ata ← self_account root (xe_token_manager_ata a) false true;
  metadata ← self_account root mpl_account.1 false true;
  minter_account ← self_option root minter_account false;
  minter_roles ← self_option root minter_roles_pda true;
  execute_deploy_interchain_token
    {| ed_payer := payer; ed_system_program := xe_system_program a; ed_its_root_pda := its_root;
       ed_token_manager_pda := token_manager; ed_token_mint := token_mint;
       ed_token_manager_ata := token_manager_ata; ed_token_program := xe_token_program a;
       ed_associated_token_program := xe_associated_token_program a;
       ed_sysvar_instructions := key sysvar_instructions.1;
       ed_mpl_token_metadata_program := key mpl_program.1; ed_mpl_token_metadata_account := metadata;
       ed_minter := minter_account; ed_minter_roles_pda := minter_roles |}
    (encoding.di_token_id deploy) (encoding.di_name deploy) (encoding.di_symbol deploy)
    (encoding.di_decimals deploy) minter.

(** [HubMessage::try_from_slice]: the whole slice is read. *)
Definition hub_message_try_from_slice (payload : bytes) : option encoding.HubMessage :=
  match borsh_deserialize payload with Some (m, []) => Some m | _ => None end.

Definition its_execute (a : Execute) (message : Message) (payload : bytes) : Instr unit :=
  root ← execute_accounts a message;
  _ ← require (bool_decide (source_address message = InterchainTokenService.its_hub_address root))
        (EIts ItsInvalidInstructionData);
  hub_message ← lift (ok_or (hub_message_try_from_slice payload) (EIts ItsInvalidInstructionData));
  received ← lift match hub_message with
                  | encoding.ReceiveFromHub source_chain inner => Ok (source_chain, inner)
                  | _ => Err (EIts ItsInvalidInstructionData)
                  end;
  _ ← validate_message_raw its_ID (xe_executable a) message payload;
  _ ← require (InterchainTokenService.is_trusted_chain root received.1) (EIts UntrustedSourceChain);
  match received.2 with
  | encoding.MInterchainTransfer transfer => cpi_execute_interchain_transfer a root transfer message received.1
  | encoding.MDeployInterchainToken deploy => cpi_execute_deploy_interchain_token a root deploy
  | encoding.MLinkToken payload => cpi_execute_link_token a root payload
  end.

(** ** lib.rs *)

Inductive ItsInstruction :=
| ItInitialize (a : ItsInitialize) (chain_name its_hub_address : bytes)
| ItSetPauseStatus (a : SetPauseStatus) (paused : bool)
| ItSetTrustedChain (a : SetTrustedChain) (chain_name : bytes)
| ItRemoveTrustedChain (a : SetTrustedChain) (chain_name : bytes)
| ItDeployInterchainToken (a : DeployInterchainToken) (salt : array 32) (name symbol : bytes)
    (decimals initial_supply : Z)
| ItDeployRemoteInterchainToken (a : DeployRemoteInterchainToken) (salt : array 32) (destination_chain : bytes)
    (gas_value : Z)
| ItRegisterTokenMetadata (a : RegisterTokenMetadata) (gas_value : Z)
| ItRegisterCanonicalInterchainToken (a : RegisterCanonicalInterchainToken)
| ItDeployRemoteCanonicalInterchainToken (a : DeployRemoteCanonicalInterchainToken) (destination_chain : bytes)
    (gas_value : Z)
| ItRegisterCustomToken (a : RegisterCustomToken) (salt : array 32) (token_manager_type : TokenManagerType)
    (operator : option Pubkey)
| ItLinkToken (a : LinkToken) (salt : array 32) (destination_chain destination_token_address : bytes)
    (token_manager_type : TokenManagerType) (link_params : bytes) (gas_value : Z)
| ItSetFlowLimit (a : SetFlowLimit) (flow_limit : option Z)
| ItExecute (a : Execute) (message : Message) (payload : bytes)
| ItExecuteDeployInterchainToken (a : ExecuteDeployInterchainToken) (token_id : array 32) (name symbol : bytes)
    (decimals : Z) (minter : bytes)
| ItExecuteLinkToken (a : LinkAccounts) (token_id destination_token_address : array 32) (token_manager_type : Z)
    (link_params : bytes)
| ItExecuteInterchainTransfer (a : ExecuteInterchainTransfer) (message : Message)
    (source_chain source_address : bytes) (destination_address : Pubkey) (token_id : array 32) (amount : Z)
    (data : bytes)
| ItInterchainTransfer (a : InterchainTransfer) (token_id : array 32) (destination_chain destination_address : bytes)
    (amount gas_value : Z) (caller_program_id : option Pubkey) (caller_pda_seeds : option (list bytes))
    (data : option bytes)
| ItTransferOperatorship (a : ItsTransferOperatorship)
| ItAddTokenManagerFlowLimiter (a : FlowLimiterAccounts)
| ItRemoveTokenManagerFlowLimiter (a : FlowLimiterAccounts)
| ItSetTokenManagerFlowLimit (a : SetTokenManagerFlowLimit) (flow_limit : option Z)
| ItTransferTokenManagerOperatorship (a : TransferTokenManagerOperatorship)
| ItMintInterchainToken (a : MintInterchainToken) (amount : Z)
| ItHandoverMintAuthority (a : HandoverMintAuthority) (token_id : array 32)
| ItTransferInterchainTokenMintership (a : TransferInterchainTokenMintership).

(** The instruction's effect; a returned token id only goes back to the caller. *)
Definition its_entry (ix : ItsInstruction) : Instr unit :=
  match ix with
  | ItInitialize a n h => its_initialize a n h
  | ItSetPauseStatus a p => set_pause_status a p
  | ItSetTrustedChain a c => set_trusted_chain a c
  | ItRemoveTrustedChain a c => remove_trusted_chain a c
  | ItDeployInterchainToken a s n y d i => _ ← deploy_interchain_token a s n y d i; mret tt
  | ItDeployRemoteInterchainToken a s c g => deploy_remote_interchain_token a s c g
  | ItRegisterTokenMetadata a g => register_token_metadata a g
  | ItRegisterCanonicalInterchainToken a => _ ← register_canonical_interchain_token a; mret tt
  | ItDeployRemoteCanonicalInterchainToken a c g => deploy_remote_canonical_interchain_token a c g
  | ItRegisterCustomToken a s t o => _ ← register_custom_token a s t o; mret tt
  | ItLinkToken a s c d t p g => _ ← link_token a s c d t p g; mret tt
  | ItSetFlowLimit a l => set_flow_limit a l
  | ItExecute a m p => its_execute a m p
  | ItExecuteDeployInterchainToken a t n y d m => execute_deploy_interchain_token a t n y d m
  | ItExecuteLinkToken a t d ty p => execute_link_token a t d ty p
  | ItExecuteInterchainTransfer a m sc sa da t n d => execute_interchain_transfer a m sc sa da t n d
  | ItInterchainTransfer a t c d n g cp cs da => interchain_transfer a t c d n g cp cs da
  | ItTransferOperatorship a => its_transfer_operatorship a
  | ItAddTokenManagerFlowLimiter a => add_token_manager_flow_limiter a
  | ItRemoveTokenManagerFlowLimiter a => remove_token_manager_flow_limiter a
  | ItSetTokenManagerFlowLimit a l => set_token_manager_flow_limit a l
  | ItTransferTokenManagerOperatorship a => transfer_token_manager_operatorship a
  | ItMintInterchainToken a n => mint_interchain_token a n
  | ItHandoverMintAuthority a t => handover_mint_authority a t
  | ItTransferInterchainTokenMintership a => transfer_interchain_token_mintership a
  end.
End execute.
