(* ===== verification/ItsClient.v ===== *)
(** * ITS: the instructions that clients build

    The [make_*_instruction] functions of programs/solana-axelar-its/src/instructions, which derive the
    addresses of an instruction's accounts, and the helpers of gmp/execute.rs for the accounts that follow
    those of [execute]. [Pubkey::find_program_address] panics when there is no address, so a builder is in
    the error monad. *)

From stdpp Require Import base gmap list.
From Stdlib Require Import ZArith Lia.
From S2P Require Import Prelude Errors External StdTypes GatewayState Payload OperatorsState ItsState Ledger SplToken Executable Its ItsOutbound ItsDeploy ItsExecute.

(** [bpf_loader_upgradeable::get_program_data_address]: where the loader keeps the record of a program. *)
Class ProgramDataAddress := get_program_data_address : Pubkey -> Pubkey.

(** It is the address that the loader derives from the id of the program. *)
Class ProgramDataAddressLaws `{!SolanaPda, !ProgramIds, !ProgramDataAddress} : Prop := {
  program_data_derived pid :
    exists b, find_program_address [arr_bytes pid] bpf_loader_upgradeable_ID = Some (get_program_data_address pid, b)
}.

(** ** [to_account_metas(None)] *)

(** A [Signer<'info>] signs; an account that is [mut], [init], [init_if_needed] or [realloc] is writable. *)
Definition signer_mut (k : Pubkey) : AccountInfo := {| key := k; is_signer := true; is_writable := true |}.
Definition signer_readonly (k : Pubkey) : AccountInfo := {| key := k; is_signer := true; is_writable := false |}.
Definition account_mut (k : Pubkey) : AccountInfo := {| key := k; is_signer := false; is_writable := true |}.
Definition account_readonly (k : Pubkey) : AccountInfo := {| key := k; is_signer := false; is_writable := false |}.

Section client.
Context {keccak : Keccak} {pda : SolanaPda} {ids : ProgramIds} {spl : SplToken} {network : ItsNetwork}
  {loader : ProgramDataAddress}.

(** ** The derived addresses *)

Definition its_root_address : Result Pubkey := p ← InterchainTokenService.find_pda; mret p.1.
Definition token_manager_address (token_id : array 32) (its_root : Pubkey) : Result Pubkey :=
  p ← TokenManager.find_pda token_id its_root; mret p.1.
Definition token_mint_address (token_id : array 32) (its_root : Pubkey) : Result Pubkey :=
  p ← TokenManager.find_token_mint token_id its_root; mret p.1.
Definition user_roles_address (resource user : Pubkey) : Result Pubkey :=
  p ← UserRoles.find_pda resource user; mret p.1.
Definition optional_roles_address (resource : Pubkey) (user : option Pubkey) : Result (option Pubkey) :=
  match user with None => mret None | Some u => k ← user_roles_address resource u; mret (Some k) end.
(** [TokenManager::find_token_metadata] *)
Definition find_token_metadata (token_id : array 32) (its_root_pda : Pubkey) : Result Pubkey :=
  token_mint ← token_mint_address token_id its_root_pda; mret (metadata_find_pda token_mint).

(** The accounts of the message to the hub, which five builders derive. *)
Definition hub_accounts (payer its_root : Pubkey) : Result HubAccounts :=
  gateway_root ← GatewayConfig.find_pda;
  signing ← CallContractSigner.find_pda its_ID;
  treasury ← find_program_address_or_panic Treasury.pda_seeds gas_service_ID;
  mret {| ha_payer := signer_mut payer; ha_gateway_root_pda := account_readonly gateway_root.1;
          ha_gateway_program := gateway_ID; ha_system_program := system_program_ID;
          ha_its_root_pda := account_readonly its_root;
          ha_call_contract_signing_pda := account_readonly signing.1;
          ha_gas_treasury := account_mut treasury.1; ha_gas_service := gas_service_ID |}.

(** ** config *)

Definition make_initialize_instruction (payer operator : Pubkey) (chain_name its_hub_address : bytes)
    : Result ItsInstruction :=
  its_root_pda ← its_root_address;
  let program_data := get_program_data_address its_ID in
  user_roles_account ← user_roles_address its_root_pda operator;
  mret (ItInitialize
    {| ti_payer := signer_mut payer; ti_program_data := account_readonly program_data;
       ti_its_root_pda := account_mut its_root_pda; ti_system_program := system_program_ID;
       ti_operator := signer_readonly operator; ti_user_roles_account := account_mut user_roles_account |}
    chain_name its_hub_address).

Definition make_set_pause_status_instruction (payer : Pubkey) (paused : bool) : Result ItsInstruction :=
  its_root_pda ← its_root_address;
  let program_data := get_program_data_address its_ID in
  mret (ItSetPauseStatus
    {| sp_payer := signer_mut payer; sp_program_data := account_readonly program_data;
       sp_its_root_pda := account_mut its_root_pda |} paused).

(** The accounts that the two builders of trusted chains derive. *)
Definition trusted_chain_client_accounts (payer : Pubkey) (use_operator_role : bool) : Result SetTrustedChain :=
  its_root_pda ← its_root_address;
  user_roles ← (if use_operator_role then k ← user_roles_address its_root_pda payer; mret (Some k) else mret None);
  let program_data := if use_operator_role then None else Some (get_program_data_address its_ID) in
  mret {| tc_payer := signer_mut payer; tc_user_roles := account_readonly <$> user_roles;
          tc_program_data := account_readonly <$> program_data; tc_its_root_pda := account_mut its_root_pda;
          tc_system_program := system_program_ID |}.

Definition make_set_trusted_chain_instruction (payer : Pubkey) (chain_name : bytes) (use_operator_role : bool)
    : Result ItsInstruction :=
  accounts ← trusted_chain_client_accounts payer use_operator_role;
  mret (ItSetTrustedChain accounts chain_name).

Definition make_remove_trusted_chain_instruction (payer : Pubkey) (chain_name : bytes) (use_operator_role : bool)
    : Result ItsInstruction :=
  accounts ← trusted_chain_client_accounts payer use_operator_role;
  mret (ItRemoveTrustedChain accounts chain_name).

Definition make_set_flow_limit_instruction (payer operator : Pubkey) (token_id : array 32) (flow_limit : option Z)
    : Result ItsInstruction :=
  its_root_pda ← its_root_address;
  its_roles_pda ← user_roles_address its_root_pda operator;
  token_manager_pda ← token_manager_address token_id its_root_pda;
  mret (ItSetFlowLimit
    {| fl_payer := signer_mut payer; fl_operator := signer_readonly operator;
       fl_its_root_pda := account_readonly its_root_pda; fl_its_roles_pda := account_readonly its_roles_pda;
       fl_token_manager_pda := account_mut token_manager_pda; fl_system_program := system_program_ID |} flow_limit).

Definition make_transfer_operatorship_instruction (payer origin_user_account destination_user_account : Pubkey)
    : Result ItsInstruction :=
  resource_account ← its_root_address;
  origin_roles_account ← user_roles_address resource_account origin_user_account;
  destination_roles_account ← user_roles_address resource_account destination_user_account;
  mret (ItTransferOperatorship
    {| xo_system_program := system_program_ID; xo_payer := signer_mut payer;
       xo_origin_user_account := signer_readonly origin_user_account;
       xo_origin_roles_account := account_mut origin_roles_account;
       xo_resource_account := account_readonly resource_account;
       xo_destination_user_account := account_readonly destination_user_account;
       xo_destination_roles_account := account_mut destination_roles_account |}).

(** ** token_manager *)

(** The accounts that the two builders of flow limiters derive. *)
Definition flow_limiter_client_accounts (payer authority target : Pubkey) (token_id : array 32)
    : Result FlowLimiterAccounts :=
  its_root_pda ← its_root_address;
  token_manager_pda ← token_manager_address token_id its_root_pda;
  authority_roles_account ← user_roles_address token_manager_pda authority;
  target_roles_account ← user_roles_address token_manager_pda target;
  mret {| ft_system_program := system_program_ID; ft_payer := signer_mut payer;
          ft_authority_user_account := signer_readonly authority;
          ft_authority_roles_account := account_readonly authority_roles_account;
          ft_its_root_pda := account_readonly its_root_pda;
          ft_token_manager_pda := account_readonly token_manager_pda;
          ft_target_user_account := account_readonly target;
          ft_target_roles_account := account_mut target_roles_account |}.

Definition make_add_token_manager_flow_limiter_instruction (payer authority target : Pubkey) (token_id : array 32)
    : Result ItsInstruction :=
  accounts ← flow_limiter_client_accounts payer authority target token_id;
  mret (ItAddTokenManagerFlowLimiter accounts).

Definition make_remove_token_manager_flow_limiter_instruction (payer authority target : Pubkey)
    (token_id : array 32) : Result ItsInstruction :=
  accounts ← flow_limiter_client_accounts payer authority target token_id;
  mret (ItRemoveTokenManagerFlowLimiter accounts).

Definition make_set_token_manager_flow_limit_instruction (payer flow_limiter : Pubkey) (token_id : array 32)
    (flow_limit : option Z) : Result ItsInstruction :=
  its_root_pda ← its_root_address;
  token_manager_pda ← token_manager_address token_id its_root_pda;
  flow_limiter_roles_pda ← user_roles_address token_manager_pda flow_limiter;
  mret (ItSetTokenManagerFlowLimit
    {| ml_payer := signer_mut payer; ml_flow_limiter := signer_readonly flow_limiter;
       ml_its_root_pda := account_readonly its_root_pda; ml_token_manager_pda := account_mut token_manager_pda;
       ml_flow_limiter_roles_pda := account_readonly flow_limiter_roles_pda;
       ml_system_program := system_program_ID |} flow_limit).

Definition make_transfer_token_manager_operatorship_instruction (payer origin destination : Pubkey)
    (token_id : array 32) : Result ItsInstruction :=
  its_root_pda ← its_root_address;
  token_manager_account ← token_manager_address token_id its_root_pda;
  origin_roles_account ← user_roles_address token_manager_account origin;
  destination_roles_account ← user_roles_address token_manager_account destination;
  mret (ItTransferTokenManagerOperatorship
    {| xm_system_program := system_program_ID; xm_payer := signer_mut payer;
       xm_origin_user_account := signer_readonly origin;
       xm_origin_roles_account := account_mut origin_roles_account;
       xm_its_root_pda := account_readonly its_root_pda;
       xm_token_manager_account := account_readonly token_manager_account;
       xm_destination_user_account := account_readonly destination;
       xm_destination_roles_account := account_mut destination_roles_account |}).

Definition make_handover_mint_authority_instruction (payer authority mint token_program : Pubkey)
    (token_id : array 32) : Result ItsInstruction :=
  its_root ← its_root_address;
  token_manager ← token_manager_address token_id its_root;
  minter_roles ← user_roles_address token_manager authority;
  mret (ItHandoverMintAuthority
    {| hm_payer := signer_mut payer; hm_authority := signer_readonly authority; hm_mint := account_mut mint;
       hm_its_root := account_readonly its_root; hm_token_manager := account_readonly token_manager;
       hm_minter_roles := account_mut minter_roles; hm_token_program := token_program;
       hm_system_program := system_program_ID |} token_id).

(** ** interchain_token *)

Definition make_deploy_interchain_token_instruction (payer deployer : Pubkey) (salt : array 32)
    (name symbol : bytes) (decimals initial_supply : Z) (minter : option Pubkey) : Result ItsInstruction :=
  its_root ← its_root_address;
  let token_id := interchain_token_id deployer salt in
  token_manager_pda ← token_manager_address token_id its_root;
  token_mint ← token_mint_address token_id its_root;
  mpl_token_metadata_account ← find_token_metadata token_id its_root;
  let token_manager_ata := get_associated_token_address token_manager_pda token_mint spl_token_2022_ID in
  let deployer_ata := get_associated_token_address deployer token_mint spl_token_2022_ID in
  minter_roles_pda ← optional_roles_address token_manager_pda minter;
  mret (ItDeployInterchainToken
    {| dt_payer := signer_mut payer; dt_deployer := signer_readonly deployer;
       dt_system_program := system_program_ID; dt_its_root_pda := account_readonly its_root;
       dt_token_manager_pda := account_mut token_manager_pda; dt_token_mint := account_mut token_mint;
       dt_token_manager_ata := account_mut token_manager_ata; dt_token_program := spl_token_2022_ID;
       dt_associated_token_program := associated_token_ID; dt_sysvar_instructions := sysvar_instructions_ID;
       dt_mpl_token_metadata_program := token_metadata_ID;
       dt_mpl_token_metadata_account := account_mut mpl_token_metadata_account;
       dt_deployer_ata := account_mut deployer_ata; dt_minter := account_readonly <$> minter;
       dt_minter_roles_pda := account_mut <$> minter_roles_pda |}
    salt name symbol decimals initial_supply).

Definition make_deploy_remote_interchain_token_instruction (payer deployer : Pubkey) (salt : array 32)
    (destination_chain : bytes) (gas_value : Z) : Result ItsInstruction :=
  its_root_pda ← its_root_address;
  let token_id := interchain_token_id deployer salt in
  token_manager_pda ← token_manager_address token_id its_root_pda;
  token_mint ← token_mint_address token_id its_root_pda;
  let metadata_account := metadata_find_pda token_mint in
  hub ← hub_accounts payer its_root_pda;
  mret (ItDeployRemoteInterchainToken
    {| dr_hub := hub; dr_deployer := signer_readonly deployer; dr_token_mint := token_mint;
       dr_metadata_account := metadata_account; dr_token_manager_pda := token_manager_pda |}
    salt destination_chain gas_value).

Definition make_interchain_transfer_instruction (token_id : array 32) (amount : Z)
    (token_program payer authority : Pubkey) (destination_chain destination_address : bytes) (gas_value : Z)
    (caller_program_id : option Pubkey) (caller_pda_seeds : option (list bytes)) (data : option bytes)
    : Result ItsInstruction :=
  its_root ← its_root_address;
  token_manager_pda ← token_manager_address token_id its_root;
  token_mint ← token_mint_address token_id its_root;
  let authority_token_account := get_associated_token_address authority token_mint token_program in
  let token_manager_ata := get_associated_token_address token_manager_pda token_mint token_program in
  hub ← hub_accounts payer its_root;
  mret (ItInterchainTransfer
    {| ix_payer := ha_payer hub; ix_authority := signer_readonly authority;
       ix_gateway_root_pda := ha_gateway_root_pda hub; ix_gateway_program := ha_gateway_program hub;
       ix_call_contract_signing_pda := ha_call_contract_signing_pda hub;
       ix_gas_treasury := ha_gas_treasury hub; ix_gas_service := ha_gas_service hub;
       ix_its_root_pda := ha_its_root_pda hub; ix_token_manager_pda := account_mut token_manager_pda;
       ix_token_program := token_program; ix_token_mint := account_mut token_mint;
       ix_authority_token_account := account_mut authority_token_account;
       ix_token_manager_ata := account_mut token_manager_ata; ix_system_program := ha_system_program hub |}
    token_id destination_chain destination_address amount gas_value caller_program_id caller_pda_seeds data).

Definition make_mint_interchain_token_instruction (token_id : array 32) (amount : Z)
    (minter destination_account token_program : Pubkey) : Result ItsInstruction :=
  its_root_pda ← its_root_address;
  token_manager_pda ← token_manager_address token_id its_root_pda;
  mint ← token_mint_address token_id its_root_pda;
  minter_roles_pda ← user_roles_address token_manager_pda minter;
  mret (ItMintInterchainToken
    {| mi_mint := account_mut mint; mi_destination_account := account_mut destination_account;
       mi_its_root_pda := account_readonly its_root_pda; mi_token_manager_pda := account_mut token_manager_pda;
       mi_minter := signer_readonly minter; mi_minter_roles_pda := account_readonly minter_roles_pda;
       mi_token_program := token_program |} amount).

Definition make_transfer_interchain_token_mintership_instruction (payer sender destination : Pubkey)
    (token_id : array 32) : Result ItsInstruction :=
  its_root_pda ← its_root_address;
  token_manager_account ← token_manager_address token_id its_root_pda;
  sender_roles_account ← user_roles_address token_manager_account sender;
  destination_roles_account ← user_roles_address token_manager_account destination;
  mret (ItTransferInterchainTokenMintership
    {| mm_payer := signer_mut payer; mm_its_root_pda := account_readonly its_root_pda;
       mm_token_manager_account := account_readonly token_manager_account;
       mm_sender_user_account := signer_readonly sender;
       mm_sender_roles_account := account_mut sender_roles_account;
       mm_destination_user_account := account_readonly destination;
       mm_destination_roles_account := account_mut destination_roles_account;
       mm_system_program := system_program_ID |}).

(** ** canonical_token and custom_token *)

Definition make_register_canonical_token_instruction (payer token_mint token_program : Pubkey)
    : Result ItsInstruction :=
  its_root_pda ← its_root_address;
  let token_id := canonical_interchain_token_id token_mint in
  token_manager_pda ← token_manager_address token_id its_root_pda;
  let token_manager_ata := get_associated_token_address token_manager_pda token_mint token_program in
  let metadata_account := metadata_find_pda token_mint in
  mret (ItRegisterCanonicalInterchainToken
    {| rc_payer := signer_mut payer; rc_metadata_account := metadata_account;
       rc_system_program := system_program_ID; rc_its_root_pda := account_readonly its_root_pda;
       rc_token_manager_pda := account_mut token_manager_pda; rc_token_mint := token_mint;
       rc_token_manager_ata := account_mut token_manager_ata; rc_token_program := token_program;
       rc_associated_token_program := associated_token_ID |}).

Definition make_deploy_remote_canonical_token_instruction (payer token_mint : Pubkey) (destination_chain : bytes)
    (gas_value : Z) : Result ItsInstruction :=
  its_root_pda ← its_root_address;
  let token_id := canonical_interchain_token_id token_mint in
  token_manager_pda ← token_manager_address token_id its_root_pda;
  let metadata_account := metadata_find_pda token_mint in
  hub ← hub_accounts payer its_root_pda;
  mret (ItDeployRemoteCanonicalInterchainToken
    {| dc_hub := hub; dc_token_mint := token_mint; dc_metadata_account := metadata_account;
       dc_token_manager_pda := token_manager_pda |} destination_chain gas_value).

Definition make_register_token_metadata_instruction (payer token_mint : Pubkey) (gas_value : Z)
    : Result ItsInstruction :=
  its_root_pda ← its_root_address;
  hub ← hub_accounts payer its_root_pda;
  mret (ItRegisterTokenMetadata {| rm_hub := hub; rm_token_mint := token_mint |} gas_value).

Definition make_register_custom_token_instruction (payer deployer token_mint token_program : Pubkey)
    (salt : array 32) (token_manager_type : TokenManagerType) (operator : option Pubkey) : Result ItsInstruction :=
  its_root_pda ← its_root_address;
  let deploy_salt := linked_token_deployer_salt deployer salt in
  let token_id := interchain_token_id_internal deploy_salt in
  token_manager_pda ← token_manager_address token_id its_root_pda;
  let token_manager_ata := get_associated_token_address token_manager_pda token_mint token_program in
  operator_roles_pda ← optional_roles_address token_manager_pda operator;
  mret (ItRegisterCustomToken
    {| ru_accounts :=
         {| la_payer := signer_mut payer; la_system_program := system_program_ID;
            la_its_root_pda := account_readonly its_root_pda;
            la_token_manager_pda := account_mut token_manager_pda; la_token_mint := token_mint;
            la_token_manager_ata := account_mut token_manager_ata; la_token_program := token_program;
            la_associated_token_program := associated_token_ID; la_operator := account_readonly <$> operator;
            la_operator_roles_pda := account_mut <$> operator_roles_pda |};
       ru_deployer := signer_readonly deployer |} salt token_manager_type operator).

(** ** gmp/execute.rs: the accounts that follow those of [execute] *)

Definition execute_interchain_transfer_extra_accounts (destination destination_token_authority destination_ata : Pubkey)
    (transfer_has_data : option bool) : Result (list AccountMeta) :=
  let accounts := [meta_new_readonly destination false;
                   meta_new_readonly destination_token_authority false;
                   meta_new destination_ata false] in
  if bool_decide (transfer_has_data = Some true) then
    interchain_transfer_execute ←
      find_program_address_or_panic [InterchainTransferExecute.SEED_PREFIX; arr_bytes destination] its_ID;
    mret (accounts ++ [meta_new_readonly interchain_transfer_execute.1 false])
  else mret accounts.

Definition destination_token_authority_pda (destination_program : Pubkey) : Result Pubkey :=
  p ← find_program_address_or_panic [ITS_TOKEN_AUTHORITY_SEED] destination_program; mret p.1.

(** The metas that [if let Some(key) = k { accounts.push(meta(key)) }] adds. *)
Definition push_option (meta : Pubkey -> bool -> AccountMeta) (k : option Pubkey) : list AccountMeta :=
  match k with Some k => [meta k false] | None => [] end.

Definition execute_link_token_extra_accounts (operator operator_roles_pda : option Pubkey) : list AccountMeta :=
  push_option meta_new_readonly operator ++ push_option meta_new operator_roles_pda.

Definition execute_deploy_interchain_token_extra_accounts
    (sysvar_instructions mpl_token_metadata_program mpl_token_metadata_account : Pubkey)
    (minter minter_roles_pda : option Pubkey) : list AccountMeta :=
  [meta_new_readonly sysvar_instructions false; meta_new_readonly mpl_token_metadata_program false;
   meta_new mpl_token_metadata_account false] ++
  push_option meta_new minter ++ push_option meta_new minter_roles_pda.
End client.
