(* ===== verification/ItsLemmas.v ===== *)
(** * Lemmas on the operations of ITS

    Inversion of the account attributes and calls that the instructions of ITS share, and their effect
    on [its w], the data of the program's accounts. *)

From stdpp Require Import base gmap list.
From Stdlib Require Import ZArith Lia.
From S2P Require Import Prelude Errors External StdInts StdTypes GatewayState Payload ItsState Ledger LedgerLemmas SplToken Gateway GatewayLemmas Executable GasService Its ItsOutbound ItsDeploy ItsExecute.

Section its.
Context {keccak : Keccak} {pda : SolanaPda} {ids : ProgramIds} {system : SolanaSystem} {realloc : AnchorRealloc}
  {spl : SplToken} {network : ItsNetwork}.
Context {hub_codec : Borsh encoding.HubMessage}.
Context {bnum : Bnum} {ids_laws : ProgramIdsLaws} {system_laws : SolanaSystemLaws} {spl_laws : SplTokenLaws}
  {realloc_laws : AnchorReallocLaws}.

Definition its (w : World) : gmap (array 32) AccountData := state_of its_ID w.

Lemma its_not_system : its_ID <> system_program_ID.
Proof. apply program_ne_system. Qed.

Lemma its_not_gateway : its_ID <> gateway_ID.
Proof. pose proof program_ids_nodup as Hn. intros E. by pose proof (NoDup_lookup _ 4%nat 0%nat its_ID Hn eq_refl (f_equal Some (eq_sym E))). Qed.

(** The accounts of no program change, apart from balances. *)
Definition quiet (w w' : World) : Prop :=
  (forall pid, pid <> system_program_ID -> state_of pid w' = state_of pid w) /\ now w' = now w.

Lemma quiet_refl w : quiet w w.
Proof. done. Qed.

Lemma quiet_its w w' : quiet w w' -> its w' = its w.
Proof. intros [H _]. apply H, its_not_system. Qed.

(** ** The changes of accounts *)

Lemma its_emit w e : its (mkWorld (ledger w) (now w) (e :: log w)) = its w.
Proof. done. Qed.

Lemma its_store {T} (acc : AnchorAccount T) k (x : T) w u w' d :
  store k x w = Ok (u, w') -> its w !! k = Some d ->
  its w' = <[k := wrap x]> (its w) /\
  (forall pid, pid <> its_ID -> state_of pid w' = state_of pid w) /\ now w' = now w /\ log w' = log w.
Proof. intros H Hd. by destruct (store_ok T acc k x w u w' its_ID d H Hd). Qed.

Lemma its_close k dest w u w' : close_account k dest w = Ok (u, w') -> its w' = delete k (its w).
Proof. intros H. eapply close_account_ok in H as [H _]; [exact H|apply its_not_system]. Qed.

Lemma realloc_quiet payer k n w u w' :
  realloc_account payer k n w = Ok (u, w') -> quiet w w' /\ log w' = log w.
Proof.
  unfold realloc_account, with_ledger. destruct (anchor_realloc _ _ _ _) as [L|] eqn:E; [|done].
  intros [= _ <-]. split; [split; [|done]|done]. intros pid _. apply map_eq. intros j. unfold state_of. cbn [ledger].
  rewrite !lookup_omap. apply (realloc_ok _ _ _ _ _) with (j := j) in E. unfold owned_data.
  destruct (L !! j) as [x|], (ledger w !! j) as [y|]; simplify_eq/=; [|done].
  match goal with H1 : owner _ = owner _, H2 : data _ = data _ |- _ => by rewrite H1, H2 end.
Qed.

Lemma invoke_account_ok a s m w b w' :
  invoke_account a s m w = Ok (b, w') ->
  b = {| key := key a; is_signer := s; is_writable := m |} /\ w' = w /\
  (s = true -> is_signer a = true) /\ (m = true -> is_writable a = true).
Proof. unfold invoke_account. intros H. inv_instr. by destruct s, m. Qed.

Lemma load_option_ok T (acc : AnchorAccount T) (a : option AccountInfo) w x w' :
  load_option T a w = Ok (x, w') -> w' = w /\
  match x with
  | Some y => exists i, a = Some i /\ state_of (program_of (T := T)) w !! key i = Some (wrap y)
  | None => a = None
  end.
Proof. unfold load_option. destruct a as [i|]; intros H; inv_instr; [|done]. split; [done|]. by exists i. Qed.

(** ** Creation *)

Lemma its_init_account T (acc : AnchorAccount T) payer k space seeds w b w' :
  program_of (T := T) = its_ID -> init_account T payer k space seeds w = Ok (b, w') ->
  find_program_address seeds its_ID = Some (k, b) /\ its w !! k = None /\
  its w' = <[k := wrap zeroed_of]> (its w) /\ now w' = now w /\ log w' = log w.
Proof.
  intros Hp H. apply init_account_ok in H as (Hf & Hn & Hs & _ & ? & ?); [|rewrite Hp; apply its_not_system].
  rewrite Hp in *. split_and!; try done. apply Hn, its_not_system.
Qed.

(** A roles account after [init_if_needed]: as it was, or new and empty. *)
Definition roles_or_new (m : gmap (array 32) AccountData) (k : Pubkey) (r : UserRoles.t) : Prop :=
  m !! k = Some (DUserRoles r) \/ (m !! k = None /\ r = UserRoles.zeroed).

Lemma init_user_roles_ok payer k resource user w x w' :
  init_user_roles payer k resource user w = Ok (x, w') ->
  find_program_address (UserRoles.pda_seeds resource user) its_ID = Some (k, x.2) /\
  roles_or_new (its w) k x.1 /\ its w' = <[k := DUserRoles x.1]> (its w) /\ now w' = now w /\ log w' = log w.
Proof.
  unfold init_user_roles, init_if_needed, roles_or_new. case_bool_decide; intros H1; inv_instr; cbn [fst snd].
  - match goal with H : init_account _ _ _ _ _ _ = _ |- _ => apply its_init_account in H as (? & ? & ? & ? & ?); [|done] end.
    split_and!; try done. by right.
  - cbn [wrap program_of UserRoles_account] in *.
    match goal with H : state_of its_ID ?v !! _ = _ |- _ => change (state_of its_ID v) with (its v) in H end.
    split_and!; try done; [by left|]. by rewrite insert_id.
Qed.

(** The roles that remain on an account. *)
Definition put_roles (m : gmap (array 32) AccountData) (k : Pubkey) (r : UserRoles.t) : gmap (array 32) AccountData :=
  if UserRoles.has_roles r then <[k := DUserRoles r]> m else delete k m.

Lemma store_some T (acc : AnchorAccount T) k (x : T) w u w' :
  store k x w = Ok (u, w') -> is_Some (ledger w !! k).
Proof. unfold store, with_ledger. by destruct (ledger w !! k). Qed.

Lemma move_role_ok role payer ko kd origin dest b w u w' r d :
  move_role role payer ko kd origin dest b w = Ok (u, w') ->
  its w !! ko = Some r -> its w !! kd = Some d ->
  its w' = <[kd := DUserRoles (UserRoles.set_bump (UserRoles.insert dest role) b)]>
             (put_roles (its w) ko (UserRoles.remove origin role)).
Proof.
  unfold move_role, put_roles. intros H Ho Hd. apply instr_bind_ok in H as ([] & w1 & H1 & H).
  destruct (UserRoles.has_roles _).
  - eapply its_store in H1 as (H1 & _); [|exact Ho]. cbn [wrap UserRoles_account] in H1. rewrite <- H1.
    destruct (decide (kd = ko)) as [->|Hne]; eapply its_store in H as (H & _); try done;
      rewrite H1; [apply lookup_insert_eq|by rewrite lookup_insert_ne by done].
  - pose proof (close_account_gone _ _ _ _ _ H1) as Hg. apply its_close in H1. rewrite <- H1.
    assert (kd <> ko) as Hne. { intros ->. apply store_some in H as [? H]. congruence. }
    eapply its_store in H as (H & _); [exact H|]. by rewrite H1, lookup_delete_ne.
Qed.

(** ** Token programs *)

Lemma token_cpi_its p ix w u w' :
  token_cpi p ix w = Ok (u, w') -> its w' = its w /\ now w' = now w /\ log w' = log w.
Proof. intros H. apply (token_cpi_state _ _ _ _ _ its_ID) in H; [done|apply its_in_repository]. Qed.

Lemma associated_token_if_needed_ok payer k mint authority p w u w' :
  associated_token_if_needed payer k mint authority p w = Ok (u, w') ->
  (forall pid, pid ∈ repository_programs -> state_of pid w' = state_of pid w) /\ now w' = now w /\ log w' = log w /\
  k = get_associated_token_address authority mint p /\ is_token_program p = true /\
  exists t, token_at (ledger w') p k = Some t /\ ta_mint t = mint /\ ta_owner t = authority.
Proof.
  unfold associated_token_if_needed. intros H. inv_instr. bool_props.
  match goal with H : (if _ then _ else _) _ = Ok (_, ?v) |- _ =>
    assert ((forall pid, pid ∈ repository_programs -> state_of pid v = state_of pid w) /\ now v = now w /\ log v = log w)
      as (Hs & Hn & Hl); [|clear H] end.
  { case_bool_decide; inv_instr; [|done].
    match goal with H : token_cpi _ _ _ = _ |- _ => rename H into Hc end.
    destruct (token_cpi_state _ _ _ _ _ its_ID Hc its_in_repository) as (_ & Hn & Hl).
    split_and!; try done. intros pid Hp. by eapply token_cpi_state in Hc as [Hc _]. }
  match goal with H : load_token_account _ _ = _ |- _ => apply load_token_account_ok in H as (-> & Htp & Hta) end.
  match goal with H : ?x.1 = p |- _ => rewrite H in * end.
  split_and!; try done. eexists. split; [exact Hta|done].
Qed.

Lemma init_mint_ok payer k decimals authority p seeds w b w' :
  is_token_program p = true -> init_mint payer k decimals authority p seeds w = Ok (b, w') ->
  find_program_address seeds its_ID = Some (k, b) /\ its w !! k = None /\
  its w' = its w /\ now w' = now w /\ log w' = log w.
Proof.
  intros Hp H. apply token_program_ids in Hp as [Hr Hs]. unfold init_mint in H. inv_instr.
  match goal with H : token_cpi _ _ _ = _ |- _ => apply token_cpi_its in H as (Hi & Hn & Hl) end.
  match goal with H : with_ledger _ _ = _ |- _ => unfold with_ledger in H;
    destruct (sys_create_account _ _ _ _ _) as [L|] eqn:HL in H; [|done]; injection H as _ <- end.
  apply create_ok in HL as (Hu & _ & l & pa & pl & Hpa & Hpo & _ & _ & ->).
  assert (forall a, its w !! a = None \/ exists x, ledger w !! a = Some x /\ owner x = its_ID) as Hown.
  { intros a. destruct (its w !! a) as [d|] eqn:E; [|by left]. right.
    apply state_of_lookup in E as [l' E]. by eexists. }
  assert (its w !! k = None) as Hk.
  { destruct (Hown k) as [|(y & Hx & Ho)]; [done|]. unfold unused in Hu. rewrite Hx in Hu.
    destruct Hu as [Hu _]. exfalso. apply its_not_system. congruence. }
  assert (its w !! payer = None) as Hpay.
  { destruct (Hown payer) as [|(y & Hx & Ho)]; [done|]. exfalso. apply its_not_system. congruence. }
  split_and!; try done.
  rewrite Hi. unfold its.
  set (w1 := mkWorld (<[payer := mkAccount pl (owner pa) (data pa)]> (ledger w)) (now w) (log w)).
  change (state_of its_ID (mkWorld (<[k := mkAccount l p DEmpty]> (ledger w1)) (now w1) (log w1)) = state_of its_ID w).
  rewrite state_of_insert. unfold w1. rewrite state_of_insert. unfold owned_data. cbn [owner data].
  rewrite Hpo, !decide_False; [|intros E; by apply its_not_system|intros E; apply Hr; rewrite E; apply its_in_repository].
  rewrite (delete_id _ payer) by done. by apply delete_id.
Qed.

(** The two metadata pieces and the mint's bytes are only read. *)
Lemma get_mint_decimals_ok k w n w' : get_mint_decimals k w = Ok (n, w') -> w' = w.
Proof.
  unfold get_mint_decimals. intros H. inv_instr.
  match goal with H : mint_data _ _ = _ |- _ => by apply mint_data_ok in H as [-> _] end.
Qed.

Lemma get_fee_and_decimals_ok k amount w x w' :
  get_fee_and_decimals k amount w = Ok (x, w') -> w' = w /\
  exists p b c, is_token_program p = true /\ owned_bytes (ledger w) p k = Some b /\ mint_fee_config b = Some c /\
    calculate_epoch_fee c (clock_epoch (now w)) amount = Some x.1.
Proof.
  unfold get_fee_and_decimals. intros H. inv_instr.
  match goal with H : mint_data _ _ = _ |- _ => apply mint_data_ok in H as (-> & p & Hp & Hb) end.
  split; [done|]. eauto 10.
Qed.

Lemma validate_token_manager_type_ok ty mint manager w u w' :
  validate_token_manager_type ty mint manager w = Ok (u, w') -> w' = w.
Proof.
  unfold validate_token_manager_type. intros H. inv_instr.
  match goal with H : mint_data _ _ = _ |- _ => apply mint_data_ok in H as [-> _] end.
  destruct (ms_mint_authority _); by inv_instr.
Qed.

Lemma get_token_metadata_ok mint acc w x w' : get_token_metadata mint acc w = Ok (x, w') -> w' = w.
Proof.
  unfold get_token_metadata. intros H. inv_instr.
  match goal with H : mint_data _ _ = _ |- _ => apply mint_data_ok in H as [-> _] end.
  destruct (embedded_metadata _ _); inv_instr; [done|].
  match goal with H : metaplex_name_symbol _ _ _ = _ |- _ => unfold metaplex_name_symbol in H end.
  by inv_instr.
Qed.

Lemma validate_mint_extension_account_ok ty mint w u w' :
  validate_mint_extension_account ty mint w = Ok (u, w') -> w' = w.
Proof.
  unfold validate_mint_extension_account. intros H. inv_instr.
  match goal with H : mint_data _ _ = _ |- _ => by apply mint_data_ok in H as [-> _] end.
Qed.

(** ** The call of the hub *)

Lemma pay_hub_gas_ok g ph gas w u w' :
  pay_hub_gas g ph gas w = Ok (u, w') ->
  quiet w w' /\
  log w' = (if 0 <? gas
            then [EvGas (GasPaidEvent (key (gm_payer g)) ITS_HUB_CHAIN_NAME (gm_its_hub_address g) ph gas
                    (key (gm_payer g)) None)]
            else []) ++ log w /\
  (0 < gas -> moved (ledger w) (ledger w') (key (gm_payer g)) (key (gm_gas_treasury g)) gas) /\
  (gas <= 0 -> w' = w).
Proof.
  unfold pay_hub_gas. destruct (Z.ltb_spec 0 gas) as [Hg|Hg]; intros H; inv_instr; [|split_and!; done || lia].
  repeat match goal with H : invoke_account _ _ _ _ = _ |- _ => apply invoke_account_ok in H as (-> & -> & _) end.
  unfold pay_gas in H. inv_instr. cbn [key pg_sender pg_treasury] in *.
  match goal with H : system_transfer _ _ _ _ = _ |- _ => apply system_transfer_ok in H as (_ & _ & Hm & Hn & Hl) end.
  match goal with H : pay_gas_accounts _ _ = _ |- _ => unfold pay_gas_accounts in H; inv_instr end.
  match goal with H : treasury_constraints _ _ = _ |- _ => apply treasury_constraints_ok in H as (_ & _ & _ & ->) end.
  split_and!; [|by cbn; rewrite Hl|done|lia]. split; [|done]. intros pid Hp.
  change (state_of pid (mkWorld (ledger ?v) _ _)) with (state_of pid v). by apply (moved_state pid) in Hm.
Qed.

Lemma call_contract_world a dc dca payload b w u w' :
  call_contract a dc dca payload b w = Ok (u, w') ->
  w' = mkWorld (ledger w) (now w)
         (EvGateway (CallContractEvent (key (cc_caller a)) (keccak_hash payload) dc dca payload) :: log w).
Proof.
  intros H. unfold call_contract, call_contract_accounts, call_contract_handler in H. inv_instr.
  match goal with H : gateway_root_seeds _ _ = _ |- _ => apply gateway_root_seeds_ok in H as (? & _ & _ & ->) end.
  match goal with H : optional_signer _ _ = _ |- _ => apply optional_signer_ok in H as [_ ->] end.
  destruct (is_signer (cc_caller a)); by inv_instr.
Qed.

(** The events of a message to the hub, newest first. *)
Definition hub_events (g : GMPAccounts) (payload : bytes) (gas : Z) : list Event :=
  EvGateway (CallContractEvent its_ID (keccak_hash payload) ITS_HUB_CHAIN_NAME (gm_its_hub_address g) payload) ::
  if 0 <? gas
  then [EvGas (GasPaidEvent (key (gm_payer g)) ITS_HUB_CHAIN_NAME (gm_its_hub_address g) (keccak_hash payload) gas
          (key (gm_payer g)) None)]
  else [].

Lemma send_to_hub_ok g p gas w u w' :
  send_to_hub g p gas w = Ok (u, w') ->
  exists b, borsh_serialize p = Some b /\ quiet w w' /\ log w' = hub_events g b gas ++ log w /\
    (0 < gas -> moved (ledger w) (ledger w') (key (gm_payer g)) (key (gm_gas_treasury g)) gas).
Proof.
  unfold send_to_hub. intros H. inv_instr.
  match goal with H : pay_hub_gas _ _ _ _ = _ |- _ => apply pay_hub_gas_ok in H as ([Hq Hn] & Hl & Hm & _) end.
  repeat match goal with H : invoke_signed_account _ _ _ _ _ _ = _ |- _ =>
    apply invoke_signed_account_ok in H as (-> & -> & _) end.
  apply call_contract_world in H as ->. eexists. split_and!; try done. unfold hub_events. cbn [log]. by rewrite Hl.
Qed.

Lemma hub_programs_ok h w u w' : hub_programs h w = Ok (u, w') -> w' = w.
Proof. unfold hub_programs. intros H. by inv_instr. Qed.

Lemma remote_chain_ok root dc w u w' :
  remote_chain root dc w = Ok (u, w') ->
  w' = w /\ InterchainTokenService.chain_name root <> dc /\ dc ∈ InterchainTokenService.trusted_chains root.
Proof.
  unfold remote_chain. intros H. inv_instr. bool_props.
  by match goal with H : InterchainTokenService.is_trusted_chain _ _ = true |- _ =>
    apply InterchainTokenService.is_trusted_chain_spec in H end.
Qed.
End its.
