(* ===== verification/ItsSpec.v ===== *)
(** * ITS: abstract specification

    What the instructions of ITS may do to the accounts of the program, and on whose authority: a
    relation [its_change] between the accounts before and after, one rule per kind of change. The
    second half proves what follows from the rules alone: the invariant of the accounts, what never
    changes, and who can change the rest. *)

From stdpp Require Import base gmap list.
From Stdlib Require Import ZArith Lia.
From S2P Require Import Prelude Errors External GatewayState ItsState Ledger LedgerLemmas ItsLemmas.

(** ** Flows *)

Definition flow_limit_of (t : TokenManager.t) : option Z := FlowState.flow_limit (TokenManager.flow_slot t).

(** A transfer of [amount] at the time [now]: the token manager with its new flow slot. *)
Definition flow_step (now : Z) (t : TokenManager.t) (amount : Z) (dir : FlowDirection) : Result TokenManager.t :=
  match flow_limit_of t with
  | None => mret t
  | Some _ =>
    epoch ← flow_epoch_with_timestamp now;
    slot ← FlowState.add_flow (FlowState.reset_for_epoch (TokenManager.flow_slot t) epoch) amount dir;
    mret (TokenManager.set_flow_slot t slot)
  end.

(** ** Authority *)

Abbreviation ItsMap := (gmap (array 32) AccountData).

(** What a transaction establishes: the time, who signed, who the loader records as the upgrade
    authority of the program, who holds the authority of a mint, and whether the change is ordered by a
    message of the hub. *)
Record ItsEnv := {
  env_now : Z;
  env_signed : Pubkey -> Prop;
  env_upgrade : Pubkey -> Prop;
  env_mint_authority : Pubkey -> Pubkey -> Prop;
  env_hub : Prop
}.

Section spec.
Context {keccak : Keccak} {pda : SolanaPda} {ids : ProgramIds} {network : ItsNetwork}.

Definition root_at (m : ItsMap) (k : Pubkey) (c : InterchainTokenService.t) : Prop :=
  m !! k = Some (DIts c) /\
  create_program_address (InterchainTokenService.pda_seeds ++ [[InterchainTokenService.bump c]]) its_ID = Some k.

(** The token manager of [id] at [k], under the root at [root]. *)
Definition manager_at (m : ItsMap) (k root : Pubkey) (id : array 32) (t : TokenManager.t) : Prop :=
  m !! k = Some (DTokenManager t) /\
  create_program_address (TokenManager.pda_seeds id root ++ [[TokenManager.bump t]]) its_ID = Some k.

Definition roles_at (m : ItsMap) (k resource user : Pubkey) (r : UserRoles.t) : Prop :=
  m !! k = Some (DUserRoles r) /\
  create_program_address (UserRoles.pda_seeds resource user ++ [[UserRoles.bump r]]) its_ID = Some k.

Definition has_role (m : ItsMap) (resource user : Pubkey) (role : Z) : Prop :=
  exists k r, roles_at m k resource user r /\ UserRoles.contains r role = true.

Definition roles_address (resource user k : Pubkey) (b : byte) : Prop :=
  find_program_address (UserRoles.pda_seeds resource user) its_ID = Some (k, b).

(** The roles that can be transferred: the operator of ITS, the operator and the minter of a token. *)
Definition transferable (m : ItsMap) (resource : Pubkey) (role : Z) : Prop :=
  (role = ROLE_OPERATOR /\ exists c, root_at m resource c) \/
  ((role = ROLE_OPERATOR \/ role = ROLE_MINTER) /\
   exists root c t, root_at m root c /\ manager_at m resource root (TokenManager.token_id t) t).

(** A deployment of the token manager [t] under [root], and the roles its operator or minter gets. *)
Inductive deployment (e : ItsEnv) (root : Pubkey) (t : TokenManager.t) : Z -> Prop :=
| Native b :
    TokenManager.ty t = NativeInterchainToken ->
    find_program_address (TokenManager.mint_seeds (TokenManager.token_id t) root) its_ID
      = Some (TokenManager.token_address t, b) ->
    (env_hub e \/ exists d salt, env_signed e d /\ TokenManager.token_id t = interchain_token_id d salt) ->
    deployment e root t (Z.lor (Z.lor ROLE_OPERATOR ROLE_FLOW_LIMITER) ROLE_MINTER)
| Canonical :
    TokenManager.ty t = LockUnlock \/ TokenManager.ty t = LockUnlockFee ->
    TokenManager.token_id t = canonical_interchain_token_id (TokenManager.token_address t) ->
    deployment e root t ROLE_EMPTY
| Linked :
    TokenManager.ty t <> NativeInterchainToken ->
    (env_hub e \/ exists d salt, env_signed e d /\
       TokenManager.token_id t = interchain_token_id_internal (linked_token_deployer_salt d salt)) ->
    deployment e root t (Z.lor ROLE_OPERATOR ROLE_FLOW_LIMITER).

(** The roles account of the new token manager at [km]: none, or of a user, at a free address. *)
Definition new_roles (m : ItsMap) (km : Pubkey) (roles : Z) (m' : ItsMap) : Prop :=
  m' = m \/ exists kr user b, roles <> ROLE_EMPTY /\ roles_address km user kr b /\ m !! kr = None /\
    m' = <[kr := DUserRoles (UserRoles.mk roles b)]> m.

(** ** The changes *)
Inductive its_change (e : ItsEnv) (m : ItsMap) : ItsMap -> Prop :=
| ChNone : its_change e m m
| ChInitialize s o k c b ko bo :
    env_signed e s -> env_upgrade e s -> env_signed e o ->
    find_program_address InterchainTokenService.pda_seeds its_ID = Some (k, b) -> m !! k = None ->
    c = InterchainTokenService.mk (InterchainTokenService.its_hub_address c) (InterchainTokenService.chain_name c)
          false [] b ->
    roles_address k o ko bo -> m !! ko = None -> ko <> k ->
    its_change e m (<[ko := DUserRoles (UserRoles.mk ROLE_OPERATOR bo)]> (<[k := DIts c]> m))
| ChPause s k c p :
    env_signed e s -> env_upgrade e s -> root_at m k c ->
    its_change e m (<[k := DIts (InterchainTokenService.set_paused c p)]> m)
| ChAddChain s k c chain :
    env_signed e s -> env_upgrade e s \/ has_role m k s ROLE_OPERATOR -> root_at m k c ->
    its_change e m (<[k := DIts (InterchainTokenService.add_trusted_chain c chain)]> m)
| ChRemoveChain s k c chain :
    env_signed e s -> env_upgrade e s \/ has_role m k s ROLE_OPERATOR -> root_at m k c ->
    chain ∈ InterchainTokenService.trusted_chains c ->
    its_change e m (<[k := DIts (InterchainTokenService.remove_trusted_chain c chain)]> m)
| ChFlowLimit s root c k t limit :
    env_signed e s -> root_at m root c -> manager_at m k root (TokenManager.token_id t) t ->
    has_role m root s ROLE_OPERATOR \/ has_role m k s ROLE_FLOW_LIMITER ->
    its_change e m (<[k := DTokenManager (TokenManager.set_flow_slot t
                            (FlowState.set_flow_limit (TokenManager.flow_slot t) limit))]> m)
| ChFlow root c k id t t' amount dir :
    root_at m root c -> InterchainTokenService.paused c = false -> manager_at m k root id t ->
    match dir with FlowIn => env_hub e | FlowOut => exists s, env_signed e s end ->
    flow_step (env_now e) t amount dir = Ok t' ->
    its_change e m (<[k := DTokenManager t']> m)
| ChDeploy root c k t roles m' :
    root_at m root c -> InterchainTokenService.paused c = false ->
    find_program_address (TokenManager.pda_seeds (TokenManager.token_id t) root) its_ID
      = Some (k, TokenManager.bump t) ->
    m !! k = None -> TokenManager.flow_slot t = FlowState.new None 0 -> deployment e root t roles ->
    new_roles (<[k := DTokenManager t]> m) k roles m' ->
    its_change e m m'
| ChMoveRole role resource s d ks rs kd rd b :
    env_signed e s -> s <> d -> transferable m resource role ->
    roles_at m ks resource s rs -> UserRoles.contains rs role = true ->
    roles_address resource d kd b -> roles_or_new m kd rd ->
    its_change e m (<[kd := DUserRoles (UserRoles.mk (Z.lor (UserRoles.roles rd) role) b)]>
                      (put_roles m ks (UserRoles.remove rs role)))
| ChAddFlowLimiter s root c k t user ku ru b :
    env_signed e s -> root_at m root c -> manager_at m k root (TokenManager.token_id t) t ->
    has_role m k s ROLE_OPERATOR -> roles_address k user ku b -> roles_or_new m ku ru ->
    its_change e m (<[ku := DUserRoles (UserRoles.mk (Z.lor (UserRoles.roles ru) ROLE_FLOW_LIMITER) b)]> m)
| ChRemoveFlowLimiter s root c k t user ku ru :
    env_signed e s -> root_at m root c -> manager_at m k root (TokenManager.token_id t) t ->
    has_role m k s ROLE_OPERATOR -> roles_at m ku k user ru ->
    its_change e m (put_roles m ku (UserRoles.remove ru ROLE_FLOW_LIMITER))
| ChHandover s root c k id t ks rs b :
    env_signed e s -> root_at m root c -> manager_at m k root id t ->
    TokenManager.ty t = MintBurn \/ TokenManager.ty t = MintBurnFrom ->
    env_mint_authority e (TokenManager.token_address t) s ->
    roles_address k s ks b -> roles_or_new m ks rs ->
    its_change e m (<[ks := DUserRoles (UserRoles.mk (Z.lor (UserRoles.roles rs) ROLE_MINTER) b)]> m).

End spec.
