(* ===== verification/ItsFlow.v ===== *)
(** * ITS: the flow limit

    The flow slot of a token manager (state/flow_state.rs) against a reference definition: which
    sequences of transfers a limit allows, from the amounts of the epoch alone. *)

From stdpp Require Import base gmap list.
From Stdlib Require Import ZArith Lia.
From S2P Require Import Prelude Errors External GatewayState ItsState Ledger LedgerLemmas ItsLemmas ItsSpec.

(** A transfer through a token manager. *)
Record Flow := { fl_time : Z; fl_dir : FlowDirection; fl_amount : Z }.

Definition fl_epoch (x : Flow) : Z := fl_time x / EPOCH_TIME.

(** The transfers one after the other. *)
Fixpoint run_flows (t : TokenManager.t) (l : list Flow) : Result TokenManager.t :=
  match l with
  | [] => mret t
  | x :: l => t ← flow_step (fl_time x) t (fl_amount x) (fl_dir x); run_flows t l
  end.

(** ** The reference *)

(** What went in one direction during an epoch. *)
Definition flow_sum (e : Z) (d : FlowDirection) (l : list Flow) : Z :=
  sum_map (fun x => if bool_decide (fl_epoch x = e /\ fl_dir x = d) then fl_amount x else 0) l.

(** The transfer [x] may follow [l]. *)
Definition allowed_next (limit : Z) (l : list Flow) (x : Flow) : Prop :=
  let e := fl_epoch x in
  uint 64 (fl_time x) /\ fl_amount x <= limit /\
  flow_sum e (fl_dir x) (l ++ [x]) < 2 ^ 64 /\
  Z.abs (flow_sum e FlowIn (l ++ [x]) - flow_sum e FlowOut (l ++ [x])) <= limit.

Definition allowed (limit : Z) (l : list Flow) : Prop :=
  forall l1 x l2, l = l1 ++ x :: l2 -> allowed_next limit l1 x.

(** Time does not go back. *)
Definition ordered (l : list Flow) : Prop :=
  forall l1 x l2 y, l = l1 ++ x :: l2 -> y ∈ l1 -> fl_time y <= fl_time x.

Lemma snoc_split {A} (l l1 l2 : list A) x y :
  l ++ [y] = l1 ++ x :: l2 -> (l2 = [] /\ l1 = l /\ x = y) \/ exists l2', l2 = l2' ++ [y] /\ l = l1 ++ x :: l2'.
Proof.
  destruct l2 as [|z l2 _] using rev_ind.
  - intros [-> [= ->]]%app_inj_tail. by left.
  - rewrite app_comm_cons, app_assoc. intros [-> ->]%app_inj_tail. right. by exists l2.
Qed.

Lemma allowed_snoc limit l x : allowed limit (l ++ [x]) <-> allowed limit l /\ allowed_next limit l x.
Proof.
  split.
  - intros H. split; [|by apply (H l x [])]. intros l1 y l2 ->. apply (H l1 y (l2 ++ [x])). by rewrite <- app_assoc.
  - intros [H Hx] l1 y l2 Heq. apply snoc_split in Heq as [(-> & -> & ->)|(l2' & -> & ->)]; [done|by eapply H].
Qed.

Lemma ordered_snoc l x : ordered (l ++ [x]) -> ordered l /\ forall y, y ∈ l -> fl_time y <= fl_time x.
Proof.
  intros H. split; [|intros y; by apply (H l x [])].
  intros l1 y l2 z ->. apply (H l1 y (l2 ++ [x])). by rewrite <- app_assoc.
Qed.

Lemma flow_sum_snoc e d l x :
  flow_sum e d (l ++ [x]) = flow_sum e d l + if bool_decide (fl_epoch x = e /\ fl_dir x = d) then fl_amount x else 0.
Proof. unfold flow_sum. rewrite sum_map_app. simpl. lia. Qed.

(** An epoch after all transfers starts at zero. *)
Lemma flow_sum_later e d l : (forall y, y ∈ l -> fl_epoch y < e) -> flow_sum e d l = 0.
Proof.
  intros H. induction l as [|y l IH]; [done|]. unfold flow_sum in *. simpl. rewrite IH by (intros z Hz; apply H; by right).
  rewrite bool_decide_eq_false_2; [done|]. intros [<- _]. specialize (H y (list_elem_of_here _ _)). lia.
Qed.

(** ** The slot *)

Lemma run_flows_snoc t l x :
  run_flows t (l ++ [x]) = (t ← run_flows t l; flow_step (fl_time x) t (fl_amount x) (fl_dir x)).
Proof.
  revert t. induction l as [|y l IH]; intros t; simpl.
  - by destruct (flow_step _ _ _ _).
  - destruct (flow_step _ t _ _); [apply IH|done].
Qed.

Lemma update_flow_ok limit a b n v :
  FlowState.update_flow limit a b n = Ok v <->
  v = a + n /\ n <= limit /\ a + n < 2 ^ 64 /\ Z.abs (a + n - b) <= limit.
Proof.
  unfold FlowState.update_flow. split.
  - intros H. inv_result. bool_props. match goal with H : checked_add _ _ _ = Some _ |- _ =>
      apply checked_add_some in H as [-> ?] end. lia.
  - intros (-> & H1 & H2 & H3). assert (limit <? n = false) as -> by lia.
    assert (checked_add 64 a n = Some (a + n)) as Hc by (by apply checked_add_some). cbn. rewrite Hc. cbn.
    by assert (limit <? Z.abs (a + n - b) = false) as -> by lia.
Qed.

Lemma flow_epoch_ok t e : flow_epoch_with_timestamp t = Ok e <-> uint 64 t /\ e = t / EPOCH_TIME.
Proof.
  unfold flow_epoch_with_timestamp. split.
  - intros H. inv_result. match goal with H : try_into_uint _ _ = Some _ |- _ => apply try_into_uint_some in H as [-> ?] end.
    match goal with H : (if _ then _ else _) = Some _ |- _ => by injection H as <- end.
  - intros [Hu ->]. assert (try_into_uint 64 t = Some t) as Hi by (by apply try_into_uint_some). by rewrite Hi.
Qed.

(** The slot holds the sums of the last epoch. *)
Definition slot_of (limit : Z) (l : list Flow) (s : FlowState.t) : Prop :=
  exists e, s = FlowState.mk (Some limit) (flow_sum e FlowIn l) (flow_sum e FlowOut l) e /\
    0 <= e /\ (forall y, y ∈ l -> fl_epoch y <= e) /\ (l <> [] -> exists y, last l = Some y /\ e = fl_epoch y).

(** [add_flow] on the slot of the current epoch decides exactly whether the transfer is allowed. *)
Lemma add_flow_ok limit l x s' :
  uint 64 (fl_time x) ->
  FlowState.add_flow (FlowState.mk (Some limit) (flow_sum (fl_epoch x) FlowIn l) (flow_sum (fl_epoch x) FlowOut l)
    (fl_epoch x)) (fl_amount x) (fl_dir x) = Ok s' <->
  allowed_next limit l x /\ s' = FlowState.mk (Some limit) (flow_sum (fl_epoch x) FlowIn (l ++ [x]))
    (flow_sum (fl_epoch x) FlowOut (l ++ [x])) (fl_epoch x).
Proof.
  intros Hu. unfold FlowState.add_flow, allowed_next. cbv zeta. rewrite !flow_sum_snoc. cbn [FlowState.flow_limit].
  destruct (fl_dir x) eqn:Hd; cbn [FlowState.flow_in FlowState.flow_out FlowState.epoch];
    repeat first [rewrite bool_decide_eq_true_2 by done | rewrite bool_decide_eq_false_2 by naive_solver];
    rewrite result_bind_ok; setoid_rewrite update_flow_ok; rewrite ?Z.add_0_r; split.
  - intros (v & (-> & ?) & [= <-]). split_and!; done || lia.
  - intros ((_ & ? & ? & ?) & ->). eexists. split; [done|done].
  - intros (v & (-> & ?) & [= <-]). split_and!; done || lia.
  - intros ((_ & ? & ? & ?) & ->). eexists. split; [split_and!; done || lia|done].
Qed.

(** Resetting the slot for the epoch of the next transfer. *)
Lemma reset_slot limit l s x :
  slot_of limit l s -> uint 64 (fl_time x) -> (forall y, y ∈ l -> fl_time y <= fl_time x) ->
  FlowState.reset_for_epoch s (fl_epoch x) =
    FlowState.mk (Some limit) (flow_sum (fl_epoch x) FlowIn l) (flow_sum (fl_epoch x) FlowOut l) (fl_epoch x).
Proof.
  intros (e & -> & He & Hle & Hlast) Hu Ho. unfold FlowState.reset_for_epoch. cbn [FlowState.epoch FlowState.flow_limit].
  destruct (Z.eqb_spec e (fl_epoch x)) as [->|Hne]; [done|].
  rewrite !flow_sum_later; [done|..]; intros y Hy; pose proof (Hle y Hy).
  all: destruct Hlast as (z & Hz & ->); [by intros ->; apply elem_of_nil in Hy|].
  all: assert (fl_epoch z <= fl_epoch x); [|lia]; apply Z.div_le_mono; [done|]; apply Ho, last_Some_elem_of, Hz.
Qed.

Lemma slot_of_snoc limit l x :
  uint 64 (fl_time x) -> (forall y, y ∈ l -> fl_time y <= fl_time x) ->
  slot_of limit (l ++ [x]) (FlowState.mk (Some limit) (flow_sum (fl_epoch x) FlowIn (l ++ [x]))
    (flow_sum (fl_epoch x) FlowOut (l ++ [x])) (fl_epoch x)).
Proof.
  intros [Hu _] Ho. exists (fl_epoch x). split_and!; [done|by apply Z.div_pos| |].
  - intros y [Hy|Hy]%elem_of_app; [|by apply list_elem_of_singleton in Hy as ->]. apply Z.div_le_mono; [done|]. by apply Ho.
  - intros _. exists x. by rewrite last_snoc.
Qed.

(** One transfer, after the transfers [l]. *)
Lemma flow_step_ok limit l t x :
  slot_of limit l (TokenManager.flow_slot t) -> (forall y, y ∈ l -> fl_time y <= fl_time x) ->
  (allowed_next limit l x -> exists t', flow_step (fl_time x) t (fl_amount x) (fl_dir x) = Ok t' /\
     slot_of limit (l ++ [x]) (TokenManager.flow_slot t')) /\
  (forall t', flow_step (fl_time x) t (fl_amount x) (fl_dir x) = Ok t' -> allowed_next limit l x).
Proof.
  intros Hs Ho. assert (flow_limit_of t = Some limit) as Hl.
  { destruct Hs as (e & E & _). unfold flow_limit_of. by rewrite E. }
  unfold flow_step. rewrite Hl. split.
  - intros Ha. destruct Ha as [Hu Ha]. rewrite (proj2 (flow_epoch_ok _ (fl_epoch x))) by done. cbn.
    rewrite (reset_slot limit l) by done. rewrite (proj2 (add_flow_ok limit l x _ Hu) (conj (conj Hu Ha) eq_refl)). cbn.
    eexists. split; [done|]. by apply slot_of_snoc.
  - intros t' H. inv_result. match goal with H : flow_epoch_with_timestamp _ = Ok _ |- _ => apply flow_epoch_ok in H as [Hu ->] end.
    change (fl_time x / EPOCH_TIME) with (fl_epoch x) in *. rewrite (reset_slot limit l) in * by done.
    match goal with H : FlowState.add_flow _ _ _ = Ok _ |- _ => by apply add_flow_ok in H as [? _] end.
Qed.

(** C10: The flow limit, exactly. A token manager that starts with the limit [limit] and no flows
    accepts a sequence of transfers, in the order of time, if and only if each of them is of at most
    the limit and leaves the net flow of its epoch of six hours, and the sum in its direction, within
    the limit and within 64 bits, counting the transfers of that epoch alone. What it then records is
    exactly these sums for the last epoch, and its limit is unchanged. *)
Theorem flow_limit_exact limit t l
    (Ht : TokenManager.flow_slot t = FlowState.mk (Some limit) 0 0 0) (Ho : ordered l) :
  ((exists t', run_flows t l = Ok t') <-> allowed limit l) /\
  forall t' x, run_flows t l = Ok t' -> last l = Some x ->
    TokenManager.flow_slot t' = FlowState.mk (Some limit) (flow_sum (fl_epoch x) FlowIn l)
      (flow_sum (fl_epoch x) FlowOut l) (fl_epoch x).
Proof.
  assert (match run_flows t l with Ok t' => allowed limit l /\ slot_of limit l (TokenManager.flow_slot t')
                                 | Err _ => ~ allowed limit l end) as H.
  { induction l as [|x l IH] using rev_ind.
    - cbn. split; [by intros [] ? ? ?|]. exists 0. split_and!; [done|done|by intros y ?%elem_of_nil|done].
    - apply ordered_snoc in Ho as [Ho Hx]. specialize (IH Ho). rewrite run_flows_snoc.
      destruct (run_flows t l) as [t1|e]; [|by intros [? _]%allowed_snoc]. destruct IH as [Ha Hs]. cbn.
      destruct (flow_step_ok limit l t1 x Hs Hx) as [H1 H2].
      destruct (flow_step _ t1 _ _) as [t2|e] eqn:E.
      + specialize (H2 _ eq_refl). destruct (H1 H2) as (t3 & [= <-] & Hs'). by rewrite allowed_snoc.
      + intros [_ Hn]%allowed_snoc. by destruct (H1 Hn) as (t3 & ? & _). }
  destruct (run_flows t l) as [t1|e]; split.
  - split; [intros _; apply H|by exists t1].
  - intros t' x [= <-] Hl. destruct H as (_ & e & -> & _ & _ & Hlast). destruct Hlast as (y & Hy & ->).
    + by intros ->.
    + congruence.
  - split; [by intros [? ?]|done].
  - done.
Qed.
