(* ===== verification/ItsTransfers.v ===== *)
(** * ITS: transfers of tokens

    The two directions of an interchain transfer, exactly: which tokens move, what the flow of the token
    manager becomes, and what is sent to the hub or was received from it. *)

From stdpp Require Import base gmap list.
From Stdlib Require Import ZArith Lia.
From S2P Require Import Prelude Errors External StdInts StdTypes GatewayState Payload ItsState Ledger LedgerLemmas SplToken Gateway GatewayLemmas Executable GasService Its ItsOutbound ItsDeploy ItsExecute ItsLemmas ItsSpec.

(** The destination program is called with the data that starts with [ITS_EXECUTE_IX_DISC]. It cannot
    change an account of ITS: only the owner of an account writes it, the runtime refuses to enter a
    program that is on the call stack below the caller, and a direct call of ITS with this
    discriminator, which none of its instructions has, is refused. *)
Class ItsRuntimeLaws `{!ProgramIds, !Runtime} : Prop := {
  invoke_keeps_its seeds ix infos w u w' :
    invoke_program its_ID seeds ix infos w = Ok (u, w') -> take 8 (ix_data ix) = ITS_EXECUTE_IX_DISC ->
    state_of its_ID w' = state_of its_ID w
}.

Section transfers.
Context {keccak : Keccak} {merkle : RsMerkle} {secp : Secp256k1} {bits : BitVec} {bnum : Bnum}
  {pda : SolanaPda} {ids : ProgramIds} {system : SolanaSystem} {spl : SplToken} {network : ItsNetwork}.
Context {leaf_digest : Digestable VerifierSetLeaf} {message_digest : Digestable Message}
  {message_leaf_digest : Digestable MessageLeaf}.
Context {vecs : BorshVec} {abi : SolAbi}.
Context {hub_codec : Borsh encoding.HubMessage} {token_payload_codec : Borsh AxelarExecuteWithInterchainTokenPayload}.
Context {ids_laws : ProgramIdsLaws} {pda_laws : SolanaPdaLaws} {system_laws : SolanaSystemLaws}
  {spl_laws : SplTokenLaws}.

(** ** Balances of the token programs *)

Definition balance (L : Ledger) (p k : Pubkey) : Z := from_option ta_amount 0 (token_at L p k).
Definition supply (L : Ledger) (p mint : Pubkey) : Z := from_option ms_supply 0 (mint_at L p mint).

Definition without_fee (L : Ledger) (p mint : Pubkey) : Prop :=
  owned_bytes L p mint ≫= mint_has_transfer_fee = Some false.

Lemma owned_bytes_state p k w : owned_bytes (ledger w) p k = state_of p w !! k ≫= account_bytes.
Proof.
  unfold owned_bytes, state_of. rewrite lookup_omap. unfold owned_data.
  destruct (ledger w !! k) as [a|]; [|done]. simpl. case_bool_decide; by case_decide.
Qed.

Lemma token_program_not_its p : is_token_program p = true -> p <> its_ID /\ p <> system_program_ID.
Proof.
  intros [Hr Hs]%token_program_ids. split; [|done]. intros ->. by apply Hr, its_in_repository.
Qed.

(** The accounts of the token programs are as they were. *)
Definition same_tokens (L L' : Ledger) : Prop :=
  forall p k, is_token_program p = true -> owned_bytes L' p k = owned_bytes L p k.

Lemma state_same_tokens w w' :
  (forall p, p <> its_ID -> p <> system_program_ID -> state_of p w' = state_of p w) -> same_tokens (ledger w) (ledger w').
Proof. intros H p k Hp. destruct (token_program_not_its _ Hp). rewrite !owned_bytes_state. by rewrite H. Qed.

Lemma same_tokens_balance p L L' k : is_token_program p = true -> same_tokens L L' -> balance L' p k = balance L p k.
Proof. intros Hp H. unfold balance, token_at. by rewrite H. Qed.

Lemma same_tokens_mint p L L' k : is_token_program p = true -> same_tokens L L' -> mint_at L' p k = mint_at L p k.
Proof. intros Hp H. unfold mint_at. by rewrite H. Qed.

(** The accounts of the token programs, except those of [p] in [ks], are as they were. *)
Definition keeps_except (p : Pubkey) (ks : list Pubkey) (L L' : Ledger) : Prop :=
  forall q k, is_token_program q = true -> (q = p -> k ∉ ks) -> owned_bytes L' q k = owned_bytes L q k.

(** The mints and token accounts that an instruction writes. *)
Definition written (ix : TokenInstruction) : list Pubkey :=
  match ix with
  | MintTo m t _ _ => [m; t]
  | Burn m f _ _ => [m; f]
  | TransferChecked f _ t _ _ _ | TransferCheckedWithFee f _ t _ _ _ _ => [f; t]
  | SetMintAuthority m _ _ => [m]
  | _ => []
  end.

Definition writes (ix : TokenInstruction) : bool := negb (bool_decide (written ix = [])).

Lemma written_ok p ix L L' :
  writes ix = true -> token_invoke p ix L = Ok L' ->
  only_changes (written ix) L L' /\ forall k, k ∈ written ix -> is_Some (owned_bytes L p k).
Proof.
  assert (forall q k ms, mint_at L q k = Some ms -> is_Some (owned_bytes L q k)) as Hmint.
  { intros q k ms (b & Hb & _)%bind_Some. by eexists. }
  assert (forall q k ts, token_at L q k = Some ts -> is_Some (owned_bytes L q k)) as Htok.
  { intros q k ts (b & Hb & _)%bind_Some. by eexists. }
  destruct ix; try done; intros _ H; cbn [written].
  - apply mint_to_ok in H as (ms & ts & Hm & Ht & _ & _ & _ & _ & _ & _ & Ho). set_solver.
  - apply burn_ok in H as (ms & fs & Hm & Hf & _ & _ & _ & _ & Ho). set_solver.
  - apply transfer_checked_ok in H as (ms & fs & ts & f & _ & Hf & Ht & _ & _ & _ & _ & _ & _ & _ & Ho). set_solver.
  - apply transfer_checked_with_fee_ok in H as (ms & fs & ts & _ & Hf & Ht & _ & _ & _ & _ & _ & _ & Ho). set_solver.
  - apply set_mint_authority_ok in H as (ms & Hm & _ & _ & Ho). set_solver.
Qed.

Lemma owned_unique L p q k : is_Some (owned_bytes L p k) -> is_Some (owned_bytes L q k) -> p = q.
Proof.
  unfold owned_bytes. destruct (L !! k) as [a|]; cbn; [|by intros []].
  intros [? H1] [? H2]. do 2 case_bool_decide; congruence.
Qed.

Lemma written_keeps p ix L L' :
  is_token_program p = true -> token_invoke p ix L = Ok L' -> writes ix = true -> keeps_except p (written ix) L L'.
Proof.
  intros Hp HL Hw q j Hq Hj. destruct (written_ok _ _ _ _ Hw HL) as [Ho Hs].
  destruct (decide (j ∈ written ix)) as [Hin|Hn]; [|unfold owned_bytes; by rewrite Ho].
  assert (q <> p) as Hne by (intros ->; by apply Hj).
  pose proof (token_accounts_kept _ _ _ _ _ _ HL Hp (Hs j Hin)) as Hs'.
  destruct (owned_bytes L q j) eqn:E1.
  { exfalso. apply Hne. eapply owned_unique; [by eexists|by apply Hs]. }
  destruct (owned_bytes L' q j) eqn:E2; [|done].
  exfalso. apply Hne. by eapply owned_unique; [eexists|].
Qed.

(** [out] tokens leave [f] and [n] arrive at [t]; between an account and itself nothing moves. *)
Definition moved (p f t : Pubkey) (out n : Z) (L L' : Ledger) : Prop :=
  (f <> t -> balance L' p f = balance L p f - out /\ balance L' p t = balance L p t + n) /\
  (f = t -> balance L' p t = balance L p t).

(** A mint whose supply alone changes, by [d]. *)
Definition supply_moved (p mint : Pubkey) (d : Z) (L L' : Ledger) : Prop :=
  exists ms, mint_at L p mint = Some ms /\ mint_at L' p mint = Some (with_supply ms (ms_supply ms + d)).

(** The tokens of an outgoing transfer: burned from the source, or locked in the account of the token
    manager; [n] is what the hub is told. *)
Definition tokens_taken (ty : TokenManagerType) (p mint source ata : Pubkey) (amount n : Z) (L L' : Ledger) : Prop :=
  0 <= n /\ amount <= balance L p source /\
  match ty with
  | NativeInterchainToken | MintBurn | MintBurnFrom =>
      n = amount /\ supply_moved p mint (- n) L L' /\ balance L' p source = balance L p source - n /\
      keeps_except p [mint; source] L L'
  | LockUnlock =>
      n = amount /\ mint ∉ [source; ata] /\
      (exists fee, 0 <= fee <= n /\ (without_fee L p mint -> fee = 0) /\ moved p source ata n (n - fee) L L') /\
      keeps_except p [source; ata] L L'
  | LockUnlockFee =>
      n <= amount /\ mint ∉ [source; ata] /\ moved p source ata amount n L L' /\ keeps_except p [source; ata] L L'
  end.

Lemma keeps_same p ks L1 L2 L3 : keeps_except p ks L1 L2 -> same_tokens L2 L3 -> keeps_except p ks L1 L3.
Proof. intros Ho Hs q k Hq Hk. rewrite Hs by done. by apply Ho. Qed.

Lemma mint_token_ne L p m k ms ts : mint_at L p m = Some ms -> token_at L p k = Some ts -> m <> k.
Proof.
  intros (b & Hb & Hm)%bind_Some (b' & Hb' & Ht)%bind_Some ->. rewrite mint_not_token in Ht; [done|].
  assert (b' = b) as -> by congruence. by eexists.
Qed.

Lemma tokens_taken_same ty p mint source ata amount n L1 L2 L3 : is_token_program p = true ->
  tokens_taken ty p mint source ata amount n L1 L2 -> same_tokens L2 L3 ->
  tokens_taken ty p mint source ata amount n L1 L3.
Proof.
  intros Hp (Hn & Ha & Ht) Hs. split; [done|]. split; [done|].
  destruct ty; unfold supply_moved, moved in *; setoid_rewrite (fun k => same_tokens_balance _ _ _ k Hp Hs);
    try setoid_rewrite (fun k => same_tokens_mint _ _ _ k Hp Hs); naive_solver eauto using keeps_same.
Qed.

Lemma burn_taken ty p mint source ata amount L L' :
  is_token_program p = true -> mintable ty = true -> token_invoke p (Burn mint source ata amount) L = Ok L' ->
  forall k, tokens_taken ty p mint source k amount amount L L'.
Proof.
  intros Hp Hty H k. pose proof (written_keeps _ _ _ _ Hp H eq_refl) as Hoc.
  apply burn_ok in H as (ms & fs & Hm & Hf & _ & Hle & Hm' & Hf' & _).
  assert (supply_moved p mint (- amount) L L') by (exists ms; split; [done|by rewrite Z.add_opp_r]).
  unfold tokens_taken, balance. rewrite Hf, Hf'. destruct ty; split_and!; done || (cbn; lia).
Qed.

Lemma moved_ok p f t fs ts n w L L' :
  token_at L p f = Some fs -> token_at L p t = Some ts ->
  (f <> t -> token_at L' p f = Some (with_amount fs (ta_amount fs - n)) /\
             token_at L' p t = Some (with_amount ts (ta_amount ts + n - w))) ->
  (f = t -> L' = L) -> moved p f t n (n - w) L L'.
Proof.
  intros Hf Ht Hmv Hs. split.
  - intros Hne. destruct (Hmv Hne) as [Hf' Ht']. unfold balance. rewrite Hf, Ht, Hf', Ht'. cbn. lia.
  - intros Heq. by rewrite Hs.
Qed.

Lemma transfer_taken p mint source ata authority amount d L L' : is_token_program p = true ->
  token_invoke p (TransferChecked source mint ata authority amount d) L = Ok L' ->
  tokens_taken LockUnlock p mint source ata amount amount L L'.
Proof.
  intros Hp H. pose proof (written_keeps _ _ _ _ Hp H eq_refl) as Hoc.
  apply transfer_checked_ok in H as (ms & fs & ts & f & Hm & Hf & Ht & _ & _ & Hle & Hw & Hnf & Hmv & Hs & _).
  pose proof (mint_token_ne _ _ _ _ _ _ Hm Hf). pose proof (mint_token_ne _ _ _ _ _ _ Hm Ht). split_and!.
  - lia.
  - unfold balance. by rewrite Hf.
  - done.
  - set_solver.
  - exists f. split_and!; [lia|lia|exact Hnf|by eapply moved_ok].
  - exact Hoc.
Qed.

Lemma transfer_fee_taken p mint source ata authority amount d f L L' : is_token_program p = true ->
  token_invoke p (TransferCheckedWithFee source mint ata authority amount d f) L = Ok L' ->
  tokens_taken LockUnlockFee p mint source ata amount (amount - f) L L'.
Proof.
  intros Hp H. pose proof (written_keeps _ _ _ _ Hp H eq_refl) as Hoc.
  apply transfer_checked_with_fee_ok in H as (ms & fs & ts & Hm & Hf & Ht & _ & _ & Hle & Hw & Hmv & Hs & _).
  pose proof (mint_token_ne _ _ _ _ _ _ Hm Hf). pose proof (mint_token_ne _ _ _ _ _ _ Hm Ht). split_and!.
  - lia.
  - unfold balance. by rewrite Hf.
  - lia.
  - set_solver.
  - by eapply moved_ok.
  - exact Hoc.
Qed.

(** ** Flows *)

Lemma current_flow_epoch_ok w x w' :
  current_flow_epoch w = Ok (x, w') -> flow_epoch_with_timestamp (now w) = Ok x /\ w' = w.
Proof. unfold current_flow_epoch. intros H. by inv_instr. Qed.

Lemma track_token_flow_ok t n dir w t' w' :
  track_token_flow t n dir w = Ok (t', w') <-> flow_step (now w) t n dir = Ok t' /\ w' = w.
Proof.
  unfold track_token_flow, flow_step, flow_limit_of, current_flow_epoch. destruct (FlowState.flow_limit _).
  - split.
    + intros H. inv_instr. match goal with H : flow_epoch_with_timestamp _ = _ |- _ => rewrite H end. cbn.
      match goal with H : FlowState.add_flow _ _ _ = _ |- _ => by rewrite H end.
    + intros [H ->]. inv_result. unfold mbind, instr_bind, get_clock, lift.
      match goal with H : flow_epoch_with_timestamp _ = _ |- _ => rewrite H end. cbn.
      match goal with H : FlowState.add_flow _ _ _ = _ |- _ => by rewrite H end.
  - unfold mret, instr_ret, result_ret. naive_solver.
Qed.

(** The two copies of the function agree. *)
Lemma outbound_track_same t n dir w : outbound_track_token_flow t n dir w = track_token_flow t n dir w.
Proof. done. Qed.

(** ** Outgoing transfers *)

(** Who sends: a program that signed with an address derived from its seeds, or a user. *)
Definition sends_as (w : World) (authority : Pubkey) (program : option Pubkey) (seeds : option (list bytes))
    (source : Pubkey) : Prop :=
  match program, seeds with
  | Some p, Some s => source = p /\ exists b, find_program_address s p = Some (authority, b)
  | None, None => source = authority /\
      from_option owner system_program_ID (ledger w !! authority) = system_program_ID
  | _, _ => False
  end.

Lemma transfer_source_ok a p s w x w' :
  transfer_source a p s w = Ok (x, w') -> sends_as w (key a) p s x /\ w' = w.
Proof.
  unfold transfer_source, sends_as. destruct p, s; intros H; try done; inv_instr; bool_props; [|done].
  unfold find_program_address_or_panic in *. inv_result.
  split; [|done]. split; [done|]. match goal with q : Pubkey * byte |- _ => destruct q as [? b]; exists b end.
  by simplify_eq/=.
Qed.

(** The message of a transfer. *)
Definition transfer_message (id : array 32) (source : Pubkey) (destination_address : bytes) (n : Z)
    (data : option bytes) : encoding.Message :=
  encoding.MInterchainTransfer
    {| encoding.it_token_id := id; encoding.it_source_address := arr_bytes source;
       encoding.it_destination_address := destination_address; encoding.it_amount := n; encoding.it_data := data |}.

(** The tokens and the token manager after [take_token]. *)
Lemma take_token_ok a t amount w x w' : is_token_program (ix_token_program a) = true ->
  take_token a t amount w = Ok (x, w') ->
  tokens_taken (TokenManager.ty t) (ix_token_program a) (key (ix_token_mint a)) (key (ix_authority_token_account a))
    (key (ix_token_manager_ata a)) amount x.1 (ledger w) (ledger w') /\
  flow_step (now w) t x.1 FlowOut = Ok x.2 /\
  (forall pid, pid ∈ repository_programs -> state_of pid w' = state_of pid w) /\ now w' = now w /\ log w' = log w.
Proof.
  unfold take_token, burn_from_source, outbound_transfer_to, outbound_transfer_with_fee_to. intros Hp H. inv_instr.
  match goal with H : validate_token_manager_type _ _ _ _ = _ |- _ => apply validate_token_manager_type_ok in H as -> end.
  match goal with H : outbound_track_token_flow _ _ _ _ = _ |- _ =>
    rewrite outbound_track_same in H; apply track_token_flow_ok in H as [Hflow ->] end.
  cbn [fst snd].
  match goal with H : match TokenManager.ty t with _ => _ end _ = Ok (?n, ?v) |- _ =>
    assert (tokens_taken (TokenManager.ty t) (ix_token_program a) (key (ix_token_mint a))
      (key (ix_authority_token_account a)) (key (ix_token_manager_ata a)) amount n (ledger w) (ledger v) /\
      exists p ix, token_cpi p ix w = Ok (tt, v)) as [Htok (p & ix & Hcpi)] end.
  { destruct (TokenManager.ty t) eqn:Hty; inv_instr;
      repeat match goal with H : invoke_account _ _ _ _ = _ |- _ => apply invoke_account_ok in H as (-> & -> & _) end.
    all: repeat match goal with
      | H : get_mint_decimals _ _ = _ |- _ => apply get_mint_decimals_ok in H as ->
      | H : get_fee_and_decimals _ _ _ = _ |- _ => apply get_fee_and_decimals_ok in H as (-> & _)
      | H : ok_or _ _ = _ |- _ => apply ok_or_ok in H
      | H : checked_sub _ _ = Some _ |- _ => apply checked_sub_some in H as (-> & _)
      end.
    all: match goal with H : token_cpi _ _ _ = Ok (?y, _) |- _ => destruct y; split; [|by do 2 eexists];
      apply token_cpi_ok in H as (L & H & ->); cbn [ledger key] in * end.
    all: first [by eapply burn_taken | by eapply transfer_taken | by eapply transfer_fee_taken]. }
  destruct (token_cpi_state _ _ _ _ _ its_ID Hcpi its_in_repository) as (_ & Hn & Hl).
  split_and!; try done; [by rewrite <- Hn|]. intros pid Hpid. by eapply token_cpi_state in Hcpi as [Hs _].
Qed.

(** The owner of a token account. *)
Definition held_by (w : World) (p k o : Pubkey) : Prop :=
  exists s, token_at (ledger w) p k = Some s /\ ta_owner s = o.

Lemma held_bytes w p k o : held_by w p k o -> is_Some (owned_bytes (ledger w) p k).
Proof. intros (s & (b & Hb & _)%bind_Some & _). by eexists. Qed.

(** What a successful outgoing transfer did: the token manager of [id], under an active root that
    trusts the destination, recorded the flow; the authority's tokens were taken; and the hub was told
    the amount. *)
Definition outbound_outcome (a : InterchainTransfer) (id : array 32) (dc da : bytes) (amount gas : Z)
    (program : option Pubkey) (seeds : option (list bytes)) (data : option bytes) (w w' : World) : Prop :=
  let km := key (ix_token_manager_pda a) in
  exists c t t' src s n b,
    root_at (its w) (key (ix_its_root_pda a)) c /\ InterchainTokenService.paused c = false /\
    dc ∈ InterchainTokenService.trusted_chains c /\
    manager_at (its w) km (key (ix_its_root_pda a)) id t /\ TokenManager.token_address t = key (ix_token_mint a) /\
    amount <> 0 /\ da <> [] /\ is_signer (ix_authority a) = true /\
    sends_as w (key (ix_authority a)) program seeds src /\
    token_at (ledger w) (ix_token_program a) (key (ix_authority_token_account a)) = Some s /\
    ta_owner s = key (ix_authority a) /\ ta_mint s = key (ix_token_mint a) /\
    tokens_taken (TokenManager.ty t) (ix_token_program a) (key (ix_token_mint a))
      (key (ix_authority_token_account a)) (key (ix_token_manager_ata a)) amount n (ledger w) (ledger w') /\
    flow_step (now w) t n FlowOut = Ok t' /\ its w' = <[km := DTokenManager t']> (its w) /\
    borsh_serialize (encoding.SendToHub dc (transfer_message id src da n data)) = Some b /\
    log w' = hub_events (interchain_transfer_gmp a c) b gas ++
      EvIts (InterchainTransferSent id src (key (ix_authority_token_account a)) dc da n (outbound_data_hash data))
      :: log w /\
    held_by w (ix_token_program a) (key (ix_token_manager_ata a)) km.

#[local] Ltac its_norm :=
  unfold token_manager_seeds, its_root_active, its_root_seeds, not_paused, mint_token_program, token_interface,
    associated_token in *;
  inv_instr;
  cbn [wrap program_of zeroed_of Its_account TokenManager_account] in *;
  repeat match goal with
  | H : context [state_of its_ID ?w] |- _ => change (state_of its_ID w) with (its w) in H
  end;
  bool_props.

Lemma interchain_transfer_accounts_ok a id dc w x w' :
  interchain_transfer_accounts a id dc w = Ok (x, w') ->
  w' = w /\ root_at (its w) (key (ix_its_root_pda a)) x.1 /\ InterchainTokenService.paused x.1 = false /\
  dc ∈ InterchainTokenService.trusted_chains x.1 /\
  manager_at (its w) (key (ix_token_manager_pda a)) (key (ix_its_root_pda a)) id x.2 /\
  TokenManager.token_address x.2 = key (ix_token_mint a) /\ is_signer (ix_authority a) = true /\
  is_token_program (ix_token_program a) = true /\
  held_by w (ix_token_program a) (key (ix_token_manager_ata a)) (key (ix_token_manager_pda a)) /\
  exists s, token_at (ledger w) (ix_token_program a) (key (ix_authority_token_account a)) = Some s /\
    ta_owner s = key (ix_authority a) /\ ta_mint s = key (ix_token_mint a).
Proof.
  unfold interchain_transfer_accounts. intros H. its_norm.
  repeat match goal with
  | H : load_mint _ _ = _ |- _ => apply load_mint_ok in H as (-> & _ & _)
  | H : load_token_account _ _ = _ |- _ => apply load_token_account_ok in H as (-> & ? & ?)
  end. cbn [fst snd].
  match goal with H : InterchainTokenService.is_trusted_chain _ _ = true |- _ =>
    apply InterchainTokenService.is_trusted_chain_spec in H end.
  split_and!; try (done || by split).
  - match goal with H : token_at _ ?y.1 (key (ix_token_manager_ata a)) = Some ?y.2, E : ?y.1 = _ |- _ =>
      exists y.2; rewrite E in H end.
    done.
  - match goal with H : token_at _ ?y.1 (key (ix_authority_token_account a)) = Some ?y.2, E : ?y.1 = _ |- _ =>
      exists y.2; rewrite E in H end.
    done.
Qed.

Lemma interchain_transfer_ok a id dc da amount gas program seeds data w u w' :
  interchain_transfer a id dc da amount gas program seeds data w = Ok (u, w') ->
  outbound_outcome a id dc da amount gas program seeds data w w'.
Proof.
  unfold interchain_transfer, process_outbound_transfer, send_to_hub_wrap. intros H. inv_instr. bool_props.
  match goal with H : interchain_transfer_accounts _ _ _ _ = _ |- _ =>
    apply interchain_transfer_accounts_ok in H as (-> & Hr & Hp & Hdc & Hm & Hma & Hs & Htp & Hheld & s & Hts & Hso & Hsm) end.
  match goal with H : transfer_source _ _ _ _ = _ |- _ => apply transfer_source_ok in H as [Hsrc ->] end.
  match goal with H : take_token _ _ _ _ = _ |- _ => apply take_token_ok in H as (Htok & Hf & Hst & Hn & Hl); [|done] end.
  pose proof (Hst _ its_in_repository : its _ = its _) as Hi.
  match goal with H : send_to_hub _ _ _ _ = _ |- _ => apply send_to_hub_ok in H as (b & Hb & Hq & Hlog & _) end.
  pose proof (quiet_its _ _ Hq) as Hqi. rewrite its_emit, Hi in Hqi.
  eapply its_store in H as (Hits & Hoth & _ & Hlst); [|rewrite Hqi; exact (proj1 Hm)].
  do 7 eexists. split_and!; [exact Hr|exact Hp|exact Hdc|exact Hm|exact Hma|done|done|exact Hs|exact Hsrc|exact Hts
    |exact Hso|exact Hsm| |exact Hf|by rewrite Hits, Hqi|exact Hb|by rewrite Hlst, Hlog; cbn [log]; rewrite Hl|exact Hheld].
  eapply tokens_taken_same; [done|exact Htok|]. apply state_same_tokens. intros p Hpi Hps. rewrite Hoth by done.
  by apply (proj1 Hq).
Qed.

(** ** Incoming transfers *)

(** The tokens of an incoming transfer: minted to the destination, or given from the account of the
    token manager; [n] is what the destination gets. *)
Definition tokens_given (ty : TokenManagerType) (p mint ata dest : Pubkey) (amount n : Z) (L L' : Ledger) : Prop :=
  0 <= n /\
  match ty with
  | NativeInterchainToken | MintBurn | MintBurnFrom =>
      n = amount /\ supply_moved p mint n L L' /\ supply L' p mint < 2 ^ 64 /\
      balance L' p dest = balance L p dest + n /\ keeps_except p [mint; dest] L L'
  | LockUnlock =>
      n = amount /\ n <= balance L p ata /\ mint ∉ [ata; dest] /\
      (exists fee, 0 <= fee <= n /\ (without_fee L p mint -> fee = 0) /\ moved p ata dest n (n - fee) L L') /\
      keeps_except p [ata; dest] L L'
  | LockUnlockFee =>
      n <= amount /\ amount <= balance L p ata /\ mint ∉ [ata; dest] /\ moved p ata dest amount n L L' /\
      keeps_except p [ata; dest] L L'
  end.

Lemma mint_given ty p mint dest authority amount L L' :
  is_token_program p = true -> mintable ty = true -> token_invoke p (MintTo mint dest authority amount) L = Ok L' ->
  forall k, tokens_given ty p mint k dest amount amount L L'.
Proof.
  intros Hp Hty H k. pose proof (written_keeps _ _ _ _ Hp H eq_refl) as Hoc.
  apply mint_to_ok in H as (ms & ts & Hm & Ht & _ & _ & H0 & Hlt & Hm' & Ht' & _). assert (supply_moved p mint amount L L') by by exists ms.
  unfold tokens_given, supply, balance. rewrite Ht, Hm', Ht'. destruct ty; done.
Qed.

Lemma transfer_given p mint ata dest authority amount d L L' : is_token_program p = true ->
  token_invoke p (TransferChecked ata mint dest authority amount d) L = Ok L' ->
  tokens_given LockUnlock p mint ata dest amount amount L L'.
Proof. by intros Hp (H0 & Ha & Hn & Ht)%transfer_taken. Qed.

Lemma transfer_fee_given p mint ata dest authority amount d f L L' : is_token_program p = true ->
  token_invoke p (TransferCheckedWithFee ata mint dest authority amount d f) L = Ok L' ->
  tokens_given LockUnlockFee p mint ata dest amount (amount - f) L L'.
Proof. by intros Hp (H0 & Ha & Hn & Ht)%transfer_fee_taken. Qed.

(** An account that the system program still owns has no tokens. *)
Lemma system_no_bytes L q k :
  is_token_program q = true -> from_option owner system_program_ID (L !! k) = system_program_ID ->
  owned_bytes L q k = None.
Proof.
  intros Hq Hs. destruct (token_program_not_its q Hq) as [_ Hqs]. unfold owned_bytes.
  destruct (L !! k) as [y|]; [|done]. cbn in *. case_bool_decide; [congruence|done].
Qed.

(** The account of the destination may have been created just before. *)
Lemma associated_token_balances payer k mint authority p w u w' :
  associated_token_if_needed payer k mint authority p w = Ok (u, w') ->
  (forall q j, is_token_program q = true -> (q = p -> j = k -> is_Some (owned_bytes (ledger w) p j)) ->
     owned_bytes (ledger w') q j = owned_bytes (ledger w) q j) /\
  balance (ledger w') p k = balance (ledger w) p k.
Proof.
  intros H. pose proof H as Ha. apply associated_token_if_needed_ok in Ha as (_ & _ & _ & _ & Hp & _).
  unfold associated_token_if_needed in H. inv_instr. bool_props.
  match goal with H : load_token_account _ _ = _ |- _ => apply load_token_account_ok in H as (-> & _) end.
  match goal with H : (if ?b then _ else _) _ = _ |- _ => destruct b eqn:Hb in H; inv_instr; [|done];
    rename H into Hc end.
  bool_props. match goal with H : token_cpi _ _ _ = _ |- _ => apply token_cpi_ok in H as (L & H & ->);
    apply create_associated_ok in H as (Hk & Ho) end. cbn [ledger] in *.
  match type of Hk with token_at _ ?q ?j = _ => assert (owned_bytes (ledger w) q j = None) as Hnone;
    [unfold owned_bytes; destruct (ledger w !! j) as [y|]; [|done]; cbn [from_option] in *; cbn;
     case_bool_decide; [|done]; destruct (token_program_not_its q Hp); congruence|] end.
  split.
  - intros q j Hq Hj. match type of Hk with token_at _ ?p0 ?k0 = _ =>
      destruct (decide (j = k0)) as [->|Hne]; [|by apply Ho]; destruct (decide (q = p0)) as [->|Hqp] end.
    { destruct (Hj eq_refl eq_refl). congruence. }
    apply bind_Some in Hk as (b & Hk & _). transitivity (@None bytes); [|symmetry].
    + destruct (owned_bytes L q _) eqn:E; [|done]. exfalso. apply Hqp. by eapply owned_unique; eexists.
    + by eapply system_no_bytes.
  - unfold balance, token_at in *. by rewrite Hk, Hnone.
Qed.

(** The account of the destination is a token account, or does not exist yet. *)
Lemma destination_not_mint payer k mint authority p w u w' :
  associated_token_if_needed payer k mint authority p w = Ok (u, w') -> mint_at (ledger w) p k = None.
Proof.
  intros H. pose proof (associated_token_balances _ _ _ _ _ _ _ _ H) as [Hj _].
  apply associated_token_if_needed_ok in H as (_ & _ & _ & _ & Hp & t & Ht & _).
  destruct (mint_at (ledger w) p k) as [ms|] eqn:Hm; [|done]. exfalso.
  eapply (mint_token_ne (ledger w') p k k ms); [|exact Ht|done]. unfold mint_at in *. rewrite Hj; [exact Hm|done|]. intros _ _. apply bind_Some in Hm as (b & Hb & _). by eexists.
Qed.

(** What was given is the same relative to the accounts before the destination's was created. *)
Lemma tokens_given_before ty p mint ata dest amount n L0 L1 L2 :
  is_token_program p = true ->
  (forall q j, is_token_program q = true -> (q = p -> j = dest -> is_Some (owned_bytes L0 p j)) ->
     owned_bytes L1 q j = owned_bytes L0 q j) ->
  balance L1 p dest = balance L0 p dest -> is_Some (owned_bytes L0 p mint) -> is_Some (owned_bytes L0 p ata) ->
  tokens_given ty p mint ata dest amount n L1 L2 -> tokens_given ty p mint ata dest amount n L0 L2.
Proof.
  intros Hp Hj Hd Hm Ha Ht.
  assert (mint_at L1 p mint = mint_at L0 p mint) as Es by (unfold mint_at; rewrite Hj; auto).
  assert (balance L1 p ata = balance L0 p ata) as Eb by (unfold balance, token_at; rewrite Hj; auto).
  assert (without_fee L0 p mint -> without_fee L1 p mint) as Hf by (unfold without_fee; rewrite Hj; auto).
  assert (forall ks, dest ∈ ks -> keeps_except p ks L1 L2 -> keeps_except p ks L0 L2) as Hk.
  { intros ks Hks Ho q k Hq Hk. rewrite Ho by done. apply Hj; [done|]. intros -> ->. by destruct (Hk eq_refl). }
  assert (forall x, dest ∈ [x; dest]) as Hin by set_solver.
  unfold tokens_given, supply_moved, moved in *. destruct Ht as [H0 Ht]. split; [done|].
  rewrite Eb, Hd in Ht; try rewrite Es in Ht. destruct ty; naive_solver.
Qed.

Lemma mint_as_manager_ok tp mint to mgr root id b n w u w' :
  mint_as_manager tp mint to mgr root id b n w = Ok (u, w') ->
  token_cpi tp (MintTo (key mint) (key to) (key mgr) n) w = Ok (u, w').
Proof.
  unfold mint_as_manager. intros H. inv_instr.
  by repeat match goal with H : invoke_signed_account _ _ _ _ _ _ = _ |- _ =>
    apply invoke_signed_account_ok in H as (-> & -> & _) end.
Qed.

Lemma give_token_ok a t amount w x w' : is_token_program (et_token_program a) = true ->
  handle_give_token_transfer a t amount w = Ok (x, w') ->
  tokens_given (TokenManager.ty t) (et_token_program a) (key (et_token_mint a)) (key (et_token_manager_ata a))
    (key (et_destination_ata a)) amount x.1 (ledger w) (ledger w') /\
  flow_step (now w) t amount FlowIn = Ok x.2 /\
  (forall pid, pid ∈ repository_programs -> state_of pid w' = state_of pid w) /\ now w' = now w /\ log w' = log w.
Proof.
  unfold handle_give_token_transfer, mint_to_receiver, transfer_to, transfer_with_fee_to. intros Hp H. inv_instr.
  match goal with H : track_token_flow _ _ _ _ = Ok (?t', _) |- _ =>
    apply track_token_flow_ok in H as [Hflow ->]; assert (TokenManager.ty t' = TokenManager.ty t) as Hty end.
  { unfold flow_step in Hflow. destruct (flow_limit_of t); inv_result; done. }
  cbn [fst snd]. rewrite Hty in *.
  match goal with H : match TokenManager.ty t with _ => _ end _ = Ok (?n, ?v) |- _ =>
    assert (tokens_given (TokenManager.ty t) (et_token_program a) (key (et_token_mint a)) (key (et_token_manager_ata a))
      (key (et_destination_ata a)) amount n (ledger w) (ledger v) /\
      exists p ix, token_cpi p ix w = Ok (tt, v)) as [Htok (p & ix & Hcpi)] end.
  { destruct (TokenManager.ty t) eqn:Hty'; inv_instr;
      repeat match goal with H : invoke_signed_account _ _ _ _ _ _ = _ |- _ =>
        apply invoke_signed_account_ok in H as (-> & -> & _) end.
    all: repeat match goal with
      | H : mint_as_manager _ _ _ _ _ _ _ _ _ = _ |- _ => apply mint_as_manager_ok in H
      | H : get_mint_decimals _ _ = _ |- _ => apply get_mint_decimals_ok in H as ->
      | H : get_fee_and_decimals _ _ _ = _ |- _ => apply get_fee_and_decimals_ok in H as (-> & _)
      | H : ok_or _ _ = _ |- _ => apply ok_or_ok in H
      | H : checked_sub _ _ = Some _ |- _ => apply checked_sub_some in H as (-> & _)
      end.
    all: match goal with H : token_cpi _ _ _ = Ok (?y, _) |- _ => destruct y; split; [|by do 2 eexists];
      apply token_cpi_ok in H as (L & H & ->); cbn [ledger key] in * end.
    all: first [by eapply mint_given | by eapply transfer_given | by eapply transfer_fee_given]. }
  destruct (token_cpi_state _ _ _ _ _ its_ID Hcpi its_in_repository) as (_ & Hn & Hl).
  split_and!; try done. intros pid Hpid. by eapply token_cpi_state in Hcpi as [Hs _].
Qed.

(** Who owns what a destination receives: a wallet itself, or the address a program derives. *)
Definition receives_as (w : World) (destination authority : Pubkey) : Prop :=
  if is_bpf_loader_owned (from_option owner system_program_ID (ledger w !! destination))
  then exists b, find_program_address [ITS_TOKEN_AUTHORITY_SEED] destination = Some (authority, b)
  else authority = destination.

Lemma check_destination_authority_ok d x w u w' :
  check_destination_authority d x w = Ok (u, w') -> receives_as w d x /\ w' = w.
Proof.
  unfold check_destination_authority, expected_authority, receives_as. intros H. inv_instr. bool_props. subst.
  match goal with H : (if ?b then _ else _) = _ |- _ => destruct b; inv_instr end; [|done].
  unfold find_program_address_or_panic in *. inv_result. split; [|done].
  match goal with q : Pubkey * byte |- _ => destruct q as [? b]; by exists b end.
Qed.

Context {realloc : AnchorRealloc} {runtime : Runtime} {realloc_laws : AnchorReallocLaws} {runtime_laws : ItsRuntimeLaws}.

(** The first accounts of the call of the destination program. *)
Definition destination_accounts (a : ExecuteInterchainTransfer) (execute : AccountInfo) : AxelarExecuteWithInterchainToken :=
  {| ae_token_program := et_token_program a; ae_token_mint := et_token_mint a;
     ae_destination_token_authority := et_destination_token_authority a;
     ae_destination_program_ata := et_destination_ata a; ae_interchain_transfer_execute := execute |}.

(** The call of the destination program, with the message, the amount and the accounts that the data
    names. *)
Definition destination_called (a : ExecuteInterchainTransfer) (m : Message) (sc sa : bytes) (id : array 32) (n : Z)
    (data : bytes) (w w' : World) : Prop :=
  exists payload body execute bump, decode data = Ok payload /\ et_interchain_transfer_execute a = Some execute /\
    account_meta payload = map info_meta (et_remaining_accounts a) /\
    borsh_serialize {| ap_command_id := command_id m; ap_source_chain := sc; ap_source_address := sa;
      ap_token_id := id; ap_token_mint := key (et_token_mint a); ap_amount := n;
      ap_data := payload_without_accounts payload |} = Some body /\
    let accounts := destination_accounts a execute in
    invoke_program its_ID (InterchainTransferExecute.pda_seeds (key (et_destination a)) ++ [[bump]])
      {| ix_program_id := key (et_destination a);
         ix_accounts := with_token_account_metas accounts ++ account_meta payload;
         ix_data := ITS_EXECUTE_IX_DISC ++ body |}
      (with_token_account_infos accounts ++ et_remaining_accounts a) w = Ok (tt, w').

Lemma invoke_destination_ok a bump m sc sa id n data w u w' :
  invoke_destination_program a bump m sc sa id n data w = Ok (u, w') ->
  destination_called a m sc sa id n data w w' /\ its w' = its w.
Proof.
  unfold invoke_destination_program. intros H. inv_instr. bool_props.
  match goal with H : invoke_program _ _ ?ix _ _ = Ok (?y, _) |- _ => destruct y; split;
    [do 4 eexists; split_and!; [eassumption..|exact H]|];
    apply invoke_keeps_its in H; [done|done] end.
Qed.

(** Only accounts of ITS change. *)
Definition only_its (w w' : World) : Prop := forall pid, pid <> its_ID -> state_of pid w' = state_of pid w.

Lemma only_its_tokens w w' : only_its w w' -> same_tokens (ledger w) (ledger w').
Proof. intros H. apply state_same_tokens. auto. Qed.

(** What a successful incoming transfer did; [v0] is the world once the destination's token account
    exists, [v] the world before the destination program runs. *)
Definition inbound_outcome (a : ExecuteInterchainTransfer) (m : Message) (sc sa : bytes) (destination : Pubkey)
    (id : array 32) (amount : Z) (data : bytes) (w w' : World) : Prop :=
  let km := key (et_token_manager_pda a) in
  exists c t t' n v0 v,
    is_signer (et_its_root_pda a) = true /\ root_at (its w) (key (et_its_root_pda a)) c /\
    InterchainTokenService.paused c = false /\
    manager_at (its w) km (key (et_its_root_pda a)) id t /\ TokenManager.token_address t = key (et_token_mint a) /\
    amount <> 0 /\ key (et_destination a) = destination /\
    associated_token_if_needed (key (et_payer a)) (key (et_destination_ata a)) (key (et_token_mint a))
      (key (et_destination_token_authority a)) (et_token_program a) w = Ok (tt, v0) /\
    receives_as v0 destination (key (et_destination_token_authority a)) /\
    key (et_destination_ata a) = get_associated_token_address (key (et_destination_token_authority a))
      (key (et_token_mint a)) (et_token_program a) /\
    tokens_given (TokenManager.ty t) (et_token_program a) (key (et_token_mint a)) (key (et_token_manager_ata a))
      (key (et_destination_ata a)) amount n (ledger w) (ledger v) /\
    flow_step (now w) t amount FlowIn = Ok t' /\ its w' = <[km := DTokenManager t']> (its w) /\
    held_by w (et_token_program a) (key (et_token_manager_ata a)) km /\
    log v = EvIts (InterchainTransferReceived (command_id m) id sc sa destination (key (et_destination_ata a)) n
      (if bool_decide (data = []) then None else Some (keccak_hash data))) :: log w /\
    (forall pid, pid ∈ repository_programs -> state_of pid v = state_of pid w) /\
    if bool_decide (data = [])
    then only_its v w' /\ log w' = log v
    else exists v', destination_called a m sc sa id n data v v' /\ only_its v' w' /\ log w' = log v'.

Lemma execute_interchain_transfer_accounts_ok a destination id w x w' :
  execute_interchain_transfer_accounts a destination id w = Ok (x, w') ->
  exists c, is_signer (et_its_root_pda a) = true /\ root_at (its w) (key (et_its_root_pda a)) c /\
    InterchainTokenService.paused c = false /\
    manager_at (its w) (key (et_token_manager_pda a)) (key (et_its_root_pda a)) id x.1 /\
    TokenManager.token_address x.1 = key (et_token_mint a) /\ key (et_destination a) = destination /\
    is_token_program (et_token_program a) = true /\
    is_Some (owned_bytes (ledger w) (et_token_program a) (key (et_token_mint a))) /\
    held_by w (et_token_program a) (key (et_token_manager_ata a)) (key (et_token_manager_pda a)) /\
    associated_token_if_needed (key (et_payer a)) (key (et_destination_ata a)) (key (et_token_mint a))
      (key (et_destination_token_authority a)) (et_token_program a) w = Ok (tt, w').
Proof.
  unfold execute_interchain_transfer_accounts. intros H. its_norm.
  repeat match goal with
  | H : load_mint _ _ = _ |- _ => apply load_mint_ok in H as (-> & _ & ?)
  | H : load_token_account _ _ = _ |- _ => apply load_token_account_ok in H as (-> & _ & ?)
  end. cbn [fst snd].
  match goal with H : match et_interchain_transfer_execute a with _ => _ end ?v1 = Ok (_, ?v2) |- _ =>
    assert (v2 = v1) as -> by (clear -H; destruct (et_interchain_transfer_execute a); by its_norm); clear H end.
  match goal with H : associated_token_if_needed _ _ _ _ _ _ = Ok (?y, _) |- _ => destruct y end.
  eexists.
  match goal with H : ?y.1 = et_token_program a, H2 : ?z.1 = et_token_program a |- _ => rewrite H, H2 in * end.
  match goal with H : token_at _ _ (key (et_token_manager_ata a)) = Some ?s |- _ =>
    assert (held_by w (et_token_program a) (key (et_token_manager_ata a)) (key (et_token_manager_pda a))) by by exists s end.
  match goal with H : mint_at _ _ _ = Some _ |- _ => unfold mint_at in H; apply bind_Some in H as (? & ? & _) end.
  split_and!; try eassumption; try (by eexists); by split.
Qed.

Lemma execute_interchain_transfer_ok a m sc sa destination id amount data w u w' :
  execute_interchain_transfer a m sc sa destination id amount data w = Ok (u, w') ->
  inbound_outcome a m sc sa destination id amount data w w'.
Proof.
  unfold execute_interchain_transfer. intros H.
  apply instr_bind_ok in H as ([t bump] & v0 & Hacc & H). apply require_bind_ok in H as [Hamt H].
  apply instr_bind_ok in H as (? & v1 & Hda & H). apply instr_bind_ok in H as (? & v2 & Hty & H).
  apply instr_bind_ok in H as ([n t'] & v3 & Hg & H). apply instr_bind_ok in H as (? & v & He & H).
  apply instr_bind_ok in H as ([] & v4 & Hcall & H). cbn [fst snd] in *.
  apply execute_interchain_transfer_accounts_ok in Hacc as
    (c & Hs & Hr & Hp & Hm & Hma & Hd & Htp & Hmint & Hata & Hacc). cbn [fst snd] in *.
  pose proof (associated_token_balances _ _ _ _ _ _ _ _ Hacc) as [Hbj Hbd].
  pose proof Hacc as Hacc'. apply associated_token_if_needed_ok in Hacc' as (Hst & Hn & Hl & Hk & _ & _).
  apply check_destination_authority_ok in Hda as [Hrec ->]. apply validate_token_manager_type_ok in Hty as ->.
  apply give_token_ok in Hg as (Htok & Hf & Hst2 & Hn2 & Hl2); [|done]. cbn [fst snd] in *. apply emit_ok in He as ->.
  pose proof (Hst2 _ its_in_repository : its _ = its _) as Hi.
  assert (its v0 = its w) as Hsi by (apply Hst, its_in_repository). bool_props.
  subst destination.
  set (v := mkWorld (ledger v3) _ _) in *.
  assert (its v4 = its w /\ if bool_decide (data = []) then v4 = v
    else destination_called a m sc sa id n data v v4) as [Hi4 Hc].
  { case_bool_decide.
    - apply instr_ret_ok in Hcall as [_ ->]. unfold v. rewrite its_emit. split; [congruence|done].
    - apply invoke_destination_ok in Hcall as [Hc Hic]. unfold v in Hic. rewrite its_emit in Hic. split; [congruence|done]. }
  eapply its_store in H as (Hits & Hoth & _ & Hlst); [|rewrite Hi4; exact (proj1 Hm)].
  exists c, t, t', n, v0, v. split_and!; [exact Hs|exact Hr|exact Hp|exact Hm|exact Hma|done|done|exact Hacc|exact Hrec
    |exact Hk|by eapply tokens_given_before; try eassumption; apply held_bytes in Hata|by rewrite <- Hn|by rewrite Hits, Hi4|exact Hata|by cbn; rewrite Hl2, Hl| |].
  { intros pid Hpid. transitivity (state_of pid v0); [by apply Hst2|by apply Hst]. }
  case_bool_decide.
  - subst v4. by rewrite Hlst.
  - exists v4. by rewrite Hlst.
Qed.

(** ** Messages of the hub *)

(** The message that [execute] acts on: from the hub, through the gateway, for a trusted source. *)
Definition hub_message_received (a : Execute) (m : Message) (payload : bytes) (c : InterchainTokenService.t)
    (sc : bytes) (inner : encoding.Message) (w w' : World) : Prop :=
  root_at (its w) (key (xe_its_root_pda a)) c /\ InterchainTokenService.paused c = false /\
  source_address m = InterchainTokenService.its_hub_address c /\
  hub_message_try_from_slice payload = Some (encoding.ReceiveFromHub sc inner) /\
  sc ∈ InterchainTokenService.trusted_chains c /\ keccak_hash payload = payload_hash m /\
  (exists inc, gw w !! key (ex_incoming_message_pda (xe_executable a)) = Some (DIncomingMessage inc) /\
     MessageStatus.is_approved (IncomingMessage.status inc) = true /\
     IncomingMessage.message_hash inc = message_hash m /\
     gw w' = <[key (ex_incoming_message_pda (xe_executable a)) := DIncomingMessage (executed_of inc)]> (gw w)) /\
  ledger_frame gateway_ID w w' /\ now w' = now w.

(** The accounts that the call of [execute_interchain_transfer] is given. *)
Definition transfer_accounts (a : Execute) (x : ExecuteInterchainTransfer) : Prop :=
  key (et_its_root_pda x) = key (xe_its_root_pda a) /\ key (et_token_manager_pda x) = key (xe_token_manager_pda a) /\
  key (et_token_mint x) = key (xe_token_mint a) /\ key (et_token_manager_ata x) = key (xe_token_manager_ata a) /\
  et_token_program x = xe_token_program a.

(** The instruction that the message orders. *)
Definition message_runs (a : Execute) (m : Message) (sc : bytes) (inner : encoding.Message) (w w' : World) : Prop :=
  match inner with
  | encoding.MInterchainTransfer tr => exists destination x,
      arr_try_from 32 (encoding.it_destination_address tr) = Some destination /\ transfer_accounts a x /\
      execute_interchain_transfer x m sc (encoding.it_source_address tr) destination (encoding.it_token_id tr)
        (encoding.it_amount tr) (default [] (encoding.it_data tr)) w = Ok (tt, w')
  | encoding.MDeployInterchainToken d => exists x,
      key (ed_its_root_pda x) = key (xe_its_root_pda a) /\
      key (ed_token_manager_pda x) = key (xe_token_manager_pda a) /\
      execute_deploy_interchain_token x (encoding.di_token_id d) (encoding.di_name d) (encoding.di_symbol d)
        (encoding.di_decimals d) (default [] (encoding.di_minter d)) w = Ok (tt, w')
  | encoding.MLinkToken l => exists x token,
      arr_try_from 32 (encoding.lt_destination_token_address l) = Some token /\
      key (la_its_root_pda x) = key (xe_its_root_pda a) /\
      key (la_token_manager_pda x) = key (xe_token_manager_pda a) /\
      execute_link_token x (encoding.lt_token_id l) token (encoding.lt_token_manager_type l)
        (default [] (encoding.lt_params l)) w = Ok (tt, w')
  end.

Lemma self_account_ok root a s m w b w' :
  self_account root a s m w = Ok (b, w') -> key b = key a /\ w' = w.
Proof. by intros (-> & -> & _)%invoke_signed_account_ok. Qed.

Lemma self_option_ok root o m w b w' : self_option root o m w = Ok (b, w') -> w' = w.
Proof.
  unfold self_option. destruct o as [i|]; intros H; inv_instr; [|done].
  match goal with H : self_account _ _ _ _ _ = _ |- _ => by apply self_account_ok in H as [_ ->] end.
Qed.

#[local] Ltac self_accounts := repeat match goal with
  | H : self_account _ _ _ _ _ = _ |- _ => apply self_account_ok in H as [? ->]
  | H : self_option _ _ _ _ = _ |- _ => apply self_option_ok in H as ->
  end.

Lemma its_execute_accounts_ok a m w c w' :
  execute_accounts a m w = Ok (c, w') ->
  w' = w /\ root_at (its w) (key (xe_its_root_pda a)) c /\ InterchainTokenService.paused c = false.
Proof.
  unfold execute_accounts. intros H. inv_instr.
  match goal with H : executable_accounts _ _ _ _ = _ |- _ => apply executable_accounts_world in H as -> end.
  its_norm. split_and!; try done.
Qed.

Lemma its_execute_ok a m payload w u w' :
  its_execute a m payload w = Ok (u, w') ->
  exists c sc inner v, hub_message_received a m payload c sc inner w v /\ message_runs a m sc inner v w'.
Proof.
  unfold its_execute. intros H. apply instr_bind_ok in H as (c & w1 & Ha & H).
  apply its_execute_accounts_ok in Ha as (-> & Hr & Hp). apply require_bind_ok in H as [Hsrc H].
  apply instr_bind_ok in H as (hm & w1 & Hm & H). apply lift_ok in Hm as [Hm ->]. apply ok_or_ok in Hm.
  apply instr_bind_ok in H as ([sc inner] & w1 & Hrec & H). apply lift_ok in Hrec as [Hrec ->].
  destruct hm as [| |]; [done|injection Hrec as -> ->|done].
  apply instr_bind_ok in H as (? & v & Hv & H). apply require_bind_ok in H as [Htr H]. cbn [fst snd] in *.
  apply validate_message_raw_ok in Hv as (Hh & (inc & Hi & Hap & Hmh & Hg) & _ & Hfr & Hn).
  bool_props. apply InterchainTokenService.is_trusted_chain_spec in Htr.
  exists c, sc, inner, v. split; [split_and!; try done; by exists inc|]. destruct u.
  destruct inner as [tr|d|l]; cbn [message_runs].
  - unfold cpi_execute_interchain_transfer in H. inv_instr. self_accounts.
    do 2 eexists. split; [eassumption|]. split; [|exact H]. by split_and!.
  - unfold cpi_execute_deploy_interchain_token in H. inv_instr. self_accounts.
    eexists. split_and!; [| |exact H]; done.
  - unfold cpi_execute_link_token in H. inv_instr. self_accounts.
    do 2 eexists. split_and!; [eassumption| | |exact H]; done.
Qed.
End transfers.
