(* ===== verification/ItsRefines.v ===== *)
(** * ITS refines its abstract specification

    Every successful instruction of ITS makes a change that [its_change] allows, for the authority that
    its accounts establish. *)

From stdpp Require Import base gmap list.
From Stdlib Require Import ZArith Lia.
From S2P Require Import Prelude Errors External StdInts StdTypes GatewayState Payload ItsState Ledger LedgerLemmas SplToken Gateway GatewayLemmas Executable GasService Its ItsOutbound ItsDeploy ItsExecute ItsLemmas ItsSpec ItsTransfers.

Section refines.
Context {keccak : Keccak} {merkle : RsMerkle} {secp : Secp256k1} {bits : BitVec} {bnum : Bnum}
  {pda : SolanaPda} {ids : ProgramIds} {system : SolanaSystem} {realloc : AnchorRealloc} {spl : SplToken}
  {network : ItsNetwork} {runtime : Runtime}.
Context {leaf_digest : Digestable VerifierSetLeaf} {message_digest : Digestable Message}
  {message_leaf_digest : Digestable MessageLeaf}.
Context {vecs : BorshVec} {abi : SolAbi}.
Context {hub_codec : Borsh encoding.HubMessage} {token_payload_codec : Borsh AxelarExecuteWithInterchainTokenPayload}.
Context {ids_laws : ProgramIdsLaws} {pda_laws : SolanaPdaLaws} {system_laws : SolanaSystemLaws}
  {spl_laws : SplTokenLaws} {realloc_laws : AnchorReallocLaws} {runtime_laws : ItsRuntimeLaws}.

(** ** The authority that an instruction establishes *)

Definition upgrade_authority_of (w : World) (s : Pubkey) : Prop :=
  exists k b, find_program_address [arr_bytes its_ID] bpf_loader_upgradeable_ID = Some (k, b) /\
    state_of bpf_loader_upgradeable_ID w !! k = Some (DProgramData (Some s)).

Definition mint_authority_of (w : World) (mint s : Pubkey) : Prop :=
  exists p ms, is_token_program p = true /\ mint_at (ledger w) p mint = Some ms /\ ms_mint_authority ms = Some s.

Definition env_of (signers : list AccountInfo) (hub : Prop) (w : World) : ItsEnv := {|
  env_now := now w;
  env_signed s := exists i, i ∈ signers /\ is_signer i = true /\ key i = s;
  env_upgrade := upgrade_authority_of w;
  env_mint_authority := mint_authority_of w;
  env_hub := hub
|}.

Lemma signed_by i l hub w : is_signer i = true -> i ∈ l -> env_signed (env_of l hub w) (key i).
Proof. intros Hs Hi. by exists i. Qed.

#[local] Ltac signed := apply signed_by; [assumption|set_solver].

#[local] Ltac its_norm :=
  unfold token_manager_seeds, user_roles_seeds, its_program_data, its_root_active, its_root_seeds, not_paused in *;
  inv_instr;
  cbn [wrap program_of zeroed_of Its_account TokenManager_account UserRoles_account ProgramData_account] in *;
  repeat match goal with
  | H : context [state_of its_ID ?w] |- _ => change (state_of its_ID w) with (its w) in H
  end;
  bool_props.

(** ** Configuration *)

Lemma upgrade_authority_ok w k b d s :
  find_program_address [arr_bytes its_ID] bpf_loader_upgradeable_ID = Some (k, b) ->
  state_of bpf_loader_upgradeable_ID w !! k = Some (DProgramData (upgrade_authority_address d)) ->
  upgrade_authority_address d = Some s -> upgrade_authority_of w s.
Proof. intros Hf Hd Hs. exists k, b. by rewrite <- Hs. Qed.

Lemma initialize_change a n h hub w u w' :
  its_initialize a n h w = Ok (u, w') ->
  its_change (env_of [ti_payer a; ti_operator a] hub w) (its w) (its w').
Proof.
  unfold its_initialize. intros H. inv_instr.
  match goal with H1 : init_account InterchainTokenService.t _ _ _ _ _ = _, H2 : init_account UserRoles.t _ _ _ _ _ = _ |- _ =>
    apply its_init_account in H1 as (Hf1 & Hn1 & Hi1 & _); [|done];
    apply its_init_account in H2 as (Hf2 & Hn2 & Hi2 & _); [|done] end.
  its_norm. rewrite Hi1 in Hn2, Hi2. apply lookup_insert_None in Hn2 as [Hn2 Hne].
  match goal with H1 : store (key (ti_its_root_pda a)) _ _ = _, H2 : store (key (ti_user_roles_account a)) _ _ = _ |- _ =>
    eapply its_store in H1 as (Hs1 & _); [|rewrite Hi2, lookup_insert_ne by done; apply lookup_insert_eq];
    eapply its_store in H2 as (Hs2 & _); [|rewrite Hs1, Hi2, lookup_insert_ne by done; apply lookup_insert_eq] end.
  rewrite Hs2, Hs1, Hi2, (insert_insert_ne _ (key (ti_its_root_pda a))) by done. rewrite !insert_insert_eq.
  eapply (ChInitialize _ _ (key (ti_payer a)) (key (ti_operator a))); [signed| |signed|exact Hf1|done|done|exact Hf2|done|done].
  by eapply upgrade_authority_ok.
Qed.

Lemma set_pause_status_change a p hub w u w' :
  set_pause_status a p w = Ok (u, w') -> its_change (env_of [sp_payer a] hub w) (its w) (its w').
Proof.
  unfold set_pause_status. intros H. its_norm. eapply its_store in H as (-> & _); [|eassumption].
  eapply (ChPause _ _ (key (sp_payer a))); [signed|by eapply upgrade_authority_ok|by split].
Qed.

Lemma trusted_chain_authority_ok a r d w u w' :
  trusted_chain_authority a r d w = Ok (u, w') ->
  (is_Some r -> is_Some (tc_user_roles a)) -> (is_Some d -> is_Some (tc_program_data a)) ->
  w' = w /\
  ((exists i x, tc_user_roles a = Some i /\ r = Some x /\ UserRoles.has_operator_role x = true /\
      create_program_address (UserRoles.pda_seeds (key (tc_its_root_pda a)) (key (tc_payer a)) ++ [[UserRoles.bump x]])
        its_ID = Some (key i)) \/
   (exists i x b, tc_program_data a = Some i /\ d = Some x /\
      find_program_address [arr_bytes its_ID] bpf_loader_upgradeable_ID = Some (key i, b) /\
      upgrade_authority_address x = Some (key (tc_payer a)))).
Proof.
  unfold trusted_chain_authority. intros H Hr Hd. inv_instr.
  destruct r as [r|]; [destruct Hr as [i Hi]; [done|]; rewrite Hi in *|].
  all: destruct d as [d|]; [destruct Hd as [j Hj]; [done|]; rewrite Hj in *|].
  all: destruct (tc_user_roles a), (tc_program_data a); its_norm; try done; eauto 10.
Qed.

Lemma trusted_chain_accounts_ok a w root w' :
  trusted_chain_accounts a w = Ok (root, w') ->
  w' = w /\ is_signer (tc_payer a) = true /\ its w !! key (tc_its_root_pda a) = Some (DIts root) /\
  (upgrade_authority_of w (key (tc_payer a)) \/
   has_role (its w) (key (tc_its_root_pda a)) (key (tc_payer a)) ROLE_OPERATOR).
Proof.
  unfold trusted_chain_accounts. intros H. inv_instr.
  match goal with H1 : load_option UserRoles.t _ _ = _, H2 : load_option ProgramData _ _ = _ |- _ =>
    apply load_option_ok in H1 as [-> Hr]; apply load_option_ok in H2 as [-> Hd] end.
  match goal with H : trusted_chain_authority _ _ _ _ = _ |- _ => apply trusted_chain_authority_ok in H as [-> H]; [|..] end.
  - split_and!; try done. match goal with H : _ \/ _ |- _ => destruct H as [(i & y & Hi & -> & Ho & Hs)|(i & y & b & Hi & -> & Hf & Hu)] end.
    + right. destruct Hr as (i' & Hi' & Hr). assert (i' = i) as -> by congruence.
      do 2 eexists. split; [split; [exact Hr|exact Hs]|done].
    + left. destruct Hd as (i' & Hi' & Hd). assert (i' = i) as -> by congruence.
      by eapply upgrade_authority_ok; [exact Hf|exact Hd|exact Hu].
  - intros [y ->]. by destruct Hr as (i & -> & _).
  - intros [y ->]. by destruct Hd as (i & -> & _).
Qed.

Lemma set_trusted_chain_change a chain hub w u w' :
  set_trusted_chain a chain w = Ok (u, w') -> its_change (env_of [tc_payer a] hub w) (its w) (its w').
Proof.
  unfold set_trusted_chain. intros H. inv_instr.
  match goal with H : trusted_chain_accounts _ _ = _ |- _ => apply trusted_chain_accounts_ok in H as (-> & Hs & Hr & Ha) end.
  match goal with H : realloc_account _ _ _ _ = _ |- _ => apply realloc_quiet in H as [Hq _]; apply quiet_its in Hq end.
  its_norm. eapply its_store in H as (-> & _); [|rewrite its_emit, Hq; exact Hr]. rewrite its_emit, Hq.
  eapply (ChAddChain _ _ (key (tc_payer a))); [signed|exact Ha|by split].
Qed.

Lemma remove_trusted_chain_change a chain hub w u w' :
  remove_trusted_chain a chain w = Ok (u, w') -> its_change (env_of [tc_payer a] hub w) (its w) (its w').
Proof.
  unfold remove_trusted_chain. intros H. inv_instr.
  match goal with H : trusted_chain_accounts _ _ = _ |- _ => apply trusted_chain_accounts_ok in H as (-> & Hs & Hr & Ha) end.
  match goal with H : realloc_account _ _ _ _ = _ |- _ => apply realloc_quiet in H as [Hq _]; apply quiet_its in Hq end.
  its_norm. eapply its_store in H as (-> & _); [|rewrite its_emit, Hq; exact Hr]. rewrite its_emit, Hq.
  eapply (ChRemoveChain _ _ (key (tc_payer a))); [signed|exact Ha|by split|by apply InterchainTokenService.is_trusted_chain_spec].
Qed.

Lemma set_flow_limit_change a limit hub w u w' :
  set_flow_limit a limit w = Ok (u, w') -> its_change (env_of [fl_payer a; fl_operator a] hub w) (its w) (its w').
Proof.
  unfold set_flow_limit, with_flow_limit. intros H. its_norm. eapply its_store in H as (-> & _); [|eassumption].
  eapply (ChFlowLimit _ _ (key (fl_operator a))); [signed|by split|by split|left].
  do 2 eexists. split; [split; eassumption|done].
Qed.

Lemma set_token_manager_flow_limit_change a limit hub w u w' :
  set_token_manager_flow_limit a limit w = Ok (u, w') ->
  its_change (env_of [ml_payer a; ml_flow_limiter a] hub w) (its w) (its w').
Proof.
  unfold set_token_manager_flow_limit, with_flow_limit. intros H. its_norm.
  eapply its_store in H as (-> & _); [|eassumption].
  eapply (ChFlowLimit _ _ (key (ml_flow_limiter a))); [signed|by split|by split|right].
  do 2 eexists. split; [split; eassumption|done].
Qed.

(** ** Roles *)

(** The account of the destination was created first; only its final value counts. *)
Lemma insert_put_roles (m : ItsMap) k d d' ks r :
  <[k := d]> (put_roles (<[k := d']> m) ks r) = <[k := d]> (put_roles m ks r).
Proof.
  unfold put_roles. destruct (UserRoles.has_roles r); apply map_eq; intros j;
    destruct (decide (j = k)) as [->|]; rewrite ?lookup_insert_eq by done; [done| |done|];
    rewrite !(lookup_insert_ne _ k) by done;
    destruct (decide (j = ks)) as [->|];
    by rewrite ?lookup_insert_eq, ?lookup_delete_eq, ?(lookup_insert_ne _ ks), ?lookup_delete_ne, ?(lookup_insert_ne _ k) by done.
Qed.

(** The last step of the three transfers, after the destination's account exists. *)
Lemma transfer_role_change e m role resource s d ks rs kd dest payer w u w' :
  move_role role payer ks kd rs dest.1 dest.2 w = Ok (u, w') ->
  its w = <[kd := DUserRoles dest.1]> m -> roles_or_new m kd dest.1 -> roles_address resource d kd dest.2 ->
  env_signed e s -> s <> d -> transferable m resource role ->
  roles_at m ks resource s rs -> UserRoles.contains rs role = true ->
  its_change e m (its w').
Proof.
  intros H Hw Hnew Haddr Hs Hd Ht Hr Hc.
  assert (exists r, its w !! ks = Some r) as [r Hks].
  { rewrite Hw. destruct (decide (ks = kd)) as [->|]; [rewrite lookup_insert_eq; by eexists|].
    rewrite lookup_insert_ne by done. destruct Hr as [Hr _]. by eexists. }
  eapply move_role_ok in H as ->; [|exact Hks|rewrite Hw; apply lookup_insert_eq].
  rewrite Hw, insert_put_roles. by eapply ChMoveRole.
Qed.

Lemma its_transfer_operatorship_change a hub w u w' :
  its_transfer_operatorship a w = Ok (u, w') ->
  its_change (env_of [xo_payer a; xo_origin_user_account a] hub w) (its w) (its w').
Proof.
  unfold its_transfer_operatorship. intros H. inv_instr.
  match goal with H : init_user_roles _ _ _ _ _ = _ |- _ => apply init_user_roles_ok in H as (Ha & Hn & Hi & _) end.
  its_norm. eapply (transfer_role_change _ _ _ _ (key (xo_origin_user_account a))); [exact H|exact Hi|exact Hn|exact Ha|signed|by apply not_eq_sym| |by split|done].
  left. split; [done|]. by eexists; split.
Qed.

Lemma transfer_token_manager_operatorship_change a hub w u w' :
  transfer_token_manager_operatorship a w = Ok (u, w') ->
  its_change (env_of [xm_payer a; xm_origin_user_account a] hub w) (its w) (its w').
Proof.
  unfold transfer_token_manager_operatorship. intros H. inv_instr.
  match goal with H : init_user_roles _ _ _ _ _ = _ |- _ => apply init_user_roles_ok in H as (Ha & Hn & Hi & _) end.
  its_norm. eapply (transfer_role_change _ _ _ _ (key (xm_origin_user_account a))); [exact H|exact Hi|exact Hn|exact Ha|signed|by apply not_eq_sym| |by split|done].
  right. split; [by left|]. do 3 eexists. by split; split.
Qed.

Lemma transfer_interchain_token_mintership_change a hub w u w' :
  transfer_interchain_token_mintership a w = Ok (u, w') ->
  its_change (env_of [mm_payer a; mm_sender_user_account a] hub w) (its w) (its w').
Proof.
  unfold transfer_interchain_token_mintership. intros H. inv_instr.
  match goal with H : init_user_roles _ _ _ _ _ = _ |- _ => apply init_user_roles_ok in H as (Ha & Hn & Hi & _) end.
  its_norm. eapply (transfer_role_change _ _ _ _ (key (mm_sender_user_account a))); [exact H|exact Hi|exact Hn|exact Ha|signed|by apply not_eq_sym| |by split|done].
  right. split; [by right|]. do 3 eexists. by split; split.
Qed.

(** Storing roles in an account that was just created, or existed. *)
Lemma store_roles m k r r' w u w' :
  its w = <[k := DUserRoles r]> m -> store k r' w = Ok (u, w') -> its w' = <[k := DUserRoles r']> m.
Proof.
  intros Hw H. eapply its_store in H as (-> & _); [|rewrite Hw; apply lookup_insert_eq]. by rewrite Hw, insert_insert_eq.
Qed.

Lemma add_token_manager_flow_limiter_change a hub w u w' :
  add_token_manager_flow_limiter a w = Ok (u, w') ->
  its_change (env_of [ft_payer a; ft_authority_user_account a] hub w) (its w) (its w').
Proof.
  unfold add_token_manager_flow_limiter, flow_limiter_authority. intros H. inv_instr.
  match goal with H : init_user_roles _ _ _ _ _ = _ |- _ => apply init_user_roles_ok in H as (Ha & Hn & Hi & _) end.
  its_norm. eapply store_roles in H as ->; [|exact Hi].
  eapply (ChAddFlowLimiter _ _ (key (ft_authority_user_account a))); [signed|by split|by split| |exact Ha|exact Hn].
  do 2 eexists. split; [split; eassumption|done].
Qed.

Lemma remove_token_manager_flow_limiter_change a hub w u w' :
  remove_token_manager_flow_limiter a w = Ok (u, w') ->
  its_change (env_of [ft_payer a; ft_authority_user_account a] hub w) (its w) (its w').
Proof.
  unfold remove_token_manager_flow_limiter, flow_limiter_authority. intros H. its_norm.
  match goal with H : (if UserRoles.has_roles ?r then _ else _) _ = _ |- _ =>
    assert (its w' = put_roles (its w) (key (ft_target_roles_account a)) r) as -> end.
  { unfold put_roles. destruct (UserRoles.has_roles _);
      [eapply its_store in H as (-> & _); [done|eassumption]|by apply its_close in H]. }
  eapply (ChRemoveFlowLimiter _ _ (key (ft_authority_user_account a))); [signed|by split|by split| |by split].
  exists (key (ft_authority_roles_account a)); eexists. split; [split; eassumption|done].
Qed.

Lemma handover_mint_authority_change a id hub w u w' :
  handover_mint_authority a id w = Ok (u, w') ->
  its_change (env_of [hm_payer a; hm_authority a] hub w) (its w) (its w').
Proof.
  unfold handover_mint_authority, token_interface. intros H. inv_instr.
  match goal with H : load_mint _ _ = _ |- _ => apply load_mint_ok in H as (-> & Hp & Hm) end.
  match goal with H : init_user_roles _ _ _ _ _ = _ |- _ => apply init_user_roles_ok in H as (Ha & Hn & Hi & _) end.
  unfold mint_token_program in *. its_norm.
  match goal with H : token_cpi _ _ _ = _ |- _ => apply token_cpi_its in H as (Ht & _) end.
  repeat match goal with H : invoke_account _ _ _ _ = _ |- _ => apply invoke_account_ok in H as (-> & -> & _) end.
  eapply store_roles in H as ->; [|rewrite Ht; exact Hi].
  eapply (ChHandover _ _ (key (hm_authority a))); [signed|by split|by split| | |exact Ha|exact Hn].
  - match goal with H : (_ || _)%bool = true |- _ => apply orb_true_iff in H; rewrite !bool_decide_eq_true in H; done end.
  - do 2 eexists. split; [exact Hp|]. split; [|eassumption].
    match goal with H : key (hm_mint a) = _ |- _ => by rewrite <- H end.
Qed.

(** ** Deployments *)

(** The optional roles account of a new token manager: of the optional user, at a free address. *)
Definition roles_created (m : ItsMap) (km : Pubkey) (user racc : option AccountInfo) (roles : Z) (m' : ItsMap) : Prop :=
  match racc with
  | None => m' = m
  | Some r => exists u b, user = Some u /\ roles_address km (key u) (key r) b /\ m !! key r = None /\
      m' = <[key r := DUserRoles (UserRoles.mk roles b)]> m
  end.

Lemma created_new m km user racc roles m' :
  roles_created m km user racc roles m' -> roles <> ROLE_EMPTY -> new_roles m km roles m'.
Proof.
  unfold roles_created. destruct racc as [r|]; [|by left].
  intros (u & b & _ & Ha & Hn & ->) Hne. right. by do 3 eexists.
Qed.

(** ... from its creation to its final value. *)
Lemma deploy_stores m payer km user racc missing ob w1 w2 w3 t u w4 roles u' w5 :
  its w1 = <[km := DTokenManager TokenManager.zeroed]> m ->
  init_optional_roles payer km user racc missing w1 = Ok (ob, w2) -> its w3 = its w2 ->
  store km t w3 = Ok (u, w4) -> store_optional_roles racc ob roles w4 = Ok (u', w5) ->
  roles_created (<[km := DTokenManager t]> m) km user racc roles (its w5).
Proof.
  intros H1 Hi H3 Hs Ho. unfold init_optional_roles in Hi. unfold store_optional_roles in Ho.
  destruct racc as [r|]; inv_instr; cbn [roles_created].
  - match goal with H : init_account _ _ _ _ _ _ = _ |- _ => apply its_init_account in H as (Hf & Hn & Hi & _); [|done] end.
    rewrite H1 in Hn, Hi. apply lookup_insert_None in Hn as [Hn Hkr].
    eapply its_store in Hs as (Hs & _); [|rewrite H3, Hi, lookup_insert_ne by done; apply lookup_insert_eq].
    eapply its_store in Ho as (Ho & _); [|rewrite Hs, H3, Hi, lookup_insert_ne by done; apply lookup_insert_eq].
    do 2 eexists. split_and!; [done|exact Hf|by rewrite lookup_insert_ne|].
    rewrite Ho, Hs, H3, Hi, (insert_insert_ne _ km) by done. by rewrite !insert_insert_eq.
  - eapply its_store in Hs as (-> & _); [|rewrite H3, H1; apply lookup_insert_eq].
    by rewrite H3, H1, insert_insert_eq.
Qed.

Lemma mint_as_manager_its tp mint to mgr root id b n w u w' :
  mint_as_manager tp mint to mgr root id b n w = Ok (u, w') -> its w' = its w /\ now w' = now w /\ log w' = log w.
Proof.
  unfold mint_as_manager. intros H. inv_instr.
  repeat match goal with H : invoke_signed_account _ _ _ _ _ _ = _ |- _ =>
    apply invoke_signed_account_ok in H as (-> & -> & _) end.
  by apply token_cpi_its in H.
Qed.

Lemma create_metadata_its md mint mgr payer root id b n y w u w' :
  create_metadata_as_manager md mint mgr payer root id b n y w = Ok (u, w') ->
  its w' = its w /\ now w' = now w /\ log w' = log w.
Proof.
  unfold create_metadata_as_manager. intros H. inv_instr.
  repeat match goal with H : invoke_signed_account _ _ _ _ _ _ = _ |- _ =>
    apply invoke_signed_account_ok in H as (-> & -> & _) end.
  by apply token_cpi_its in H.
Qed.

Lemma optional_mut_ok a w u w' : optional_mut a w = Ok (u, w') -> w' = w.
Proof. unfold optional_mut. destruct a; intros H; by inv_instr. Qed.

(** A token manager that is created, under an active root, with what it is for. *)
Lemma deploy_change e m root c k b t roles m' :
  root_at m root c -> InterchainTokenService.paused c = false ->
  find_program_address (TokenManager.pda_seeds (TokenManager.token_id t) root) its_ID = Some (k, b) ->
  m !! k = None -> TokenManager.bump t = b -> TokenManager.flow_slot t = FlowState.new None 0 ->
  deployment e root t roles -> new_roles (<[k := DTokenManager t]> m) k roles m' -> its_change e m m'.
Proof. intros Hr Hp Hf Hn <- Hs Hd Hm. by eapply ChDeploy. Qed.

Lemma token_2022 p : p = spl_token_2022_ID -> is_token_program p = true.
Proof. intros ->. unfold is_token_program. apply orb_true_iff. right. by apply bool_decide_eq_true. Qed.

#[local] Ltac init_manager :=
  match goal with H : init_token_manager _ _ _ _ _ = _ |- _ =>
    unfold init_token_manager in H; apply its_init_account in H as (Hfm & Hnm & Him & _); [|done] end.
#[local] Ltac init_mint_its :=
  match goal with H : init_mint _ _ _ _ _ _ _ = _ |- _ =>
    apply init_mint_ok in H as (Hfmint & _ & Himint & _); [|by apply token_2022] end.
#[local] Ltac atas :=
  repeat match goal with H : associated_token_if_needed _ _ _ _ _ _ = _ |- _ =>
    let Hr := fresh "Hata" in
    apply associated_token_if_needed_ok in H as (Hr & _); pose proof (Hr its_ID its_in_repository); clear Hr end.
#[local] Ltac its_same := repeat match goal with
  | H : optional_mut _ _ = Ok _ |- _ => apply optional_mut_ok in H; subst
  | H : mint_as_manager _ _ _ _ _ _ _ _ _ = Ok _ |- _ => apply mint_as_manager_its in H as (? & _)
  | H : create_metadata_as_manager _ _ _ _ _ _ _ _ _ _ = Ok _ |- _ => apply create_metadata_its in H as (? & _)
  end.

(** The accounts of a new interchain token: its manager and its mint, at the addresses derived from [id],
    and the roles of its minter. *)
Definition native_accounts (root km m ata : Pubkey) (id : array 32) (minter roles : option AccountInfo) (w w' : World)
    : Prop :=
  exists c b b', let t := TokenManager.init_account NativeInterchainToken id m ata b in
    root_at (its w) root c /\ InterchainTokenService.paused c = false /\
    find_program_address (TokenManager.pda_seeds id root) its_ID = Some (km, b) /\ its w !! km = None /\
    find_program_address (TokenManager.mint_seeds id root) its_ID = Some (m, b') /\
    roles_created (<[km := DTokenManager t]> (its w)) km minter roles
      (Z.lor (Z.lor ROLE_OPERATOR ROLE_FLOW_LIMITER) ROLE_MINTER) (its w').

Lemma native_change e root km m ata id minter roles w w' :
  native_accounts root km m ata id minter roles w w' ->
  (env_hub e \/ exists d salt, env_signed e d /\ id = interchain_token_id d salt) ->
  its_change e (its w) (its w').
Proof.
  intros (c & b & b' & Hr & Hp & Hf & Hn & Hm & Hc) He.
  eapply (deploy_change _ _ _ _ _ _ (TokenManager.init_account NativeInterchainToken id m ata b));
    [exact Hr|exact Hp|exact Hf|exact Hn|done|done|by eapply Native|by eapply created_new].
Qed.

Lemma deploy_interchain_token_accounts_ok a salt n y d i w x w' :
  deploy_interchain_token a salt n y d i w = Ok (x, w') ->
  native_accounts (key (dt_its_root_pda a)) (key (dt_token_manager_pda a)) (key (dt_token_mint a))
    (key (dt_token_manager_ata a)) x (dt_minter a) (dt_minter_roles_pda a) w w' /\
  x = interchain_token_id (key (dt_deployer a)) salt /\ is_signer (dt_deployer a) = true.
Proof.
  unfold deploy_interchain_token, deploy_interchain_token_accounts, mint_initial_supply, create_token_metadata,
    emit_deployed. intros H. inv_instr. init_manager. cbn [fst snd] in *.
  its_norm. init_mint_its. atas.
  match goal with H : (if _ then mint_as_manager _ _ _ _ _ _ _ _ else _) ?v = Ok (_, ?v') |- _ =>
    assert (its v' = its v) by (destruct (0 <? i); inv_instr; [by apply mint_as_manager_its in H as (? & _)|done]); clear H end.
  its_same. split; [|done]. do 3 eexists. split_and!; [split; eassumption|done|exact Hfm|exact Hnm|exact Hfmint|].
  eapply deploy_stores; [|eassumption| |eassumption..]; rewrite ?its_emit; unfold its in *; congruence.
Qed.

Lemma deploy_interchain_token_change a salt n y d i hub w x w' :
  deploy_interchain_token a salt n y d i w = Ok (x, w') ->
  its_change (env_of [dt_payer a; dt_deployer a] hub w) (its w) (its w').
Proof.
  intros (Hn & Hx & Hs)%deploy_interchain_token_accounts_ok. eapply native_change; [exact Hn|].
  right. exists (key (dt_deployer a)), salt. split; [signed|done].
Qed.

(** The deployments that the hub orders, for any environment that says so. *)
Lemma execute_deploy_accounts_ok a id n y d minter w u w' :
  execute_deploy_interchain_token a id n y d minter w = Ok (u, w') ->
  native_accounts (key (ed_its_root_pda a)) (key (ed_token_manager_pda a)) (key (ed_token_mint a))
    (key (ed_token_manager_ata a)) id (ed_minter a) (ed_minter_roles_pda a) w w'.
Proof.
  unfold execute_deploy_interchain_token, execute_deploy_interchain_token_accounts, inbound_create_token_metadata,
    emit_deployed. intros H. inv_instr. init_manager. cbn [fst snd] in *.
  its_norm. init_mint_its. atas. its_same.
  do 3 eexists. split_and!; [split; eassumption|done|exact Hfm|exact Hnm|exact Hfmint|].
  eapply deploy_stores; [|eassumption| |eassumption..]; rewrite ?its_emit; unfold its in *; congruence.
Qed.

Lemma execute_deploy_interchain_token_change a id n y d minter w u w' e :
  execute_deploy_interchain_token a id n y d minter w = Ok (u, w') -> env_hub e -> its_change e (its w) (its w').
Proof. intros H%execute_deploy_accounts_ok He. eapply native_change; [exact H|by left]. Qed.

Lemma has_token_metadata_ok mint k w u w' : has_token_metadata mint k w = Ok (u, w') -> w' = w.
Proof.
  unfold has_token_metadata. destruct (get_token_metadata _ _ _) as [[x v]|] eqn:E; [|done].
  intros [= _ <-]. by apply get_token_metadata_ok in E.
Qed.

Lemma register_canonical_change a hub w x w' :
  register_canonical_interchain_token a w = Ok (x, w') ->
  its_change (env_of [rc_payer a] hub w) (its w) (its w').
Proof.
  unfold register_canonical_interchain_token, register_canonical_accounts, token_interface, mint_token_program.
  intros H. inv_instr. init_manager. its_norm. atas.
  match goal with H : load_mint _ _ = _ |- _ => apply load_mint_ok in H as (-> & _) end.
  match goal with H : mint_data _ _ = _ |- _ => apply mint_data_ok in H as (-> & _) end.
  match goal with H : has_token_metadata _ _ _ = _ |- _ => apply has_token_metadata_ok in H as -> end.
  match goal with H : store _ ?t _ = _ |- _ =>
    eapply its_store in H as (Hst & _); [|rewrite its_emit; unfold its in *;
      match goal with E : state_of its_ID _ = state_of its_ID _ |- _ => rewrite E, Him end; apply lookup_insert_eq];
    eapply (deploy_change _ _ _ _ _ _ t); [split; eassumption|done|exact Hfm|exact Hnm|done|done| |] end.
  - apply Canonical; [|done]. match goal with b : bool |- _ => destruct b; [by right|by left] end.
  - left. rewrite Hst, its_emit. unfold its in *.
    match goal with E : state_of its_ID _ = state_of its_ID _ |- _ => rewrite E, Him end. apply insert_insert_eq.
Qed.

Lemma link_accounts_ok a id w x w' :
  link_accounts a id w = Ok (x, w') ->
  let km := key (la_token_manager_pda a) in
  its w !! key (la_its_root_pda a) = Some (DIts x.1.1) /\ its w !! km = None /\
  find_program_address (TokenManager.pda_seeds id (key (la_its_root_pda a))) its_ID = Some (km, x.2.1) /\
  exists v, its v = <[km := DTokenManager TokenManager.zeroed]> (its w) /\
    init_optional_roles (key (la_payer a)) km (la_operator a) (la_operator_roles_pda a) (EIts OperatorNotProvided) v
      = Ok (x.2.2, w').
Proof.
  unfold link_accounts, token_interface. intros H. inv_instr. init_manager. its_norm. atas.
  match goal with H : load_mint _ _ = _ |- _ => apply load_mint_ok in H as (-> & _) end.
  cbn [fst snd]. split_and!; try done. eexists. split; [|eassumption]. unfold its in *. congruence.
Qed.

Lemma link_constraints_ok a o w u w' : link_constraints a o w = Ok (u, w') -> w' = w.
Proof. unfold link_constraints, mint_token_program. intros H. inv_instr. by apply optional_mut_ok in H. Qed.

(** The accounts of a token manager for an existing mint, and the roles of its operator. *)
Definition linked_accounts (l : LinkAccounts) (ty : TokenManagerType) (id : array 32) (operator : option Pubkey)
    (w w' : World) : Prop :=
  let km := key (la_token_manager_pda l) in
  exists c b, let t := TokenManager.init_account ty id (la_token_mint l) (key (la_token_manager_ata l)) b in
    root_at (its w) (key (la_its_root_pda l)) c /\ InterchainTokenService.paused c = false /\
    find_program_address (TokenManager.pda_seeds id (key (la_its_root_pda l))) its_ID = Some (km, b) /\
    its w !! km = None /\ ty <> NativeInterchainToken /\
    key <$> la_operator l = operator /\ (is_Some operator <-> is_Some (la_operator_roles_pda l)) /\
    roles_created (<[km := DTokenManager t]> (its w)) km (la_operator l) (la_operator_roles_pda l)
      (Z.lor ROLE_OPERATOR ROLE_FLOW_LIMITER) (its w').

Lemma linked_change e l ty id operator w w' :
  linked_accounts l ty id operator w w' ->
  (env_hub e \/ exists d salt, env_signed e d /\ id = interchain_token_id_internal (linked_token_deployer_salt d salt)) ->
  its_change e (its w) (its w').
Proof.
  intros (c & b & Hr & Hp & Hf & Hn & Hty & _ & _ & Hc) He.
  eapply (deploy_change _ _ _ _ _ _ (TokenManager.init_account ty id (la_token_mint l) (key (la_token_manager_ata l)) b));
    [exact Hr|exact Hp|exact Hf|exact Hn|done|done|by apply Linked|by eapply created_new].
Qed.

Lemma check_operator_ok operator o r x :
  check_operator operator o r = Ok x -> key <$> o = operator /\ (is_Some operator <-> is_Some r).
Proof. unfold check_operator. destruct operator, o, r; intros H; inv_result; bool_props; subst; split; done || by split; eauto. Qed.

Lemma link_manager_ok a ty id operator w x w1 u w' y :
  link_accounts a id w = Ok (x, w1) -> link_manager a ty id operator x.2 w1 = Ok (u, w') ->
  create_program_address (InterchainTokenService.pda_seeds ++ [[InterchainTokenService.bump x.1.1]]) its_ID
    = Some (key (la_its_root_pda a)) ->
  InterchainTokenService.paused x.1.1 = false -> ty <> NativeInterchainToken ->
  check_operator operator (la_operator a) (la_operator_roles_pda a) = Ok y ->
  linked_accounts a ty id operator w w'.
Proof.
  intros Ha Hm Hr Hp Hty Hop. apply link_accounts_ok in Ha as (Hroot & Hn & Hf & v & Hv & Hi).
  unfold link_manager in Hm. inv_instr. apply check_operator_ok in Hop as [Hop1 Hop2].
  match goal with H : validate_mint_extension_account _ _ _ = _ |- _ => apply validate_mint_extension_account_ok in H as -> end.
  exists x.1.1, x.2.1. split_and!; [by split|done|exact Hf|exact Hn|done|exact Hop1|exact Hop2|].
  eapply deploy_stores; [exact Hv|exact Hi| |eassumption..]. by rewrite its_emit.
Qed.

Lemma register_custom_token_ok a salt ty operator w x w' :
  register_custom_token a salt ty operator w = Ok (x, w') ->
  linked_accounts (ru_accounts a) ty x operator w w' /\ is_signer (ru_deployer a) = true /\
  x = interchain_token_id_internal (linked_token_deployer_salt (key (ru_deployer a)) salt).
Proof.
  unfold register_custom_token. intros H. its_norm.
  match goal with H : link_constraints _ _ _ = _ |- _ => apply link_constraints_ok in H as -> end.
  split; [|done]. eapply link_manager_ok; eassumption.
Qed.

Lemma register_custom_token_change a salt ty operator hub w x w' :
  register_custom_token a salt ty operator w = Ok (x, w') ->
  its_change (env_of [la_payer (ru_accounts a); ru_deployer a] hub w) (its w) (its w').
Proof.
  intros (Hl & Hs & Hx)%register_custom_token_ok. eapply linked_change; [exact Hl|].
  right. exists (key (ru_deployer a)), salt. split; [signed|done].
Qed.

Lemma execute_link_token_ok a id addr ty params w u w' :
  execute_link_token a id addr ty params w = Ok (u, w') ->
  is_signer (la_its_root_pda a) = true /\ addr = la_token_mint a /\
  exists ty', type_try_from_u8 ty = Ok ty' /\ linked_accounts a ty' id (arr_try_from 32 params) w w'.
Proof.
  unfold execute_link_token. intros H. its_norm.
  match goal with H : link_constraints _ _ _ = _ |- _ => apply link_constraints_ok in H as -> end.
  split_and!; [done|done|]. eexists. split; [eassumption|].
  eapply link_manager_ok; [eassumption..|by apply not_eq_sym|eassumption].
Qed.

Lemma execute_link_token_change a id addr ty params w u w' e :
  execute_link_token a id addr ty params w = Ok (u, w') -> env_hub e -> its_change e (its w) (its w').
Proof. intros (_ & _ & ty' & _ & Hl)%execute_link_token_ok He. eapply linked_change; [exact Hl|by left]. Qed.

(** ** Messages to the hub, and minting, leave the accounts as they are *)

Lemma send_remote_deployment_same g id mint md d dc gas w u w' :
  send_remote_deployment g id mint md d dc gas w = Ok (u, w') -> its w' = its w.
Proof.
  unfold send_remote_deployment, send_to_hub_wrap. intros H. inv_instr.
  match goal with H : get_token_metadata _ _ _ = _ |- _ => apply get_token_metadata_ok in H as -> end.
  apply send_to_hub_ok in H as (b & _ & Hq & _). by rewrite (quiet_its _ _ Hq).
Qed.

#[local] Ltac hub_same := repeat match goal with
  | H : load_mint _ _ = Ok _ |- _ => apply load_mint_ok in H as (-> & _)
  | H : load_token_account _ _ = Ok _ |- _ => apply load_token_account_ok in H as (-> & _)
  | H : hub_programs _ _ = Ok _ |- _ => apply hub_programs_ok in H as ->
  | H : remote_chain _ _ _ = Ok _ |- _ => apply remote_chain_ok in H as (-> & _)
  | H : gateway_root_seeds _ _ = Ok _ |- _ => apply gateway_root_seeds_ok in H as (? & _ & _ & ->)
  | H : send_remote_deployment _ _ _ _ _ _ _ _ = Ok _ |- _ => apply send_remote_deployment_same in H
  | H : send_to_hub _ _ _ _ = Ok _ |- _ => apply send_to_hub_ok in H as (? & _ & H & _); apply quiet_its in H
  end.

Lemma deploy_remote_interchain_token_same a salt dc gas w u w' :
  deploy_remote_interchain_token a salt dc gas w = Ok (u, w') -> its w' = its w.
Proof. unfold deploy_remote_interchain_token. intros H. its_norm. by hub_same. Qed.

Lemma deploy_remote_canonical_same a dc gas w u w' :
  deploy_remote_canonical_interchain_token a dc gas w = Ok (u, w') -> its w' = its w.
Proof. unfold deploy_remote_canonical_interchain_token. intros H. its_norm. by hub_same. Qed.

Lemma register_token_metadata_same a gas w u w' :
  register_token_metadata a gas w = Ok (u, w') -> its w' = its w.
Proof. unfold register_token_metadata. intros H. its_norm. by hub_same. Qed.

Lemma link_token_same a salt dc d ty p gas w x w' :
  link_token a salt dc d ty p gas w = Ok (x, w') -> its w' = its w.
Proof. unfold link_token, send_to_hub_wrap. intros H. its_norm. by hub_same. Qed.

Lemma mint_interchain_token_same a n w u w' : mint_interchain_token a n w = Ok (u, w') -> its w' = its w.
Proof.
  unfold mint_interchain_token, token_interface, mint_token_program. intros H. its_norm. hub_same.
  match goal with H : mint_as_manager _ _ _ _ _ _ _ _ _ = _ |- _ => apply mint_as_manager_its in H as (Hi & _) end.
  eapply its_store in H as (-> & _); [|rewrite Hi; eassumption]. rewrite Hi. by apply insert_id.
Qed.

(** ** Transfers and messages *)

Lemma interchain_transfer_change a id dc da n gas program seeds data hub w u w' :
  interchain_transfer a id dc da n gas program seeds data w = Ok (u, w') ->
  its_change (env_of [ix_payer a; ix_authority a] hub w) (its w) (its w').
Proof.
  intros H. apply interchain_transfer_ok in H as
    (c & t & t' & src & s & m & b & Hr & Hp & _ & Hm & _ & _ & _ & Hs & _ & _ & _ & _ & _ & Hf & -> & _).
  eapply (ChFlow _ _ _ _ _ _ _ _ _ FlowOut); [exact Hr|exact Hp|exact Hm| |exact Hf].
  exists (key (ix_authority a)). signed.
Qed.

Lemma execute_interchain_transfer_change a m sc sa d id n data w u w' e :
  execute_interchain_transfer a m sc sa d id n data w = Ok (u, w') -> env_hub e -> env_now e = now w ->
  its_change e (its w) (its w').
Proof.
  intros H He Hn. apply execute_interchain_transfer_ok in H as
    (c & t & t' & k & v0 & v & _ & Hr & Hp & Hm & _ & _ & _ & _ & _ & _ & _ & Hf & -> & _).
  eapply (ChFlow _ _ _ _ _ _ _ _ _ FlowIn); [exact Hr|exact Hp|exact Hm|exact He|by rewrite Hn].
Qed.

(** A message of the hub that [execute] is acting on. *)
Definition hub_message (a : Execute) (m : Message) (payload : bytes) (w : World) : Prop :=
  exists c sc inner v, hub_message_received a m payload c sc inner w v.

Lemma its_execute_change a m payload w u w' e :
  its_execute a m payload w = Ok (u, w') -> (hub_message a m payload w -> env_hub e) -> env_now e = now w ->
  its_change e (its w) (its w').
Proof.
  intros H He Hn. apply its_execute_ok in H as (c & sc & inner & v & Hrec & Hrun).
  assert (env_hub e) as He' by (apply He; by exists c, sc, inner, v).
  destruct Hrec as (_ & _ & _ & _ & _ & _ & _ & Hfr & Hv).
  assert (its v = its w) as <- by apply Hfr, its_not_gateway. rewrite <- Hv in Hn.
  destruct inner; cbn [message_runs] in Hrun.
  - destruct Hrun as (d & x & _ & _ & H). by eapply execute_interchain_transfer_change.
  - destruct Hrun as (x & _ & _ & H). by eapply execute_deploy_interchain_token_change.
  - destruct Hrun as (x & t & _ & _ & _ & H). by eapply execute_link_token_change.
Qed.

(** ** All instructions *)

(** The accounts whose signature the instruction requires. *)
Definition its_signers (ix : ItsInstruction) : list AccountInfo :=
  match ix with
  | ItInitialize a _ _ => [ti_payer a; ti_operator a]
  | ItSetPauseStatus a _ => [sp_payer a]
  | ItSetTrustedChain a _ | ItRemoveTrustedChain a _ => [tc_payer a]
  | ItDeployInterchainToken a _ _ _ _ _ => [dt_payer a; dt_deployer a]
  | ItDeployRemoteInterchainToken a _ _ _ => [ha_payer (dr_hub a); dr_deployer a]
  | ItRegisterTokenMetadata a _ => [ha_payer (rm_hub a)]
  | ItRegisterCanonicalInterchainToken a => [rc_payer a]
  | ItDeployRemoteCanonicalInterchainToken a _ _ => [ha_payer (dc_hub a)]
  | ItRegisterCustomToken a _ _ _ => [la_payer (ru_accounts a); ru_deployer a]
  | ItLinkToken a _ _ _ _ _ _ => [ha_payer (lk_hub a); lk_deployer a]
  | ItSetFlowLimit a _ => [fl_payer a; fl_operator a]
  | ItExecute a _ _ => [xe_payer a]
  | ItExecuteDeployInterchainToken a _ _ _ _ _ => [ed_payer a]
  | ItExecuteLinkToken a _ _ _ _ => [la_payer a]
  | ItExecuteInterchainTransfer a _ _ _ _ _ _ _ => [et_payer a]
  | ItInterchainTransfer a _ _ _ _ _ _ _ _ => [ix_payer a; ix_authority a]
  | ItTransferOperatorship a => [xo_payer a; xo_origin_user_account a]
  | ItAddTokenManagerFlowLimiter a | ItRemoveTokenManagerFlowLimiter a => [ft_payer a; ft_authority_user_account a]
  | ItSetTokenManagerFlowLimit a _ => [ml_payer a; ml_flow_limiter a]
  | ItTransferTokenManagerOperatorship a => [xm_payer a; xm_origin_user_account a]
  | ItMintInterchainToken a _ => [mi_minter a]
  | ItHandoverMintAuthority a _ => [hm_payer a; hm_authority a]
  | ItTransferInterchainTokenMintership a => [mm_payer a; mm_sender_user_account a]
  end.

(** The hub orders a change: through [execute], or in the three instructions that only [execute] can
    call, because they need the signature of the ITS root, an address without a private key. *)
Definition hub_orders (ix : ItsInstruction) (w : World) : Prop :=
  match ix with
  | ItExecute a m payload => hub_message a m payload w
  | ItExecuteDeployInterchainToken a _ _ _ _ _ => is_signer (ed_its_root_pda a) = true
  | ItExecuteLinkToken a _ _ _ _ => is_signer (la_its_root_pda a) = true
  | ItExecuteInterchainTransfer a _ _ _ _ _ _ _ => is_signer (et_its_root_pda a) = true
  | _ => False
  end.

Definition its_env (ix : ItsInstruction) (w : World) : ItsEnv := env_of (its_signers ix) (hub_orders ix w) w.

Lemma execute_deploy_signed a id n y d minter w u w' :
  execute_deploy_interchain_token a id n y d minter w = Ok (u, w') -> is_signer (ed_its_root_pda a) = true.
Proof.
  unfold execute_deploy_interchain_token, execute_deploy_interchain_token_accounts. intros H. by inv_instr.
Qed.

Lemma execute_link_signed a id addr ty p w u w' :
  execute_link_token a id addr ty p w = Ok (u, w') -> is_signer (la_its_root_pda a) = true.
Proof. unfold execute_link_token. intros H. by inv_instr. Qed.

Lemma execute_transfer_signed a m sc sa d id n data w u w' :
  execute_interchain_transfer a m sc sa d id n data w = Ok (u, w') -> is_signer (et_its_root_pda a) = true.
Proof. intros H. apply execute_interchain_transfer_ok in H as (? & ? & ? & ? & ? & ? & Hs & _). exact Hs. Qed.

Lemma same_change e w w' : its w' = its w -> its_change e (its w) (its w').
Proof. intros ->. apply ChNone. Qed.

Lemma its_entry_change ix w u w' : its_entry ix w = Ok (u, w') -> its_change (its_env ix w) (its w) (its w').
Proof.
  unfold its_env. destruct ix; cbn [its_entry its_signers]; intros H;
    try (apply instr_bind_ok in H as (? & ? & H & [-> ->]%instr_ret_ok)).
  - by eapply initialize_change.
  - by eapply set_pause_status_change.
  - by eapply set_trusted_chain_change.
  - by eapply remove_trusted_chain_change.
  - by eapply deploy_interchain_token_change.
  - by eapply same_change, deploy_remote_interchain_token_same.
  - by eapply same_change, register_token_metadata_same.
  - by eapply register_canonical_change.
  - by eapply same_change, deploy_remote_canonical_same.
  - by eapply register_custom_token_change.
  - by eapply same_change, link_token_same.
  - by eapply set_flow_limit_change.
  - by eapply its_execute_change.
  - eapply execute_deploy_interchain_token_change; [exact H|]. by eapply execute_deploy_signed.
  - eapply execute_link_token_change; [exact H|]. by eapply execute_link_signed.
  - eapply execute_interchain_transfer_change; [exact H| |done]. by eapply execute_transfer_signed.
  - by eapply interchain_transfer_change.
  - by eapply its_transfer_operatorship_change.
  - by eapply add_token_manager_flow_limiter_change.
  - by eapply remove_token_manager_flow_limiter_change.
  - by eapply set_token_manager_flow_limit_change.
  - by eapply transfer_token_manager_operatorship_change.
  - by eapply same_change, mint_interchain_token_same.
  - by eapply handover_mint_authority_change.
  - by eapply transfer_interchain_token_mintership_change.
Qed.
End refines.
