(* ===== verification/ItsInvariant.v ===== *)
(** * ITS: invariants of the specification

    What follows from the rules of [its_change] alone: what never changes in an account, and the
    well-formedness of the accounts of every reachable state. *)

From stdpp Require Import base gmap list.
From Stdlib Require Import ZArith Lia.
From S2P Require Import Prelude Errors External GatewayState ItsState Ledger LedgerLemmas ItsLemmas ItsSpec.

Section invariant.
Context {keccak : Keccak} {pda : SolanaPda} {ids : ProgramIds} {network : ItsNetwork} {pda_laws : SolanaPdaLaws}.

(** ** What a change keeps *)

(** The fields that no instruction changes. *)
Definition fixed (d d' : AccountData) : Prop :=
  match d, d' with
  | DIts c, DIts c' =>
      InterchainTokenService.its_hub_address c' = InterchainTokenService.its_hub_address c /\
      InterchainTokenService.chain_name c' = InterchainTokenService.chain_name c /\
      InterchainTokenService.bump c' = InterchainTokenService.bump c
  | DTokenManager t, DTokenManager t' =>
      TokenManager.ty t' = TokenManager.ty t /\ TokenManager.token_id t' = TokenManager.token_id t /\
      TokenManager.token_address t' = TokenManager.token_address t /\
      TokenManager.associated_token_account t' = TokenManager.associated_token_account t /\
      TokenManager.bump t' = TokenManager.bump t
  | _, _ => d' = d
  end.

(** Only roles accounts are closed. *)
Definition persists (m m' : ItsMap) : Prop := forall k d, m !! k = Some d ->
  (exists r, d = DUserRoles r) \/ exists d', m' !! k = Some d' /\ fixed d d'.

Lemma fixed_refl d : fixed d d.
Proof. by destruct d. Qed.

Lemma persists_refl m : persists m m.
Proof. intros k d H. right. exists d. split; [done|apply fixed_refl]. Qed.

(** An account that is new, or keeps its fixed fields, or has roles. *)
Definition may_put (m : ItsMap) (k : Pubkey) (d : AccountData) : Prop :=
  m !! k = None \/ exists d0, m !! k = Some d0 /\ ((exists r, d0 = DUserRoles r) \/ fixed d0 d).

Lemma persists_insert m k d : may_put m k d -> persists m (<[k := d]> m).
Proof.
  intros Hk j x Hj. destruct (decide (j = k)) as [->|Hne].
  - rewrite lookup_insert_eq. destruct Hk as [Hk|(d0 & Hk & [Hr|Hf])]; [congruence| |]; simplify_eq; [by left|].
    right. by exists d.
  - rewrite lookup_insert_ne by done. right. exists x. split; [done|apply fixed_refl].
Qed.

Lemma persists_insert_fresh m m' k d : persists m m' -> m' !! k = None -> persists m (<[k := d]> m').
Proof.
  intros Hm Hk j x Hj. destruct (Hm j x Hj) as [Hr|(d' & Hd & Hf)]; [by left|right].
  exists d'. rewrite lookup_insert_ne; [done|congruence].
Qed.

Lemma put_roles_lookup m k r j d :
  put_roles m k r !! j = Some d ->
  (j = k /\ d = DUserRoles r /\ UserRoles.roles r <> 0) \/ (j <> k /\ m !! j = Some d).
Proof.
  unfold put_roles, UserRoles.has_roles. destruct (negb _) eqn:Hr.
  - rewrite lookup_insert_Some. bool_props. intros [[<- <-]|[? ?]]; [left|right]; done.
  - rewrite lookup_delete_Some. intros [? ?]. right. by split.
Qed.

Lemma put_roles_other m k r j : j <> k -> put_roles m k r !! j = m !! j.
Proof.
  intros Hj. unfold put_roles. destruct (UserRoles.has_roles r);
    [by rewrite lookup_insert_ne|by rewrite lookup_delete_ne].
Qed.

Lemma persists_put m k r r0 : m !! k = Some (DUserRoles r0) -> persists m (put_roles m k r).
Proof.
  intros Hk j x Hj. destruct (decide (j = k)) as [->|Hne]; [left; exists r0; congruence|].
  right. exists x. rewrite put_roles_other by done. split; [done|apply fixed_refl].
Qed.

(** A roles account on top of a change that keeps the rest. *)
Lemma persists_roles m m' k r r0 :
  persists m m' -> m !! k = None \/ m !! k = Some (DUserRoles r0) -> persists m (<[k := DUserRoles r]> m').
Proof.
  intros Hm Hk j x Hj. destruct (decide (j = k)) as [->|Hne].
  - left. exists r0. destruct Hk; congruence.
  - rewrite lookup_insert_ne by done. by apply Hm.
Qed.

Lemma roles_or_new_cases m k r : roles_or_new m k r -> m !! k = None \/ m !! k = Some (DUserRoles r).
Proof. intros [H|[H _]]; auto. Qed.

Lemma flow_step_fixed now t n dir t' :
  flow_step now t n dir = Ok t' -> fixed (DTokenManager t) (DTokenManager t') /\ flow_limit_of t' = flow_limit_of t.
Proof.
  unfold flow_step. destruct (flow_limit_of t) as [l|] eqn:Hl; intros H; inv_result; [|by rewrite Hl].
  split; [done|].
  match goal with H : FlowState.add_flow _ _ _ = Ok _ |- _ => rename H into Ha end.
  assert (FlowState.flow_limit (FlowState.reset_for_epoch (TokenManager.flow_slot t) x) = Some l) as Hr.
  { unfold FlowState.reset_for_epoch. by case_match. }
  unfold FlowState.add_flow in Ha. rewrite Hr in Ha. destruct dir; by inv_result.
Qed.

Lemma add_chain_fixed c n : fixed (DIts c) (DIts (InterchainTokenService.add_trusted_chain c n)).
Proof. unfold InterchainTokenService.add_trusted_chain. by destruct (_ && _). Qed.

Lemma new_roles_persists m m1 k roles m' : persists m m1 -> new_roles m1 k roles m' -> persists m m'.
Proof.
  intros Hm [->|(kr & user & b & _ & _ & Hn & ->)]; [done|]. by apply persists_insert_fresh.
Qed.

Lemma change_persists e m m' : its_change e m m' -> persists m m'.
Proof.
  destruct 1 as [|s o k c b ko bo|s k c p|s k c n|s k c n|s root c k t l|root c k id t t' n dir
    |root c k t roles m'|role res s d ks rs kd rd b|s root c k t user ku ru b|s root c k t user ku ru|s root c k id t ks rs b].
  - apply persists_refl.
  - apply persists_insert_fresh; [|by rewrite lookup_insert_ne]. apply persists_insert. by left.
  - apply persists_insert. right. exists (DIts c). match goal with H : root_at _ _ _ |- _ => destruct H end.
    split; [done|by right].
  - apply persists_insert. right. exists (DIts c). match goal with H : root_at _ _ _ |- _ => destruct H end.
    split; [done|right; apply add_chain_fixed].
  - apply persists_insert. right. exists (DIts c). match goal with H : root_at _ _ _ |- _ => destruct H end.
    split; [done|by right].
  - apply persists_insert. right. exists (DTokenManager t). match goal with H : manager_at _ _ _ _ _ |- _ => destruct H end.
    split; [done|by right].
  - apply persists_insert. right. exists (DTokenManager t). match goal with H : manager_at _ _ _ _ _ |- _ => destruct H end.
    split; [done|right; by eapply flow_step_fixed].
  - eapply new_roles_persists; [|eassumption]. apply persists_insert. by left.
  - match goal with H : roles_at _ _ _ _ _ |- _ => destruct H end.
    eapply persists_roles; [by eapply persists_put|by apply roles_or_new_cases].
  - eapply persists_roles; [apply persists_refl|by apply roles_or_new_cases].
  - match goal with H : roles_at _ _ _ _ _ |- _ => destruct H end. by eapply persists_put.
  - eapply persists_roles; [apply persists_refl|by apply roles_or_new_cases].
Qed.

(** ** Well-formed accounts *)

(** An account with roles on it: the root or a token manager. *)
Definition is_resource (m : ItsMap) (k : Pubkey) : Prop :=
  (exists c, m !! k = Some (DIts c)) \/ exists t, m !! k = Some (DTokenManager t).

Definition entry_wf (m : ItsMap) (k : Pubkey) (d : AccountData) : Prop :=
  match d with
  | DIts c =>
      find_program_address InterchainTokenService.pda_seeds its_ID = Some (k, InterchainTokenService.bump c) /\
      NoDup (InterchainTokenService.trusted_chains c) /\ ITS_HUB_CHAIN_NAME ∉ InterchainTokenService.trusted_chains c
  | DTokenManager t => exists root,
      (exists c, m !! root = Some (DIts c)) /\
      find_program_address (TokenManager.pda_seeds (TokenManager.token_id t) root) its_ID
        = Some (k, TokenManager.bump t) /\
      (TokenManager.ty t = NativeInterchainToken ->
       exists b, find_program_address (TokenManager.mint_seeds (TokenManager.token_id t) root) its_ID
         = Some (TokenManager.token_address t, b))
  | DUserRoles r => 0 < UserRoles.roles r < 8 /\
      exists resource user, is_resource m resource /\ roles_address resource user k (UserRoles.bump r)
  | _ => False
  end.

Definition its_wf (m : ItsMap) : Prop := forall k d, m !! k = Some d -> entry_wf m k d.

Lemma persists_root m m' k : persists m m' -> (exists c, m !! k = Some (DIts c)) -> exists c, m' !! k = Some (DIts c).
Proof.
  intros Hp [c Hc]. destruct (Hp _ _ Hc) as [[r ?]|(d' & Hd & Hf)]; [done|]. destruct d'; try done. by eexists.
Qed.

Lemma persists_resource m m' k : persists m m' -> is_resource m k -> is_resource m' k.
Proof.
  intros Hp [Hc|[t Ht]]; [left; by eapply persists_root|right].
  destruct (Hp _ _ Ht) as [[r ?]|(d' & Hd & Hf)]; [done|]. destruct d'; try done. by eexists.
Qed.

Lemma entry_wf_persists m m' k d : persists m m' -> entry_wf m k d -> entry_wf m' k d.
Proof.
  intros Hp. destruct d; cbn; try done.
  - intros (root & Hr & ? & ?). exists root. split; [by eapply persists_root|done].
  - intros (? & res & user & Hr & ?). split; [done|]. exists res, user. split; [by eapply persists_resource|done].
Qed.

(** A change that persists is well formed when its new entries are. *)
Lemma wf_update m m' :
  its_wf m -> persists m m' -> (forall k d, m' !! k = Some d -> m !! k = Some d \/ entry_wf m' k d) -> its_wf m'.
Proof.
  intros Hw Hp Hn k d Hd. destruct (Hn k d Hd) as [H|H]; [|done]. eapply entry_wf_persists; [done|by apply Hw].
Qed.

(** ** Preservation *)

Lemma roles_bits x : 0 < x < 8 -> (x =? 0) = false.
Proof. intros H. apply Z.eqb_neq. lia. Qed.

(** The three roles are the bits of a number below 8. *)
Definition is_role (role : Z) : Prop := role = ROLE_MINTER \/ role = ROLE_OPERATOR \/ role = ROLE_FLOW_LIMITER.

Lemma role_cases (P : Z -> Prop) : (forall n, (n < 8)%nat -> P (Z.of_nat n)) -> forall x, 0 <= x < 8 -> P x.
Proof. intros H x Hx. rewrite <- (Z2Nat.id x) by lia. apply H. lia. Qed.

Lemma lor_role x role : 0 <= x < 8 -> is_role role -> 0 < Z.lor x role < 8.
Proof.
  intros Hx Hr. revert x Hx. apply role_cases. intros n Hn.
  do 8 (destruct n as [|n]; [destruct Hr as [->|[->| ->]]; vm_compute; done|]). lia.
Qed.

Lemma land_role x role : 0 <= x < 8 -> 0 <= Z.land x role < 8.
Proof.
  intros Hx. split; [apply Z.land_nonneg; lia|]. 
  assert (Z.land x 7 = x) as H7 by (change 7 with (Z.ones 3); rewrite Z.land_ones by lia; by apply Z.mod_small).
  rewrite <- H7, <- Z.land_assoc, (Z.land_comm 7), Z.land_assoc. change 7 with (Z.ones 3).
  rewrite Z.land_ones by lia. by apply Z.mod_pos_bound.
Qed.

Lemma transferable_role m res role : transferable m res role -> is_role role /\ is_resource m res.
Proof.
  intros [[-> [c [Hc _]]]|[Hr (root & c & t & _ & [Ht _])]].
  - split; [right; by left|left; by exists c].
  - split; [destruct Hr as [->| ->]; [right; by left|by left]|right; by exists t].
Qed.

(** The roles of a new or old account. *)
Lemma wf_roles_or_new m k r : its_wf m -> roles_or_new m k r -> 0 <= UserRoles.roles r < 8.
Proof. intros Hw [H|[_ ->]]; [destruct (Hw _ _ H) as [? _]; lia|done]. Qed.

(** A role that is given. *)
Lemma entry_wf_given m m' res user k b r role :
  its_wf m -> persists m m' -> roles_or_new m k r -> roles_address res user k b -> is_resource m res -> is_role role ->
  entry_wf m' k (DUserRoles (UserRoles.mk (Z.lor (UserRoles.roles r) role) b)).
Proof.
  intros Hw Hp Hr Ha Hres Hrole. split.
  - apply lor_role; [by eapply wf_roles_or_new|done].
  - exists res, user. split; [by eapply persists_resource|done].
Qed.

(** The roles that remain. *)
Lemma wf_put m m' k r0 role j d :
  its_wf m -> persists m m' -> m !! k = Some (DUserRoles r0) ->
  put_roles m k (UserRoles.remove r0 role) !! j = Some d -> m !! j = Some d \/ entry_wf m' j d.
Proof.
  intros Hw Hp Hk H. apply put_roles_lookup in H as [(-> & -> & Hn)|[_ H]]; [right|by left].
  destruct (Hw _ _ Hk) as (Hr & res & user & Hres & Ha). cbn [UserRoles.remove UserRoles.roles] in *. split.
  - cbn [UserRoles.roles UserRoles.remove] in *.
    pose proof (land_role (UserRoles.roles r0) (Z.lxor 255 role)). lia.
  - exists res, user. split; [by eapply persists_resource|done].
Qed.

Lemma add_chain_wf c n :
  NoDup (InterchainTokenService.trusted_chains c) -> ITS_HUB_CHAIN_NAME ∉ InterchainTokenService.trusted_chains c ->
  let c' := InterchainTokenService.add_trusted_chain c n in
  NoDup (InterchainTokenService.trusted_chains c') /\ ITS_HUB_CHAIN_NAME ∉ InterchainTokenService.trusted_chains c'.
Proof.
  intros Hn Hh. unfold InterchainTokenService.add_trusted_chain. destruct (_ && _) eqn:E; [|done]. bool_props.
  cbn. rewrite elem_of_app, list_elem_of_singleton. split; [|naive_solver].
  apply NoDup_app. split_and!; [done| |apply NoDup_singleton]. intros x Hx ->%list_elem_of_singleton. done.
Qed.

Lemma remove_chain_wf c n :
  NoDup (InterchainTokenService.trusted_chains c) -> ITS_HUB_CHAIN_NAME ∉ InterchainTokenService.trusted_chains c ->
  let c' := InterchainTokenService.remove_trusted_chain c n in
  NoDup (InterchainTokenService.trusted_chains c') /\ ITS_HUB_CHAIN_NAME ∉ InterchainTokenService.trusted_chains c'.
Proof.
  intros Hn Hh. cbn. split; [by apply NoDup_filter|]. rewrite list_elem_of_filter. naive_solver.
Qed.

Lemma new_roles_wf e m1 k root t roles m' :
  its_wf m1 -> m1 !! k = Some (DTokenManager t) -> deployment e root t roles -> new_roles m1 k roles m' -> its_wf m'.
Proof.
  intros Hw Hk Hd [->|(kr & user & b & Hne & Ha & Hn & ->)]; [done|].
  eapply wf_update; [exact Hw|apply persists_insert; by left|]. intros j d [[<- <-]|[_ H]]%lookup_insert_Some; [|by left].
  right. split.
  - destruct Hd; cbn; vm_compute; done.
  - exists k, user. split; [|exact Ha]. right. exists t. rewrite lookup_insert_ne; [done|congruence].
Qed.

#[local] Ltac put := intros ? ? [[<- <-]|[_ H]]%lookup_insert_Some; [right|left; exact H].

Lemma change_wf e m m' : its_wf m -> its_change e m m' -> its_wf m'.
Proof.
  intros Hw H. pose proof (change_persists _ _ _ H) as Hp. revert Hp.
  destruct H as [|s o k c b ko bo Hs Hu Ho Hf Hn Hc Hr Hrn Hne|s k c p Hs Hu [Hk Hc]|s k c n Hs Ha [Hk Hc]|s k c n Hs Ha [Hk Hc] Hn
    |s root c k t l Hs [Hroot _] [Hk Hc] Ha|root c k id t t' n dir [Hroot _] Hpa [Hk _] Ha Hfl
    |root c k t roles m' [Hroot _] Hpa Hf Hn Hsl Hd Hm|role res s d ks rs kd rd b Hs Hne Ht [Hk Hc] Hcon Haddr Hrd
    |s root c k t user ku ru b Hs Hroot [Hk _] Hop Haddr Hru|s root c k t user ku ru Hs Hroot [Hk _] Hop [Hu _]
    |s root c k id t ks rs b Hs Hroot [Hk _] Hty Hma Haddr Hrs]; intros Hp; [done|..].
  - eapply wf_update; [done|exact Hp|]. intros j x [[<- <-]|[_ [[<- <-]|[_ H]]%lookup_insert_Some]]%lookup_insert_Some;
      [right|right|by left].
    + split; [vm_compute; done|]. exists k, o. split; [|exact Hr]. left. exists c. by rewrite lookup_insert_ne, lookup_insert_eq.
    + rewrite Hc. split_and!; [exact Hf|apply NoDup_nil_2|set_solver].
  - eapply wf_update; [done|exact Hp|put]. exact (Hw _ _ Hk).
  - eapply wf_update; [done|exact Hp|put]. destruct (Hw _ _ Hk) as (Hf & Hnd & Hh). split.
    + destruct (add_chain_fixed c n) as (_ & _ & ->). done.
    + by apply add_chain_wf.
  - eapply wf_update; [done|exact Hp|put]. destruct (Hw _ _ Hk) as (Hf & Hnd & Hh). split; [done|by apply remove_chain_wf].
  - eapply wf_update; [done|exact Hp|put]. eapply (entry_wf_persists m); [exact Hp|exact (Hw _ _ Hk)].
  - eapply wf_update; [done|exact Hp|put]. eapply (entry_wf_persists m); [exact Hp|].
    apply flow_step_fixed in Hfl as [(E1 & E2 & E3 & E4 & E5) _]. pose proof (Hw _ _ Hk) as Hwf. cbn in *. by rewrite E1, E2, E3, E5.
  - assert (persists m (<[k := DTokenManager t]> m)) as Hp1 by (apply persists_insert; by left).
    eapply new_roles_wf; [|apply lookup_insert_eq|exact Hd|exact Hm].
    eapply wf_update; [done|exact Hp1|put]. eapply entry_wf_persists; [exact Hp1|].
    exists root. split_and!; [by eexists|exact Hf|]. intros Hty. destruct Hd as [b _ Hb _|Ho _|Ho _]; [by exists b|destruct Ho; congruence|congruence].
  - apply transferable_role in Ht as [Hrole Hres]. eapply wf_update; [done|exact Hp|].
    intros j x [[<- <-]|[_ H]]%lookup_insert_Some; [right; by eapply entry_wf_given|by eapply wf_put].
  - eapply wf_update; [done|exact Hp|put]. eapply (entry_wf_given m); [done|exact Hp|exact Hru|exact Haddr|right; by exists t|].
    right. by right.
  - eapply wf_update; [done|exact Hp|]. intros j x H. by eapply wf_put.
  - eapply wf_update; [done|exact Hp|put]. eapply (entry_wf_given m); [done|exact Hp|exact Hrs|exact Haddr|right; by exists t|].
    by left.
Qed.
End invariant.
