(* ===== verification/ItsAuthority.v ===== *)
(** * ITS: authority

    Who can change the configuration, the limits and the roles, proved on the rules of [its_change]. *)

From stdpp Require Import base gmap list.
From Stdlib Require Import ZArith Lia.
From S2P Require Import Prelude Errors External GatewayState ItsState Ledger LedgerLemmas ItsLemmas ItsSpec ItsInvariant.

Section authority.
Context {keccak : Keccak} {pda : SolanaPda} {ids : ProgramIds} {network : ItsNetwork}.

(** ** Configuration *)

(** The signers who may change the trusted chains of the root at [k]. *)
Definition chain_authority (e : ItsEnv) (m : ItsMap) (k : Pubkey) : Prop :=
  exists s, env_signed e s /\ (env_upgrade e s \/ has_role m k s ROLE_OPERATOR).

(** What happened to the root at [k]. *)
Definition root_change (e : ItsEnv) (m : ItsMap) (k : Pubkey) (c c' : InterchainTokenService.t) : Prop :=
  fixed (DIts c) (DIts c') /\
  (InterchainTokenService.paused c' = InterchainTokenService.paused c \/
   exists s, env_signed e s /\ env_upgrade e s) /\
  (InterchainTokenService.trusted_chains c' = InterchainTokenService.trusted_chains c \/ chain_authority e m k).

(** What happened to the token manager at [k]: its limit is set by an operator of ITS or by one of its
    own flow limiters, its flows change by a transfer while ITS is active. *)
Definition manager_change (e : ItsEnv) (m : ItsMap) (k : Pubkey) (t t' : TokenManager.t) : Prop :=
  fixed (DTokenManager t) (DTokenManager t') /\
  (t' = t \/
   (exists l, t' = TokenManager.set_flow_slot t (FlowState.set_flow_limit (TokenManager.flow_slot t) l) /\
      exists s, env_signed e s /\ (has_role m k s ROLE_FLOW_LIMITER \/
        exists root c, root_at m root c /\ has_role m root s ROLE_OPERATOR)) \/
   (exists n dir, flow_step (env_now e) t n dir = Ok t' /\ (dir = FlowIn -> env_hub e) /\
      exists root c, root_at m root c /\ InterchainTokenService.paused c = false)).

Lemma root_change_refl e m k c : root_change e m k c c.
Proof. split_and!; [apply fixed_refl|by left..]. Qed.

Lemma manager_change_refl e m k t : manager_change e m k t t.
Proof. split; [apply fixed_refl|by left]. Qed.

(** An account that is neither of the two at [k] stays as it is. *)
Lemma lookup_insert_none (m : ItsMap) j d k x : m !! j = None -> m !! k = Some x -> <[j := d]> m !! k = Some x.
Proof. intros Hj Hk. rewrite lookup_insert_ne; [done|congruence]. Qed.

Lemma new_roles_keeps m k roles m' j x : new_roles m k roles m' -> m !! j = Some x -> m' !! j = Some x.
Proof. intros [->|(kr & u & b & _ & _ & Hn & ->)] Hj; [done|by apply lookup_insert_none]. Qed.

Lemma roles_change_keeps (m : ItsMap) k r d j x :
  roles_or_new m k r -> (forall r, x <> DUserRoles r) -> m !! j = Some x -> <[k := d]> m !! j = Some x.
Proof. intros Hr Hx Hj. rewrite lookup_insert_ne; [done|]. intros ->. destruct Hr as [?|[? _]]; naive_solver. Qed.

Lemma put_roles_keeps m k r0 r j x :
  m !! k = Some (DUserRoles r0) -> (forall r, x <> DUserRoles r) -> m !! j = Some x -> put_roles m k r !! j = Some x.
Proof. intros Hr Hx Hj. rewrite put_roles_other; [done|]. intros ->. naive_solver. Qed.

(** An account other than a roles account changes in four rules only. *)
Inductive account_change (e : ItsEnv) (m : ItsMap) (k : Pubkey) : AccountData -> AccountData -> Prop :=
| AcSame d : account_change e m k d d
| AcRoot c c' : root_change e m k c c' -> account_change e m k (DIts c) (DIts c')
| AcManager t t' : manager_change e m k t t' -> account_change e m k (DTokenManager t) (DTokenManager t').

Lemma account_insert e m j d d' k x :
  m !! j = Some d -> account_change e m j d d' -> m !! k = Some x ->
  exists x', <[j := d']> m !! k = Some x' /\ account_change e m k x x'.
Proof.
  intros Hj Hd Hk. destruct (decide (k = j)) as [->|Hne].
  - exists d'. rewrite lookup_insert_eq. split; [done|]. congruence.
  - exists x. rewrite lookup_insert_ne by done. split; [done|apply AcSame].
Qed.

Lemma change_accounts e m m' k x :
  its_change e m m' -> m !! k = Some x -> (forall r, x <> DUserRoles r) ->
  exists x', m' !! k = Some x' /\ account_change e m k x x'.
Proof.
  intros H Hk Hx.
  assert (forall y, m' !! k = Some y -> y = x -> exists x', m' !! k = Some x' /\ account_change e m k x x') as Hsame.
  { intros y Hy ->. exists x. split; [done|apply AcSame]. }
  destruct H as [|s o j c b ko bo Hs Hu Ho Hf Hn Hc Hr Hrn Hne|s j c p Hs Hu [Hj _]|s j c n Hs Ha [Hj _]|s j c n Hs Ha [Hj _] Hn
    |s root c j t l Hs Hroot [Hj _] Ha|root c j id t t' n dir Hroot Hpa [Hj _] Ha Hfl
    |root c j t roles m' _ _ _ Hn _ _ Hm|role res s d ks rs kd rd b Hs Hne Ht [Hj _] Hcon _ Hrd
    |s root c j t user ku ru b _ _ _ _ _ Hru|s root c j t user ku ru _ _ _ _ [Hu _]|s root c j id t ks rs b _ _ _ _ _ _ Hrs].
  - by apply (Hsame x).
  - apply (Hsame x); [|done]. apply lookup_insert_none; [by rewrite lookup_insert_ne|by apply lookup_insert_none].
  - eapply account_insert; [exact Hj| |done]. apply AcRoot. split_and!; [done|right; by exists s|by left].
  - eapply account_insert; [exact Hj| |done]. apply AcRoot. split_and!; [apply add_chain_fixed| |right; by exists s].
    left. unfold InterchainTokenService.add_trusted_chain. by destruct (_ && _).
  - eapply account_insert; [exact Hj| |done]. apply AcRoot. split_and!; [done|by left|right; by exists s].
  - eapply account_insert; [exact Hj| |done]. apply AcManager. split; [done|]. right. left. exists l. split; [done|].
    exists s. split; [done|]. destruct Ha; [right; by exists root, c|by left].
  - eapply account_insert; [exact Hj| |done]. apply AcManager. split; [by eapply flow_step_fixed|].
    right. right. exists n, dir. split_and!; [done|by intros ->|by exists root, c].
  - apply (Hsame x); [|done]. eapply new_roles_keeps; [exact Hm|]. by apply lookup_insert_none.
  - apply (Hsame x); [|done]. rewrite lookup_insert_ne; [by eapply put_roles_keeps|].
    intros ->. destruct Hrd as [?|[? _]]; naive_solver.
  - apply (Hsame x); [|done]. by eapply roles_change_keeps.
  - apply (Hsame x); [|done]. by eapply put_roles_keeps.
  - apply (Hsame x); [|done]. by eapply roles_change_keeps.
Qed.

(** ** Roles *)

(** The roles account at [k] has the role. *)
Definition holds (m : ItsMap) (k : Pubkey) (role : Z) : Prop :=
  exists r, m !! k = Some (DUserRoles r) /\ Z.land (UserRoles.roles r) role = role.

(** Why a role may be given at the address [k]: it is transferred by a holder, an operator of the token
    appoints a flow limiter, the authority of a mint hands it over and becomes the minter, or the token
    manager (or ITS itself) is being created. *)
Definition granted (e : ItsEnv) (m : ItsMap) (k : Pubkey) (role : Z) : Prop :=
  exists resource user b, roles_address resource user k b /\
    ((exists s, env_signed e s /\ has_role m resource s role /\ transferable m resource role) \/
     (role = ROLE_FLOW_LIMITER /\ exists s, env_signed e s /\ has_role m resource s ROLE_OPERATOR) \/
     (role = ROLE_MINTER /\ env_signed e user /\ exists t, m !! resource = Some (DTokenManager t) /\
        (TokenManager.ty t = MintBurn \/ TokenManager.ty t = MintBurnFrom) /\
        env_mint_authority e (TokenManager.token_address t) user) \/
     (role = ROLE_OPERATOR /\ m !! resource = None /\ env_signed e user /\
        exists s, env_signed e s /\ env_upgrade e s) \/
     (m !! resource = None /\ exists root t roles,
        find_program_address (TokenManager.pda_seeds (TokenManager.token_id t) root) its_ID
          = Some (resource, TokenManager.bump t) /\
        deployment e root t roles /\ Z.land roles role = role)).

(** Why a role may be taken away: its holder transfers, or an operator of the token dismisses a flow
    limiter. *)
Definition revoked (e : ItsEnv) (m : ItsMap) (k : Pubkey) (role : Z) : Prop :=
  exists resource user r, roles_at m k resource user r /\
    ((env_signed e user /\ transferable m resource role) \/
     (role = ROLE_FLOW_LIMITER /\ exists s, env_signed e s /\ has_role m resource s ROLE_OPERATOR)).

Lemma land_lor_role x a b : is_role a -> is_role b -> Z.land (Z.lor x a) b = b -> Z.land x b = b \/ a = b.
Proof.
  intros Ha Hb. rewrite Z.land_lor_distr_l. destruct (decide (a = b)) as [|Hne]; [by right|].
  assert (Z.land a b = 0) as ->; [destruct Ha as [->|[->| ->]], Hb as [->|[->| ->]]; done|].
  rewrite Z.lor_0_r. by left.
Qed.

Lemma land_mono x y b : Z.land (Z.land x y) b = b -> Z.land x b = b.
Proof. intros H. rewrite <- H at 1. rewrite Z.land_assoc, (Z.land_assoc x x), Z.land_diag. exact H. Qed.

(** Removing another role keeps this one. *)
Lemma land_remove x a b : is_role a -> is_role b -> a <> b -> Z.land x b = b -> Z.land (Z.land x (Z.lxor 255 a)) b = b.
Proof.
  intros Ha Hb Hne Hx. rewrite <- Z.land_assoc, (Z.land_comm (Z.lxor 255 a)), Z.land_assoc, Hx.
  destruct Ha as [->|[->| ->]], Hb as [->|[->| ->]]; done.
Qed.

Lemma roles_or_new_holds m k r role :
  is_role role -> roles_or_new m k r -> Z.land (UserRoles.roles r) role = role -> holds m k role.
Proof.
  intros Hr [H|[_ ->]] Hl; [by exists r|]. cbn in Hl. destruct Hr as [->|[->| ->]]; done.
Qed.

Lemma put_holds m ks rs a k b :
  m !! ks = Some (DUserRoles rs) -> holds (put_roles m ks (UserRoles.remove rs a)) k b -> holds m k b.
Proof.
  intros Hk (r & Hr & Hl). apply put_roles_lookup in Hr as [(-> & [= ->] & _)|[_ Hr]]; [|by exists r].
  exists rs. split; [done|]. cbn in Hl. by eapply land_mono.
Qed.

Lemma given_holds m m1 k r a bump j role :
  is_role a -> is_role role -> roles_or_new m k r -> (holds m1 j role -> holds m j role) ->
  holds (<[k := DUserRoles (UserRoles.mk (Z.lor (UserRoles.roles r) a) bump)]> m1) j role ->
  holds m j role \/ (j = k /\ a = role).
Proof.
  intros Ha Hr Hk Hm (x & Hx & Hl). apply lookup_insert_Some in Hx as [[<- [= <-]]|[_ Hx]].
  - cbn in Hl. apply land_lor_role in Hl as [Hl| ->]; [left; by eapply roles_or_new_holds|by right|done..].
  - left. apply Hm. by exists x.
Qed.

(** ** Who gives and takes roles *)

Lemma holds_insert_other (m : ItsMap) j d k role :
  holds (<[j := d]> m) k role -> (forall r, d <> DUserRoles r) -> holds m k role.
Proof.
  intros (r & Hr & Hl) Hd. apply lookup_insert_Some in Hr as [[_ Hr]|[_ Hr]]; [by destruct (Hd r)|by exists r].
Qed.

(** Roles that are there stay when accounts are added. *)
Lemma holds_insert_kept (m : ItsMap) j d k role :
  (forall r, m !! j <> Some (DUserRoles r)) -> holds m k role -> holds (<[j := d]> m) k role.
Proof.
  intros Hj (r & Hr & Hl). exists r. split; [|done]. rewrite lookup_insert_ne; [done|]. intros ->. by apply (Hj r).
Qed.

Lemma given_kept m m1 k r a bump j role :
  roles_or_new m k r -> (holds m j role -> j <> k -> holds m1 j role) -> is_role role -> holds m j role ->
  holds (<[k := DUserRoles (UserRoles.mk (Z.lor (UserRoles.roles r) a) bump)]> m1) j role.
Proof.
  intros Hk Hm Hrole Hj. destruct (decide (j = k)) as [->|Hne].
  - eexists. split; [apply lookup_insert_eq|]. cbn. rewrite Z.land_lor_distr_l.
    destruct Hj as (x & Hx & Hl), Hk as [Hk|[Hk _]]; [|congruence]. assert (x = r) as -> by congruence.
    rewrite Hl. destruct Hrole as [->|[->| ->]]; apply Z.bits_inj'; intros i Hi; rewrite Z.lor_spec, Z.land_spec;
      by destruct (Z.testbit a i), (Z.testbit _ i).
  - destruct (Hm Hj Hne) as (x & Hx & Hl). exists x. by rewrite lookup_insert_ne.
Qed.

Lemma change_grants e m m' k role :
  its_change e m m' -> is_role role -> ~ holds m k role -> holds m' k role -> granted e m k role.
Proof.
  intros H Hrole Hno Hyes.
  destruct H as [|s o j c b ko bo Hs Hu Ho Hf Hn Hc Hr Hrn Hne|s j c p Hs Hu [Hj _]|s j c n Hs Ha [Hj _]|s j c n Hs Ha [Hj _] Hn
    |s root c j t l Hs Hroot [Hj _] Ha|root c j id t t' n dir Hroot Hpa [Hj _] Ha Hfl
    |root c j t roles m' _ _ Hf Hn _ Hd Hm|a res s d ks rs kd rd b Hs Hne Ht Hks Hcon Hrd Hnew
    |s root c j t user ku ru b Hs _ _ Hop Hku Hnew|s root c j t user ku ru _ _ _ _ [Hu _]
    |s root c j id t ks rs b Hs _ [Ht _] Hty Hma Hks Hnew].
  - done.
  - destruct Hyes as (r & [[<- [= <-]]|[_ Hr']]%lookup_insert_Some & Hl).
    + exists j, o, bo. split; [done|]. right. right. right. left. split_and!; [|done|done|by exists s].
      destruct Hrole as [->|[->| ->]]; done.
    + destruct Hno. apply (holds_insert_other m j (DIts c)); [by exists r|done].
  - destruct Hno. by eapply holds_insert_other.
  - destruct Hno. by eapply holds_insert_other.
  - destruct Hno. by eapply holds_insert_other.
  - destruct Hno. by eapply holds_insert_other.
  - destruct Hno. by eapply holds_insert_other.
  - destruct Hm as [->|(kr & user & b & _ & Ha & _ & ->)]; [destruct Hno; by eapply holds_insert_other|].
    destruct Hyes as (r & [[<- [= <-]]|[_ Hr']]%lookup_insert_Some & Hl).
    + exists j, user, b. split; [done|]. right. right. right. right. split; [done|]. by exists root, t, roles.
    + destruct Hno. apply (holds_insert_other m j (DTokenManager t)); [by exists r|done].
  - pose proof (transferable_role _ _ _ Ht) as [Ha _]. 
    destruct (given_holds m _ kd rd a b k role Ha Hrole Hnew (put_holds m ks rs a k role (proj1 Hks)) Hyes)
      as [?|[-> <-]]; [done|].
    exists res, d, b. split; [done|]. left. exists s. split_and!; [done|by exists ks, rs|done].
  - destruct (given_holds m m ku ru ROLE_FLOW_LIMITER b k role (or_intror (or_intror eq_refl)) Hrole Hnew (fun H => H) Hyes)
      as [?|[-> <-]]; [done|].
    exists j, user, b. split; [done|]. right. left. split; [done|]. by exists s.
  - destruct Hno. by eapply put_holds.
  - destruct (given_holds m m ks rs ROLE_MINTER b k role (or_introl eq_refl) Hrole Hnew (fun H => H) Hyes)
      as [?|[-> <-]]; [done|].
    exists j, s, b. split; [done|]. right. right. left. split_and!; [done|done|]. by exists t.
Qed.

(** Roles that are no longer there were on the account that lost one. *)
Lemma put_loses m ks rs a k b :
  is_role a -> is_role b -> m !! ks = Some (DUserRoles rs) -> holds m k b ->
  ~ holds (put_roles m ks (UserRoles.remove rs a)) k b -> k = ks /\ a = b.
Proof.
  intros Ha Hb Hk (x & Hx & Hl) Hno. destruct (decide (k = ks)) as [->|Hne].
  - split; [done|]. destruct (decide (a = b)) as [|Hab]; [done|]. destruct Hno. assert (x = rs) as -> by congruence.
    pose proof (land_remove (UserRoles.roles rs) a b Ha Hb Hab Hl) as Hl'.
    exists (UserRoles.remove rs a). split; [|done]. unfold put_roles, UserRoles.has_roles.
    destruct (negb _) eqn:E; [apply lookup_insert_eq|]. apply negb_false_iff, Z.eqb_eq in E. cbn in E, Hl'.
    rewrite E in Hl'. destruct Hb as [->|[->| ->]]; done.
  - destruct Hno. exists x. by rewrite put_roles_other.
Qed.

Lemma change_revokes e m m' k role :
  its_change e m m' -> is_role role -> holds m k role -> ~ holds m' k role -> revoked e m k role.
Proof.
  intros H Hrole Hyes Hno.
  destruct H as [|s o j c b ko bo Hs Hu Ho Hf Hn Hc Hr Hrn Hne|s j c p Hs Hu [Hj _]|s j c n Hs Ha [Hj _]|s j c n Hs Ha [Hj _] Hn
    |s root c j t l Hs Hroot [Hj _] Ha|root c j id t t' n dir Hroot Hpa [Hj _] Ha Hfl
    |root c j t roles m' _ _ Hf Hn _ Hd Hm|a res s d ks rs kd rd b Hs Hne Ht Hks Hcon Hrd Hnew
    |s root c j t user ku ru b Hs _ _ Hop Hku Hnew|s root c j t user ku ru Hs _ _ Hop Hu
    |s root c j id t ks rs b Hs _ [Ht _] Hty Hma Hks Hnew]; [done|..].
  2-6: destruct Hno; apply holds_insert_kept; [intros r; congruence|done].
  - destruct Hno. apply holds_insert_kept; [intros r; rewrite lookup_insert_ne; congruence|].
    apply holds_insert_kept; [intros r; congruence|done].
  - destruct Hno. assert (holds (<[j := DTokenManager t]> m) k role) as Hk by
      (apply holds_insert_kept; [intros r; congruence|done]).
    destruct Hm as [->|(kr & user & b & _ & _ & Hkr & ->)]; [done|]. apply holds_insert_kept; [intros r; congruence|done].
  - pose proof (transferable_role _ _ _ Ht) as [Ha _].
    assert (k = ks /\ a = role) as [-> ->].
    { eapply put_loses; [done|done|exact (proj1 Hks)|exact Hyes|]. intros Hp. apply Hno.
      apply (given_kept m); [done|by intros _ _|done|done]. }
    exists res, s, rs. split; [done|]. left. by split.
  - destruct Hno. by apply (given_kept m).
  - assert (k = ku /\ ROLE_FLOW_LIMITER = role) as [-> <-].
    { eapply put_loses; [right; by right|done|exact (proj1 Hu)|exact Hyes|exact Hno]. }
    exists j, user, ru. split; [done|]. right. split; [done|]. by exists s.
  - destruct Hno. by apply (given_kept m).
Qed.
End authority.
