(* ===== verification/ItsCustody.v ===== *)
(** * ITS: custody of tokens

    What the instructions of ITS do to the accounts of the token programs: which balances can fall, which
    supplies can grow, and on whose authority. *)

From stdpp Require Import base gmap list.
From Stdlib Require Import ZArith Lia.
From S2P Require Import Prelude Errors External StdInts StdTypes GatewayState Payload ItsState Ledger LedgerLemmas SplToken Gateway GatewayLemmas Executable GasService Its ItsOutbound ItsDeploy ItsExecute ItsLemmas ItsSpec ItsTransfers ItsRefines.

Section custody.
Context {keccak : Keccak} {merkle : RsMerkle} {secp : Secp256k1} {bits : BitVec} {bnum : Bnum}
  {pda : SolanaPda} {ids : ProgramIds} {system : SolanaSystem} {realloc : AnchorRealloc} {spl : SplToken}
  {network : ItsNetwork} {runtime : Runtime}.
Context {leaf_digest : Digestable VerifierSetLeaf} {message_digest : Digestable Message}
  {message_leaf_digest : Digestable MessageLeaf}.
Context {vecs : BorshVec} {abi : SolAbi}.
Context {hub_codec : Borsh encoding.HubMessage} {token_payload_codec : Borsh AxelarExecuteWithInterchainTokenPayload}.
Context {ids_laws : ProgramIdsLaws} {pda_laws : SolanaPdaLaws} {system_laws : SolanaSystemLaws}
  {spl_laws : SplTokenLaws} {realloc_laws : AnchorReallocLaws} {runtime_laws : ItsRuntimeLaws}.

(** ** Frames *)

(** Apart from the accounts in [ks], each with its token program, the existing mints and token accounts
    are as they were, and new ones are empty. *)
Definition touches (ks : list (Pubkey * Pubkey)) (w w' : World) : Prop :=
  forall p k, is_token_program p = true -> (p, k) ∉ ks ->
    (is_Some (owned_bytes (ledger w) p k) -> owned_bytes (ledger w') p k = owned_bytes (ledger w) p k) /\
    balance (ledger w') p k = balance (ledger w) p k.

(** ... and no account of ITS is closed. *)
Definition frame (ks : list (Pubkey * Pubkey)) (w w' : World) : Prop :=
  touches ks w w' /\ forall k, is_Some (its w !! k) -> is_Some (its w' !! k).

Lemma touches_trans ks w1 w2 w3 : touches ks w1 w2 -> touches ks w2 w3 -> touches ks w1 w3.
Proof.
  intros H1 H2 p k Hp Hk. destruct (H1 p k Hp Hk) as [E1 B1], (H2 p k Hp Hk) as [E2 B2].
  split; [|congruence]. intros Hs. rewrite E2; rewrite E1; done.
Qed.

(** All accounts of the token programs are the same. *)
Lemma touches_same ks w w' :
  (forall p k, is_token_program p = true -> (p, k) ∉ ks -> owned_bytes (ledger w') p k = owned_bytes (ledger w) p k) ->
  touches ks w w'.
Proof. intros H p k Hp Hk. split; [intros _; by apply H|]. unfold balance, token_at. by rewrite H. Qed.

Lemma frame_touches ks w w' : frame ks w w' -> touches ks w w'.
Proof. by intros [? _]. Qed.

Lemma frame_refl ks w : frame ks w w.
Proof. by split. Qed.

Lemma frame_trans ks w1 w2 w3 : frame ks w1 w2 -> frame ks w2 w3 -> frame ks w1 w3.
Proof. intros [H1 A1] [H2 A2]. split; [by eapply touches_trans|auto]. Qed.

Lemma frame_weaken ks w w' : frame [] w w' -> frame ks w w'.
Proof. intros [H A]. split; [|done]. intros p k Hp _. apply H; [done|set_solver]. Qed.

(** Operations that leave the accounts of the other programs. *)
Lemma frame_states w w' :
  (forall pid, pid <> its_ID -> pid <> system_program_ID -> state_of pid w' = state_of pid w) ->
  (forall k, is_Some (its w !! k) -> is_Some (its w' !! k)) -> frame [] w w'.
Proof.
  intros H A. split; [|done]. apply touches_same. intros p k Hp _. destruct (token_program_not_its _ Hp) as [Hi Hs].
  rewrite !owned_bytes_state. by rewrite H.
Qed.

Lemma frame_same w w' ks : ledger w' = ledger w -> frame ks w w'.
Proof. intros E. apply frame_weaken, frame_states; unfold its, state_of; by rewrite E. Qed.

Lemma frame_quiet w w' : quiet w w' -> frame [] w w'.
Proof.
  intros Hq. apply frame_states; [|intros k; by rewrite (quiet_its _ _ Hq)].
  intros pid _ Hs. by apply (proj1 Hq).
Qed.

Lemma frame_store {T} (acc : AnchorAccount T) k (x : T) w u w' :
  store k x w = Ok (u, w') -> is_Some (its w !! k) -> frame [] w w'.
Proof.
  intros H [d Hd]. eapply its_store in H as (Hi & Ho & _); [|exact Hd]. apply frame_states; [auto|].
  intros j Hj. rewrite Hi. apply lookup_insert_is_Some'. auto.
Qed.

Lemma touches_close k dest w u w' :
  close_account k dest w = Ok (u, w') -> is_Some (its w !! k) -> touches [] w w'.
Proof.
  intros H [d Hd]. apply touches_same. intros p j Hp _. destruct (token_program_not_its _ Hp) as [Hi Hs].
  eapply close_account_ok in H as (H & _); [|exact Hs]. rewrite !owned_bytes_state, H.
  destruct (decide (j = k)) as [->|Hj]; [|by rewrite lookup_delete_ne].
  rewrite lookup_delete_eq. destruct (state_of p w !! k) as [x|] eqn:Hx; [|done].
  apply state_of_lookup in Hx as [? Hx], Hd as [? Hd]. congruence.
Qed.

Lemma frame_init T (acc : AnchorAccount T) payer k space seeds w b w' :
  program_of (T := T) = its_ID -> init_account T payer k space seeds w = Ok (b, w') ->
  frame [] w w' /\ is_Some (its w' !! k).
Proof.
  intros Hp H. pose proof (its_init_account _ _ _ _ _ _ _ _ _ Hp H) as (_ & _ & Hi & _).
  apply init_account_ok in H as (_ & _ & _ & Ho & _); [|rewrite Hp; apply its_not_system]. rewrite Hp in Ho.
  split; [|rewrite Hi; apply lookup_insert_is_Some'; by left].
  apply frame_states; [auto|]. intros j Hj. rewrite Hi. apply lookup_insert_is_Some'. auto.
Qed.

Lemma frame_roles payer k resource user w x w' :
  init_user_roles payer k resource user w = Ok (x, w') -> frame [] w w' /\ is_Some (its w' !! k).
Proof.
  intros H. pose proof (init_user_roles_ok _ _ _ _ _ _ _ H) as (_ & _ & Hi & _).
  assert (is_Some (its w' !! k)) as Hk by (rewrite Hi; apply lookup_insert_is_Some'; by left). split; [|done].
  unfold init_user_roles, init_if_needed in H. case_bool_decide; inv_instr; [|apply frame_refl].
  match goal with H : init_account _ _ _ _ _ _ = _ |- _ => by apply frame_init in H as [? _] end.
Qed.

Lemma frame_optional_roles payer manager user roles missing w x w' :
  init_optional_roles payer manager user roles missing w = Ok (x, w') ->
  frame [] w w' /\ forall i b, roles = Some i -> x = Some b -> is_Some (its w' !! key i).
Proof.
  unfold init_optional_roles. destruct roles as [r|]; intros H; inv_instr; [|split; [apply frame_refl|done]].
  match goal with H : init_account _ _ _ _ _ _ = _ |- _ => apply frame_init in H as [? ?]; [|done] end.
  split; [done|]. by intros i b [= <-] _.
Qed.

Lemma frame_store_optional roles x r w u w' :
  store_optional_roles roles x r w = Ok (u, w') ->
  (forall i b, roles = Some i -> x = Some b -> is_Some (its w !! key i)) -> frame [] w w'.
Proof.
  unfold store_optional_roles. destruct roles as [i|], x as [b|]; intros H Hk; inv_instr; try apply frame_refl.
  apply (frame_store _ _ _ _ _ _ H). by eapply Hk.
Qed.

(** *** Token programs *)

Lemma frame_invoke p ix ks w u w' :
  token_cpi p ix w = Ok (u, w') ->
  (forall L', token_invoke p ix (ledger w) = Ok L' -> forall q j, is_token_program q = true -> (q, j) ∉ ks ->
     owned_bytes L' q j = owned_bytes (ledger w) q j) -> frame ks w w'.
Proof.
  intros H Hks. pose proof (token_cpi_its _ _ _ _ _ H) as (Hi & _).
  apply token_cpi_ok in H as (L & HL & ->). split; [|intros k; by rewrite Hi].
  apply touches_same. intros q j Hq Hj. by apply Hks.
Qed.

Lemma frame_ata payer k mint authority p w u w' :
  associated_token_if_needed payer k mint authority p w = Ok (u, w') -> frame [] w w'.
Proof.
  intros H. pose proof (associated_token_if_needed_ok _ _ _ _ _ _ _ _ H) as (Hst & _).
  split; [|intros j; unfold its; by rewrite Hst by apply its_in_repository].
  unfold associated_token_if_needed in H. inv_instr. bool_props.
  match goal with H : load_token_account _ _ = _ |- _ => apply load_token_account_ok in H as (-> & _) end.
  match goal with H : (if bool_decide ?P then _ else _) _ = _ |- _ => destruct (bool_decide P) eqn:Hb; inv_instr end;
    [|by apply touches_same].
  bool_props. match goal with H : token_cpi _ _ _ = _ |- _ => apply token_cpi_ok in H as (L & HL & ->) end.
  apply create_associated_ok in HL as [Hk Ho].
  intros q j Hq _. cbn [ledger]. match type of Hk with token_at _ _ ?k0 = _ => destruct (decide (j = k0)) as [->|Hj] end.
  - pose proof (system_no_bytes _ _ _ Hq Hb) as Hn. split; [rewrite Hn; by intros []|].
    assert (balance (ledger w) q _ = 0) as -> by (unfold balance, token_at; by rewrite Hn).
    unfold balance. match type of Hk with token_at _ ?p0 _ = _ => destruct (decide (q = p0)) as [->|Hqp] end; [by rewrite Hk|].
    unfold token_at, owned_bytes in *. apply bind_Some in Hk as (b & Hk & _).
    destruct (L !! _) as [y|]; [|done]. cbn in *. do 2 case_bool_decide; done || congruence.
  - split; [intros _; by apply Ho|]. unfold balance, token_at. by rewrite Ho.
Qed.

Lemma frame_init_mint payer k decimals authority p seeds w b w' :
  is_token_program p = true -> init_mint payer k decimals authority p seeds w = Ok (b, w') ->
  frame [] w w' /\ (forall q, is_token_program q = true -> owned_bytes (ledger w) q k = None) /\
  mint_at (ledger w') p k = Some (mkMint (Some authority) 0 decimals).
Proof.
  intros Hp H. pose proof (init_mint_ok _ _ _ _ _ _ _ _ _ Hp H) as (_ & _ & Hi & _).
  unfold init_mint in H. inv_instr.
  match goal with H : with_ledger _ _ = _ |- _ => unfold with_ledger in H;
    destruct (sys_create_account _ _ _ _ _) as [L|] eqn:HL in H; [|done]; injection H as _ <- end.
  match goal with H : token_cpi _ _ _ = _ |- _ => apply token_cpi_ok in H as (L' & HL' & ->) end. cbn [ledger] in *.
  apply initialize_mint_ok in HL' as [Hm Ho].
  apply create_ok in HL as (Hu & Hpk & l & pa & pl & Hpa & Hpo & _ & _ & ->).
  assert (forall q, is_token_program q = true -> owned_bytes (ledger w) q k = None) as Hk.
  { intros q Hq. apply system_no_bytes; [done|]. unfold unused in Hu. destruct (ledger w !! k); [by destruct Hu|done]. }
  assert (forall q j, is_token_program q = true -> j <> k -> owned_bytes L' q j = owned_bytes (ledger w) q j) as Hj.
  { intros q j Hq Hne. unfold owned_bytes at 1. rewrite Ho by set_solver. rewrite lookup_insert_ne by done.
    destruct (decide (j = payer)) as [->|Hp']; [|by rewrite lookup_insert_ne].
    rewrite lookup_insert_eq, system_no_bytes; [|done|by rewrite Hpa]. cbn. rewrite Hpo.
    destruct (token_program_not_its q Hq) as [_ Hqs]. by rewrite bool_decide_eq_false_2 by congruence. }
  split_and!; [split; [|intros j; by rewrite Hi]|exact Hk|exact Hm]. intros q j Hq _.
  destruct (decide (j = k)) as [->|Hne]; [|split; [intros _; by apply Hj|unfold balance, token_at; by rewrite Hj]].
  split; [rewrite Hk by done; by intros []|]. unfold balance, token_at. rewrite Hk by done. cbn [ledger].
  unfold mint_at in Hm. apply bind_Some in Hm as (b & Hb & Hm).
  destruct (owned_bytes L' q k) as [b'|] eqn:Hb'; [|done]. cbn.
  assert (b' = b) as ->.
  { unfold owned_bytes in Hb, Hb'. destruct (L' !! k) as [y|]; [|done]. cbn in *. do 2 case_bool_decide; congruence. }
  by rewrite (mint_not_token b) by eauto.
Qed.

Lemma frame_metadata md mint mgr payer root id b n y w u w' :
  create_metadata_as_manager md mint mgr payer root id b n y w = Ok (u, w') ->
  frame [] w w' /\ forall p j, is_token_program p = true -> owned_bytes (ledger w') p j = owned_bytes (ledger w) p j.
Proof.
  unfold create_metadata_as_manager. intros H. inv_instr.
  repeat match goal with H : invoke_signed_account _ _ _ _ _ _ = _ |- _ =>
    apply invoke_signed_account_ok in H as (-> & -> & _) end.
  pose proof H as Hc. apply token_cpi_ok in Hc as (L & HL & ->). cbn [ledger] in *. split.
  - eapply frame_invoke; [exact H|]. intros L' HL' q j Hq _. by eapply create_metadata_ok.
  - intros p j Hp. by eapply create_metadata_ok.
Qed.

Lemma frame_emit ks w v n l : frame ks w v -> frame ks w (mkWorld (ledger v) n l).
Proof. intros H. eapply frame_trans; [exact H|by apply frame_same]. Qed.

Lemma touches_move_role role payer ko kd origin dest b w u w' :
  move_role role payer ko kd origin dest b w = Ok (u, w') ->
  is_Some (its w !! ko) -> is_Some (its w !! kd) -> touches [] w w'.
Proof.
  unfold move_role. intros H Ho Hd. apply instr_bind_ok in H as ([] & w1 & H1 & H).
  destruct (UserRoles.has_roles _).
  - pose proof (frame_store _ _ _ _ _ _ H1 Ho) as [Ht Ha].
    eapply touches_trans; [exact Ht|]. apply (frame_store _ _ _ _ _ _ H). by apply Ha.
  - eapply touches_trans; [by eapply touches_close|]. apply (frame_store _ _ _ _ _ _ H).
    pose proof (close_account_gone _ _ _ _ _ H1) as Hg. apply its_close in H1. rewrite H1.
    rewrite lookup_delete_ne; [done|]. intros ->. apply store_some in H as [? H]. congruence.
Qed.

(** ** Instructions that touch no token *)

#[local] Ltac its_norm :=
  unfold token_manager_seeds, user_roles_seeds, its_program_data, its_root_active, its_root_seeds, not_paused,
    token_interface, mint_token_program in *;
  inv_instr;
  cbn [fst snd wrap program_of zeroed_of Its_account TokenManager_account UserRoles_account ProgramData_account] in *;
  repeat match goal with
  | H : context [state_of its_ID ?w] |- _ => change (state_of its_ID w) with (its w) in H
  end.

(** The account at hand is one of ITS, by the chain of frames since it was read or created. *)
#[local] Ltac alive :=
  rewrite ?its_emit;
  match goal with
  | H : is_Some (its ?v !! ?k) |- is_Some (its ?v !! ?k) => exact H
  | H : its ?v !! ?k = Some _ |- is_Some (its ?v !! ?k) => by rewrite H
  | H : frame _ ?v0 ?v |- is_Some (its ?v !! _) => apply (proj2 H); alive
  end.

#[local] Ltac alive_optional :=
  rewrite ?its_emit;
  first [ solve [eauto]
        | match goal with F : frame _ _ ?v |- is_Some (its ?v !! _) => apply (proj2 F); alive_optional end ].

(** Each step of the run as a frame. *)
#[local] Ltac frames := repeat match goal with
  | H : load_mint _ _ = Ok _ |- _ => apply load_mint_ok in H as (-> & ? & ?)
  | H : load_token_account _ _ = Ok _ |- _ => apply load_token_account_ok in H as (-> & ? & ?)
  | H : mint_data _ _ = Ok _ |- _ => apply mint_data_ok in H as (-> & _)
  | H : hub_programs _ _ = Ok _ |- _ => apply hub_programs_ok in H as ->
  | H : remote_chain _ _ _ = Ok _ |- _ => apply remote_chain_ok in H as (-> & _)
  | H : optional_mut _ _ = Ok _ |- _ => apply optional_mut_ok in H as ->
  | H : link_constraints _ _ _ = Ok _ |- _ => apply link_constraints_ok in H as ->
  | H : has_token_metadata _ _ _ = Ok _ |- _ => apply has_token_metadata_ok in H as ->
  | H : get_token_metadata _ _ _ = Ok _ |- _ => apply get_token_metadata_ok in H as ->
  | H : validate_mint_extension_account _ _ _ = Ok _ |- _ => apply validate_mint_extension_account_ok in H as ->
  | H : gateway_root_seeds _ _ = Ok _ |- _ => apply gateway_root_seeds_ok in H as (? & _ & _ & ->)
  | H : invoke_account _ _ _ _ = Ok _ |- _ => apply invoke_account_ok in H as (-> & -> & _)
  | H : init_token_manager _ _ _ _ _ = Ok _ |- _ => unfold init_token_manager in H
  | H : init_account _ _ _ _ _ _ = Ok _ |- _ => apply frame_init in H as [? ?]; [|done]
  | H : init_user_roles _ _ _ _ _ = Ok _ |- _ => apply frame_roles in H as [? ?]
  | H : init_optional_roles _ _ _ _ _ _ = Ok _ |- _ => apply frame_optional_roles in H as [? ?]
  | H : associated_token_if_needed _ _ _ _ _ _ = Ok _ |- _ => apply frame_ata in H
  | H : create_metadata_as_manager _ _ _ _ _ _ _ _ _ _ = Ok _ |- _ => apply frame_metadata in H as [? ?]
  | H : init_mint _ _ _ _ _ _ _ = Ok _ |- _ => apply frame_init_mint in H as (? & ? & ?); [|by apply token_2022]
  | H : realloc_account _ _ _ _ = Ok _ |- _ => apply realloc_quiet in H as [H _]; apply frame_quiet in H
  | H : send_to_hub _ _ _ _ = Ok _ |- _ => apply send_to_hub_ok in H as (? & _ & H & _); apply frame_quiet in H
  | H : store _ _ _ = Ok _ |- _ => apply frame_store in H; [|alive]
  | H : store_optional_roles _ _ _ _ = Ok _ |- _ =>
      apply frame_store_optional in H; [|by intros; alive_optional]
  end.

(** The frames from the first world to the last. *)
#[local] Ltac chain :=
  first [ apply frame_refl
        | apply frame_emit; chain
        | match goal with H : frame _ ?v ?w' |- frame ?ks _ ?w' =>
            apply (frame_trans ks _ v w'); [chain|first [exact H|apply frame_weaken; exact H]] end ].

#[local] Ltac no_tokens := its_norm; frames; apply frame_touches; chain.

Lemma initialize_touches a n h w u w' : its_initialize a n h w = Ok (u, w') -> touches [] w w'.
Proof. unfold its_initialize. intros H. no_tokens. Qed.

Lemma set_pause_status_touches a p w u w' : set_pause_status a p w = Ok (u, w') -> touches [] w w'.
Proof. unfold set_pause_status. intros H. no_tokens. Qed.

Lemma set_trusted_chain_touches a c w u w' : set_trusted_chain a c w = Ok (u, w') -> touches [] w w'.
Proof.
  unfold set_trusted_chain. intros H. inv_instr.
  match goal with H : trusted_chain_accounts _ _ = _ |- _ => apply trusted_chain_accounts_ok in H as (-> & _ & ? & _) end.
  no_tokens.
Qed.

Lemma remove_trusted_chain_touches a c w u w' : remove_trusted_chain a c w = Ok (u, w') -> touches [] w w'.
Proof.
  unfold remove_trusted_chain. intros H. inv_instr.
  match goal with H : trusted_chain_accounts _ _ = _ |- _ => apply trusted_chain_accounts_ok in H as (-> & _ & ? & _) end.
  no_tokens.
Qed.

Lemma set_flow_limit_touches a l w u w' : set_flow_limit a l w = Ok (u, w') -> touches [] w w'.
Proof. unfold set_flow_limit. intros H. no_tokens. Qed.

Lemma set_token_manager_flow_limit_touches a l w u w' :
  set_token_manager_flow_limit a l w = Ok (u, w') -> touches [] w w'.
Proof. unfold set_token_manager_flow_limit. intros H. no_tokens. Qed.

#[local] Ltac moves_role :=
  its_norm; frames;
  match goal with F : frame [] ?w ?v, H : move_role _ _ _ _ _ _ _ ?v = Ok (_, ?w') |- _ =>
    eapply touches_trans; [exact (proj1 F)|]; eapply touches_move_role; [exact H|alive|alive] end.

Lemma its_transfer_operatorship_touches a w u w' : its_transfer_operatorship a w = Ok (u, w') -> touches [] w w'.
Proof. unfold its_transfer_operatorship. intros H. moves_role. Qed.

Lemma transfer_token_manager_operatorship_touches a w u w' :
  transfer_token_manager_operatorship a w = Ok (u, w') -> touches [] w w'.
Proof. unfold transfer_token_manager_operatorship. intros H. moves_role. Qed.

Lemma transfer_mintership_touches a w u w' :
  transfer_interchain_token_mintership a w = Ok (u, w') -> touches [] w w'.
Proof. unfold transfer_interchain_token_mintership. intros H. moves_role. Qed.

Lemma add_flow_limiter_touches a w u w' : add_token_manager_flow_limiter a w = Ok (u, w') -> touches [] w w'.
Proof. unfold add_token_manager_flow_limiter, flow_limiter_authority. intros H. no_tokens. Qed.

Lemma remove_flow_limiter_touches a w u w' : remove_token_manager_flow_limiter a w = Ok (u, w') -> touches [] w w'.
Proof.
  unfold remove_token_manager_flow_limiter, flow_limiter_authority. intros H. its_norm.
  match goal with H : (if UserRoles.has_roles ?r then _ else _) _ = _ |- _ =>
    destruct (UserRoles.has_roles r); [apply (frame_store _ _ _ _ _ _ H); alive|eapply touches_close; [exact H|alive]] end.
Qed.

Lemma register_canonical_touches a w x w' :
  register_canonical_interchain_token a w = Ok (x, w') -> touches [] w w'.
Proof. unfold register_canonical_interchain_token, register_canonical_accounts. intros H. no_tokens. Qed.

Lemma deploy_remote_touches a salt dc gas w u w' :
  deploy_remote_interchain_token a salt dc gas w = Ok (u, w') -> touches [] w w'.
Proof.
  unfold deploy_remote_interchain_token, send_remote_deployment, send_to_hub_wrap. intros H. no_tokens.
Qed.

Lemma deploy_remote_canonical_touches a dc gas w u w' :
  deploy_remote_canonical_interchain_token a dc gas w = Ok (u, w') -> touches [] w w'.
Proof.
  unfold deploy_remote_canonical_interchain_token, send_remote_deployment, send_to_hub_wrap. intros H. no_tokens.
Qed.

Lemma register_metadata_touches a gas w u w' : register_token_metadata a gas w = Ok (u, w') -> touches [] w w'.
Proof. unfold register_token_metadata. intros H. no_tokens. Qed.

Lemma link_token_touches a salt dc d ty p gas w x w' : link_token a salt dc d ty p gas w = Ok (x, w') -> touches [] w w'.
Proof. unfold link_token, send_to_hub_wrap. intros H. no_tokens. Qed.

(** *** Calls that change tokens *)

Lemma frame_written p ix w u w' :
  is_token_program p = true -> token_cpi p ix w = Ok (u, w') -> writes ix = true ->
  frame ((fun k => (p, k)) <$> written ix) w w'.
Proof.
  intros Hp H Hw. eapply frame_invoke; [exact H|]. intros L HL q j Hq Hj.
  eapply written_keeps; [exact Hp|exact HL|exact Hw|exact Hq|]. intros -> Hin. apply Hj, list_elem_of_fmap. by exists j.
Qed.

(** ** Instructions that change tokens *)

Lemma touches_mint ks w w' p k m :
  touches ks w w' -> is_token_program p = true -> (p, k) ∉ ks -> mint_at (ledger w) p k = Some m ->
  mint_at (ledger w') p k = Some m.
Proof.
  intros H Hp Hk (b & Hb & Hm)%bind_Some. destruct (H p k Hp Hk) as [E _]. unfold mint_at. rewrite E; by rewrite Hb.
Qed.

Lemma touches_token ks w w' p k t :
  touches ks w w' -> is_token_program p = true -> (p, k) ∉ ks -> token_at (ledger w) p k = Some t ->
  token_at (ledger w') p k = Some t.
Proof.
  intros H Hp Hk (b & Hb & Hm)%bind_Some. destruct (H p k Hp Hk) as [E _]. unfold token_at. rewrite E; by rewrite Hb.
Qed.

(** [token_interface::mint_to] by a token manager. *)
Lemma mint_as_manager_effect p mint to mgr root id b n w u w' :
  is_token_program p = true -> mint_as_manager p mint to mgr root id b n w = Ok (u, w') ->
  frame [(p, key mint); (p, key to)] w w' /\
  exists ms ts, mint_at (ledger w) p (key mint) = Some ms /\ ms_mint_authority ms = Some (key mgr) /\
    0 <= n /\ ms_supply ms + n < 2 ^ 64 /\ mint_at (ledger w') p (key mint) = Some (with_supply ms (ms_supply ms + n)) /\
    token_at (ledger w) p (key to) = Some ts /\ ta_mint ts = key mint /\
    token_at (ledger w') p (key to) = Some (with_amount ts (ta_amount ts + n)).
Proof.
  intros Hp H. apply mint_as_manager_ok in H. split.
  { exact (frame_written p (MintTo (key mint) (key to) (key mgr) n) _ _ _ Hp H eq_refl). }
  apply token_cpi_ok in H as (L & HL & ->).
  apply mint_to_ok in HL as (ms & ts & Hm & Ht & Htm & Ha & H0 & Hlt & Hm' & Ht' & _). by exists ms, ts.
Qed.

(** What a minter's instruction did. *)
Definition mint_outcome (a : MintInterchainToken) (n : Z) (w w' : World) : Prop :=
  let p := mi_token_program a in let m := key (mi_mint a) in let k := key (mi_destination_account a) in
  exists c t ms ts,
    root_at (its w) (key (mi_its_root_pda a)) c /\ InterchainTokenService.paused c = false /\
    manager_at (its w) (key (mi_token_manager_pda a)) (key (mi_its_root_pda a)) (TokenManager.token_id t) t /\
    TokenManager.token_address t = m /\ is_signer (mi_minter a) = true /\
    has_role (its w) (key (mi_token_manager_pda a)) (key (mi_minter a)) ROLE_MINTER /\ 0 < n /\
    mint_at (ledger w) p m = Some ms /\ ms_mint_authority ms = Some (key (mi_token_manager_pda a)) /\
    mint_at (ledger w') p m = Some (with_supply ms (ms_supply ms + n)) /\ ms_supply ms + n < 2 ^ 64 /\
    token_at (ledger w) p k = Some ts /\ ta_mint ts = m /\
    token_at (ledger w') p k = Some (with_amount ts (ta_amount ts + n)) /\
    touches [(p, m); (p, k)] w w' /\ its w' = its w.

Lemma mint_interchain_token_effect a n w u w' : mint_interchain_token a n w = Ok (u, w') -> mint_outcome a n w w'.
Proof.
  intros H. pose proof (mint_interchain_token_same _ _ _ _ _ H) as Hits.
  unfold mint_interchain_token in H. its_norm. frames. bool_props.
  match goal with H : is_token_program (mi_token_program a) = true |- _ => rename H into Hp end.
  match goal with H : mint_as_manager _ _ _ _ _ _ _ _ _ = _ |- _ =>
    apply mint_as_manager_effect in H as (Hf & ms & ts & Hm & Hau & Hpos & Hlt & Hm' & Ht & Htm & Ht'); [|done] end.
  frames. match goal with H : frame [] _ w' |- _ => rename H into Hst end.
  do 4 eexists. split_and!; try eassumption; try (by split || lia).
  - do 2 eexists. split; [split; eassumption|done].
  - by eapply touches_mint; [exact (proj1 Hst)|exact Hp| |exact Hm']; [set_solver].
  - by eapply touches_token; [exact (proj1 Hst)|exact Hp| |exact Ht']; [set_solver].
  - apply frame_touches. eapply frame_trans; [exact Hf|by apply frame_weaken].
Qed.

(** *** Deployments *)

Lemma store_keeps_log {T} (acc : AnchorAccount T) k (x : T) w u w' : store k x w = Ok (u, w') -> log w' = log w.
Proof. unfold store, with_ledger. destruct (ledger w !! k); [|done]. by intros [= _ <-]. Qed.

Lemma init_optional_roles_log payer manager user roles missing w x w' :
  init_optional_roles payer manager user roles missing w = Ok (x, w') -> log w' = log w.
Proof.
  unfold init_optional_roles. destruct roles; intros H; inv_instr; [|done].
  match goal with H : init_account _ _ _ _ _ _ = _ |- _ => apply its_init_account in H as (_ & _ & _ & _ & ?); done end.
Qed.

Lemma store_optional_roles_log roles x r w u w' : store_optional_roles roles x r w = Ok (u, w') -> log w' = log w.
Proof. unfold store_optional_roles. destruct roles, x; intros H; inv_instr; try done. by apply store_keeps_log in H. Qed.

(** Each step of the run as its events. *)
#[local] Ltac logs := repeat match goal with
  | H : optional_mut _ _ = Ok _ |- _ => apply optional_mut_ok in H as ->
  | H : init_token_manager _ _ _ _ _ = Ok _ |- _ => unfold init_token_manager in H
  | H : init_account _ _ _ _ _ _ = Ok _ |- _ => apply its_init_account in H as (_ & _ & _ & _ & ?); [|done]
  | H : init_mint _ _ _ _ _ _ _ = Ok _ |- _ => apply init_mint_ok in H as (_ & _ & _ & _ & ?); [|by apply token_2022]
  | H : associated_token_if_needed _ _ _ _ _ _ = Ok _ |- _ => apply associated_token_if_needed_ok in H as (_ & _ & ? & _)
  | H : mint_as_manager _ _ _ _ _ _ _ _ _ = Ok _ |- _ => apply mint_as_manager_its in H as (_ & _ & ?)
  | H : create_metadata_as_manager _ _ _ _ _ _ _ _ _ _ = Ok _ |- _ => apply create_metadata_its in H as (_ & _ & ?)
  | H : store _ _ _ = Ok _ |- _ => apply store_keeps_log in H
  | H : init_optional_roles _ _ _ _ _ _ = Ok _ |- _ => apply init_optional_roles_log in H
  | H : store_optional_roles _ _ _ _ = Ok _ |- _ => apply store_optional_roles_log in H
  end.

(** A deployed interchain token: its accounts; its mint, which did not exist, with the supply [n] under the
    authority of the token manager; the events. *)
Definition native_deployed (root km m ata : Pubkey) (id : array 32) (name symbol : bytes) (decimals n : Z)
    (minter roles : option AccountInfo) (w w' : World) : Prop :=
  native_accounts root km m ata id minter roles w w' /\
  (forall q, is_token_program q = true -> owned_bytes (ledger w) q m = None) /\
  mint_at (ledger w') spl_token_2022_ID m = Some (mkMint (Some km) n decimals) /\
  log w' = EvIts (InterchainTokenDeployed id m name symbol decimals (key <$> minter))
    :: EvIts (TokenManagerDeployed id km (type_into_u8 NativeInterchainToken) (account_key_bytes minter)) :: log w.

(** The supply that a deployment mints. *)
Lemma initial_supply_effect a id i b w u w' ms :
  is_token_program (dt_token_program a) = true ->
  mint_at (ledger w) (dt_token_program a) (key (dt_token_mint a)) = Some ms ->
  (if 0 <? i then mint_initial_supply a id i b else mret tt) w = Ok (u, w') ->
  let p := dt_token_program a in let m := key (dt_token_mint a) in let k := key (dt_deployer_ata a) in
  frame [(p, m); (p, k)] w w' /\ log w' = log w /\
  mint_at (ledger w') p m = Some (with_supply ms (ms_supply ms + Z.max 0 i)) /\
  balance (ledger w') p k = balance (ledger w) p k + Z.max 0 i.
Proof.
  intros Hp Hm H. destruct (Z.ltb_spec 0 i).
  - unfold mint_initial_supply in H. pose proof (mint_as_manager_its _ _ _ _ _ _ _ _ _ _ _ H) as (_ & _ & ?).
    apply mint_as_manager_effect in H as (Hf & ms' & ts & Hms & _ & _ & _ & Hm' & Ht & _ & Ht'); [|done].
    rewrite Z.max_r by lia. simplify_eq. split_and!; try done. unfold balance. by rewrite Ht, Ht'.
  - apply instr_ret_ok in H as [_ ->]. rewrite Z.max_l by lia. split_and!; [apply frame_refl|done| |lia].
    rewrite Hm, Z.add_0_r. by destruct ms.
Qed.

(** What a deployment did: the initial supply is the deployer's. *)
Definition deploy_outcome (a : DeployInterchainToken) (salt : array 32) (name symbol : bytes) (decimals i : Z)
    (id : array 32) (w w' : World) : Prop :=
  let p := spl_token_2022_ID in let m := key (dt_token_mint a) in let k := key (dt_deployer_ata a) in
  id = interchain_token_id (key (dt_deployer a)) salt /\ is_signer (dt_deployer a) = true /\
  (length name <= MAX_NAME_LENGTH)%nat /\ (length symbol <= MAX_SYMBOL_LENGTH)%nat /\
  (dt_minter a = None -> i <> 0) /\ (is_Some (dt_minter a) <-> is_Some (dt_minter_roles_pda a)) /\
  k = get_associated_token_address (key (dt_deployer a)) m p /\
  native_deployed (key (dt_its_root_pda a)) (key (dt_token_manager_pda a)) m (key (dt_token_manager_ata a)) id
    name symbol decimals (Z.max 0 i) (dt_minter a) (dt_minter_roles_pda a) w w' /\
  mint_at (ledger w) p k = None /\ balance (ledger w') p k = balance (ledger w) p k + Z.max 0 i /\
  touches [(p, m); (p, k)] w w'.

Lemma deploy_interchain_token_log a salt name symbol decimals i w id w' :
  deploy_interchain_token a salt name symbol decimals i w = Ok (id, w') ->
  log w' = EvIts (InterchainTokenDeployed id (key (dt_token_mint a)) name symbol decimals (key <$> dt_minter a))
    :: EvIts (TokenManagerDeployed id (key (dt_token_manager_pda a)) (type_into_u8 NativeInterchainToken)
         (account_key_bytes (dt_minter a))) :: log w.
Proof.
  unfold deploy_interchain_token, deploy_interchain_token_accounts, create_token_metadata, emit_deployed. intros H.
  inv_instr. its_norm. bool_props. cbn [fst snd] in *.
  match goal with H : (if 0 <? i then _ else _) ?v = Ok (_, ?v') |- _ =>
    assert (log v' = log v) by (unfold mint_initial_supply in H; destruct (0 <? i); inv_instr; [logs; done|done]); clear H end.
  logs. cbn [log] in *. congruence.
Qed.

Lemma touches_none w w' q k : touches [] w w' -> is_token_program q = true ->
  owned_bytes (ledger w') q k = None -> owned_bytes (ledger w) q k = None.
Proof.
  intros H Hq Hn. destruct (H q k Hq) as [E _]; [set_solver|].
  destruct (owned_bytes (ledger w) q k); [|done]. rewrite E in Hn; by eauto.
Qed.

Lemma deploy_interchain_token_tokens a salt name symbol decimals i w id w' :
  deploy_interchain_token a salt name symbol decimals i w = Ok (id, w') ->
  let p := spl_token_2022_ID in let m := key (dt_token_mint a) in let k := key (dt_deployer_ata a) in
  (forall q, is_token_program q = true -> owned_bytes (ledger w) q m = None) /\
  mint_at (ledger w') p m = Some (mkMint (Some (key (dt_token_manager_pda a))) (Z.max 0 i) decimals) /\
  mint_at (ledger w) p k = None /\ balance (ledger w') p k = balance (ledger w) p k + Z.max 0 i /\
  touches [(p, m); (p, k)] w w'.
Proof.
  intros H. unfold deploy_interchain_token, deploy_interchain_token_accounts, create_token_metadata, emit_deployed in H.
  its_norm. bool_props. cbn [fst snd] in *.
  match goal with H : associated_token_if_needed _ (key (dt_deployer_ata a)) _ _ _ ?v = _ |- _ =>
    pose proof (destination_not_mint _ _ _ _ _ _ _ _ H) as Hnk end.
  match goal with H : (if 0 <? i then _ else _) _ = _ |- _ => rename H into Hsup end. frames.
  match goal with H : mint_at _ _ _ = Some (mkMint _ _ _), Hs : _ ?v = Ok (_, ?w0), Hn : forall q, _ -> _ = None,
    Hp : dt_token_program a = _ |- _ => rename H into Hm; rename Hn into Hnone; rename Hp into Hprog end.
  pose proof (token_2022 _ Hprog) as Hp. lazymatch type of Hm with mint_at (ledger ?v1) _ _ = _ =>
    lazymatch type of Hsup with _ ?v = Ok (_, ?v') =>
      assert (frame [] v1 v) as F1 by chain; assert (frame [] w v) as F2 by chain;
      apply (touches_mint _ _ _ _ _ _ (frame_touches _ _ _ F1) Hp) in Hm; [|set_solver];
      pose proof (initial_supply_effect _ _ _ _ _ _ _ _ Hp Hm Hsup) as (Fs & _ & Hm' & Hb) end end. 
  frames. rewrite Hprog in *.
  match type of Hnone with forall q, _ -> owned_bytes (ledger ?v0) _ _ = None => assert (frame [] w v0) as F0 by chain end.
  match type of Fs with frame _ ?v ?v' => match goal with |- _ /\ mint_at (ledger ?v'') _ _ = _ /\ _ =>
    assert (frame [] v' v'') as F3 by chain end end. split_and!.
  - intros q Hq. eapply touches_none; [exact (proj1 F0)|exact Hq|by apply Hnone].
  - eapply (touches_mint []); [exact (proj1 F3)|exact Hp|set_solver|exact Hm'].
  - match type of Hnk with mint_at (ledger ?v) _ _ = _ => assert (frame [] w v) as F4 by chain end.
    destruct (mint_at (ledger w) _ (key (dt_deployer_ata a))) eqn:Hk; [|done].
    by rewrite (touches_mint _ _ _ _ _ _ (frame_touches _ _ _ F4) Hp (not_elem_of_nil _) Hk) in Hnk.
  - rewrite (proj2 (proj1 F3 _ _ Hp (not_elem_of_nil _))), Hb. by rewrite (proj2 (proj1 F2 _ _ Hp (not_elem_of_nil _))).
  - apply frame_touches. eapply frame_trans; [exact (frame_weaken _ _ _ F2)|].
    exact (frame_trans _ _ _ _ Fs (frame_weaken _ _ _ F3)).
Qed.

Lemma check_minter_and_supply_ok m r b i x :
  check_minter_and_supply m r b i = Ok x -> (m = None -> i <> 0) /\ (is_Some m <-> is_Some r).
Proof.
  unfold check_minter_and_supply. destruct m, r, b; intros H; inv_result; bool_props; split; done || by split; eauto.
Qed.

Lemma deploy_interchain_token_effect a salt name symbol decimals i w id w' :
  deploy_interchain_token a salt name symbol decimals i w = Ok (id, w') ->
  deploy_outcome a salt name symbol decimals i id w w'.
Proof.
  intros H. pose proof (deploy_interchain_token_log _ _ _ _ _ _ _ _ _ H) as Hlog.
  pose proof (deploy_interchain_token_accounts_ok _ _ _ _ _ _ _ _ _ H) as (Hn & Hid & Hs).
  pose proof (deploy_interchain_token_tokens _ _ _ _ _ _ _ _ _ H) as (Hb & Hm & Hnk & Hbal & Ht).
  unfold deploy_interchain_token, deploy_interchain_token_accounts in H. its_norm. bool_props. cbn [fst snd] in *.
  match goal with H : check_minter_and_supply _ _ _ _ = _ |- _ => apply check_minter_and_supply_ok in H as [Hmn Hmr] end.
  match goal with H : associated_token_if_needed _ (key (dt_deployer_ata a)) _ _ _ _ = _ |- _ =>
    apply associated_token_if_needed_ok in H as (_ & _ & _ & Hk & _) end.
  match goal with H : dt_token_program a = _ |- _ => rewrite H in Hk end.
  repeat match goal with H : (_ <=? _)%nat = true |- _ => apply Nat.leb_le in H end.
  by split_and!.
Qed.

(** What a deployment that the hub orders did: the same, without supply. *)
Definition execute_deploy_outcome (a : ExecuteDeployInterchainToken) (id : array 32) (name symbol : bytes)
    (decimals : Z) (minter : bytes) (w w' : World) : Prop :=
  is_signer (ed_its_root_pda a) = true /\
  account_key_bytes (ed_minter a) = (if bool_decide (minter = []) then None else Some minter) /\
  (is_Some (ed_minter a) <-> is_Some (ed_minter_roles_pda a)) /\
  native_deployed (key (ed_its_root_pda a)) (key (ed_token_manager_pda a)) (key (ed_token_mint a))
    (key (ed_token_manager_ata a)) id (truncate_utf8 name MAX_NAME_LENGTH) (truncate_utf8 symbol MAX_SYMBOL_LENGTH)
    decimals 0 (ed_minter a) (ed_minter_roles_pda a) w w' /\
  touches [] w w'.

Lemma execute_deploy_log a id name symbol decimals minter w u w' :
  execute_deploy_interchain_token a id name symbol decimals minter w = Ok (u, w') ->
  log w' = EvIts (InterchainTokenDeployed id (key (ed_token_mint a)) (truncate_utf8 name MAX_NAME_LENGTH)
      (truncate_utf8 symbol MAX_SYMBOL_LENGTH) decimals (key <$> ed_minter a))
    :: EvIts (TokenManagerDeployed id (key (ed_token_manager_pda a)) (type_into_u8 NativeInterchainToken)
         (account_key_bytes (ed_minter a))) :: log w.
Proof.
  unfold execute_deploy_interchain_token, execute_deploy_interchain_token_accounts, inbound_create_token_metadata,
    emit_deployed. intros H. inv_instr. its_norm. bool_props. cbn [fst snd] in *.
  logs. cbn [log] in *. congruence.
Qed.

Lemma execute_deploy_tokens a id name symbol decimals minter w u w' :
  execute_deploy_interchain_token a id name symbol decimals minter w = Ok (u, w') ->
  (forall q, is_token_program q = true -> owned_bytes (ledger w) q (key (ed_token_mint a)) = None) /\
  mint_at (ledger w') spl_token_2022_ID (key (ed_token_mint a))
    = Some (mkMint (Some (key (ed_token_manager_pda a))) 0 decimals) /\ touches [] w w'.
Proof.
  intros H. unfold execute_deploy_interchain_token, execute_deploy_interchain_token_accounts,
    inbound_create_token_metadata, emit_deployed in H. its_norm. bool_props. cbn [fst snd] in *. frames.
  match goal with H : mint_at (ledger ?v1) _ _ = Some (mkMint _ _ _), Hn : forall q, _ -> owned_bytes (ledger ?v0) _ _ = None,
    Hp : ed_token_program a = _ |- _ =>
    assert (frame [] w v0) as F0 by chain; assert (frame [] v1 w') as F1 by chain; rename H into Hm; rename Hn into Hnone;
    pose proof (token_2022 _ Hp) as Htp; rewrite Hp in * end. split_and!.
  - intros q Hq. eapply touches_none; [exact (proj1 F0)|exact Hq|by apply Hnone].
  - eapply (touches_mint []); [exact (proj1 F1)|exact Htp|set_solver|exact Hm].
  - apply frame_touches. chain.
Qed.

Lemma check_minter_ok minter m r x :
  check_minter minter m r = Ok x ->
  account_key_bytes m = (if bool_decide (minter = []) then None else Some minter) /\ (is_Some m <-> is_Some r).
Proof.
  unfold check_minter. case_bool_decide; destruct m, r; intros H0; inv_result; bool_props; subst;
    split; done || by split; eauto.
Qed.

Lemma execute_deploy_effect a id name symbol decimals minter w u w' :
  execute_deploy_interchain_token a id name symbol decimals minter w = Ok (u, w') ->
  execute_deploy_outcome a id name symbol decimals minter w w'.
Proof.
  intros H. pose proof (execute_deploy_log _ _ _ _ _ _ _ _ _ H) as Hlog.
  pose proof (execute_deploy_accounts_ok _ _ _ _ _ _ _ _ _ H) as Hn.
  pose proof (execute_deploy_tokens _ _ _ _ _ _ _ _ _ H) as (Hb & Hm & Ht).
  pose proof (execute_deploy_signed _ _ _ _ _ _ _ _ _ H) as Hs.
  unfold execute_deploy_interchain_token in H. inv_instr.
  match goal with H : check_minter _ _ _ = _ |- _ => apply check_minter_ok in H as [Hmn Hmr] end.
  by split_and!.
Qed.

(** A token manager for an existing mint, whose extensions fit its type. *)
Definition link_outcome (a : LinkAccounts) (ty : TokenManagerType) (id : array 32) (operator : option Pubkey)
    (w w' : World) : Prop :=
  linked_accounts a ty id operator w w' /\
  (exists p b, is_token_program p = true /\ owned_bytes (ledger w) p (la_token_mint a) = Some b /\
     is_Some (mint_unpack b) /\ supports_mint_extensions ty b = Ok true) /\
  log w' = EvIts (TokenManagerDeployed id (key (la_token_manager_pda a)) (type_into_u8 ty) (arr_bytes <$> operator)) :: log w /\
  touches [] w w'.

Lemma link_accounts_frame a id w x w' :
  link_accounts a id w = Ok (x, w') ->
  frame [] w w' /\ log w' = log w /\ is_Some (its w' !! key (la_token_manager_pda a)) /\
  (exists p, is_token_program p = true /\ is_Some (owned_bytes (ledger w) p (la_token_mint a))) /\
  forall i b, la_operator_roles_pda a = Some i -> x.2.2 = Some b -> is_Some (its w' !! key i).
Proof.
  intros H. assert (log w' = log w) as Hl.
  { unfold link_accounts in H. its_norm. match goal with H : load_mint _ _ = _ |- _ => apply load_mint_ok in H as (-> & _) end.
    logs. congruence. }
  unfold link_accounts in H. its_norm. frames. cbn [fst snd].
  match goal with H : mint_at _ _ _ = Some _ |- _ => apply bind_Some in H as (? & ? & _) end.
  split_and!; [chain|done|alive|eexists; split; [|eexists; eassumption]; eassumption|eassumption].
Qed.

Lemma link_manager_tokens a ty id operator w x w1 u w' :
  link_accounts a id w = Ok (x, w1) -> link_manager a ty id operator x.2 w1 = Ok (u, w') ->
  (exists p b, is_token_program p = true /\ owned_bytes (ledger w) p (la_token_mint a) = Some b /\
     is_Some (mint_unpack b) /\ supports_mint_extensions ty b = Ok true) /\
  log w' = EvIts (TokenManagerDeployed id (key (la_token_manager_pda a)) (type_into_u8 ty) (arr_bytes <$> operator)) :: log w /\
  touches [] w w'.
Proof.
  intros Ha Hm. apply link_accounts_frame in Ha as (F & Hl & Hk & (p & Hp & b & Hb) & Hr).
  unfold link_manager, validate_mint_extension_account, validate_mint_extension in Hm. inv_instr.
  match goal with H : mint_data _ _ = _ |- _ => apply mint_data_ok in H as (-> & q & Hq & Hb') end. bool_props.
  assert (owned_bytes (ledger w1) p (la_token_mint a) = Some b) as Hb1.
  { rewrite <- Hb. by apply (proj1 F p _ Hp (not_elem_of_nil _)). }
  assert (p = q) as <- by (eapply owned_unique; by eexists). split_and!.
  - exists p, b. rewrite Hb in *. simplify_eq. split_and!; try done.
  - logs. cbn [log] in *. congruence.
  - frames. apply frame_touches. chain.
Qed.

Lemma register_custom_effect a salt ty operator w id w' :
  register_custom_token a salt ty operator w = Ok (id, w') ->
  link_outcome (ru_accounts a) ty id operator w w' /\ is_signer (ru_deployer a) = true /\
  id = interchain_token_id_internal (linked_token_deployer_salt (key (ru_deployer a)) salt).
Proof.
  intros H. pose proof (register_custom_token_ok _ _ _ _ _ _ _ H) as (Hl & Hs & Hid). split; [|done].
  split; [done|]. unfold register_custom_token in H. its_norm.
  match goal with H : link_constraints _ _ _ = _ |- _ => apply link_constraints_ok in H as -> end.
  eapply link_manager_tokens; eassumption.
Qed.

Lemma execute_link_effect a id addr ty params w u w' :
  execute_link_token a id addr ty params w = Ok (u, w') ->
  is_signer (la_its_root_pda a) = true /\ addr = la_token_mint a /\
  exists ty', type_try_from_u8 ty = Ok ty' /\ link_outcome a ty' id (arr_try_from 32 params) w w'.
Proof.
  intros H. pose proof (execute_link_token_ok _ _ _ _ _ _ _ _ H) as (Hs & Ha & ty' & Hty & Hl).
  split_and!; [done|done|]. exists ty'. split; [done|]. split; [done|].
  unfold execute_link_token in H. its_norm. bool_props.
  match goal with H : link_constraints _ _ _ = _ |- _ => apply link_constraints_ok in H as -> end.
  match goal with H : type_try_from_u8 ty = Ok ?t |- _ => assert (ty' = t) as -> by congruence end.
  eapply link_manager_tokens; eassumption.
Qed.

(** *** The authority of a mint *)

(** The current authority, who signed, gives a mint to its token manager. *)
Definition handover_outcome (a : HandoverMintAuthority) (id : array 32) (w w' : World) : Prop :=
  let p := hm_token_program a in let m := key (hm_mint a) in
  exists c t ms, root_at (its w) (key (hm_its_root a)) c /\
    manager_at (its w) (key (hm_token_manager a)) (key (hm_its_root a)) id t /\ TokenManager.token_address t = m /\
    is_signer (hm_authority a) = true /\ mint_at (ledger w) p m = Some ms /\
    ms_mint_authority ms = Some (key (hm_authority a)) /\
    mint_at (ledger w') p m = Some (with_authority ms (Some (key (hm_token_manager a)))) /\ touches [(p, m)] w w'.

Lemma handover_effect a id w u w' : handover_mint_authority a id w = Ok (u, w') -> handover_outcome a id w w'.
Proof.
  intros H. unfold handover_mint_authority in H. its_norm. bool_props. frames.
  match goal with H : is_token_program (hm_token_program a) = true |- _ => rename H into Hp end.
  match goal with H : token_cpi _ _ _ = _ |- _ => rename H into Hc end.
  pose proof (frame_written _ _ _ _ _ Hp Hc eq_refl) as Fc. apply token_cpi_ok in Hc as (L & HL & ->).
  apply set_mint_authority_ok in HL as (ms & Hm & Ha & Hm' & _). cbn [key] in *.
  match goal with F : frame [] w ?v, Hw : mint_at (ledger w) ?q.1 _ = Some ?q.2, E : ?q.1 = _ |- _ => rewrite E in Hw;
    assert (ms = q.2) as -> by (pose proof (touches_mint _ _ _ _ _ _ (frame_touches _ _ _ F) Hp (not_elem_of_nil _) Hw); congruence) end.
  frames. match goal with F : frame [] _ w' |- _ => rename F into F3 end.
  do 3 eexists. split_and!; [by split|by split|done|done|eassumption|done| |].
  - eapply (touches_mint []); [exact (proj1 F3)|exact Hp|set_solver|exact Hm'].
  - apply frame_touches. cbn in Fc. chain.
Qed.
End custody.
