(* ===== verification/ItsSafety.v ===== *)
(** * ITS: safety

    Runs of the program, and the theorems that hold of every run: refinement of the specification, the
    invariant of the accounts, who can change the configuration and the roles, the two directions of a
    transfer, and the pause. *)

From stdpp Require Import base gmap list.
From Stdlib Require Import ZArith Lia.
From S2P Require Import Prelude Errors External StdInts StdTypes GatewayState Payload ItsState Ledger LedgerLemmas SplToken Gateway GatewayLemmas Executable GasService Its ItsOutbound ItsDeploy ItsExecute ItsLemmas ItsSpec ItsTransfers ItsRefines ItsInvariant ItsAuthority ItsCustody.

Section safety.
Context {keccak : Keccak} {merkle : RsMerkle} {secp : Secp256k1} {bits : BitVec} {bnum : Bnum}
  {pda : SolanaPda} {ids : ProgramIds} {system : SolanaSystem} {realloc : AnchorRealloc} {spl : SplToken}
  {network : ItsNetwork} {runtime : Runtime}.
Context {leaf_digest : Digestable VerifierSetLeaf} {message_digest : Digestable Message}
  {message_leaf_digest : Digestable MessageLeaf}.
Context {vecs : BorshVec} {abi : SolAbi}.
Context {hub_codec : Borsh encoding.HubMessage} {token_payload_codec : Borsh AxelarExecuteWithInterchainTokenPayload}.
Context {ids_laws : ProgramIdsLaws} {pda_laws : SolanaPdaLaws} {system_laws : SolanaSystemLaws}
  {spl_laws : SplTokenLaws} {realloc_laws : AnchorReallocLaws} {runtime_laws : ItsRuntimeLaws}.

(** ** Runs *)

(** The successful instructions of ITS, newest first, each with the world it ran in. In between,
    anything may happen that leaves the accounts of ITS as they are. *)
Inductive its_run : list (ItsInstruction * World) -> World -> Prop :=
| RunStart w : its w = ∅ -> its_run [] w
| RunOther l w w' : its_run l w -> its w' = its w -> its_run l w'
| RunStep l ix w u w' : its_run l w -> its_entry ix w = Ok (u, w') -> its_run ((ix, w) :: l) w'.

(** The runs of the specification, with the authority of each change. *)
Inductive spec_run : list ItsEnv -> ItsMap -> Prop :=
| SpecStart : spec_run [] ∅
| SpecStep l e m m' : spec_run l m -> its_change e m m' -> spec_run (e :: l) m'.

Lemma its_run_spec l w : its_run l w -> spec_run ((fun p => its_env p.1 p.2) <$> l) (its w).
Proof.
  induction 1 as [w ->|l w w' _ IH ->|l ix w u w' _ IH H]; [constructor|exact IH|].
  cbn. eapply SpecStep; [exact IH|]. by eapply its_entry_change.
Qed.

Lemma spec_run_wf l m : spec_run l m -> its_wf m.
Proof. induction 1; [by intros ? ?|by eapply change_wf]. Qed.

Lemma its_run_wf l w : its_run l w -> its_wf (its w).
Proof. intros H. by eapply spec_run_wf, its_run_spec. Qed.

(** C9: Refinement. Every run of the program is a run of the abstract specification: the accounts of
    ITS at its end are those of the specification after one change per instruction, and each change
    has the authority that the instruction's accounts establish in the world it ran in, by the
    signatures, the loader's record of the upgrade authority, the mint, and the hub's message. *)
Theorem its_refines_spec l w (Hrun : its_run l w) :
  spec_run ((fun p => its_env p.1 p.2) <$> l) (its w).
Proof. by apply its_run_spec. Qed.

Lemma wf_root_unique m k k' c c' :
  its_wf m -> m !! k = Some (DIts c) -> m !! k' = Some (DIts c') -> k = k'.
Proof. intros Hw H1 H2. destruct (Hw _ _ H1) as [E1 _], (Hw _ _ H2) as [E2 _]. congruence. Qed.

(** C17: The invariant of the accounts. In every reachable world there is at most one ITS root, at its
    derived address; its trusted chains are distinct and never contain the hub. Every token manager is
    at the address derived from its token id, so that a token id has one token manager, and that of
    an interchain token names the mint derived from the same id. Every roles account has at least one
    of the three roles and belongs to a user of the root or of a token manager. *)
Theorem its_accounts_wf l w (Hrun : its_run l w) :
  its_wf (its w) /\
  (forall k k' c c', its w !! k = Some (DIts c) -> its w !! k' = Some (DIts c') -> k = k' /\ c = c') /\
  (forall k k' t t', its w !! k = Some (DTokenManager t) -> its w !! k' = Some (DTokenManager t') ->
     TokenManager.token_id t = TokenManager.token_id t' -> k = k' /\ t = t').
Proof.
  pose proof (its_run_wf _ _ Hrun) as Hw. split_and!; [done|..].
  - intros k k' c c' H1 H2. pose proof (wf_root_unique _ _ _ _ _ Hw H1 H2) as <-. split; [done|congruence].
  - intros k k' t t' H1 H2 Hid.
    destruct (Hw _ _ H1) as (r1 & [c1 Hr1] & Hf1 & _), (Hw _ _ H2) as (r2 & [c2 Hr2] & Hf2 & _).
    pose proof (wf_root_unique _ _ _ _ _ Hw Hr1 Hr2) as <-. rewrite Hid in Hf1. assert (k = k') as <- by congruence.
    split; [done|congruence].
Qed.

(** ** Who can change what *)

Lemma env_config ix w s : env_upgrade (its_env ix w) s -> upgrade_authority_of w s.
Proof. done. Qed.

(** C15: The configuration. No instruction closes the ITS root or a token manager, or changes the hub
    address, the chain name, or a token manager's type, token id, mint or token account. The root's
    pause changes only with the signature of the program's upgrade authority, its trusted chains only
    with that of the upgrade authority or of an operator of ITS; a token manager's limit only with
    that of an operator of ITS or of one of its own flow limiters, and its flows only by a transfer,
    while ITS is not paused, incoming ones only on the hub's order. *)
Theorem its_config_authority ix w u w' k (Hrun : its_entry ix w = Ok (u, w')) :
  (forall c, its w !! k = Some (DIts c) ->
     exists c', its w' !! k = Some (DIts c') /\ root_change (its_env ix w) (its w) k c c') /\
  (forall t, its w !! k = Some (DTokenManager t) ->
     exists t', its w' !! k = Some (DTokenManager t') /\ manager_change (its_env ix w) (its w) k t t').
Proof.
  apply its_entry_change in Hrun. split.
  - intros c Hc. destruct (change_accounts _ _ _ _ _ Hrun Hc) as (x' & Hx & Ha); [done|].
    inversion Ha; subst; eexists; (split; [exact Hx|]); [apply root_change_refl|done].
  - intros t Ht. destruct (change_accounts _ _ _ _ _ Hrun Ht) as (x' & Hx & Ha); [done|].
    inversion Ha; subst; eexists; (split; [exact Hx|]); [apply manager_change_refl|done].
Qed.

(** C16: The roles. A role appears on an account only when a current holder transfers it, when an
    operator of the token appoints a flow limiter, when the authority of the mint hands it over and
    becomes the token's minter, or when the token manager (or ITS itself) is created by those who may;
    and it goes only when its holder transfers it or an operator of the token dismisses a flow
    limiter. In each case the one who decides has signed. *)
Theorem its_roles_authority ix w u w' k role (Hrun : its_entry ix w = Ok (u, w')) (Hrole : is_role role) :
  (~ holds (its w) k role -> holds (its w') k role -> granted (its_env ix w) (its w) k role) /\
  (holds (its w) k role -> ~ holds (its w') k role -> revoked (its_env ix w) (its w) k role).
Proof.
  apply its_entry_change in Hrun. split; [by eapply change_grants|by eapply change_revokes].
Qed.

(** ** Transfers *)

(** C4: An outgoing transfer, exactly. A successful [interchain_transfer] was signed by the owner of
    the source account, for a trusted destination while ITS is active; it takes the amount from that
    account, burned or into the token manager's account according to the manager's type, adds what the
    hub is told to the outgoing flow of the token manager and changes nothing else of ITS, and emits
    the event and the gateway call whose payload says, for the hub, this token id, sender,
    destination, data and exactly the amount burned or locked (less the mint's own transfer fee). *)
Theorem interchain_transfer_exact a id dc da amount gas program seeds data w u w'
    (Hrun : its_entry (ItInterchainTransfer a id dc da amount gas program seeds data) w = Ok (u, w')) :
  outbound_outcome a id dc da amount gas program seeds data w w'.
Proof. by eapply interchain_transfer_ok. Qed.

(** What a message of the hub does. *)
Definition message_outcome (a : Execute) (m : Message) (sc : bytes) (inner : encoding.Message) (w w' : World) : Prop :=
  match inner with
  | encoding.MInterchainTransfer tr => exists destination x,
      arr_try_from 32 (encoding.it_destination_address tr) = Some destination /\ transfer_accounts a x /\
      inbound_outcome x m sc (encoding.it_source_address tr) destination (encoding.it_token_id tr)
        (encoding.it_amount tr) (default [] (encoding.it_data tr)) w w'
  | encoding.MDeployInterchainToken d => exists x,
      key (ed_its_root_pda x) = key (xe_its_root_pda a) /\
      key (ed_token_manager_pda x) = key (xe_token_manager_pda a) /\
      execute_deploy_outcome x (encoding.di_token_id d) (encoding.di_name d) (encoding.di_symbol d)
        (encoding.di_decimals d) (default [] (encoding.di_minter d)) w w'
  | encoding.MLinkToken l => exists x ty,
      key (la_its_root_pda x) = key (xe_its_root_pda a) /\
      key (la_token_manager_pda x) = key (xe_token_manager_pda a) /\
      arr_try_from 32 (encoding.lt_destination_token_address l) = Some (la_token_mint x) /\
      type_try_from_u8 (encoding.lt_token_manager_type l) = Ok ty /\
      link_outcome x ty (encoding.lt_token_id l) (arr_try_from 32 (default [] (encoding.lt_params l))) w w'
  end.

(** C3: A message of the hub, from the gateway to its effect. If [execute] succeeds, ITS is active,
    the message's source address is the configured hub, the payload has the message's hash and decodes
    completely to a message from the hub for a trusted chain, and the gateway held the message as
    approved and now holds it as executed. A transfer then gives the tokens: exactly the amount of the
    message is minted or released (less the mint's own transfer fee) to the associated token account of
    the destination wallet or of the address that the destination program derives, within the flow
    limit, before that program is called with the same amount. A deployment creates the token manager
    and a mint without supply under its authority, with the truncated name and symbol; a link creates a
    token manager for an existing mint whose extensions fit the type; both give the roles to the minter
    or operator that the message names. *)
Theorem hub_message_exact a m payload w u w' (Hrun : its_entry (ItExecute a m payload) w = Ok (u, w')) :
  exists c sc inner v, hub_message_received a m payload c sc inner w v /\ message_outcome a m sc inner v w'.
Proof.
  apply its_execute_ok in Hrun as (c & sc & inner & v & Hrec & Hmsg). exists c, sc, inner, v. split; [done|].
  destruct inner; cbn in *.
  - destruct Hmsg as (d & x & Hd & Hx & H). exists d, x. split_and!; [done..|]. by eapply execute_interchain_transfer_ok.
  - destruct Hmsg as (x & Hr & Hm & H). exists x. split_and!; [done..|]. by eapply execute_deploy_effect.
  - destruct Hmsg as (x & t & Ht & Hr & Hm & H). apply execute_link_effect in H as (_ & -> & ty & Hty & H).
    exists x, ty. by split_and!.
Qed.

(** ** The pause *)

(** The instructions that move tokens, deploy or send messages. *)
Definition needs_active (ix : ItsInstruction) : bool :=
  match ix with
  | ItInitialize _ _ _ | ItSetPauseStatus _ _ | ItSetTrustedChain _ _ | ItRemoveTrustedChain _ _ | ItSetFlowLimit _ _
  | ItTransferOperatorship _ | ItAddTokenManagerFlowLimiter _ | ItRemoveTokenManagerFlowLimiter _
  | ItSetTokenManagerFlowLimit _ _ | ItTransferTokenManagerOperatorship _ | ItHandoverMintAuthority _ _
  | ItTransferInterchainTokenMintership _ => false
  | _ => true
  end.

#[local] Ltac its_norm :=
  unfold token_manager_seeds, its_root_active, its_root_seeds, not_paused in *; inv_instr;
  cbn [wrap program_of zeroed_of Its_account TokenManager_account] in *;
  repeat match goal with
  | H : context [state_of its_ID ?w] |- _ => change (state_of its_ID w) with (its w) in H
  end;
  bool_props.

(** A root that is not paused. *)
Definition active_root (w : World) : Prop :=
  exists k c, its w !! k = Some (DIts c) /\ InterchainTokenService.paused c = false.

Lemma active_hub ix w u w' :
  match ix with
  | ItDeployRemoteInterchainToken _ _ _ _ | ItRegisterTokenMetadata _ _ | ItDeployRemoteCanonicalInterchainToken _ _ _
  | ItLinkToken _ _ _ _ _ _ _ | ItMintInterchainToken _ _ => True
  | _ => False
  end -> its_entry ix w = Ok (u, w') -> active_root w.
Proof.
  destruct ix; try done; intros _ H; cbn [its_entry] in H;
    unfold deploy_remote_interchain_token, register_token_metadata, deploy_remote_canonical_interchain_token, link_token,
      mint_interchain_token in H; its_norm;
    repeat match goal with
    | H : load_mint _ _ = Ok _ |- _ => apply load_mint_ok in H as (-> & _)
    | H : load_token_account _ _ = Ok _ |- _ => apply load_token_account_ok in H as (-> & _)
    | H : hub_programs _ _ = Ok _ |- _ => apply hub_programs_ok in H as ->
    | H : token_interface _ _ = Ok _ |- _ => unfold token_interface in H; inv_instr
    | H : gateway_root_seeds _ _ = Ok _ |- _ => apply gateway_root_seeds_ok in H as (? & _ & _ & ->)
    end; by do 2 eexists.
Qed.

Lemma active_deploy ix w u w' :
  match ix with
  | ItDeployInterchainToken _ _ _ _ _ _ | ItRegisterCanonicalInterchainToken _ | ItRegisterCustomToken _ _ _ _
  | ItExecuteDeployInterchainToken _ _ _ _ _ _ | ItExecuteLinkToken _ _ _ _ _ => True
  | _ => False
  end -> its_entry ix w = Ok (u, w') -> active_root w.
Proof.
  destruct ix; try done; intros _ H; cbn [its_entry] in H.
  - unfold deploy_interchain_token, deploy_interchain_token_accounts in H. its_norm. by do 2 eexists.
  - unfold register_canonical_interchain_token, register_canonical_accounts in H. its_norm. by do 2 eexists.
  - unfold register_custom_token in H. its_norm.
    match goal with H : link_accounts _ _ _ = _ |- _ => apply link_accounts_ok in H as (Hr & _) end. by do 2 eexists.
  - unfold execute_deploy_interchain_token, execute_deploy_interchain_token_accounts in H. its_norm. by do 2 eexists.
  - unfold execute_link_token in H. its_norm.
    match goal with H : link_accounts _ _ _ = _ |- _ => apply link_accounts_ok in H as (Hr & _) end. by do 2 eexists.
Qed.

Lemma active_transfer ix w u w' :
  match ix with
  | ItExecute _ _ _ | ItExecuteInterchainTransfer _ _ _ _ _ _ _ _ | ItInterchainTransfer _ _ _ _ _ _ _ _ _ => True
  | _ => False
  end -> its_entry ix w = Ok (u, w') -> active_root w.
Proof.
  destruct ix; try done; intros _ H; cbn [its_entry] in H.
  - apply its_execute_ok in H as (c & sc & inner & v & ([Hr _] & Hp & _) & _). by do 2 eexists.
  - apply execute_interchain_transfer_ok in H as (c & t & t' & n & v0 & v & _ & [Hr _] & Hp & _). by do 2 eexists.
  - apply interchain_transfer_ok in H as (c & t & t' & src & s & n & b & [Hr _] & Hp & _). by do 2 eexists.
Qed.

(** C18: The pause stops ITS. In a reachable world whose ITS root is paused, every instruction that
    moves tokens, deploys or registers a token, sends to the hub or acts on a message of the hub
    fails. *)
Theorem paused_stops_its l w k c ix (Hrun : its_run l w) (Hk : its w !! k = Some (DIts c))
    (Hp : InterchainTokenService.paused c = true) (Hix : needs_active ix = true) :
  exists e, its_entry ix w = Err e.
Proof.
  destruct (its_entry ix w) as [[u w']|e] eqn:E; [|by exists e]. exfalso.
  assert (active_root w) as (k' & c' & Hk' & Hp').
  { destruct ix; try done;
      first [by eapply active_transfer; [|exact E] | by eapply active_deploy; [|exact E] | by eapply active_hub; [|exact E]]. }
  pose proof (wf_root_unique _ _ _ _ _ (its_run_wf _ _ Hrun) Hk Hk') as <-. congruence.
Qed.
End safety.
