(* ===== verification/ItsProgress.v ===== *)
(** * ITS: the instructions that clients build succeed

    In a reachable world, an instruction that [ItsClient.v] builds passes the checks of its accounts, so
    that it fails only for the reasons its handler names: the addresses that a client derives are those at
    which the program keeps the accounts, by the invariant of [ItsInvariant.v]. *)

From stdpp Require Import base gmap list.
From Stdlib Require Import ZArith Lia.
From S2P Require Import Prelude Errors External StdInts StdTypes GatewayState Payload OperatorsState ItsState Ledger LedgerLemmas SplToken Gateway GatewayLemmas GatewayOutcomes Executable GasService Its ItsOutbound ItsDeploy ItsExecute ItsClient ItsLemmas ItsSpec ItsTransfers ItsRefines ItsInvariant ItsAuthority ItsCustody ItsSafety.

Section progress.
Context {keccak : Keccak} {merkle : RsMerkle} {secp : Secp256k1} {bits : BitVec} {bnum : Bnum}
  {pda : SolanaPda} {ids : ProgramIds} {system : SolanaSystem} {realloc : AnchorRealloc} {spl : SplToken}
  {network : ItsNetwork} {runtime : Runtime} {loader : ProgramDataAddress}.
Context {leaf_digest : Digestable VerifierSetLeaf} {message_digest : Digestable Message}
  {message_leaf_digest : Digestable MessageLeaf}.
Context {vecs : BorshVec} {abi : SolAbi}.
Context {hub_codec : Borsh encoding.HubMessage} {token_payload_codec : Borsh AxelarExecuteWithInterchainTokenPayload}.
Context {ids_laws : ProgramIdsLaws} {pda_laws : SolanaPdaLaws} {system_laws : SolanaSystemLaws}
  {spl_laws : SplTokenLaws} {realloc_laws : AnchorReallocLaws} {runtime_laws : ItsRuntimeLaws}
  {loader_laws : ProgramDataAddressLaws}.

Definition okay {A} (r : Result A) : Prop := exists x, r = Ok x.

(** ** Derived addresses *)

Lemma find_or_panic seeds pid k b :
  find_program_address seeds pid = Some (k, b) -> find_program_address_or_panic seeds pid = Ok (k, b).
Proof. intros H. unfold find_program_address_or_panic. by rewrite H. Qed.

(** The root of a reachable world is where clients look for it. *)
Lemma client_root w k c :
  its_wf (its w) -> its w !! k = Some (DIts c) -> its_root_address = Ok k /\ root_at (its w) k c.
Proof.
  intros Hw Hk. destruct (Hw _ _ Hk) as (Hf & _). split.
  - unfold its_root_address, InterchainTokenService.find_pda. by rewrite (find_or_panic _ _ _ _ Hf).
  - split; [done|]. by apply find_create.
Qed.

(** So is the token manager of an id, and with it the mint of an interchain token. *)
Lemma client_manager w km t :
  its_wf (its w) -> its w !! km = Some (DTokenManager t) ->
  exists root c, its w !! root = Some (DIts c) /\ token_manager_address (TokenManager.token_id t) root = Ok km /\
    manager_at (its w) km root (TokenManager.token_id t) t /\
    (TokenManager.ty t = NativeInterchainToken ->
     token_mint_address (TokenManager.token_id t) root = Ok (TokenManager.token_address t)).
Proof.
  intros Hw Hk. destruct (Hw _ _ Hk) as (root & [c Hc] & Hf & Hmint). exists root, c. split_and!; [done| | |].
  - unfold token_manager_address, TokenManager.find_pda. by rewrite (find_or_panic _ _ _ _ Hf).
  - split; [done|]. by apply find_create.
  - intros Hty. destruct (Hmint Hty) as [b Hb]. unfold token_mint_address, TokenManager.find_token_mint.
    by rewrite (find_or_panic _ _ _ _ Hb).
Qed.

(** The roles account of [user] on [resource], at its address. *)
Definition roles_account (w : World) (resource user k : Pubkey) (r : UserRoles.t) : Prop :=
  roles_address resource user k (UserRoles.bump r) /\ its w !! k = Some (DUserRoles r).

Lemma client_roles resource user k b : roles_address resource user k b -> user_roles_address resource user = Ok k.
Proof. intros H%find_or_panic. unfold user_roles_address, UserRoles.find_pda. unfold UserRoles.pda_seeds in H. by rewrite H. Qed.

Lemma roles_account_seeds w resource user k r :
  roles_account w resource user k r ->
  create_program_address (UserRoles.pda_seeds resource user ++ [[UserRoles.bump r]]) its_ID = Some k.
Proof. intros [H _]. by apply find_create. Qed.

(** ** Flow limits *)

(** The token manager at [km] with the new limit, and the event. *)
Definition limit_was_set (km user : Pubkey) (t : TokenManager.t) (limit : option Z) (w w' : World) : Prop :=
  its w' = <[km := DTokenManager (with_flow_limit t limit)]> (its w) /\ now w' = now w /\
  log w' = EvIts (FlowLimitSet (TokenManager.token_id t) user limit) :: log w.

Lemma limit_stored km user t limit w : its w !! km = Some (DTokenManager t) ->
  exists w', (_ ← emit (EvIts (FlowLimitSet (TokenManager.token_id t) user limit));
              store km (with_flow_limit t limit)) w = Ok (tt, w') /\ limit_was_set km user t limit w w'.
Proof.
  intros Ht. set (e := EvIts _). set (w1 := mkWorld (ledger w) (now w) (e :: log w)).
  destruct (store_eval _ TokenManager_account km (with_flow_limit t limit) w1 its_ID (DTokenManager t)) as
    (w' & Hs & Hi & Hn & Hl); [exact Ht|]. exists w'. split; [exact Hs|]. by split_and!.
Qed.

(** Setting a limit, as an operator of ITS. *)
Lemma set_flow_limit_eval payer user limit root c km t kr r w :
  root_at (its w) root c -> manager_at (its w) km root (TokenManager.token_id t) t -> roles_account w root user kr r ->
  let a := {| fl_payer := signer_mut payer; fl_operator := signer_readonly user;
              fl_its_root_pda := account_readonly root; fl_its_roles_pda := account_readonly kr;
              fl_token_manager_pda := account_mut km; fl_system_program := system_program_ID |} in
  if negb (UserRoles.has_operator_role r) then set_flow_limit a limit w = Err (EIts MissingOperatorRole)
  else if bool_decide (flow_limit_of t = limit) then set_flow_limit a limit w = Err (EIts ItsInvalidArgument)
  else exists w', set_flow_limit a limit w = Ok (tt, w') /\ limit_was_set km user t limit w w'.
Proof.
  intros [Hr Hrs] [Ht Hts] Hroles. pose proof (roles_account_seeds _ _ _ _ _ Hroles) as Hks. destruct Hroles as [_ Hk].
  intros a. unfold set_flow_limit, its_root_seeds, user_roles_seeds, token_manager_seeds, a. cbn [fl_payer fl_operator
    fl_its_root_pda fl_its_roles_pda fl_token_manager_pda fl_system_program].
  destruct (limit_stored km user t limit w Ht) as (w' & Hw' & Hset).
  repeat run_instr. destruct (UserRoles.has_operator_role r); [|by apply bind_err].
  cbn [negb]. run_instr. repeat run_instr. unfold flow_limit_of. case_bool_decide as Hl.
  - apply bind_err, require_false. apply bool_decide_eq_false. by intros [].
  - run_instr. by exists w'.
Qed.

(** Setting a limit, as a flow limiter of the token. *)
Lemma set_token_manager_flow_limit_eval payer user limit root c km t kr r w :
  root_at (its w) root c -> manager_at (its w) km root (TokenManager.token_id t) t -> roles_account w km user kr r ->
  let a := {| ml_payer := signer_mut payer; ml_flow_limiter := signer_readonly user;
              ml_its_root_pda := account_readonly root; ml_token_manager_pda := account_mut km;
              ml_flow_limiter_roles_pda := account_readonly kr; ml_system_program := system_program_ID |} in
  if UserRoles.has_flow_limiter_role r
  then exists w', set_token_manager_flow_limit a limit w = Ok (tt, w') /\ limit_was_set km user t limit w w'
  else set_token_manager_flow_limit a limit w = Err (EIts MissingFlowLimiterRole).
Proof.
  intros [Hr Hrs] [Ht Hts] Hroles. pose proof (roles_account_seeds _ _ _ _ _ Hroles) as Hks. destruct Hroles as [_ Hk].
  intros a. unfold set_token_manager_flow_limit, its_root_seeds, user_roles_seeds, token_manager_seeds, a.
  cbn [ml_payer ml_flow_limiter ml_its_root_pda ml_token_manager_pda ml_flow_limiter_roles_pda ml_system_program].
  destruct (limit_stored km user t limit w Ht) as (w' & Hw' & Hset).
  repeat run_instr. destruct (UserRoles.has_flow_limiter_role r); [|by apply bind_err].
  run_instr. by exists w'.
Qed.

(** C26: Flow limits, as clients set them. In a reachable world, for every token manager, the instruction
    that [make_set_flow_limit_instruction] builds for its token id and a user with a roles account on
    ITS fails with [MissingOperatorRole] if the user is not an operator, with [InvalidArgument] if the
    limit is the present one, and otherwise sets the limit, changes nothing else of ITS and emits the
    event; the one that [make_set_token_manager_flow_limit_instruction] builds for a user with a roles
    account on the token manager does the same for its flow limiters, and accepts the present limit. *)
Theorem flow_limit_instructions_exact l w km t payer user limit
    (Hrun : its_run l w) (Ht : its w !! km = Some (DTokenManager t)) :
  exists root c, its w !! root = Some (DIts c) /\
  (forall kr r, roles_account w root user kr r ->
     exists ix, make_set_flow_limit_instruction payer user (TokenManager.token_id t) limit = Ok ix /\
       if negb (UserRoles.has_operator_role r) then its_entry ix w = Err (EIts MissingOperatorRole)
       else if bool_decide (flow_limit_of t = limit) then its_entry ix w = Err (EIts ItsInvalidArgument)
       else exists w', its_entry ix w = Ok (tt, w') /\ limit_was_set km user t limit w w') /\
  (forall kr r, roles_account w km user kr r ->
     exists ix, make_set_token_manager_flow_limit_instruction payer user (TokenManager.token_id t) limit = Ok ix /\
       if UserRoles.has_flow_limiter_role r
       then exists w', its_entry ix w = Ok (tt, w') /\ limit_was_set km user t limit w w'
       else its_entry ix w = Err (EIts MissingFlowLimiterRole)).
Proof.
  pose proof (its_run_wf _ _ Hrun) as Hw. destruct (client_manager _ _ _ Hw Ht) as (root & c & Hc & Hm & Hmt & _).
  destruct (client_root _ _ _ Hw Hc) as [Hr Hrt]. exists root, c. split_and!; [done|..].
  - intros kr r Hroles. pose proof (client_roles _ _ _ _ (proj1 Hroles)) as Hk. eexists. split.
    + unfold make_set_flow_limit_instruction. rewrite Hr. cbn. rewrite Hk. cbn. rewrite Hm. cbn. reflexivity.
    + by eapply set_flow_limit_eval.
  - intros kr r Hroles. pose proof (client_roles _ _ _ _ (proj1 Hroles)) as Hk. eexists. split.
    + unfold make_set_token_manager_flow_limit_instruction. rewrite Hr. cbn. rewrite Hm. cbn. rewrite Hk. cbn. reflexivity.
    + by eapply set_token_manager_flow_limit_eval.
Qed.

(** ** Outgoing transfers *)

(** What a client needs to send [amount] tokens of [t], a native token at [km], to [da] on [dc]: an active
    root that trusts the chain; a user with the tokens, which the token program burns; room within the flow
    limit; the accounts of the gateway and, for [gas], of the gas service with a payer that can pay. *)
Record sendable (w : World) (c : InterchainTokenService.t) (km : Pubkey) (t : TokenManager.t)
    (tp payer authority : Pubkey) (dc da : bytes) (amount gas : Z) (data : option bytes) (L : Ledger) : Prop := {
  sd_active : InterchainTokenService.paused c = false;
  sd_trusted : dc ∈ InterchainTokenService.trusted_chains c;
  sd_native : TokenManager.ty t = NativeInterchainToken;
  sd_amount : amount <> 0;
  sd_address : da <> [];
  sd_user : from_option owner system_program_ID (ledger w !! authority) = system_program_ID;
  sd_program : is_token_program tp = true;
  sd_mint : exists b ms, owned_bytes (ledger w) tp (TokenManager.token_address t) = Some b /\
    mint_unpack b = Some ms /\ mint_unpack_from_slice b = Some ms /\ ms_mint_authority ms = Some km;
  sd_source : exists s, ta_owner s = authority /\ ta_mint s = TokenManager.token_address t /\
    token_at (ledger w) tp (get_associated_token_address authority (TokenManager.token_address t) tp) = Some s;
  sd_ata : held_by w tp (get_associated_token_address km (TokenManager.token_address t) tp) km;
  sd_flow : okay (flow_step (now w) t amount FlowOut);
  sd_message : is_Some (borsh_serialize (encoding.SendToHub dc
    (transfer_message (TokenManager.token_id t) authority da amount data)));
  sd_gateway : exists k b cfg, find_program_address GatewayConfig.pda_seeds gateway_ID = Some (k, b) /\ root_loaded w k cfg;
  sd_signing : is_Some (find_program_address CallContractSigner.pda_seeds its_ID);
  sd_burn : token_invoke tp (Burn (TokenManager.token_address t)
    (get_associated_token_address authority (TokenManager.token_address t) tp) authority amount) (ledger w) = Ok L;
  sd_treasury : exists k b, find_program_address Treasury.pda_seeds gas_service_ID = Some (k, b) /\
    (0 < gas -> treasury_at w k (Treasury.mk b) /\ okay (sys_transfer L payer k gas))
}.

(** The accounts of the built instruction. *)
Definition sent_accounts (tp payer authority root km mint kg ks kt : Pubkey) : InterchainTransfer :=
  {| ix_payer := signer_mut payer; ix_authority := signer_readonly authority;
     ix_gateway_root_pda := account_readonly kg; ix_gateway_program := gateway_ID;
     ix_call_contract_signing_pda := account_readonly ks; ix_gas_treasury := account_mut kt;
     ix_gas_service := gas_service_ID; ix_its_root_pda := account_readonly root;
     ix_token_manager_pda := account_mut km; ix_token_program := tp; ix_token_mint := account_mut mint;
     ix_authority_token_account := account_mut (get_associated_token_address authority mint tp);
     ix_token_manager_ata := account_mut (get_associated_token_address km mint tp);
     ix_system_program := system_program_ID |}.

Lemma interchain_transfer_accounts_eval w root c km t tp payer authority dc da amount gas data L kg ks kt :
  root_at (its w) root c -> manager_at (its w) km root (TokenManager.token_id t) t ->
  sendable w c km t tp payer authority dc da amount gas data L ->
  interchain_transfer_accounts (sent_accounts tp payer authority root km (TokenManager.token_address t) kg ks kt)
    (TokenManager.token_id t) dc w = Ok ((c, t), w).
Proof.
  intros [Hr Hrs] [Ht Hts] [Ha Hdc _ _ _ _ Htp (b & ms & Hb & Hms & _ & _) (s & Hso & Hsm & Hs) (sm & Hsa & Hsao) _ _ _ _ _ _].
  apply InterchainTokenService.is_trusted_chain_spec in Hdc.
  assert (load_mint (TokenManager.token_address t) w = Ok ((tp, ms), w)) as Hmint.
  { apply load_mint_ok. split_and!; [done|done|]. unfold mint_at. cbn. by rewrite Hb. }
  assert (forall k x, token_at (ledger w) tp k = Some x -> load_token_account k w = Ok ((tp, x), w)) as Htok.
  { intros k x Hx. by apply load_token_account_ok. }
  apply Htok in Hs, Hsa. assert (negb (InterchainTokenService.paused c) = true) as Hnp by by rewrite Ha.
  unfold interchain_transfer_accounts, token_interface, mint_token_program, its_root_seeds, not_paused, token_manager_seeds,
    associated_token, sent_accounts. cbn [key fst snd ix_payer ix_authority ix_gateway_program ix_gas_service ix_its_root_pda ix_token_manager_pda
    ix_token_program ix_token_mint ix_authority_token_account ix_token_manager_ata ix_system_program ix_gas_treasury account_mut account_readonly].
  repeat (run_instr; cbn [fst snd]). erewrite bind_eval; [|do 2 run_instr; run_check]. cbv beta. by run_instr.
Qed.

(** *** The message to the hub *)

Lemma invoke_account_eval a s m w :
  (s = true -> is_signer a = true) -> (m = true -> is_writable a = true) ->
  invoke_account a s m w = Ok ({| key := key a; is_signer := s; is_writable := m |}, w).
Proof.
  intros Hs Hm. unfold invoke_account.
  erewrite bind_eval; [|apply require_eval; destruct s; [by rewrite Hs|done]]. cbv beta.
  erewrite bind_eval; [|apply require_eval; destruct m; [by rewrite Hm|done]]. done.
Qed.

(** The payer signed and can pay the gas into the treasury. *)
Definition gas_ready (g : GMPAccounts) (gas : Z) (w : World) : Prop :=
  0 < gas -> is_signer (gm_payer g) = true /\ is_writable (gm_payer g) = true /\
    is_writable (gm_gas_treasury g) = true /\ gm_system_program g = system_program_ID /\
    (exists b, find_program_address Treasury.pda_seeds gas_service_ID = Some (key (gm_gas_treasury g), b) /\
       treasury_at w (key (gm_gas_treasury g)) (Treasury.mk b)) /\
    okay (sys_transfer (ledger w) (key (gm_payer g)) (key (gm_gas_treasury g)) gas).

Lemma pay_hub_gas_eval g ph gas w : gas_ready g gas w -> exists w', pay_hub_gas g ph gas w = Ok (tt, w').
Proof.
  unfold pay_hub_gas. intros H. destruct (Z.ltb_spec 0 gas) as [Hg|Hg]; [|by exists w].
  destruct (H Hg) as (Hs & Hw & Htw & Hsp & (b & Hf & Ht) & L & HL).
  do 2 (erewrite bind_eval by (by apply invoke_account_eval); cbv beta). unfold pay_gas.
  assert (pay_gas_accounts {| pg_sender := {| key := key (gm_payer g); is_signer := true; is_writable := true |};
    pg_treasury := {| key := key (gm_gas_treasury g); is_signer := false; is_writable := true |};
    pg_system_program := gm_system_program g |} w = Ok (tt, w)) as Ha.
  { apply find_create in Hf. unfold pay_gas_accounts, treasury_constraints, treasury_at in *.
    cbn [pg_sender pg_treasury pg_system_program key]. repeat run_instr. by apply require_eval. }
  erewrite bind_eval by exact Ha. cbv beta. cbn [pg_sender pg_treasury key].
  erewrite bind_eval by (apply require_eval; destruct (Z.eqb_spec gas 0); [lia|done]). cbv beta.
  erewrite bind_eval; [|unfold system_transfer, with_ledger; rewrite HL; reflexivity]. by eexists.
Qed.

Lemma send_to_hub_eval g dc m gas w k cfg :
  is_Some (borsh_serialize (encoding.SendToHub dc m)) -> gas_ready g gas w ->
  (exists b, find_program_address CallContractSigner.pda_seeds its_ID = Some (key (gm_call_contract_signing_pda g), b)) ->
  key (gm_gateway_root_pda g) = k -> root_loaded w k cfg ->
  exists w', send_to_hub_wrap g m dc gas w = Ok (tt, w').
Proof.
  intros [b Hb] Hg [sb Hs] Hk Hr. unfold send_to_hub_wrap, send_to_hub. run_instr.
  erewrite bind_eval by (apply lift_ok; rewrite Hb; split; reflexivity). cbv beta.
  destruct (pay_hub_gas_eval g (keccak_hash b) gas w Hg) as [w1 H1]. erewrite bind_eval by exact H1. cbv beta.
  apply pay_hub_gas_ok in H1 as ([Hq _] & _).
  assert (root_loaded w1 k cfg) as Hr1.
  { destruct Hr as [Hr Hrs]. split; [|done]. unfold gw. by rewrite Hq by apply program_ne_system. }
  pose proof (find_create _ _ _ _ Hs) as Hcs.
  erewrite bind_eval by (apply lift_ok; unfold CallContractSigner.find_pda; by rewrite (find_or_panic _ _ _ _ Hs)).
  cbv beta. cbn [fst snd]. run_instr.
  do 2 (erewrite bind_eval by (by eapply invoke_signed_account_eval); cbv beta).
  match goal with |- exists w', call_contract ?a ?x ?y ?p ?q ?v = _ =>
    destruct (call_contract_exact a x y p q v cfg) as [Hok _] end.
  - cbn. by rewrite Hk.
  - by intros p [= <-].
  - eexists. apply Hok. right. eexists. split; [reflexivity|exact Hcs].
Qed.

(** *** The transfer *)

Lemma take_token_eval w c root km t tp payer authority dc da amount gas data L kg ks kt :
  sendable w c km t tp payer authority dc da amount gas data L ->
  exists t', take_token (sent_accounts tp payer authority root km (TokenManager.token_address t) kg ks kt) t amount w =
    Ok ((amount, t'), mkWorld L (now w) (log w)).
Proof.
  intros [_ _ Hty _ _ _ Htp (b & ms & Hb & _ & Hms & Hau) _ _ [t' Hf] _ _ _ Hburn _]. exists t'.
  unfold take_token, sent_accounts. cbn [key ix_token_mint ix_token_manager_pda account_mut].
  erewrite bind_eval.
  2: { unfold validate_token_manager_type.
       erewrite bind_eval by (apply mint_data_ok; split; [reflexivity|exists tp; by split]). cbv beta. rewrite Hms.
       erewrite bind_eval by (apply lift_ok; split; reflexivity). cbv beta. rewrite Hau, Hty.
       rewrite bool_decide_eq_true_2 by done. reflexivity. }
  cbv beta. rewrite Hty. erewrite bind_eval.
  2: { unfold burn_from_source. cbn [ix_token_mint ix_authority_token_account ix_authority ix_token_program].
       erewrite bind_eval; [|do 3 (erewrite bind_eval by (by apply invoke_account_eval); cbv beta);
         apply (token_cpi_ok _ _ _ tt); exists L; split; [exact Hburn|reflexivity]]. reflexivity. }
  cbv beta. erewrite bind_eval; [|rewrite outbound_track_same; apply track_token_flow_ok; split; [exact Hf|reflexivity]].
  reflexivity.
Qed.

Lemma invoked_state w L tp ix pid :
  token_invoke tp ix (ledger w) = Ok L -> pid ∈ repository_programs ->
  state_of pid (mkWorld L (now w) (log w)) = state_of pid w.
Proof. intros H Hp. exact (token_frame _ _ _ _ H pid Hp). Qed.
Lemma transfer_eval w c root km t tp payer authority dc da amount gas data L :
  root_at (its w) root c -> manager_at (its w) km root (TokenManager.token_id t) t ->
  sendable w c km t tp payer authority dc da amount gas data L ->
  exists h, hub_accounts payer root = Ok h /\ exists w',
    interchain_transfer (sent_accounts tp payer authority root km (TokenManager.token_address t)
        (key (ha_gateway_root_pda h)) (key (ha_call_contract_signing_pda h)) (key (ha_gas_treasury h)))
      (TokenManager.token_id t) dc da amount gas None None data w = Ok (tt, w').
Proof.
  intros Hr Hm Hs. pose proof Hs as [_ _ _ Hamt Hda Huser Htp _ _ _ _ Hmsg (kg & gb & cfg & Hg & Hgr) [[ks sb] Hsig] Hburn (kt & tb & Ht & Hgas)].
  eexists. split.
  { unfold hub_accounts, GatewayConfig.find_pda, CallContractSigner.find_pda.
    rewrite (find_or_panic _ _ _ _ Hg), (find_or_panic _ _ _ _ Hsig), (find_or_panic _ _ _ _ Ht). reflexivity. }
  cbn [key ha_gateway_root_pda ha_call_contract_signing_pda ha_gas_treasury account_readonly account_mut fst].
  set (a := sent_accounts _ _ _ _ _ _ _ _ _). unfold interchain_transfer.
  erewrite bind_eval by (by eapply interchain_transfer_accounts_eval). cbv beta.
  erewrite bind_eval by (apply require_eval; destruct (Z.eqb_spec amount 0); done). cbv beta.
  erewrite bind_eval by (apply require_eval; by rewrite bool_decide_eq_false_2). cbv beta.
  assert (transfer_source (ix_authority a) None None w = Ok (authority, w)) as Hsrc.
  { unfold transfer_source, a, sent_accounts. cbn. by rewrite bool_decide_eq_true_2. }
  erewrite bind_eval by exact Hsrc. cbv beta. unfold process_outbound_transfer. cbn [fst snd].
  destruct (take_token_eval w c root km t tp payer authority dc da amount gas data L kg ks kt Hs) as [t' Ht'].
  erewrite bind_eval by exact Ht'. cbv beta. cbn [fst snd].
  erewrite bind_eval by (apply (emit_ok _ _ tt); reflexivity). cbv beta. cbn [ledger now log].
  match goal with |- context [store _ t'] => set (w1 := mkWorld L (now w) _) end.
  assert (forall pid, pid ∈ repository_programs -> state_of pid w1 = state_of pid w) as Hst.
  { intros pid Hp. exact (invoked_state w L tp _ pid Hburn Hp). }
  match goal with |- context [send_to_hub_wrap ?g ?m dc gas] => destruct (send_to_hub_eval g dc m gas w1 kg cfg) as [w2 H2] end.
  - exact Hmsg.
  - intros Hpos. destruct (Hgas Hpos) as [Htr Hpay]. split_and!; try done. exists tb. split; [exact Ht|].
    unfold treasury_at. rewrite Hst; [exact Htr|unfold repository_programs; set_solver].
  - by exists sb.
  - done.
  - destruct Hgr as [Hgr Hgs]. split; [|done]. unfold gw. rewrite Hst; [exact Hgr|apply gateway_in_repository].
  - erewrite bind_eval by exact H2. cbv beta.
    apply send_to_hub_ok in H2 as (_ & _ & Hq & _). apply quiet_its in Hq.
    destruct (store_eval _ TokenManager_account km t' w2 its_ID (DTokenManager t)) as (w' & Hw' & _); [|by exists w'].
    change (its w2 !! km = Some (DTokenManager t)). rewrite Hq. unfold its. rewrite Hst; [apply Hm|apply its_in_repository].
Qed.

(** C12: A user can send native tokens. In a reachable world, the instruction that
    [make_interchain_transfer_instruction] builds for the token id of a native token manager succeeds
    whenever the transfer is allowed: ITS is active and trusts the chain, the user is a wallet whose
    tokens the token program burns, the flow limit has room, and the gateway and, when gas is offered,
    the gas service with a payer that can pay are in place. *)
Theorem user_can_send l w km t tp payer authority dc da amount gas data c L
    (Hrun : its_run l w) (Ht : its w !! km = Some (DTokenManager t)) (Hc : exists root, its w !! root = Some (DIts c))
    (Hs : sendable w c km t tp payer authority dc da amount gas data L) :
  exists ix w', make_interchain_transfer_instruction (TokenManager.token_id t) amount tp payer authority dc da gas
      None None data = Ok ix /\ its_entry ix w = Ok (tt, w').
Proof.
  pose proof (its_run_wf _ _ Hrun) as Hw. destruct (client_manager _ _ _ Hw Ht) as (root & c' & Hc' & Hmk & Hmt & Hmint).
  destruct Hc as [root' Hc]. pose proof (wf_root_unique _ _ _ _ _ Hw Hc Hc') as ->. assert (c' = c) as -> by congruence.
  destruct (client_root _ _ _ Hw Hc) as [Hr Hrt]. pose proof (Hmint (sd_native _ _ _ _ _ _ _ _ _ _ _ _ _ Hs)) as Hmm.
  destruct (transfer_eval w c root km t tp payer authority dc da amount gas data L Hrt Hmt Hs) as (h & Hh & w' & Hw').
  eexists. exists w'. split.
  - unfold make_interchain_transfer_instruction. rewrite Hr. cbn. rewrite Hmk. cbn. rewrite Hmm. cbn. rewrite Hh. cbn. reflexivity.
  - cbn [its_entry]. unfold hub_accounts in Hh. inv_result. exact Hw'.
Qed.
(** The builder derives the mint of an interchain token from the token id, so it has no use for a token
    whose mint is another: for a canonical or custom token its instruction always fails. *)
Lemma client_transfer_native_only w km t mint tp payer authority dc da amount gas program seeds data ix
    (Ht : its w !! km = Some (DTokenManager t)) (root : Pubkey) (Hr : its_root_address = Ok root)
    (Hk : token_manager_address (TokenManager.token_id t) root = Ok km)
    (Hm : token_mint_address (TokenManager.token_id t) root = Ok mint) (Hne : TokenManager.token_address t <> mint)
    (Hix : make_interchain_transfer_instruction (TokenManager.token_id t) amount tp payer authority dc da gas
      program seeds data = Ok ix) :
  exists e, its_entry ix w = Err e.
Proof.
  unfold make_interchain_transfer_instruction in Hix. rewrite Hr in Hix. cbn in Hix. rewrite Hk in Hix. cbn in Hix.
  rewrite Hm in Hix. cbn in Hix. destruct (hub_accounts payer root) as [h|e]; [|done]. injection Hix as <-.
  destruct (its_entry _ w) as [[u w']|e] eqn:E; [exfalso|by eexists]. cbn [its_entry] in E.
  unfold interchain_transfer, interchain_transfer_accounts in E. inv_instr.
  match goal with
  | Ha : state_of program_of w !! key (ix_token_manager_pda _) = Some (wrap ?x),
    Hb : bool_decide (TokenManager.token_address ?x = _) = true |- _ =>
      change (its w !! km = Some (DTokenManager x)) in Ha; apply bool_decide_eq_true in Hb; cbn in Hb; congruence
  end.
Qed.
End progress.
