(* ===== verification/ItsAdmin.v ===== *)
(** * ITS: the administration through clients

    The instructions of [ItsClient.v] by which the upgrade authority pauses ITS and trusts chains and by
    which holders of roles transfer them or appoint flow limiters: in a reachable world they succeed for
    whoever has the authority. *)

From stdpp Require Import base gmap list.
From Stdlib Require Import ZArith Lia.
From S2P Require Import Prelude Errors External StdInts StdTypes GatewayState Payload ItsState Ledger LedgerLemmas SplToken Gateway Executable Its ItsOutbound ItsDeploy ItsExecute ItsClient ItsLemmas ItsSpec ItsTransfers ItsRefines ItsInvariant ItsAuthority ItsCustody ItsSafety ItsProgress.

Section admin.
Context {keccak : Keccak} {merkle : RsMerkle} {secp : Secp256k1} {bits : BitVec} {bnum : Bnum}
  {pda : SolanaPda} {ids : ProgramIds} {system : SolanaSystem} {realloc : AnchorRealloc} {spl : SplToken}
  {network : ItsNetwork} {runtime : Runtime} {loader : ProgramDataAddress}.
Context {leaf_digest : Digestable VerifierSetLeaf} {message_digest : Digestable Message}
  {message_leaf_digest : Digestable MessageLeaf}.
Context {vecs : BorshVec} {abi : SolAbi}.
Context {hub_codec : Borsh encoding.HubMessage} {token_payload_codec : Borsh AxelarExecuteWithInterchainTokenPayload}.
Context {ids_laws : ProgramIdsLaws} {pda_laws : SolanaPdaLaws} {system_laws : SolanaSystemLaws}
  {spl_laws : SplTokenLaws} {realloc_laws : AnchorReallocLaws} {runtime_laws : ItsRuntimeLaws}
  {loader_laws : ProgramDataAddressLaws}.

(** ** Roles accounts *)

(** The roles account of [user] on [resource] exists with the roles of [r], or [payer] can create it. *)
Definition roles_ready (w : World) (payer resource user k : Pubkey) (r : UserRoles.t) (b : byte) : Prop :=
  roles_address resource user k b /\
  (its w !! k = Some (DUserRoles r) \/
   (r = UserRoles.zeroed /\ from_option owner system_program_ID (ledger w !! k) = system_program_ID /\
    okay (sys_create_account (ledger w) payer k USER_ROLES_SPACE its_ID))).

Lemma init_user_roles_eval w payer resource user k r b :
  roles_ready w payer resource user k r b ->
  exists w', init_user_roles payer k resource user w = Ok ((r, b), w') /\ its w' = <[k := DUserRoles r]> (its w).
Proof.
  intros [Hf Hr]. assert (exists r' w', init_user_roles payer k resource user w = Ok ((r', b), w') /\ r' = r)
    as (? & w' & H & ->).
  { unfold init_user_roles, init_if_needed. destruct Hr as [Hr|(-> & Hs & L & HL)].
    - pose proof Hr as [lam Hl]%state_of_lookup. rewrite Hl. cbn [from_option owner].
      rewrite bool_decide_eq_false_2 by apply its_not_system. exists r, w. split; [|done].
      erewrite bind_eval by (apply constraint_seeds_find_ok; split; [exact Hf|reflexivity]). cbv beta. by run_instr.
    - rewrite bool_decide_eq_true_2 by done. unfold init_account. pose proof HL as (_ & _ & l & pa & pl & _ & _ & _ & _ & E)%create_ok.
      assert (exists w', store k UserRoles.zeroed (mkWorld L (now w) (log w)) = Ok (tt, w')) as [w' Hw'].
      { unfold store, with_ledger. cbn [ledger]. rewrite E, lookup_insert_eq. by eexists. }
      exists UserRoles.zeroed, w'. split; [|done]. erewrite bind_eval; [reflexivity|].
      erewrite bind_eval by (apply constraint_seeds_find_ok; split; [exact Hf|reflexivity]). cbv beta.
      erewrite bind_eval; [|unfold with_ledger; cbn [program_of UserRoles_account]; rewrite HL; reflexivity]. cbv beta.
      erewrite bind_eval by exact Hw'. reflexivity. }
  exists w'. split; [exact H|]. by apply init_user_roles_ok in H as (_ & _ & ? & _).
Qed.

(** The transfer of a role between two accounts. *)
Lemma move_role_eval role payer ks kd rs rd b m w :
  its w = <[kd := DUserRoles rd]> m -> m !! ks = Some (DUserRoles rs) -> ks <> kd ->
  exists w', move_role role payer ks kd rs rd b w = Ok (tt, w') /\
    its w' = <[kd := DUserRoles (UserRoles.mk (Z.lor (UserRoles.roles rd) role) b)]>
      (put_roles m ks (UserRoles.remove rs role)).
Proof.
  intros Hi Hs Hne.
  assert (its w !! ks = Some (DUserRoles rs)) as Hks by by rewrite Hi, lookup_insert_ne.
  assert (its w !! kd = Some (DUserRoles rd)) as Hkd by by rewrite Hi, lookup_insert_eq.
  assert (exists w', move_role role payer ks kd rs rd b w = Ok (tt, w')) as [w' H].
  { unfold move_role. set (rs' := UserRoles.remove rs role).
    assert (exists w1, (if UserRoles.has_roles rs' then store ks rs' else close_account ks payer) w = Ok (tt, w1) /\
      its w1 !! kd = Some (DUserRoles rd)) as (w1 & H1 & Hkd1).
    { destruct (UserRoles.has_roles rs').
      - destruct (store_eval _ UserRoles_account ks rs' w its_ID _ Hks) as (w1 & H1 & Hi1 & _).
        exists w1. split; [exact H1|]. unfold its. by rewrite Hi1, lookup_insert_ne.
      - eexists. split; [reflexivity|]. erewrite (its_close ks payer w tt) by reflexivity. by rewrite lookup_delete_ne. }
    erewrite bind_eval by exact H1. cbv beta.
    destruct (store_eval _ UserRoles_account kd (UserRoles.set_bump (UserRoles.insert rd role) b) w1 its_ID _ Hkd1)
      as (w' & Hw' & _). by exists w'. }
  exists w'. split; [exact H|]. rewrite (move_role_ok _ _ _ _ _ _ _ _ _ _ _ _ H Hks Hkd), Hi.
  unfold put_roles. destruct (UserRoles.has_roles _); [rewrite (insert_insert_ne m) by done|rewrite delete_insert_ne by done];
    by rewrite insert_insert_eq.
Qed.

(** ** Transfers of roles *)

(** A user [s] with the role, and another user [d] whose account is another. *)
Record role_transfer (w : World) (payer resource s d ks kd : Pubkey) (rs rd : UserRoles.t) (b : byte) : Prop := {
  rt_users : d <> s;
  rt_accounts : ks <> kd;
  rt_sender : roles_account w resource s ks rs;
  rt_destination : roles_ready w payer resource d kd rd b
}.

(** The role has left the sender's account for that of the destination. *)
Definition role_moved (role : Z) (ks kd : Pubkey) (rs rd : UserRoles.t) (b : byte) (w w' : World) : Prop :=
  its w' = <[kd := DUserRoles (UserRoles.mk (Z.lor (UserRoles.roles rd) role) b)]>
    (put_roles (its w) ks (UserRoles.remove rs role)).

(** What the three instructions do, apart from their checks. *)
Lemma role_transfer_eval role payer resource s d ks kd rs rd b w :
  role_transfer w payer resource s d ks kd rs rd b ->
  exists w1 w', init_user_roles payer kd resource d w = Ok ((rd, b), w1) /\
    move_role role payer ks kd rs rd b w1 = Ok (tt, w') /\ role_moved role ks kd rs rd b w w'.
Proof.
  intros [_ Hne [_ Hs] Hd]. destruct (init_user_roles_eval _ _ _ _ _ _ _ Hd) as (w1 & H1 & Hi1). exists w1.
  destruct (move_role_eval role payer ks kd rs rd b (its w) w1 Hi1 Hs Hne) as (w' & Hw' & Hm). by exists w'.
Qed.

Lemma its_transfer_operatorship_eval w root c payer s d ks kd rs rd b :
  root_at (its w) root c -> role_transfer w payer root s d ks kd rs rd b -> UserRoles.has_operator_role rs = true ->
  exists w', its_transfer_operatorship
    {| xo_system_program := system_program_ID; xo_payer := signer_mut payer; xo_origin_user_account := signer_readonly s;
       xo_origin_roles_account := account_mut ks; xo_resource_account := account_readonly root;
       xo_destination_user_account := account_readonly d; xo_destination_roles_account := account_mut kd |} w = Ok (tt, w') /\
    role_moved ROLE_OPERATOR ks kd rs rd b w w'.
Proof.
  intros [Hr Hrs] Ht Hrole. pose proof Ht as [Hne _ Hsend _]. pose proof (roles_account_seeds _ _ _ _ _ Hsend) as Hss.
  destruct Hsend as [_ Hs]. destruct (role_transfer_eval ROLE_OPERATOR _ _ _ _ _ _ _ _ _ _ Ht) as (w1 & w' & H1 & H2 & Hm).
  exists w'. split; [|exact Hm]. unfold its_transfer_operatorship, its_root_seeds, user_roles_seeds.
  cbn [xo_system_program xo_payer xo_origin_user_account xo_origin_roles_account xo_resource_account
    xo_destination_user_account xo_destination_roles_account key account_mut account_readonly signer_mut signer_readonly].
  by repeat (run_instr; cbn [fst snd]).
Qed.

Lemma transfer_token_manager_operatorship_eval w root c km t payer s d ks kd rs rd b :
  root_at (its w) root c -> manager_at (its w) km root (TokenManager.token_id t) t ->
  role_transfer w payer km s d ks kd rs rd b -> UserRoles.has_operator_role rs = true ->
  exists w', transfer_token_manager_operatorship
    {| xm_system_program := system_program_ID; xm_payer := signer_mut payer; xm_origin_user_account := signer_readonly s;
       xm_origin_roles_account := account_mut ks; xm_its_root_pda := account_readonly root;
       xm_token_manager_account := account_readonly km; xm_destination_user_account := account_readonly d;
       xm_destination_roles_account := account_mut kd |} w = Ok (tt, w') /\
    role_moved ROLE_OPERATOR ks kd rs rd b w w'.
Proof.
  intros [Hr Hrs] [Hk Hks] Ht Hrole. pose proof Ht as [Hne _ Hsend _].
  pose proof (roles_account_seeds _ _ _ _ _ Hsend) as Hss. destruct Hsend as [_ Hs].
  destruct (role_transfer_eval ROLE_OPERATOR _ _ _ _ _ _ _ _ _ _ Ht) as (w1 & w' & H1 & H2 & Hm).
  exists w'. split; [|exact Hm].
  unfold transfer_token_manager_operatorship, its_root_seeds, user_roles_seeds, token_manager_seeds.
  cbn [xm_system_program xm_payer xm_origin_user_account xm_origin_roles_account xm_its_root_pda xm_token_manager_account
    xm_destination_user_account xm_destination_roles_account key account_mut account_readonly signer_mut signer_readonly].
  by repeat (run_instr; cbn [fst snd]).
Qed.

Lemma transfer_interchain_token_mintership_eval w root c km t payer s d ks kd rs rd b :
  root_at (its w) root c -> manager_at (its w) km root (TokenManager.token_id t) t ->
  role_transfer w payer km s d ks kd rs rd b -> UserRoles.has_minter_role rs = true ->
  exists w', transfer_interchain_token_mintership
    {| mm_payer := signer_mut payer; mm_its_root_pda := account_readonly root;
       mm_token_manager_account := account_readonly km; mm_sender_user_account := signer_readonly s;
       mm_sender_roles_account := account_mut ks; mm_destination_user_account := account_readonly d;
       mm_destination_roles_account := account_mut kd; mm_system_program := system_program_ID |} w = Ok (tt, w') /\
    role_moved ROLE_MINTER ks kd rs rd b w w'.
Proof.
  intros [Hr Hrs] [Hk Hks] Ht Hrole. pose proof Ht as [Hne _ Hsend _].
  pose proof (roles_account_seeds _ _ _ _ _ Hsend) as Hss. destruct Hsend as [_ Hs].
  destruct (role_transfer_eval ROLE_MINTER _ _ _ _ _ _ _ _ _ _ Ht) as (w1 & w' & H1 & H2 & Hm).
  exists w'. split; [|exact Hm].
  unfold transfer_interchain_token_mintership, its_root_seeds, user_roles_seeds, token_manager_seeds.
  cbn [mm_system_program mm_payer mm_sender_user_account mm_sender_roles_account mm_its_root_pda mm_token_manager_account
    mm_destination_user_account mm_destination_roles_account key account_mut account_readonly signer_mut signer_readonly].
  by repeat (run_instr; cbn [fst snd]).
Qed.

(** C24: Roles can be handed on. In a reachable world, with a token manager, the instructions that clients
    build to transfer the operatorship of ITS, the operatorship of the token and its mintership succeed
    for every holder of the role and every other user whose roles account exists or can be created, and
    move exactly that role: the sender's account keeps its other roles, or is closed, and the other
    user's account has the role beside its own. *)
Theorem role_transfers_succeed l w km t payer s d (Hrun : its_run l w) (Ht : its w !! km = Some (DTokenManager t)) :
  exists root c, its w !! root = Some (DIts c) /\
  (forall ks kd rs rd b, role_transfer w payer root s d ks kd rs rd b -> UserRoles.has_operator_role rs = true ->
     exists ix w', make_transfer_operatorship_instruction payer s d = Ok ix /\ its_entry ix w = Ok (tt, w') /\
       role_moved ROLE_OPERATOR ks kd rs rd b w w') /\
  (forall ks kd rs rd b, role_transfer w payer km s d ks kd rs rd b -> UserRoles.has_operator_role rs = true ->
     exists ix w', make_transfer_token_manager_operatorship_instruction payer s d (TokenManager.token_id t) = Ok ix /\
       its_entry ix w = Ok (tt, w') /\ role_moved ROLE_OPERATOR ks kd rs rd b w w') /\
  (forall ks kd rs rd b, role_transfer w payer km s d ks kd rs rd b -> UserRoles.has_minter_role rs = true ->
     exists ix w', make_transfer_interchain_token_mintership_instruction payer s d (TokenManager.token_id t) = Ok ix /\
       its_entry ix w = Ok (tt, w') /\ role_moved ROLE_MINTER ks kd rs rd b w w').
Proof.
  pose proof (its_run_wf _ _ Hrun) as Hw. destruct (client_manager _ _ _ Hw Ht) as (root & c & Hc & Hmk & Hmt & _).
  destruct (client_root _ _ _ Hw Hc) as [Hr Hrt]. exists root, c. split_and!; [done|..]; intros ks kd rs rd b Htr Hrole;
    pose proof (client_roles _ _ _ _ (proj1 (rt_sender _ _ _ _ _ _ _ _ _ _ Htr))) as Es;
    pose proof (client_roles _ _ _ _ (proj1 (rt_destination _ _ _ _ _ _ _ _ _ _ Htr))) as Ed.
  - destruct (its_transfer_operatorship_eval w root c payer s d ks kd rs rd b Hrt Htr Hrole) as (w' & Hw' & Hm).
    eexists. exists w'. split.
    { unfold make_transfer_operatorship_instruction. rewrite Hr. cbn. rewrite Es. cbn. rewrite Ed. reflexivity. }
    by split.
  - destruct (transfer_token_manager_operatorship_eval w root c km t payer s d ks kd rs rd b Hrt Hmt Htr Hrole)
      as (w' & Hw' & Hm).
    eexists. exists w'. split.
    { unfold make_transfer_token_manager_operatorship_instruction. rewrite Hr. cbn. rewrite Hmk. cbn. rewrite Es. cbn. rewrite Ed. reflexivity. }
    by split.
  - destruct (transfer_interchain_token_mintership_eval w root c km t payer s d ks kd rs rd b Hrt Hmt Htr Hrole)
      as (w' & Hw' & Hm).
    eexists. exists w'. split.
    { unfold make_transfer_interchain_token_mintership_instruction. rewrite Hr. cbn. rewrite Hmk. cbn. rewrite Es. cbn. rewrite Ed. reflexivity. }
    by split.
Qed.

(** ** Configuration *)

(** The loader records [a] as the upgrade authority of ITS. *)
Definition loader_records (w : World) (a : option Pubkey) : Prop :=
  state_of bpf_loader_upgradeable_ID w !! get_program_data_address its_ID = Some (DProgramData a).

(** The outcome of an instruction that replaces the root at [k]. *)
Definition root_outcome (e : option Error) (k : Pubkey) (c : InterchainTokenService.t) (r : Result (unit * World))
    (w : World) : Prop :=
  match e with
  | Some e => r = Err e
  | None => exists w', r = Ok (tt, w') /\ its w' = <[k := DIts c]> (its w)
  end.

Lemma root_stored k c c' w : its w !! k = Some (DIts c) ->
  exists w', store k c' w = Ok (tt, w') /\ its w' = <[k := DIts c']> (its w).
Proof.
  intros Hk. destruct (store_eval _ Its_account k c' w its_ID _ Hk) as (w' & Hs & Hi & _). by exists w'.
Qed.

Lemma loaded_program_data w a : loader_records w a ->
  load ProgramData (get_program_data_address its_ID) w = Ok (Build_ProgramData a, w).
Proof. intros H. by apply load_ok. Qed.

Lemma its_program_data_eval w a payer :
  its_program_data (account_readonly (get_program_data_address its_ID)) (Build_ProgramData a) (signer_mut payer) w =
    if bool_decide (a = Some payer) then Ok (tt, w) else Err (EIts ItsInvalidAccountData).
Proof.
  destruct (program_data_derived its_ID) as [b Hb]. unfold its_program_data. cbn [key account_readonly signer_mut].
  erewrite bind_eval by (apply constraint_seeds_find_ok; split; [exact Hb|reflexivity]). cbv beta.
  cbn [upgrade_authority_address]. by case_bool_decide.
Qed.

Lemma set_pause_status_eval w root c a payer p :
  root_at (its w) root c -> loader_records w a ->
  root_outcome (if negb (bool_decide (a = Some payer)) then Some (EIts ItsInvalidAccountData)
    else if Bool.eqb (InterchainTokenService.paused c) p then Some (EIts ItsInvalidArgument) else None)
    root (InterchainTokenService.set_paused c p)
    (set_pause_status {| sp_payer := signer_mut payer;
       sp_program_data := account_readonly (get_program_data_address its_ID); sp_its_root_pda := account_mut root |} p w) w.
Proof.
  intros [Hr Hrs] Hl. apply loaded_program_data in Hl. unfold set_pause_status, its_root_seeds.
  cbn [sp_payer sp_program_data sp_its_root_pda key account_mut account_readonly].
  pose proof (its_program_data_eval w a payer) as Hpd. cbn [key account_readonly] in Hpd.
  repeat run_instr. case_bool_decide; cbn [negb]; [|by apply bind_err].
  repeat run_instr. destruct (Bool.eqb _ _) eqn:E; [by apply bind_err|]. cbn [negb].
  run_instr. by eapply root_stored.
Qed.

(** The upgrade authority or an operator of ITS, as [make_set_trusted_chain_instruction] has it. *)
Definition chain_authority (w : World) (root payer : Pubkey) (use_operator_role : bool) : Prop :=
  if use_operator_role
  then exists kr r, roles_account w root payer kr r /\ UserRoles.has_operator_role r = true
  else loader_records w (Some payer).

Lemma trusted_chain_accounts_eval w root c payer op :
  its_root_address = Ok root -> root_at (its w) root c -> chain_authority w root payer op ->
  exists a, trusted_chain_client_accounts payer op = Ok a /\ trusted_chain_accounts a w = Ok (c, w) /\
    key (tc_payer a) = payer /\ tc_its_root_pda a = account_mut root.
Proof.
  intros Hroot [Hr Hrs] Ha. unfold trusted_chain_client_accounts. rewrite Hroot. destruct op.
  - destruct Ha as (kr & r & Hk & Hop). pose proof (client_roles _ _ _ _ (proj1 Hk)) as E.
    pose proof (roles_account_seeds _ _ _ _ _ Hk) as Hs. destruct Hk as [_ Hk]. cbn. rewrite E. cbn.
    eexists. split; [reflexivity|]. split; [|done].
    unfold trusted_chain_accounts, trusted_chain_authority, load_option, user_roles_seeds.
    cbn [tc_payer tc_user_roles tc_program_data tc_its_root_pda tc_system_program key account_mut account_readonly signer_mut].
    run_instr. erewrite bind_eval; [|run_instr; reflexivity]. cbv beta.
    erewrite bind_eval by reflexivity. cbv beta. do 2 run_instr.
    erewrite bind_eval; [reflexivity|]. do 2 run_instr. erewrite bind_eval; [reflexivity|]. run_instr. by run_check.
  - cbn. eexists. split; [reflexivity|]. split; [|done].
    pose proof (loaded_program_data _ _ Ha) as Hl. pose proof (its_program_data_eval w (Some payer) payer) as Hpd.
    rewrite bool_decide_eq_true_2 in Hpd by done.
    unfold trusted_chain_accounts, trusted_chain_authority, load_option.
    cbn [tc_payer tc_user_roles tc_program_data tc_its_root_pda tc_system_program key account_mut account_readonly signer_mut].
    run_instr. erewrite bind_eval by reflexivity. cbv beta. erewrite bind_eval; [|run_instr; reflexivity]. cbv beta.
    do 2 run_instr. erewrite bind_eval; [reflexivity|]. do 2 run_instr. erewrite bind_eval; [exact Hpd|reflexivity].
Qed.

(** The payer can pay the rent of a root of [n] bytes. *)
Definition can_resize (w : World) (payer root : Pubkey) (n : Z) : Prop := okay (anchor_realloc (ledger w) payer root n).

Lemma resized w payer root c n : can_resize w payer root n -> its w !! root = Some (DIts c) ->
  exists w1, realloc_account payer root n w = Ok (tt, w1) /\ its w1 = its w.
Proof.
  intros [L HL] Hc. assert (realloc_account payer root n w = Ok (tt, mkWorld L (now w) (log w))) as H.
  { unfold realloc_account, with_ledger. by rewrite HL. }
  eexists. split; [exact H|]. apply realloc_quiet in H as [Hq _]. by apply quiet_its.
Qed.

Lemma set_trusted_chain_eval w root c a chain_name :
  root_at (its w) root c -> trusted_chain_accounts a w = Ok (c, w) -> tc_its_root_pda a = account_mut root ->
  can_resize w (key (tc_payer a)) root (InterchainTokenService.space_with_chain_added c chain_name) ->
  root_outcome (if InterchainTokenService.is_trusted_chain c chain_name then Some (EIts TrustedChainAlreadySet) else None)
    root (InterchainTokenService.add_trusted_chain c chain_name) (set_trusted_chain a chain_name w) w.
Proof.
  intros [Hr Hrs] Ha Hroot Hsz. destruct (resized _ _ _ _ _ Hsz Hr) as (w1 & H1 & Hi1).
  unfold set_trusted_chain, its_root_seeds. rewrite Hroot. cbn [key account_mut].
  do 4 run_instr. destruct (InterchainTokenService.is_trusted_chain c chain_name); [by apply bind_err|]. cbn [negb].
  run_instr. erewrite bind_eval by (apply (emit_ok _ _ tt); reflexivity). cbv beta. rewrite <- Hi1 in Hr.
  match goal with |- root_outcome _ _ _ (store _ ?c' ?v) _ => destruct (root_stored root c c' v Hr) as (w' & Hw' & Hi') end.
  exists w'. split; [exact Hw'|]. rewrite Hi', its_emit. by rewrite Hi1.
Qed.

Lemma remove_trusted_chain_eval w root c a chain_name :
  root_at (its w) root c -> trusted_chain_accounts a w = Ok (c, w) -> tc_its_root_pda a = account_mut root ->
  can_resize w (key (tc_payer a)) root (InterchainTokenService.space_with_chain_removed c chain_name) ->
  root_outcome (if InterchainTokenService.is_trusted_chain c chain_name then None else Some (EIts TrustedChainNotSet))
    root (InterchainTokenService.remove_trusted_chain c chain_name) (remove_trusted_chain a chain_name w) w.
Proof.
  intros [Hr Hrs] Ha Hroot Hsz. destruct (resized _ _ _ _ _ Hsz Hr) as (w1 & H1 & Hi1).
  unfold remove_trusted_chain, its_root_seeds. rewrite Hroot. cbn [key account_mut].
  do 4 run_instr. destruct (InterchainTokenService.is_trusted_chain c chain_name); [|by apply bind_err].
  run_instr. erewrite bind_eval by (apply (emit_ok _ _ tt); reflexivity). cbv beta. rewrite <- Hi1 in Hr.
  match goal with |- root_outcome _ _ _ (store _ ?c' ?v) _ => destruct (root_stored root c c' v Hr) as (w' & Hw' & Hi') end.
  exists w'. split; [exact Hw'|]. rewrite Hi', its_emit. by rewrite Hi1.
Qed.

(** C25: The configuration, as clients change it. In a reachable world with a root, the instruction that
    [make_set_pause_status_instruction] builds fails with [InvalidAccountData] unless the loader records
    the payer as the upgrade authority, with [InvalidArgument] if the pause is what it is, and otherwise
    sets it, and nothing else of ITS. For the upgrade authority, and for an operator of ITS, the ones that
    add and remove a trusted chain, when the payer can pay for the size of the root, fail exactly if the
    chain is already trusted, or is not, and otherwise do what the state's [add_trusted_chain] (which
    leaves out the hub) and [remove_trusted_chain] do. *)
Theorem configuration_instructions_exact l w root c payer (Hrun : its_run l w) (Hc : its w !! root = Some (DIts c)) :
  (forall a p, loader_records w a ->
     exists ix, make_set_pause_status_instruction payer p = Ok ix /\
       root_outcome (if negb (bool_decide (a = Some payer)) then Some (EIts ItsInvalidAccountData)
         else if Bool.eqb (InterchainTokenService.paused c) p then Some (EIts ItsInvalidArgument) else None)
         root (InterchainTokenService.set_paused c p) (its_entry ix w) w) /\
  (forall op n, chain_authority w root payer op ->
     can_resize w payer root (InterchainTokenService.space_with_chain_added c n) ->
     exists ix, make_set_trusted_chain_instruction payer n op = Ok ix /\
       root_outcome (if InterchainTokenService.is_trusted_chain c n then Some (EIts TrustedChainAlreadySet) else None)
         root (InterchainTokenService.add_trusted_chain c n) (its_entry ix w) w) /\
  (forall op n, chain_authority w root payer op ->
     can_resize w payer root (InterchainTokenService.space_with_chain_removed c n) ->
     exists ix, make_remove_trusted_chain_instruction payer n op = Ok ix /\
       root_outcome (if InterchainTokenService.is_trusted_chain c n then None else Some (EIts TrustedChainNotSet))
         root (InterchainTokenService.remove_trusted_chain c n) (its_entry ix w) w).
Proof.
  pose proof (its_run_wf _ _ Hrun) as Hw. destruct (client_root _ _ _ Hw Hc) as [Hr Hrt]. split_and!.
  - intros a p Hl. eexists. split.
    + unfold make_set_pause_status_instruction. rewrite Hr. cbn. reflexivity.
    + by apply set_pause_status_eval.
  - intros op n Ha Hsz. destruct (trusted_chain_accounts_eval w root c payer op Hr Hrt Ha) as (a & E & Hacc & Hp & Hk).
    eexists. split; [unfold make_set_trusted_chain_instruction; rewrite E; reflexivity|].
    apply set_trusted_chain_eval; try done. by rewrite Hp.
  - intros op n Ha Hsz. destruct (trusted_chain_accounts_eval w root c payer op Hr Hrt Ha) as (a & E & Hacc & Hp & Hk).
    eexists. split; [unfold make_remove_trusted_chain_instruction; rewrite E; reflexivity|].
    apply remove_trusted_chain_eval; try done. by rewrite Hp.
Qed.
End admin.
