(* ===== verification/ItsDelivery.v ===== *)
(** * ITS: approved transfers are delivered

    From the approval of a message by the gateway to the tokens in the account of the wallet that it
    names: nothing that the code checks on the way can stop a transfer that the hub ordered. *)

From stdpp Require Import base gmap list.
From Stdlib Require Import ZArith Lia.
From S2P Require Import Prelude Errors External StdInts StdTypes GatewayState Payload OperatorsState ItsState Ledger LedgerLemmas SplToken Gateway GatewayLemmas GatewayOutcomes Executable GasService Its ItsOutbound ItsDeploy ItsExecute ItsClient ItsLemmas ItsSpec ItsTransfers ItsRefines ItsInvariant ItsAuthority ItsCustody ItsSafety ItsProgress.

Section delivery.
Context {keccak : Keccak} {merkle : RsMerkle} {secp : Secp256k1} {bits : BitVec} {bnum : Bnum}
  {pda : SolanaPda} {ids : ProgramIds} {system : SolanaSystem} {realloc : AnchorRealloc} {spl : SplToken}
  {network : ItsNetwork} {runtime : Runtime}.
Context {leaf_digest : Digestable VerifierSetLeaf} {message_digest : Digestable Message}
  {message_leaf_digest : Digestable MessageLeaf}.
Context {vecs : BorshVec} {abi : SolAbi}.
Context {hub_codec : Borsh encoding.HubMessage} {token_payload_codec : Borsh AxelarExecuteWithInterchainTokenPayload}.
Context {ids_laws : ProgramIdsLaws} {pda_laws : SolanaPdaLaws} {system_laws : SolanaSystemLaws}
  {spl_laws : SplTokenLaws} {realloc_laws : AnchorReallocLaws} {runtime_laws : ItsRuntimeLaws}.

(** ** The accounts of the instruction *)

Definition meta_info (m : AccountMeta) : AccountInfo :=
  {| key := meta_pubkey m; is_signer := meta_is_signer m; is_writable := meta_is_writable m |}.

(** The accounts of [execute] for a transfer to [d], with the extra accounts of the client's helper. *)
Definition delivery_accounts (payer kin ksig kg root km mint tp : Pubkey) (extra : list AccountMeta) : Execute :=
  {| xe_executable := {| ex_incoming_message_pda := account_mut kin; ex_signing_pda := account_readonly ksig;
       ex_gateway_root_pda := account_readonly kg; ex_axelar_gateway_program := gateway_ID |};
     xe_payer := signer_mut payer; xe_its_root_pda := account_readonly root;
     xe_token_manager_pda := account_mut km; xe_token_mint := account_mut mint;
     xe_token_manager_ata := account_mut (get_associated_token_address km mint tp); xe_token_program := tp;
     xe_associated_token_program := associated_token_ID; xe_system_program := system_program_ID;
     xe_remaining_accounts := meta_info <$> extra |}.

(** The accounts that [execute] passes on. *)
Definition given_accounts (payer root km mint tp d : Pubkey) : ExecuteInterchainTransfer :=
  {| et_payer := signer_mut payer; et_its_root_pda := signer_readonly root; et_destination := account_readonly d;
     et_destination_token_authority := account_readonly d;
     et_destination_ata := account_mut (get_associated_token_address d mint tp);
     et_token_mint := account_mut mint; et_token_manager_pda := account_mut km;
     et_token_manager_ata := account_mut (get_associated_token_address km mint tp); et_token_program := tp;
     et_associated_token_program := associated_token_ID; et_system_program := system_program_ID;
     et_interchain_transfer_execute := None; et_remaining_accounts := [] |}.

(** ** What the transfer needs *)

(** A transfer of the native token [t] at [km] to the wallet [d], which has an account for the token. *)
Record deliverable (w : World) (c : InterchainTokenService.t) (km : Pubkey) (t : TokenManager.t) (tp d : Pubkey)
    (sc : bytes) (tr : encoding.InterchainTransfer) : Prop := {
  dl_active : InterchainTokenService.paused c = false;
  dl_trusted : sc ∈ InterchainTokenService.trusted_chains c;
  dl_token : TokenManager.token_id t = encoding.it_token_id tr;
  dl_native : TokenManager.ty t = NativeInterchainToken;
  dl_amount : encoding.it_amount tr <> 0;
  dl_data : default [] (encoding.it_data tr) = [];
  dl_destination : arr_try_from 32 (encoding.it_destination_address tr) = Some d;
  dl_wallet : is_bpf_loader_owned (from_option owner system_program_ID (ledger w !! d)) = false;
  dl_program : is_token_program tp = true;
  dl_mint : exists b ms, owned_bytes (ledger w) tp (TokenManager.token_address t) = Some b /\
    mint_unpack b = Some ms /\ mint_unpack_from_slice b = Some ms /\ ms_mint_authority ms = Some km;
  dl_account : exists s, ta_mint s = TokenManager.token_address t /\ ta_owner s = d /\
    token_at (ledger w) tp (get_associated_token_address d (TokenManager.token_address t) tp) = Some s;
  dl_ata : held_by w tp (get_associated_token_address km (TokenManager.token_address t) tp) km;
  dl_flow : okay (flow_step (now w) t (encoding.it_amount tr) FlowIn);
  dl_mints : forall L, same_tokens (ledger w) L -> okay (token_invoke tp (MintTo (TokenManager.token_address t)
    (get_associated_token_address d (TokenManager.token_address t) tp) km (encoding.it_amount tr)) L)
}.

(** Other accounts do not matter. *)
Lemma deliverable_same w w' c km t tp d sc tr :
  same_tokens (ledger w) (ledger w') -> now w' = now w ->
  from_option owner system_program_ID (ledger w' !! d) = from_option owner system_program_ID (ledger w !! d) ->
  deliverable w c km t tp d sc tr -> deliverable w' c km t tp d sc tr.
Proof.
  intros Hs Hn Hd [? ? ? ? ? ? ? ? Hp (b & ms & Hm) (sa & Ha) (s & Hsa & Hso) ? Hi]. split; try done.
  - by rewrite Hd.
  - exists b, ms. by rewrite Hs.
  - exists sa. unfold token_at in *. by rewrite Hs.
  - exists s. split; [|done]. unfold token_at in *. by rewrite Hs.
  - by rewrite Hn.
  - intros L HL. apply Hi. intros p k Hq. by rewrite HL, Hs.
Qed.

(** ** The token account and the mint *)

Lemma associated_token_if_needed_eval payer k mint authority p s w :
  is_token_program p = true -> token_at (ledger w) p k = Some s -> ta_mint s = mint -> ta_owner s = authority ->
  k = get_associated_token_address authority mint p ->
  associated_token_if_needed payer k mint authority p w = Ok (tt, w).
Proof.
  intros Hp Hs Hm Ho Hk. unfold associated_token_if_needed.
  assert (bool_decide (from_option owner system_program_ID (ledger w !! k) = system_program_ID) = false) as ->.
  { apply bool_decide_eq_false. intros Hsys. apply (system_no_bytes _ p) in Hsys; [|done].
    unfold token_at in Hs. by rewrite Hsys in Hs. }
  erewrite bind_eval by reflexivity. cbv beta.
  erewrite bind_eval by (by apply (load_token_account_ok k w (p, s) w)). cbv beta.
  cbn [fst snd]. do 3 run_instr. run_check.
Qed.

Lemma mint_as_manager_eval tp mint to mgr root id b n w k L :
  create_program_address (token_manager_signer root id b) its_ID = Some k -> key mgr = k ->
  is_writable mint = true -> is_writable to = true ->
  token_invoke tp (MintTo (key mint) (key to) k n) (ledger w) = Ok L ->
  mint_as_manager tp mint to mgr root id b n w = Ok (tt, mkWorld L (now w) (log w)).
Proof.
  intros Hk Hm Hw1 Hw2 HL. unfold mint_as_manager.
  do 3 (erewrite bind_eval by (by eapply invoke_signed_account_eval); cbv beta). cbn [key]. rewrite Hm.
  apply token_cpi_ok. by exists L.
Qed.

(** ** The transfer *)

Lemma given_accounts_eval w c root km t tp payer d sc tr :
  root_at (its w) root c -> manager_at (its w) km root (TokenManager.token_id t) t -> deliverable w c km t tp d sc tr ->
  execute_interchain_transfer_accounts (given_accounts payer root km (TokenManager.token_address t) tp d) d
    (TokenManager.token_id t) w = Ok ((t, None), w).
Proof.
  intros [Hr Hrs] [Ht Hts] [Ha _ _ _ _ _ _ _ Htp (b & ms & Hb & Hms & _ & _) (s & Hsm & Hso & Hs) (sm & Hsa & Hsao) _ _].
  assert (load_mint (TokenManager.token_address t) w = Ok ((tp, ms), w)) as Hmint.
  { apply load_mint_ok. split_and!; [done|done|]. unfold mint_at. cbn. by rewrite Hb. }
  pose proof (proj2 (load_token_account_ok _ w (tp, sm) w) (conj eq_refl (conj Htp Hsa))) as Hata.
  assert (negb (InterchainTokenService.paused c) = true) as Hnp by by rewrite Ha.
  unfold execute_interchain_transfer_accounts, token_interface, mint_token_program, its_root_seeds, not_paused,
    token_manager_seeds, associated_token, given_accounts.
  cbn [key fst snd et_payer et_its_root_pda et_destination et_destination_token_authority et_destination_ata et_token_mint
    et_token_manager_pda et_token_manager_ata et_token_program et_associated_token_program et_system_program
    et_interchain_transfer_execute account_mut account_readonly signer_readonly signer_mut].
  do 8 (run_instr; cbn [fst snd]).
  erewrite bind_eval by (by eapply associated_token_if_needed_eval). cbv beta.
  repeat (run_instr; cbn [fst snd]). erewrite bind_eval; [|do 2 run_instr; run_check]. cbv beta. by run_instr.
Qed.

Lemma give_token_eval w c root km t tp payer d sc tr :
  manager_at (its w) km root (TokenManager.token_id t) t -> deliverable w c km t tp d sc tr ->
  exists x L, handle_give_token_transfer (given_accounts payer root km (TokenManager.token_address t) tp d) t
    (encoding.it_amount tr) w = Ok (x, mkWorld L (now w) (log w)) /\
    forall pid, pid ∈ repository_programs -> state_of pid (mkWorld L (now w) (log w)) = state_of pid w.
Proof.
  intros [_ Hts] Hdl. pose proof Hdl as [_ _ _ Hty _ _ _ _ _ _ _ _ [t' Hf] Hmints].
  destruct (Hmints (ledger w)) as [L HL]; [done|]. do 2 eexists. split; [|intros pid Hpid; exact (invoked_state w L tp _ pid HL Hpid)].
  unfold handle_give_token_transfer, given_accounts, mint_to_receiver.
  erewrite bind_eval by (apply track_token_flow_ok; split; [exact Hf|reflexivity]). cbv beta.
  apply flow_step_fixed in Hf as [(E1 & E2 & _ & _ & E5) _]. rewrite E1, E2, E5, Hty.
  erewrite bind_eval; [reflexivity|]. erewrite bind_eval; [reflexivity|].
  by eapply mint_as_manager_eval.
Qed.

Lemma execute_interchain_transfer_eval w c root km t tp payer d sc tr m :
  root_at (its w) root c -> manager_at (its w) km root (TokenManager.token_id t) t -> deliverable w c km t tp d sc tr ->
  exists w', execute_interchain_transfer (given_accounts payer root km (TokenManager.token_address t) tp d) m sc
    (encoding.it_source_address tr) d (encoding.it_token_id tr) (encoding.it_amount tr)
    (default [] (encoding.it_data tr)) w = Ok (tt, w').
Proof.
  intros Hr Hm Hdl. pose proof Hdl as [_ _ Hid Hty Hamt Hdata _ Hwal _ (b & ms & Hb & _ & Hms & Hau) _ _ _ _].
  unfold execute_interchain_transfer. rewrite <- Hid, Hdata.
  erewrite bind_eval by (by eapply given_accounts_eval). cbv beta. cbn [fst snd].
  erewrite bind_eval by (apply require_eval; destruct (Z.eqb_spec (encoding.it_amount tr) 0); done). cbv beta.
  erewrite bind_eval.
  2: { unfold check_destination_authority, expected_authority, given_accounts. cbn [key et_destination et_destination_token_authority
         account_readonly]. erewrite bind_eval; [|rewrite Hwal; reflexivity]. cbv beta. by apply require_eval, bool_decide_eq_true. }
  cbv beta. erewrite bind_eval.
  2: { unfold validate_token_manager_type, given_accounts. cbn [key et_token_mint et_token_manager_pda account_mut].
       erewrite bind_eval by (apply mint_data_ok; split; [reflexivity|exists tp; by split; [apply Hdl|]]). cbv beta. rewrite Hms.
       erewrite bind_eval by (apply lift_ok; split; reflexivity). cbv beta. rewrite Hau, Hty.
       rewrite bool_decide_eq_true_2 by done. reflexivity. }
  cbv beta. destruct (give_token_eval w c root km t tp payer d sc tr Hm Hdl) as ([n t'] & L & Hg & Hst).
  erewrite bind_eval by exact Hg. cbv beta. cbn [fst snd].
  erewrite bind_eval by (apply (emit_ok _ _ tt); reflexivity). cbv beta. rewrite bool_decide_eq_true_2 by done.
  erewrite bind_eval by reflexivity. cbv beta.
  match goal with |- exists w', store ?k ?x ?v = _ =>
    destruct (store_eval _ TokenManager_account k x v its_ID (DTokenManager t)) as (w' & Hw' & _) end.
  - transitivity (state_of its_ID w !! km); [|apply Hm]. f_equal. exact (Hst _ its_in_repository).
  - by exists w'.
Qed.

(** ** The message *)

Lemma store_owner T (acc : AnchorAccount T) k (x : T) w u w' j :
  store k x w = Ok (u, w') -> owner <$> ledger w' !! j = owner <$> ledger w !! j.
Proof.
  unfold store, with_ledger. destruct (ledger w !! k) as [a|] eqn:Hk; [|done]. intros [= _ <-]. cbn.
  destruct (decide (j = k)) as [->|Hne]; [by rewrite lookup_insert_eq, Hk|by rewrite lookup_insert_ne].
Qed.

(** Marking a message executed changes the owner of no account. *)
Lemma validate_message_owner a m w u w' j :
  Gateway.validate_message a m w = Ok (u, w') -> owner <$> ledger w' !! j = owner <$> ledger w !! j.
Proof.
  unfold Gateway.validate_message, validate_message_accounts, validate_message_handler. intros H. inv_instr.
  match goal with H : gateway_root_seeds _ _ = _ |- _ => apply gateway_root_seeds_ok in H as (? & _ & _ & ->) end.
  match goal with H : store _ _ _ = _ |- _ => apply (store_owner _ _ _ _ _ _ _ j) in H end. cbn [ledger]. congruence.
Qed.

(** The approval of a message leaves the accounts of ITS as they are. *)
Lemma approve_message_its a mm root w u w' : approve_message a mm root w = Ok (u, w') -> its w' = its w.
Proof.
  intros H. unfold approve_message, approve_message_accounts, approve_message_handler in H. inv_instr.
  match goal with H : init_account _ _ _ _ _ _ = _ |- _ =>
    apply init_account_ok in H as (_ & _ & _ & Hi & _); [|by apply program_ne_system] end.
  match goal with H : gateway_root_seeds _ _ = _ |- _ => apply gateway_root_seeds_ok in H as (? & _ & _ & ->) end.
  match goal with H : session_constraints _ _ _ _ = _ |- _ => apply session_constraints_ok in H as (_ & _ & _ & ->) end.
  match goal with H : _ = Ok (?sb, _), Hs : store _ _ _ = _ |- _ => apply signing_bump_ok in H as (-> & _) end.
  match goal with H : store _ _ _ = _ |- _ => eapply store_ok in H as (_ & Hs & _); [|eassumption] end.
  rewrite its_emit. unfold its. rewrite Hs, Hi; try done; apply its_not_gateway || apply its_not_system.
Qed.

(** The reception of a message that was just approved. *)
Lemma approved_received ap mm root w0 u w payload (m := ml_message (mm_leaf mm)) cfg ex :
  approve_message ap mm root w0 = Ok (u, w) -> root_loaded w0 (key (am_gateway_root_pda ap)) cfg ->
  pubkey_from_str (destination_address m) = Some its_ID -> keccak_hash payload = payload_hash m ->
  key (ex_incoming_message_pda ex) = key (am_incoming_message_pda ap) -> is_writable (ex_incoming_message_pda ex) = true ->
  key (ex_gateway_root_pda ex) = key (am_gateway_root_pda ap) -> ex_axelar_gateway_program ex = gateway_ID ->
  (exists sb, ValidateMessageSigner.find_pda (command_id m) its_ID = Ok (key (ex_signing_pda ex), sb)) ->
  executable_accounts its_ID ex m w = Ok (tt, w) /\ exists v, validate_message_raw its_ID ex m payload w = Ok (tt, v).
Proof.
  subst m. intros Happ [Hc Hcs] Hd Hh Hk1 Hw1 Hk2 Hgw [sb Hp]. apply approve_message_ok in Happ as
    (_ & _ & b & sb' & _ & _ & _ & _ & _ & _ & Hsb & Hf & Hfree & Hg & _).
  destruct (Hsb _ Hd) as [p' Hp']. unfold ValidateMessageSigner.find_pda in Hp. rewrite (find_or_panic _ _ _ _ Hp') in Hp.
  injection Hp as -> ->. apply find_create in Hf, Hp'. rewrite <- Hk1 in Hf, Hfree, Hg. rewrite <- Hk2 in Hc, Hcs.
  assert (key (ex_gateway_root_pda ex) <> key (ex_incoming_message_pda ex)) as Hne by congruence.
  assert (root_loaded w (key (ex_gateway_root_pda ex)) cfg) as Hroot.
  { split; [|exact Hcs]. by rewrite Hg, lookup_insert_ne. }
  match type of Hg with _ = <[_ := DIncomingMessage ?i]> _ => set (inc := i) in *;
    assert (gw w !! key (ex_incoming_message_pda ex) = Some (DIncomingMessage inc)) as Hinc by by rewrite Hg, lookup_insert_eq end.
  assert (executable_accounts its_ID ex (ml_message (mm_leaf mm)) w = Ok (tt, w)) as Ha.
  { destruct Hroot as [Hr _]. unfold executable_accounts. do 6 run_instr. by apply (gateway_root_seeds_eval _ _ cfg). }
  split; [exact Ha|]. rewrite validate_message_raw_eval by done.
  apply (validate_message_eval _ _ w cfg inc); [by split|done|done|]. split; [done|]. by exists its_ID.
Qed.

Lemma self_account_eval root k a s m w :
  root_at (its w) k root -> (s = true -> is_signer a = true \/ key a = k) -> (m = true -> is_writable a = true) ->
  self_account root a s m w = Ok ({| key := key a; is_signer := s; is_writable := m |}, w).
Proof.
  intros [_ Hr] Hs Hm. unfold self_account, invoke_signed_account.
  erewrite bind_eval by (apply lift_ok; rewrite ok_or_ok; split; [exact Hr|reflexivity]). cbv beta.
  erewrite bind_eval; [|apply require_eval].
  - cbv beta. erewrite bind_eval; [|apply require_eval]; [done|]. destruct m; [by rewrite Hm|done].
  - destruct s; [|done]. destruct (Hs eq_refl) as [->| ->]; [done|]. rewrite bool_decide_eq_true_2 by done. apply orb_true_r.
Qed.

(** What [execute] passes on for a transfer. *)
Lemma cpi_transfer_eval w c root km t tp payer kin ksig kg d sc tr m extra :
  root_at (its w) root c -> manager_at (its w) km root (TokenManager.token_id t) t -> deliverable w c km t tp d sc tr ->
  let mint := TokenManager.token_address t in
  execute_interchain_transfer_extra_accounts d d (get_associated_token_address d mint tp) None = Ok extra ->
  exists w', cpi_execute_interchain_transfer (delivery_accounts payer kin ksig kg root km mint tp extra) c tr m sc w
    = Ok (tt, w').
Proof.
  intros Hr Hm Hdl mint Hex. unfold execute_interchain_transfer_extra_accounts in Hex. injection Hex as <-.
  unfold cpi_execute_interchain_transfer, delivery_accounts. cbn [xe_remaining_accounts fmap list_fmap meta_info meta_pubkey
    meta_is_signer meta_is_writable meta_new_readonly meta_new].
  rewrite (dl_destination _ _ _ _ _ _ _ _ Hdl).
  do 4 (erewrite bind_eval by (apply lift_ok; split; reflexivity); cbv beta; cbn [fst snd head tail]).
  do 6 (erewrite bind_eval by (eapply self_account_eval; [exact Hr|by auto|done]); cbv beta).
  erewrite bind_eval by reflexivity. cbv beta.
  by eapply execute_interchain_transfer_eval.
Qed.

(** [execute], once the gateway accepts the message. *)
Lemma execute_transfer_eval w v c root km t tp payer kin ksig kg d sc tr m payload extra
    (a := delivery_accounts payer kin ksig kg root km (TokenManager.token_address t) tp extra) :
  root_at (its w) root c -> manager_at (its w) km root (TokenManager.token_id t) t -> deliverable w c km t tp d sc tr ->
  execute_interchain_transfer_extra_accounts d d
    (get_associated_token_address d (TokenManager.token_address t) tp) None = Ok extra ->
  executable_accounts its_ID (xe_executable a) m w = Ok (tt, w) ->
  validate_message_raw its_ID (xe_executable a) m payload w = Ok (tt, v) ->
  source_address m = InterchainTokenService.its_hub_address c ->
  hub_message_try_from_slice payload = Some (encoding.ReceiveFromHub sc (encoding.MInterchainTransfer tr)) ->
  exists w', its_execute a m payload w = Ok (tt, w').
Proof.
  intros Hr Hm Hdl Hex Ha Hv Hsrc Hdec. pose proof Hr as [Hrl Hrs].
  pose proof Hv as (_ & _ & _ & Hfr & Hn)%validate_message_raw_ok.
  assert (its v = its w) as Hi by apply Hfr, its_not_gateway.
  assert (deliverable v c km t tp d sc tr) as Hdv.
  { apply (deliverable_same w v); [| done| |done].
    - intros p k Hp. rewrite !owned_bytes_state. rewrite Hfr; [done|]. intros ->.
      by apply (proj1 (token_program_ids _ Hp)), gateway_in_repository.
    - rewrite (validate_message_raw_eval _ _ _ _ _ Ha) in Hv;
        [|by apply validate_message_raw_ok in Hv as [? _]].
      pose proof (validate_message_owner _ _ _ _ _ d Hv) as Ho.
      by destruct (ledger v !! d), (ledger w !! d); simplify_eq/=. }
  assert (negb (InterchainTokenService.paused c) = true) as Hnp by (by rewrite (dl_active _ _ _ _ _ _ _ _ Hdl)).
  unfold its_execute. erewrite bind_eval.
  2: { unfold execute_accounts, its_root_active, its_root_seeds, not_paused. erewrite bind_eval by exact Ha. cbv beta.
       unfold a, delivery_accounts. cbn [xe_payer xe_its_root_pda xe_token_manager_pda xe_token_mint xe_token_manager_ata
         key account_readonly]. do 3 run_instr.
       erewrite bind_eval by (run_instr; run_check). cbv beta. by do 3 run_instr. }
  cbv beta. run_instr. rewrite Hdec.
  do 2 (erewrite bind_eval by (apply lift_ok; split; reflexivity); cbv beta).
  erewrite bind_eval by exact Hv. cbv beta. cbn [fst snd].
  erewrite bind_eval by (by apply require_eval, InterchainTokenService.is_trusted_chain_spec, (dl_trusted _ _ _ _ _ _ _ _ Hdl)).
  cbv beta. rewrite <- Hi in Hr, Hm. by eapply cpi_transfer_eval.
Qed.

(** C11: An approved transfer is delivered. In a reachable world where the gateway has just approved a
    message of the hub for ITS, whose payload orders a transfer of a native token to a wallet with an
    account for the token, [execute] succeeds for whoever submits it with the accounts of the message
    and those of the client's helper: when ITS is active and trusts the source chain, the token manager
    has the mint's authority, the flow limit has room and the token program mints. *)
Theorem approved_transfer_delivered ap mm proof w0 u w l km t payer tp d sc tr payload c
    (m := ml_message (mm_leaf mm)) (mint := TokenManager.token_address t)
    (Happ : approve_message ap mm proof w0 = Ok (u, w))
    (Hcfg : exists cfg, root_loaded w0 (key (am_gateway_root_pda ap)) cfg)
    (Hrun : its_run l w) (Ht : its w !! km = Some (DTokenManager t)) (Hc : exists root, its w !! root = Some (DIts c))
    (Hdest : pubkey_from_str (destination_address m) = Some its_ID) (Hpay : keccak_hash payload = payload_hash m)
    (Hdec : hub_message_try_from_slice payload =
       Some (encoding.ReceiveFromHub sc (encoding.MInterchainTransfer tr)))
    (Hsrc : source_address m = InterchainTokenService.its_hub_address c)
    (Hdl : deliverable w c km t tp d sc tr) :
  exists root ksig sb extra w', its_root_address = Ok root /\
    ValidateMessageSigner.find_pda (command_id m) its_ID = Ok (ksig, sb) /\
    execute_interchain_transfer_extra_accounts d d (get_associated_token_address d mint tp) None = Ok extra /\
    its_entry (ItExecute (delivery_accounts payer (key (am_incoming_message_pda ap)) ksig
      (key (am_gateway_root_pda ap)) root km mint tp extra) m payload) w = Ok (tt, w').
Proof.
  subst m mint. pose proof (its_run_wf _ _ Hrun) as Hw.
  destruct (client_manager _ _ _ Hw Ht) as (root & c' & Hc' & _ & Hmt & _).
  destruct Hc as [root' Hc]. pose proof (wf_root_unique _ _ _ _ _ Hw Hc Hc') as ->. assert (c' = c) as -> by congruence.
  destruct (client_root _ _ _ Hw Hc) as [Hr Hrt]. destruct Hcfg as [cfg Hcfg].
  pose proof Happ as (_ & _ & _ & sb & _ & _ & _ & _ & _ & _ & Hsb & _)%approve_message_ok.
  destruct (Hsb _ Hdest) as [ksig Hks]. apply find_or_panic in Hks.
  assert (exists extra, execute_interchain_transfer_extra_accounts d d
    (get_associated_token_address d (TokenManager.token_address t) tp) None = Ok extra) as [extra Hex] by by eexists.
  exists root, ksig, sb, extra.
  match goal with |- exists w', _ /\ _ /\ _ /\ its_entry (ItExecute ?a _ _) _ = _ => set (ex := a) end.
  destruct (approved_received ap mm proof w0 u w payload cfg (xe_executable ex)) as (Ha & v & Hv); try done; [by exists sb|].
  destruct (execute_transfer_eval w v c root km t tp payer (key (am_incoming_message_pda ap)) ksig
    (key (am_gateway_root_pda ap)) d sc tr (ml_message (mm_leaf mm)) payload extra) as [w' Hw']; try done. by exists w'.
Qed.
End delivery.
