(* ===== verification/ItsTokens.v ===== *)
(** * ITS: who can move, issue and burn tokens

    Every instruction of ITS as a change of the accounts of the token programs: which balances can
    fall, how an existing mint can change, and on whose authority. *)

From stdpp Require Import base gmap list.
From Stdlib Require Import ZArith Lia.
From S2P Require Import Prelude Errors External StdInts StdTypes GatewayState Payload ItsState Ledger LedgerLemmas SplToken Gateway GatewayLemmas Executable GasService Its ItsOutbound ItsDeploy ItsExecute ItsLemmas ItsSpec ItsTransfers ItsRefines ItsCustody.

Section tokens.
Context {keccak : Keccak} {merkle : RsMerkle} {secp : Secp256k1} {bits : BitVec} {bnum : Bnum}
  {pda : SolanaPda} {ids : ProgramIds} {system : SolanaSystem} {realloc : AnchorRealloc} {spl : SplToken}
  {network : ItsNetwork} {runtime : Runtime}.
Context {leaf_digest : Digestable VerifierSetLeaf} {message_digest : Digestable Message}
  {message_leaf_digest : Digestable MessageLeaf}.
Context {vecs : BorshVec} {abi : SolAbi}.
Context {hub_codec : Borsh encoding.HubMessage} {token_payload_codec : Borsh AxelarExecuteWithInterchainTokenPayload}.
Context {ids_laws : ProgramIdsLaws} {pda_laws : SolanaPdaLaws} {system_laws : SolanaSystemLaws}
  {spl_laws : SplTokenLaws} {realloc_laws : AnchorReallocLaws} {runtime_laws : ItsRuntimeLaws}.

(** ** Authority over tokens *)

(** The transfer that the instruction carries from the hub: the token id and the amount. *)
Definition ordered_transfer (ix : ItsInstruction) : option (array 32 * Z) :=
  match ix with
  | ItExecute _ _ payload =>
      match hub_message_try_from_slice payload with
      | Some (encoding.ReceiveFromHub _ (encoding.MInterchainTransfer tr)) =>
          Some (encoding.it_token_id tr, encoding.it_amount tr)
      | _ => None
      end
  | ItExecuteInterchainTransfer _ _ _ _ _ id n _ => Some (id, n)
  | _ => None
  end.

(** The hub orders a transfer of [n] of the token of the manager [t] at [km], while ITS is active. *)
Definition hub_transfers (ix : ItsInstruction) (w : World) (km : Pubkey) (t : TokenManager.t) (n : Z) : Prop :=
  exists root c id, hub_orders ix w /\ ordered_transfer ix = Some (id, n) /\ root_at (its w) root c /\
    InterchainTokenService.paused c = false /\ manager_at (its w) km root id t.

(** [n] tokens leave the account [k] of the token program [p]: its owner signed an outgoing transfer, or
    the hub ordered a transfer out of an account of the token manager. *)
Inductive spends (ix : ItsInstruction) (w : World) (p k : Pubkey) (n : Z) : Prop :=
| SpOut a id dc da gas program seeds data :
    ix = ItInterchainTransfer a id dc da n gas program seeds data -> p = ix_token_program a ->
    k = key (ix_authority_token_account a) -> is_signer (ix_authority a) = true -> held_by w p k (key (ix_authority a)) ->
    spends ix w p k n
| SpHub km t : hub_transfers ix w km t n -> held_by w p k km -> spends ix w p k n.

(** [n] tokens of the mint [m] are issued: by one of the minters of its token manager, or on the hub's
    order by a token manager that mints. *)
Inductive issues (ix : ItsInstruction) (w : World) (p m : Pubkey) (n : Z) : Prop :=
| IsMinter a root c t :
    ix = ItMintInterchainToken a n -> p = mi_token_program a -> m = key (mi_mint a) -> is_signer (mi_minter a) = true ->
    root_at (its w) root c -> InterchainTokenService.paused c = false ->
    manager_at (its w) (key (mi_token_manager_pda a)) root (TokenManager.token_id t) t ->
    TokenManager.token_address t = m -> has_role (its w) (key (mi_token_manager_pda a)) (key (mi_minter a)) ROLE_MINTER ->
    issues ix w p m n
| IsHub km t :
    hub_transfers ix w km t n -> mintable (TokenManager.ty t) = true -> TokenManager.token_address t = m ->
    issues ix w p m n.

(** What can become of an existing mint. *)
Inductive mint_change (ix : ItsInstruction) (w : World) (p m : Pubkey) (ms : MintState) : MintState -> Prop :=
| McSame : mint_change ix w p m ms ms
| McIssued n : 0 <= n -> issues ix w p m n -> mint_change ix w p m ms (with_supply ms (ms_supply ms + n))
| McBurned a id dc da n gas program seeds data :
    0 <= n -> ix = ItInterchainTransfer a id dc da n gas program seeds data -> p = ix_token_program a ->
    m = key (ix_token_mint a) -> is_signer (ix_authority a) = true ->
    n <= balance (ledger w) p (key (ix_authority_token_account a)) ->
    held_by w p (key (ix_authority_token_account a)) (key (ix_authority a)) ->
    mint_change ix w p m ms (with_supply ms (ms_supply ms - n))
| McHanded a id :
    ix = ItHandoverMintAuthority a id -> p = hm_token_program a -> m = key (hm_mint a) ->
    is_signer (hm_authority a) = true -> ms_mint_authority ms = Some (key (hm_authority a)) ->
    mint_change ix w p m ms (with_authority ms (Some (key (hm_token_manager a)))).

(** The effect of the instruction on the token programs, up to the world [v]. *)
Definition token_effect (ix : ItsInstruction) (w v : World) : Prop :=
  forall p, is_token_program p = true ->
    (forall k, balance (ledger v) p k < balance (ledger w) p k ->
       exists n, spends ix w p k n /\ balance (ledger w) p k - n <= balance (ledger v) p k) /\
    (forall m ms, mint_at (ledger w) p m = Some ms ->
       exists ms', mint_at (ledger v) p m = Some ms' /\ mint_change ix w p m ms ms').

(** The instruction ends with the tokens as they are in [v], or [v] is where the destination program of
    an incoming transfer is called, and it ends with what that program makes of them. *)
Definition settles (ix : ItsInstruction) (v w' : World) : Prop :=
  same_tokens (ledger v) (ledger w') \/
  is_Some (ordered_transfer ix) /\
  exists a m sc sa id n data v', data <> [] /\ destination_called a m sc sa id n data v v' /\
    same_tokens (ledger v') (ledger w').

(** ** Lemmas on the effect *)

Lemma mint_no_balance L p m ms : mint_at L p m = Some ms -> balance L p m = 0.
Proof.
  intros (b & Hb & Hm)%bind_Some. unfold balance, token_at. rewrite Hb. cbn. by rewrite (mint_not_token b) by eauto.
Qed.

Lemma token_not_mint L p k t ms : token_at L p k = Some t -> mint_at L p k = Some ms -> False.
Proof. intros Ht Hm. by eapply mint_token_ne in Ht. Qed.

Lemma held_token w p k o : held_by w p k o -> exists t, token_at (ledger w) p k = Some t.
Proof. intros (t & Ht & _). by exists t. Qed.

(** An account of another program, or none of those in the list. *)
Lemma keeps_mint p ks L L' q m ms :
  keeps_except p ks L L' -> is_token_program q = true -> mint_at L q m = Some ms ->
  mint_at L' q m = Some ms \/ q = p /\ m ∈ ks.
Proof.
  intros Hk Hq Hm. destruct (decide (q = p /\ m ∈ ks)) as [?|Hn]; [by right|]. left.
  unfold mint_at in *. rewrite Hk; naive_solver.
Qed.

Lemma keeps_balance p ks L L' q k :
  keeps_except p ks L L' -> is_token_program q = true -> balance L' q k < balance L q k -> q = p /\ k ∈ ks.
Proof.
  intros Hk Hq Hb. destruct (decide (q = p /\ k ∈ ks)) as [?|Hn]; [done|].
  assert (balance L' q k = balance L q k); [|lia]. unfold balance, token_at. rewrite Hk; naive_solver.
Qed.

(** Nothing that existed changes, apart from some accounts. *)
Lemma touches_effect ix ks w v :
  touches ks w v ->
  (forall p k, (p, k) ∈ ks -> is_token_program p = true ->
     (balance (ledger v) p k < balance (ledger w) p k ->
        exists n, spends ix w p k n /\ balance (ledger w) p k - n <= balance (ledger v) p k) /\
     (forall ms, mint_at (ledger w) p k = Some ms ->
        exists ms', mint_at (ledger v) p k = Some ms' /\ mint_change ix w p k ms ms')) ->
  token_effect ix w v.
Proof.
  intros Ht Hks p Hp. split.
  - intros k Hb. destruct (decide ((p, k) ∈ ks)) as [Hin|Hn]; [by apply Hks|].
    destruct (Ht p k Hp Hn) as [_ E]. lia.
  - intros m ms Hm. destruct (decide ((p, m) ∈ ks)) as [Hin|Hn]; [by apply Hks|].
    exists ms. split; [by eapply touches_mint|constructor].
Qed.

Lemma quiet_effect ix w v : touches [] w v -> token_effect ix w v.
Proof. intros H. eapply touches_effect; [exact H|set_solver]. Qed.

Lemma same_settles ix w : settles ix w w.
Proof. left. by intros ? ?. Qed.

(** ** Tokens taken and given *)

(** Of two accounts between which tokens move only the first loses some. *)
Lemma moved_falls p f t out n L L' k :
  moved p f t out n L L' -> 0 <= n -> k ∈ [f; t] -> balance L' p k < balance L p k ->
  k = f /\ balance L p k - out <= balance L' p k.
Proof.
  intros [Hne Heq] Hn Hk Hb. destruct (decide (f = t)) as [->|Hft].
  - assert (k = t) as -> by set_solver. specialize (Heq eq_refl). lia.
  - destruct (Hne Hft) as [Hf Ht]. assert (k = f \/ k = t) as [->| ->] by set_solver; [split; [done|]|]; lia.
Qed.

(** The mints are as they were when only two token accounts of [p] change. *)
Lemma tokens_keep_mints p k1 k2 L L' q m ms :
  keeps_except p [k1; k2] L L' -> (forall k, k ∈ [k1; k2] -> mint_at L p k = None) ->
  is_token_program q = true -> mint_at L q m = Some ms -> mint_at L' q m = Some ms.
Proof.
  intros Hk Hn Hq Hm. destruct (keeps_mint _ _ _ _ _ _ _ Hk Hq Hm) as [?|[-> Hin]]; [done|].
  rewrite Hn in Hm by done. done.
Qed.

Lemma mint_falls p mint k1 d L L' q k :
  keeps_except p [mint; k1] L L' -> supply_moved p mint d L L' -> is_token_program q = true ->
  balance L' q k < balance L q k -> q = p /\ k = k1.
Proof.
  intros Hk (ms & Hm & Hm') Hq Hb. destruct (keeps_balance _ _ _ _ _ _ Hk Hq Hb) as [-> Hin]. split; [done|].
  assert (k = mint \/ k = k1) as [->|?] by set_solver; [|done].
  rewrite (mint_no_balance _ _ _ _ Hm), (mint_no_balance _ _ _ _ Hm') in Hb. lia.
Qed.

Lemma mint_moves p mint k1 d L L' q m ms :
  keeps_except p [mint; k1] L L' -> supply_moved p mint d L L' -> mint_at L p k1 = None -> is_token_program q = true ->
  mint_at L q m = Some ms ->
  mint_at L' q m = Some ms \/ q = p /\ m = mint /\ mint_at L' p m = Some (with_supply ms (ms_supply ms + d)).
Proof.
  intros Hk (ms0 & Hm0 & Hm') Hn Hq Hm. destruct (keeps_mint _ _ _ _ _ _ _ Hk Hq Hm) as [?|[-> Hin]]; [by left|].
  assert (m = mint \/ m = k1) as [-> | ->] by set_solver; [right; split_and!; congruence|congruence].
Qed.

(** Either direction, by burning and minting or by moving. *)
Lemma taken_cases ty p mint source ata amount n L L' :
  tokens_taken ty p mint source ata amount n L L' ->
  n = amount /\ supply_moved p mint (- n) L L' /\ balance L' p source = balance L p source - n /\
    keeps_except p [mint; source] L L' \/
  (exists d, 0 <= d /\ moved p source ata amount d L L') /\ keeps_except p [source; ata] L L'.
Proof.
  intros (Hn & _ & Ht). destruct ty; [by left|by left|right|right|by left].
  - destruct Ht as (-> & _ & (fee & ? & _ & ?) & Hk). split; [|done]. exists (amount - fee). split; [lia|done].
  - destruct Ht as (_ & _ & ? & Hk). split; [|done]. by exists n.
Qed.

Lemma given_cases ty p mint ata dest amount n L L' :
  tokens_given ty p mint ata dest amount n L L' ->
  mintable ty = true /\ 0 <= amount /\ supply_moved p mint amount L L' /\ balance L' p dest = balance L p dest + amount /\
    keeps_except p [mint; dest] L L' \/
  (exists d, 0 <= d /\ moved p ata dest amount d L L') /\ keeps_except p [ata; dest] L L'.
Proof.
  intros (Hn & Ht). destruct ty; [left|left|right|right|left].
  3: destruct Ht as (-> & _ & _ & (fee & ? & _ & ?) & Hk); split; [|done]; exists (amount - fee); split; [lia|done].
  3: destruct Ht as (_ & _ & _ & ? & Hk); split; [|done]; by exists n.
  all: by destruct Ht as (-> & ? & _ & ? & ?).
Qed.

Lemma moves_fall p f t out d L L' q k :
  0 <= d -> moved p f t out d L L' -> keeps_except p [f; t] L L' -> is_token_program q = true ->
  balance L' q k < balance L q k -> q = p /\ k = f /\ balance L p k - out <= balance L' p k.
Proof.
  intros Hd Hmv Hk Hq Hb. destruct (keeps_balance _ _ _ _ _ _ Hk Hq Hb) as [-> Hin]. split; [done|]. by eapply moved_falls.
Qed.

Lemma taken_falls ty p mint source ata amount n L L' q k :
  tokens_taken ty p mint source ata amount n L L' -> is_token_program q = true -> balance L' q k < balance L q k ->
  q = p /\ k = source /\ balance L p k - amount <= balance L' p k.
Proof.
  intros [(-> & Hs & Hbal & Hk)|[(d & Hd & Hmv) Hk]]%taken_cases Hq Hb; [|by eapply moves_fall].
  destruct (mint_falls _ _ _ _ _ _ _ _ Hk Hs Hq Hb) as [-> ->]. split_and!; [done..|lia].
Qed.

Lemma given_falls ty p mint ata dest amount n L L' q k :
  tokens_given ty p mint ata dest amount n L L' -> is_token_program q = true -> balance L' q k < balance L q k ->
  q = p /\ k = ata /\ balance L p k - amount <= balance L' p k.
Proof.
  intros [(_ & Ha & Hs & Hbal & Hk)|[(d & Hd & Hmv) Hk]]%given_cases Hq Hb; [|by eapply moves_fall].
  destruct (mint_falls _ _ _ _ _ _ _ _ Hk Hs Hq Hb) as [-> ->]. exfalso. lia.
Qed.

Lemma taken_mints ty p mint source ata amount n L L' q m ms :
  tokens_taken ty p mint source ata amount n L L' -> mint_at L p source = None -> mint_at L p ata = None ->
  is_token_program q = true -> mint_at L q m = Some ms ->
  mint_at L' q m = Some ms \/
  q = p /\ m = mint /\ n = amount /\ mint_at L' p m = Some (with_supply ms (ms_supply ms - n)).
Proof.
  intros [(-> & Hs & _ & Hk)|[_ Hk]]%taken_cases Hsrc Hata Hq Hm.
  - destruct (mint_moves _ _ _ _ _ _ _ _ _ Hk Hs Hsrc Hq Hm) as [?|(-> & -> & E)]; [by left|right; by split_and!].
  - left. eapply tokens_keep_mints; [exact Hk|set_solver|exact Hq|exact Hm].
Qed.

Lemma given_mints ty p mint ata dest amount n L L' q m ms :
  tokens_given ty p mint ata dest amount n L L' -> mint_at L p ata = None -> mint_at L p dest = None ->
  is_token_program q = true -> mint_at L q m = Some ms ->
  mint_at L' q m = Some ms \/
  q = p /\ m = mint /\ mintable ty = true /\ 0 <= amount /\ mint_at L' p m = Some (with_supply ms (ms_supply ms + amount)).
Proof.
  intros [(Hty & Ha & Hs & _ & Hk)|[_ Hk]]%given_cases Hata Hdst Hq Hm.
  - destruct (mint_moves _ _ _ _ _ _ _ _ _ Hk Hs Hdst Hq Hm) as [?|(-> & -> & E)]; [by left|right; by split_and!].
  - left. eapply tokens_keep_mints; [exact Hk|set_solver|exact Hq|exact Hm].
Qed.

Lemma held_not_mint w p k o : held_by w p k o -> mint_at (ledger w) p k = None.
Proof.
  intros (t & Ht & _). destruct (mint_at (ledger w) p k) eqn:Hm; [|done]. exfalso. by eapply token_not_mint.
Qed.

(** ** The instructions *)

Lemma outbound_effect a id dc da amount gas program seeds data w w' :
  outbound_outcome a id dc da amount gas program seeds data w w' ->
  token_effect (ItInterchainTransfer a id dc da amount gas program seeds data) w w'.
Proof.
  intros (c & t & t' & src & s & n & b & _ & _ & _ & _ & _ & _ & _ & Hs & _ & Hts & Hso & _ & Htk & _ & _ & _ & _ & Hata).
  assert (held_by w (ix_token_program a) (key (ix_authority_token_account a)) (key (ix_authority a))) as Hh by by exists s.
  intros q Hq. split.
  - intros k Hb. destruct (taken_falls _ _ _ _ _ _ _ _ _ _ _ Htk Hq Hb) as (-> & -> & Hle).
    exists amount. split; [by eapply SpOut|done].
  - intros m ms Hm. pose proof (held_not_mint _ _ _ _ Hh) as N1. pose proof (held_not_mint _ _ _ _ Hata) as N2.
    destruct (taken_mints _ _ _ _ _ _ _ _ _ _ _ _ Htk N1 N2 Hq Hm) as [Hm'|(-> & -> & -> & Hm')].
    + exists ms. split; [done|constructor].
    + eexists. split; [exact Hm'|]. destruct Htk as (Hn & Hle & _). by eapply McBurned.
Qed.

Lemma same_tokens_sym L L' : same_tokens L L' -> same_tokens L' L.
Proof. intros H p k Hp. by rewrite H. Qed.

Lemma same_held w w' p k o : same_tokens (ledger w) (ledger w') -> is_token_program p = true ->
  held_by w p k o -> held_by w' p k o.
Proof. intros H Hp (t & Ht & Ho). exists t. split; [|done]. unfold token_at in *. by rewrite H. Qed.

Lemma inbound_effect ix w a m sc sa d id n data w0 w' :
  inbound_outcome a m sc sa d id n data w0 w' -> same_tokens (ledger w) (ledger w0) -> its w0 = its w ->
  hub_orders ix w -> ordered_transfer ix = Some (id, n) ->
  exists v, token_effect ix w v /\ settles ix v w'.
Proof.
  intros (c & t & t' & g & v0 & v & _ & Hr & Hp & Hm & Hma & _ & _ & Hacc & _ & _ & Htk & _ & _ & Hata & _ & _ & Hend) Hs Hi Ho Hord.
  pose proof Hacc as Hprog. apply associated_token_if_needed_ok in Hprog as (_ & _ & _ & _ & Hprog & _).
  pose proof (destination_not_mint _ _ _ _ _ _ _ _ Hacc) as N2. pose proof (held_not_mint _ _ _ _ Hata) as N1.
  assert (hub_transfers ix w (key (et_token_manager_pda a)) t n) as Hhub by (rewrite Hi in *; by do 3 eexists).
  exists v. split.
  - intros q Hq. split.
    + intros k Hb. rewrite <- (same_tokens_balance q _ _ k Hq Hs) in *.
      destruct (given_falls _ _ _ _ _ _ _ _ _ _ _ Htk Hq Hb) as (-> & -> & Hle). exists n. split; [|done].
      eapply SpHub; [exact Hhub|]. by eapply same_held; [apply same_tokens_sym| |].
    + intros k ms Hk. rewrite <- (same_tokens_mint q _ _ k Hq Hs) in Hk.
      destruct (given_mints _ _ _ _ _ _ _ _ _ _ _ _ Htk N1 N2 Hq Hk) as [Hk'|(-> & -> & Hty & Hn & Hk')].
      * exists ms. split; [done|constructor].
      * eexists. split; [exact Hk'|]. apply McIssued; [done|]. by eapply IsHub.
  - case_bool_decide; [left; apply only_its_tokens; by destruct Hend|]. right. split; [by rewrite Hord|].
    destruct Hend as (v' & Hc & Hsame%only_its_tokens & _). by do 8 eexists.
Qed.

Lemma deploy_effect ix a salt name symbol decimals i id w w' :
  deploy_outcome a salt name symbol decimals i id w w' -> token_effect ix w w'.
Proof.
  intros (_ & _ & _ & _ & _ & _ & _ & (_ & Hn & Hm & _) & Hnk & Hb & Ht). eapply touches_effect; [exact Ht|].
  intros p k Hin Hp. assert (p = spl_token_2022_ID /\ (k = key (dt_token_mint a) \/ k = key (dt_deployer_ata a))) as [-> Hk]
    by set_solver. split.
  - intros Hlt. exfalso. destruct Hk as [->| ->]; [|lia]. rewrite (mint_no_balance _ _ _ _ Hm) in Hlt.
    unfold balance, token_at in Hlt. rewrite Hn in Hlt by done. cbn in Hlt. lia.
  - intros ms Hms. destruct Hk as [->| ->].
    + unfold mint_at in Hms. by rewrite Hn in Hms.
    + congruence.
Qed.

Lemma mint_effect a n w w' : mint_outcome a n w w' -> token_effect (ItMintInterchainToken a n) w w'.
Proof.
  intros (c & t & ms & ts & Hr & Hp & Hm & Hma & Hs & Hrole & Hn & Hms & _ & Hms' & _ & Hts & _ & Hts' & Ht & _).
  eapply touches_effect; [exact Ht|]. intros p k Hin Hprog.
  assert (p = mi_token_program a /\ (k = key (mi_mint a) \/ k = key (mi_destination_account a))) as [-> Hk] by set_solver.
  split.
  - intros Hlt. exfalso. destruct Hk as [->| ->].
    + rewrite (mint_no_balance _ _ _ _ Hms), (mint_no_balance _ _ _ _ Hms') in Hlt. lia.
    + unfold balance in Hlt. rewrite Hts, Hts' in Hlt. cbn in Hlt. lia.
  - intros ms0 Hms0. destruct Hk as [->| ->]; [|exfalso; exact (token_not_mint _ _ _ _ _ Hts Hms0)].
    eexists. split; [exact Hms'|]. assert (ms0 = ms) as -> by congruence. apply McIssued; [lia|]. by eapply IsMinter.
Qed.

Lemma handover_mint_effect a id w w' : handover_outcome a id w w' -> token_effect (ItHandoverMintAuthority a id) w w'.
Proof.
  intros (c & t & ms & _ & _ & _ & Hs & Hms & Hau & Hms' & Ht). eapply touches_effect; [exact Ht|].
  intros p k Hin Hprog. assert (p = hm_token_program a /\ k = key (hm_mint a)) as [-> ->] by set_solver. split.
  - intros Hlt. rewrite (mint_no_balance _ _ _ _ Hms), (mint_no_balance _ _ _ _ Hms') in Hlt. lia.
  - intros ms0 Hms0. eexists. split; [exact Hms'|]. assert (ms0 = ms) as -> by congruence. by eapply McHanded.
Qed.

(** The validation of a message by the gateway. *)
Lemma validated_same a m payload c sc inner w v :
  hub_message_received a m payload c sc inner w v -> same_tokens (ledger w) (ledger v) /\ its v = its w.
Proof.
  intros (_ & _ & _ & _ & _ & _ & _ & Hfr & _).
  split; [|apply Hfr, its_not_gateway]. intros p k Hp. rewrite !owned_bytes_state, Hfr; [done|].
  intros ->. apply token_program_ids in Hp as [Hp _]. by apply Hp, gateway_in_repository.
Qed.

Lemma execute_effect a m payload w u w' :
  its_execute a m payload w = Ok (u, w') ->
  exists v, token_effect (ItExecute a m payload) w v /\ settles (ItExecute a m payload) v w'.
Proof.
  intros H. apply its_execute_ok in H as (c & sc & inner & v & Hrec & Hrun).
  pose proof (validated_same _ _ _ _ _ _ _ _ Hrec) as [Hs Hi].
  assert (touches [] w v) as Hv by (apply touches_same; intros p k Hp _; by apply Hs).
  destruct inner as [tr|d|l]; cbn in Hrun.
  - destruct Hrun as (dst & x & _ & _ & H). apply execute_interchain_transfer_ok in H.
    eapply inbound_effect; [exact H|exact Hs|exact Hi|by do 4 eexists|].
    destruct Hrec as (_ & _ & _ & Hdec & _). cbn. by rewrite Hdec.
  - destruct Hrun as (x & _ & _ & H). apply execute_deploy_effect in H as (_ & _ & _ & _ & Ht).
    exists w'. split; [|apply same_settles]. apply quiet_effect. by eapply touches_trans.
  - destruct Hrun as (x & t & _ & _ & _ & H). apply execute_link_effect in H as (_ & _ & ty & _ & _ & _ & _ & Ht).
    exists w'. split; [|apply same_settles]. apply quiet_effect. by eapply touches_trans.
Qed.

Lemma its_entry_tokens ix w u w' :
  its_entry ix w = Ok (u, w') -> exists v, token_effect ix w v /\ settles ix v w'.
Proof.
  intros H. destruct ix; cbn [its_entry] in H; try (apply instr_bind_ok in H as (? & ? & H & [-> ->]%instr_ret_ok)).
  13: by eapply execute_effect.
  15: { eapply inbound_effect; [by eapply execute_interchain_transfer_ok|by intros ? ?|done| |done].
        by eapply execute_transfer_signed. }
  all: eexists; split; [|apply same_settles].
  5: by eapply deploy_effect, deploy_interchain_token_effect.
  14: by eapply outbound_effect, interchain_transfer_ok.
  19: by eapply mint_effect, mint_interchain_token_effect.
  19: by eapply handover_mint_effect, handover_effect.
  all: apply quiet_effect; eauto using initialize_touches, set_pause_status_touches, set_trusted_chain_touches,
    remove_trusted_chain_touches, set_flow_limit_touches, set_token_manager_flow_limit_touches,
    its_transfer_operatorship_touches, transfer_token_manager_operatorship_touches, transfer_mintership_touches,
    add_flow_limiter_touches, remove_flow_limiter_touches, register_canonical_touches, deploy_remote_touches,
    deploy_remote_canonical_touches, register_metadata_touches, link_token_touches.
  - by apply register_custom_effect in H as ((_ & _ & _ & ?) & _).
  - by apply execute_deploy_effect in H as (_ & _ & _ & _ & ?).
  - by apply execute_link_effect in H as (_ & _ & ? & _ & _ & _ & _ & ?).
Qed.

(** ** Theorems *)

(** C5: Custody. Whatever instruction of ITS succeeds, no balance of any account of a token program falls
    except by a transfer: an outgoing one, by at most its amount, out of an account whose owner signed
    it, or one that the hub ordered, by at most its amount, out of an account that the token manager of
    the ordered token id holds. This is so up to the end of the instruction, or up to the call of the
    destination program of an incoming transfer, which then acts on its own authority. *)
Theorem balances_fall_by_transfers ix w u w' (Hrun : its_entry ix w = Ok (u, w')) :
  exists v, settles ix v w' /\
    forall p k, is_token_program p = true -> balance (ledger v) p k < balance (ledger w) p k ->
      exists n, spends ix w p k n /\ balance (ledger w) p k - n <= balance (ledger v) p k.
Proof. apply its_entry_tokens in Hrun as (v & He & Hs). exists v. split; [done|]. intros p k Hp. by apply He. Qed.

(** C6: Issuance. Whatever instruction of ITS succeeds, an existing mint keeps its decimals and changes in
    one of three ways: its supply grows by the amount that one of the minters of its token manager
    asked for and signed, or that the hub ordered for a token manager that mints; its supply falls by
    the amount of an outgoing transfer out of an account whose owner signed it; or its authority, who
    signed, hands it over to the token manager. In every other case it is untouched. *)
Theorem mints_change_by_authority ix w u w' (Hrun : its_entry ix w = Ok (u, w')) :
  exists v, settles ix v w' /\
    forall p m ms, is_token_program p = true -> mint_at (ledger w) p m = Some ms ->
      exists ms', mint_at (ledger v) p m = Some ms' /\ ms_decimals ms' = ms_decimals ms /\ mint_change ix w p m ms ms'.
Proof.
  apply its_entry_tokens in Hrun as (v & He & Hs). exists v. split; [done|]. intros p m ms Hp Hm.
  destruct (He p Hp) as [_ H]. destruct (H m ms Hm) as (ms' & Hm' & Hc). exists ms'. split_and!; [done| |done].
  by destruct Hc.
Qed.

(** C21: A deployment, exactly. A successful [deploy_interchain_token], signed by the deployer, while ITS is
    active, creates the token of the id derived from deployer and salt: its token manager and its mint
    at the addresses derived from that id, neither of which existed; the mint is under the authority of
    the token manager and its whole supply is the initial supply, which the deployer's associated
    account gets; a token without a minter has a supply, and the minter gets the three roles. No other
    account of ITS or of a token program changes. *)
Theorem deploy_interchain_token_exact a salt name symbol decimals i w id w'
    (Hrun : deploy_interchain_token a salt name symbol decimals i w = Ok (id, w')) :
  deploy_outcome a salt name symbol decimals i id w w'.
Proof. by apply deploy_interchain_token_effect. Qed.
End tokens.
