(* ===== verification/Memo.v ===== *)
(** * The memo program

    programs/solana-axelar-memo/src: a program that uses the gateway and ITS. It counts the memos that
    it receives, as messages of the gateway or with interchain tokens, and sends memos and tokens. *)

From stdpp Require Import base gmap list.
From Stdlib Require Import ZArith Lia.
From S2P Require Import Prelude Utf8Text Errors External StdInts StdTypes GatewayState Payload ItsState MemoState Ledger LedgerLemmas SplToken Gateway GatewayLemmas GatewayOutcomes Executable GasService Its ItsOutbound ItsDeploy ItsExecute ItsClient ItsLemmas.

Section memo.
Context {keccak : Keccak} {merkle : RsMerkle} {secp : Secp256k1} {bits : BitVec} {bnum : Bnum}
  {pda : SolanaPda} {ids : ProgramIds} {system : SolanaSystem} {spl : SplToken} {network : ItsNetwork}.
Context {leaf_digest : Digestable VerifierSetLeaf} {message_digest : Digestable Message}
  {message_leaf_digest : Digestable MessageLeaf}.
Context {vecs : BorshVec} {abi : SolAbi} {hub_codec : Borsh encoding.HubMessage}.

(** ** init.rs *)

Record MemoInit := {
  in_payer : AccountInfo;
  in_counter : AccountInfo;
  in_system_program : Pubkey
}.

Definition memo_init (a : MemoInit) : Instr unit :=
  _ ← signer_account (in_payer a);
  _ ← program_account system_program_ID (in_system_program a);
  bump ← init_account Counter.t (key (in_payer a)) (key (in_counter a)) Counter.SPACE [Counter.SEED_PREFIX];
  _ ← constraint_mut (in_payer a);
  _ ← constraint_mut (in_counter a);
  store (key (in_counter a)) (Counter.mk (Counter.counter Counter.zeroed) bump).

(** ** execute.rs *)

(** [log_memo] only logs; taking the first of more than ten characters cannot fail. *)
Definition log_memo (memo : list Z) : Result unit :=
  let char_count := length memo in
  if (10 <? char_count)%nat then _ ← ok_or (head memo) EPanic; mret tt else mret tt.

(** [std::str::from_utf8(..)] and the call of [log_memo]. *)
Definition read_memo (payload : bytes) : Result unit :=
  memo ← ok_or (from_utf8 payload) (EProgram PE_InvalidInstructionData);
  log_memo memo.

(** [#[account(mut, seeds = [Counter::SEED_PREFIX], bump = counter.bump)]] *)
Definition counter_account (k : AccountInfo) : Instr Counter.t :=
  counter ← load Counter.t (key k);
  _ ← constraint_seeds [Counter.SEED_PREFIX] (Counter.bump counter) memo_ID (key k);
  _ ← constraint_mut k;
  mret counter.

Record MemoExecute := {
  mx_executable : AxelarExecutableAccounts;
  mx_event_authority : AccountInfo;
  mx_counter : AccountInfo
}.

(** [ctx.accounts.to_account_metas(None)]: the five accounts of the macro, then the counter. *)
Definition memo_execute_metas (a : MemoExecute) : list AccountMeta :=
  let e := mx_executable a in
  map info_meta [ex_incoming_message_pda e; ex_signing_pda e; ex_gateway_root_pda e; mx_event_authority a;
    {| key := ex_axelar_gateway_program e; is_signer := false; is_writable := false |}; mx_counter a].

Definition memo_execute (a : MemoExecute) (message : Message) (payload : bytes) (encoding_scheme : EncodingScheme)
    : Instr unit :=
  _ ← executable_accounts memo_ID (mx_executable a) message;
  counter ← counter_account (mx_counter a);
  _ ← Executable.validate_message memo_ID (mx_executable a) (memo_execute_metas a) message payload encoding_scheme;
  _ ← lift (read_memo payload);
  counter ← lift (Counter.increase counter);
  store (key (mx_counter a)) counter.

(** ** execute_with_interchain_token.rs *)

(** The checks of the macro [executable_with_interchain_token_accounts!] of ITS (executable.rs) for the
    program [pid]: the mint, and the bump of the token authority. *)
Definition executable_with_interchain_token_accounts (pid : Pubkey) (a : AxelarExecuteWithInterchainToken)
    : Instr (MintState * byte) :=
  _ ← token_interface (ae_token_program a);
  mint ← load_mint (key (ae_token_mint a));
  ata ← load_token_account (key (ae_destination_program_ata a));
  _ ← signer_account (ae_interchain_transfer_execute a);
  _ ← mint_token_program mint.1 (ae_token_program a);
  bump ← constraint_seeds_find [ITS_TOKEN_AUTHORITY_SEED] pid (key (ae_destination_token_authority a));
  _ ← associated_token (key (ae_destination_program_ata a)) ata (key (ae_token_mint a))
        (key (ae_destination_token_authority a)) (ae_token_program a);
  _ ← constraint_seeds_find [InterchainTransferExecute.SEED_PREFIX; arr_bytes pid] its_ID
        (key (ae_interchain_transfer_execute a));
  mret (mint.2, bump).

Record MemoExecuteWithInterchainToken := {
  mt_its_executable : AxelarExecuteWithInterchainToken;
  mt_counter : AccountInfo;
  mt_remaining_accounts : list AccountInfo
}.

(** The received tokens go on to the first of the remaining accounts. *)
Definition forward_tokens (a : AxelarExecuteWithInterchainToken) (destination_ata : AccountInfo)
    (amount decimals : Z) (bump : byte) : Instr unit :=
  let signer_seeds := [ITS_TOKEN_AUTHORITY_SEED; [bump]] in
  from ← invoke_signed_account memo_ID signer_seeds (ae_destination_program_ata a) false true;
  to ← invoke_signed_account memo_ID signer_seeds destination_ata false true;
  authority ← invoke_signed_account memo_ID signer_seeds (ae_destination_token_authority a) true false;
  token_cpi (ae_token_program a)
    (TransferChecked (key from) (key (ae_token_mint a)) (key to) (key authority) amount decimals).

Definition memo_execute_with_interchain_token (a : MemoExecuteWithInterchainToken)
    (execute_payload : AxelarExecuteWithInterchainTokenPayload) : Instr unit :=
  checked ← executable_with_interchain_token_accounts memo_ID (mt_its_executable a);
  counter ← counter_account (mt_counter a);
  let amount := ap_amount execute_payload in
  let memo_data := ap_data execute_payload in
  _ ← lift (read_memo memo_data);
  counter ← lift (Counter.increase counter);
  _ ← match head (mt_remaining_accounts a) with
      | Some destination_ata =>
          forward_tokens (mt_its_executable a) destination_ata amount (ms_decimals checked.1) checked.2
      | None => mret tt
      end;
  store (key (mt_counter a)) counter.

(** ** emit_memo.rs *)

(** It only logs. *)
Definition emit_memo (message : bytes) : Instr unit := mret tt.

(** ** send_memo.rs *)

Record SendMemo := {
  sm_memo_program : Pubkey;
  sm_signing_pda : AccountInfo;
  sm_gateway_root_pda : AccountInfo;
  sm_gateway_program : Pubkey
}.

Definition send_memo (a : SendMemo) (destination_chain destination_address memo : bytes) : Instr unit :=
  _ ← program_account memo_ID (sm_memo_program a);
  _ ← program_account gateway_ID (sm_gateway_program a);
  bump ← constraint_seeds_find [CallContractSigner.SEED_PREFIX] memo_ID (key (sm_signing_pda a));
  let payload := memo in
  let signer_seeds := [CallContractSigner.SEED_PREFIX; [bump]] in
  signing_pda ← invoke_signed_account memo_ID signer_seeds (sm_signing_pda a) true false;
  gateway_root_pda ← invoke_signed_account memo_ID signer_seeds (sm_gateway_root_pda a) false false;
  call_contract {| cc_caller := {| key := sm_memo_program a; is_signer := false; is_writable := false |};
                   cc_signing_pda := Some signing_pda; cc_gateway_root_pda := gateway_root_pda |}
    destination_chain destination_address payload bump.

(** ** send_interchain_transfer.rs *)

Record SendInterchainTransfer := {
  si_payer : AccountInfo;
  si_counter : AccountInfo;
  si_gateway_root_pda : AccountInfo;
  si_gateway_program : Pubkey;
  si_call_contract_signing_pda : AccountInfo;
  si_gas_treasury : AccountInfo;
  si_gas_service : Pubkey;
  si_its_root_pda : AccountInfo;
  si_its_program : Pubkey;
  si_token_manager_pda : AccountInfo;
  si_token_program : Pubkey;
  si_token_mint : AccountInfo;
  si_counter_pda_ata : AccountInfo;
  si_token_manager_ata : AccountInfo;
  si_system_program : Pubkey
}.

(** The accounts of the call, with the privileges that ITS declares; the counter signs. *)
Definition send_interchain_transfer_cpi (a : SendInterchainTransfer) (signer_seeds : list bytes) : Instr InterchainTransfer :=
  let cpi := invoke_signed_account memo_ID signer_seeds in
  payer ← cpi (si_payer a) true true;
  authority ← cpi (si_counter a) true false;
  gateway_root ← cpi (si_gateway_root_pda a) false false;
  signing_pda ← cpi (si_call_contract_signing_pda a) false false;
  treasury ← cpi (si_gas_treasury a) false true;
  its_root ← cpi (si_its_root_pda a) false false;
  manager ← cpi (si_token_manager_pda a) false true;
  mint ← cpi (si_token_mint a) false true;
  source ← cpi (si_counter_pda_ata a) false true;
  manager_ata ← cpi (si_token_manager_ata a) false true;
  mret {| ix_payer := payer; ix_authority := authority; ix_gateway_root_pda := gateway_root;
          ix_gateway_program := si_gateway_program a; ix_call_contract_signing_pda := signing_pda;
          ix_gas_treasury := treasury; ix_gas_service := si_gas_service a; ix_its_root_pda := its_root;
          ix_token_manager_pda := manager; ix_token_program := si_token_program a; ix_token_mint := mint;
          ix_authority_token_account := source; ix_token_manager_ata := manager_ata;
          ix_system_program := si_system_program a |}.

Definition send_interchain_transfer (a : SendInterchainTransfer) (token_id : array 32)
    (destination_chain destination_address : bytes) (amount gas_value : Z) : Instr unit :=
  _ ← signer_account (si_payer a);
  counter ← load Counter.t (key (si_counter a));
  _ ← program_account its_ID (si_its_program a);
  _ ← constraint_mut (si_payer a);
  _ ← constraint_seeds [Counter.SEED_PREFIX] (Counter.bump counter) memo_ID (key (si_counter a));
  _ ← constraint_mut (si_gas_treasury a);
  _ ← constraint_mut (si_token_manager_pda a);
  _ ← constraint_mut (si_token_mint a);
  _ ← constraint_mut (si_counter_pda_ata a);
  let signer_seeds := [Counter.SEED_PREFIX; [Counter.bump counter]] in
  cpi_accounts ← send_interchain_transfer_cpi a signer_seeds;
  interchain_transfer cpi_accounts token_id destination_chain destination_address amount gas_value
    (Some memo_ID) (Some signer_seeds) None.

(** ** lib.rs *)

Inductive MemoInstruction :=
| MoSendMemo (a : SendMemo) (destination_chain destination_address memo : bytes)
| MoInit (a : MemoInit)
| MoExecute (a : MemoExecute) (message : Message) (payload : bytes) (encoding_scheme : EncodingScheme)
| MoExecuteWithInterchainToken (a : MemoExecuteWithInterchainToken)
    (execute_payload : AxelarExecuteWithInterchainTokenPayload)
| MoEmitMemo (message : bytes)
| MoSendInterchainTransfer (a : SendInterchainTransfer) (token_id : array 32)
    (destination_chain destination_address : bytes) (amount gas_value : Z).

Definition memo_entry (ix : MemoInstruction) : Instr unit :=
  match ix with
  | MoSendMemo a dc da m => send_memo a dc da m
  | MoInit a => memo_init a
  | MoExecute a m p s => memo_execute a m p s
  | MoExecuteWithInterchainToken a p => memo_execute_with_interchain_token a p
  | MoEmitMemo m => emit_memo m
  | MoSendInterchainTransfer a t dc da n g => send_interchain_transfer a t dc da n g
  end.

(** ** The program as ITS calls it *)

(** The account that the callee sees for a meta of the instruction: one of the caller's accounts, with
    the privileges of the meta, which the caller must have to give. *)
Definition passed_account (caller : Pubkey) (signer_seeds : list bytes) (infos : list AccountInfo) (m : AccountMeta)
    : Instr AccountInfo :=
  info ← lift (ok_or (list_find (fun i => key i = meta_pubkey m) infos) ERuntime);
  invoke_signed_account caller signer_seeds info.2 (meta_is_signer m) (meta_is_writable m).

Definition memo_call {codec : Borsh AxelarExecuteWithInterchainTokenPayload} (caller : Pubkey)
    (signer_seeds : list bytes) (ix : Instruction) (infos : list AccountInfo) : Instr unit :=
  accounts ← mapM (passed_account caller signer_seeds infos) (ix_accounts ix);
  args ← lift (ok_or (borsh_deserialize (drop 8 (ix_data ix))) (EAnchor InstructionDidNotDeserialize));
  match accounts with
  | token_program :: token_mint :: authority :: ata :: execute :: counter :: remaining_accounts =>
      memo_entry (MoExecuteWithInterchainToken
        {| mt_its_executable := {| ae_token_program := key token_program; ae_token_mint := token_mint;
             ae_destination_token_authority := authority; ae_destination_program_ata := ata;
             ae_interchain_transfer_execute := execute |};
           mt_counter := counter; mt_remaining_accounts := remaining_accounts |} args.1)
  | _ => fail (EAnchor AccountNotEnoughKeys)
  end.

(** A runtime in which the memo program is deployed beside other programs. *)
Definition memo_runtime {codec : Borsh AxelarExecuteWithInterchainTokenPayload} (other : Runtime) : Runtime :=
  fun caller signer_seeds ix infos =>
  if bool_decide (ix_program_id ix = memo_ID) && bool_decide (take 8 (ix_data ix) = ITS_EXECUTE_IX_DISC)
  then memo_call caller signer_seeds ix infos else other caller signer_seeds ix infos.

(** [make_init_ix], with which a client creates the counter. *)
Definition make_init_ix (payer : Pubkey) : Result MemoInstruction :=
  counter ← find_program_address_or_panic [Counter.SEED_PREFIX] memo_ID;
  mret (MoInit {| in_payer := signer_mut payer; in_counter := account_mut counter.1;
                  in_system_program := system_program_ID |}).
End memo.
