(* ===== verification/MemoSafety.v ===== *)
(** * Theorems about the memo program

    What each of its instructions does, the invariant of its counter over every run of the program beside
    the gateway, and the program as the destination that ITS calls. *)

From stdpp Require Import base gmap list.
From Stdlib Require Import ZArith Lia.
From S2P Require Import Prelude Utf8Text Errors External StdInts StdTypes GatewayState Payload ItsState MemoState Ledger LedgerLemmas SplToken Gateway GatewayLemmas GatewaySpec GatewaySafety GatewayOutcomes GatewayReach Executable GasService Its ItsOutbound ItsDeploy ItsExecute ItsLemmas ItsSpec ItsTransfers Memo.

Section memo.
Context {keccak : Keccak} {merkle : RsMerkle} {secp : Secp256k1} {bits : BitVec} {bnum : Bnum}
  {pda : SolanaPda} {ids : ProgramIds} {system : SolanaSystem} {realloc : AnchorRealloc} {spl : SplToken}
  {network : ItsNetwork}.
Context {leaf_digest : Digestable VerifierSetLeaf} {message_digest : Digestable Message}
  {message_leaf_digest : Digestable MessageLeaf}.
Context {vecs : BorshVec} {abi : SolAbi}.
Context {hub_codec : Borsh encoding.HubMessage} {token_payload_codec : Borsh AxelarExecuteWithInterchainTokenPayload}.
Context {bnum_laws : BnumLaws} {pda_laws : SolanaPdaLaws} {bits_laws : BitVecLaws} {ids_laws : ProgramIdsLaws}
  {system_laws : SolanaSystemLaws} {vec_laws : BorshVecLaws} {abi_laws : SolAbiLaws} {spl_laws : SplTokenLaws}.

(** ** The data of the program *)

Definition mo (w : World) : gmap (array 32) AccountData := state_of memo_ID w.

Lemma memo_ids : memo_ID <> gateway_ID /\ memo_ID <> its_ID /\ memo_ID <> system_program_ID.
Proof.
  pose proof program_ids_nodup as Hn.
  split_and!; intros E;
    [pose proof (NoDup_lookup _ 5 0 _ Hn eq_refl (f_equal Some (eq_sym E)))
    |pose proof (NoDup_lookup _ 5 4 _ Hn eq_refl (f_equal Some (eq_sym E)))
    |pose proof (NoDup_lookup _ 5 6 _ Hn eq_refl (f_equal Some (eq_sym E)))]; done.
Qed.

Lemma in_repository : gateway_ID ∈ repository_programs /\ memo_ID ∈ repository_programs.
Proof. unfold repository_programs. set_solver. Qed.

Lemma repository_not_system pid : pid ∈ repository_programs -> pid <> system_program_ID.
Proof.
  pose proof program_ids_nodup as Hn. intros [i Hi]%list_elem_of_lookup ->.
  assert (i < 6)%nat as Hlt by (apply lookup_lt_Some in Hi; exact Hi).
  pose proof (NoDup_lookup _ i 6 system_program_ID Hn) as H. rewrite H in Hlt; [lia| |done].
  by apply (lookup_app_l_Some _ [system_program_ID; bpf_loader_upgradeable_ID]) in Hi.
Qed.

Lemma mo_store k c w u w' d :
  store k c w = Ok (u, w') -> mo w !! k = Some d ->
  mo w' = <[k := DCounter c]> (mo w) /\ (forall pid, pid <> memo_ID -> state_of pid w' = state_of pid w) /\
  now w' = now w /\ log w' = log w.
Proof. intros H Hd. by destruct (store_ok _ Counter_account k c w u w' memo_ID d H Hd). Qed.

(** The account of the counter, at its address. *)
Definition counter_at (w : World) (k : Pubkey) (c : Counter.t) : Prop :=
  mo w !! k = Some (DCounter c) /\ create_program_address [Counter.SEED_PREFIX; [Counter.bump c]] memo_ID = Some k.

Lemma counter_account_ok k w c w' :
  counter_account k w = Ok (c, w') <-> counter_at w (key k) c /\ is_writable k = true /\ w' = w.
Proof.
  unfold counter_account, counter_at. split.
  - intros H. inv_instr. done.
  - intros ((Hc & Hk) & Hw & ->). erewrite bind_eval by (apply load_ok; split; [exact Hc|reflexivity]). cbv beta.
    by do 2 run_instr.
Qed.

Lemma read_memo_ok p u : read_memo p = Ok u <-> exists cs, text cs p.
Proof.
  unfold read_memo, log_memo. destruct u. split.
  - intros H. inv_result. match goal with H : from_utf8 _ = Some ?cs |- _ => exists cs; by apply from_utf8_exact end.
  - intros [cs Hcs]. apply from_utf8_exact in Hcs. rewrite Hcs.
    cbn -[Nat.ltb]. destruct (10 <? length cs)%nat eqn:E; [|done]. by destruct cs.
Qed.

(** ** The instructions *)

(** One more memo. *)
Definition counted (k : Pubkey) (c : Counter.t) (w w' : World) : Prop :=
  counter_at w k c /\ Counter.counter c + 1 < 2 ^ 64 /\
  mo w' = <[k := DCounter (Counter.mk (Counter.counter c + 1) (Counter.bump c))]> (mo w).

(** The payload of the message: the bytes, and the account of the counter. *)
Definition memo_payload (a : MemoExecute) (p : bytes) (s : EncodingScheme) : AxelarMessagePayload :=
  payload_new repr_from_meta p [info_meta (mx_counter a)] s.

Lemma memo_metas a : drop EXECUTE_PROGRAM_ACCOUNTS_START_INDEX (memo_execute_metas a) = [info_meta (mx_counter a)].
Proof. done. Qed.

(** What a received message did. *)
Definition memo_received (a : MemoExecute) (m : Message) (p : bytes) (s : EncodingScheme) (w w' : World) : Prop :=
  exists inc c e cs d,
    encode (memo_payload a p s) = Ok e /\ keccak_hash e = payload_hash m /\ text cs p /\
    gw w !! key (ex_incoming_message_pda (mx_executable a)) = Some (DIncomingMessage inc) /\
    MessageStatus.is_approved (IncomingMessage.status inc) = true /\ IncomingMessage.message_hash inc = message_hash m /\
    gw w' = <[key (ex_incoming_message_pda (mx_executable a)) := DIncomingMessage (executed_of inc)]> (gw w) /\
    counted (key (mx_counter a)) c w w' /\ pubkey_from_str (destination_address m) = Some d /\
    (forall pid, pid <> gateway_ID -> pid <> memo_ID -> state_of pid w' = state_of pid w) /\
    now w' = now w /\ log w' = EvGateway (executed_event m d) :: log w.

Lemma memo_execute_ok a m p s w u w' : memo_execute a m p s w = Ok (u, w') -> memo_received a m p s w w'.
Proof.
  unfold memo_execute, Executable.validate_message. rewrite memo_metas. intros H. inv_instr.
  match goal with H : executable_accounts _ _ _ _ = _ |- _ => apply executable_accounts_world in H as -> end.
  match goal with H : counter_account _ _ = _ |- _ => apply counter_account_ok in H as (Hc & _ & ->) end.
  match goal with H : read_memo _ = _ |- _ => apply read_memo_ok in H as [cs Hcs] end.
  match goal with H : Counter.increase _ = _ |- _ => apply Counter.increase_ok in H as [Hlt ->] end.
  match goal with H : validate_message_raw _ _ _ _ _ = _ |- _ => 
    apply validate_message_raw_ok in H as (Hh & (inc & Hi & Ha & Hm & Hg) & (d & Hd & Hl) & Hf & Hn) end.
  match goal with H : (if _ then _ else _) = Ok _ |- _ => injection H as <- end.
  pose proof (Hf memo_ID (proj1 memo_ids)) as Hmo.
  apply mo_store with (d := DCounter x0) in H as (Hst & Ho & Hn' & Hl'); [|unfold mo; rewrite Hmo; apply Hc].
  exists inc, x0, x5, cs, d. split_and!; try done.
  - unfold gw in *. by rewrite Ho by apply not_eq_sym, memo_ids.
  - split_and!; [done|done|]. by rewrite Hst; unfold mo; rewrite Hmo.
  - intros pid Hg1 Hm1. by rewrite Ho, Hf.
  - congruence.
  - by rewrite Hl', Hl.
Qed.

Lemma counter_at_same w w' k c : mo w' = mo w -> counter_at w k c -> counter_at w' k c.
Proof. intros E [Hc Hk]. split; [by rewrite E|done]. Qed.

(** Reception of a memo, exactly. With the accounts that Anchor checks and a message for the memo
    program, [execute] succeeds exactly when the payload that is rebuilt from the bytes and the account
    of the counter has the hash of the message, the gateway holds the message approved and not yet
    executed, the bytes are the UTF-8 encoding of some text, and the counter is below its maximum. It
    then marks the message executed, adds one to the counter, and changes no other account of a program. *)
Theorem memo_execute_exact a m p s w inc c
    (Ha : executable_accounts memo_ID (mx_executable a) m w = Ok (tt, w))
    (Hinc : gw w !! key (ex_incoming_message_pda (mx_executable a)) = Some (DIncomingMessage inc))
    (Hd : pubkey_from_str (destination_address m) = Some memo_ID)
    (Hc : counter_at w (key (mx_counter a)) c) (Hw : is_writable (mx_counter a) = true) :
  ((exists w', memo_entry (MoExecute a m p s) w = Ok (tt, w')) <->
     (exists e, encode (memo_payload a p s) = Ok e /\ keccak_hash e = payload_hash m) /\
     MessageStatus.is_approved (IncomingMessage.status inc) = true /\ IncomingMessage.message_hash inc = message_hash m /\
     (exists cs, text cs p) /\ Counter.counter c + 1 < 2 ^ 64) /\
  forall w', memo_entry (MoExecute a m p s) w = Ok (tt, w') -> memo_received a m p s w w'.
Proof.
  cbn [memo_entry]. split; [|intros w'; apply memo_execute_ok]. split.
  - intros [w' (inc' & c' & e & cs & d & He & Hh & Hcs & Hi & Hap & Hmh & _ & (Hc' & Hlt & _) & _)%memo_execute_ok].
    rewrite Hinc in Hi. injection Hi as <-. destruct Hc as [Hc _], Hc' as [Hc' _]. rewrite Hc in Hc'. injection Hc' as <-.
    split_and!; try done; by eexists.
  - intros ((e & He & Hh) & Hap & Hmh & Hcs & Hlt).
    destruct (called_loaded _ _ _ _ _ _ Ha) as (inc' & gc & Hl & Hk).
    pose proof (vl_incoming _ _ _ _ _ Hl) as Hi. cbn in Hi. rewrite Hinc in Hi. injection Hi as <-.
    destruct (validate_message_eval (called (mx_executable a)) m w gc inc) as [w1 Hv]; try done.
    { split; [done|]. by exists memo_ID. }
    pose proof (validate_message_other _ _ _ _ _ Hv _ (proj1 memo_ids)) as Hmo.
    destruct (store_eval _ Counter_account (key (mx_counter a)) (Counter.mk (Counter.counter c + 1) (Counter.bump c))
      w1 memo_ID (DCounter c)) as (w2 & Hst & _); [by rewrite Hmo; apply Hc|].
    exists w2. unfold memo_execute, Executable.validate_message. rewrite memo_metas. run_instr.
    erewrite bind_eval by (apply counter_account_ok; split_and!; [exact Hc|exact Hw|reflexivity]). cbv beta.
    unfold memo_payload in He. erewrite bind_eval; cycle 1.
    { do 2 (erewrite bind_eval by (apply lift_ok; split; [|reflexivity]; first [exact eq_refl|by rewrite He]); cbv beta).
      rewrite validate_message_raw_eval by done. exact Hv. }
    cbv beta. erewrite bind_eval by (apply lift_ok; split; [by apply (read_memo_ok p tt)|reflexivity]). cbv beta.
    by erewrite bind_eval by (apply lift_ok; split; [by apply Counter.increase_ok|reflexivity]).
Qed.

Lemma memo_init_ok a w u w' :
  memo_init a w = Ok (u, w') ->
  exists b, find_program_address Counter.pda_seeds memo_ID = Some (key (in_counter a), b) /\
    mo w !! key (in_counter a) = None /\ mo w' = <[key (in_counter a) := DCounter (Counter.mk 0 b)]> (mo w) /\
    (forall pid, pid <> memo_ID -> pid <> system_program_ID -> state_of pid w' = state_of pid w) /\
    now w' = now w /\ log w' = log w.
Proof.
  unfold memo_init. intros H. inv_instr. destruct memo_ids as (_ & _ & Hs).
  match goal with H : init_account _ _ _ _ _ _ = _ |- _ => apply init_account_ok in H as (Hf & Hn & Hi & Ho & Hnow & Hl); [|done] end.
  cbn [program_of wrap zeroed_of Counter_account] in *.
  match goal with H : store _ _ _ = Ok _ |- _ =>
    eapply mo_store in H as (Hst & Ho' & Hnow' & Hl'); [|unfold mo; rewrite Hi; apply lookup_insert_eq] end.
  eexists. split_and!; [exact Hf|by apply Hn| | |congruence|congruence].
  - rewrite Hst. unfold mo. by rewrite Hi, insert_insert_eq.
  - intros pid Hp Hps. rewrite Ho' by done. by apply Ho.
Qed.

Lemma send_memo_ok a dc da p w u w' :
  send_memo a dc da p w = Ok (u, w') ->
  sm_memo_program a = memo_ID /\
  (exists b, find_program_address [CallContractSigner.SEED_PREFIX] memo_ID = Some (key (sm_signing_pda a), b)) /\
  w' = mkWorld (ledger w) (now w) (EvGateway (CallContractEvent memo_ID (keccak_hash p) dc da p) :: log w).
Proof.
  unfold send_memo. intros H. inv_instr. bool_props.
  repeat match goal with H : invoke_signed_account _ _ _ _ _ _ = _ |- _ => apply invoke_signed_account_ok in H as (-> & -> & _) end.
  apply call_contract_world in H as ->. cbn [cc_caller key]. split_and!; [done|by eexists|congruence].
Qed.

(** *** Tokens *)

Lemma memo_not_token p : is_token_program p = true -> p <> memo_ID.
Proof. intros [Hr _]%token_program_ids ->. apply Hr, in_repository. Qed.

Lemma memo_same_tokens w w' :
  (forall pid, pid <> memo_ID -> state_of pid w' = state_of pid w) -> same_tokens (ledger w) (ledger w').
Proof. intros H p k Hp. rewrite !owned_bytes_state. by rewrite H by by apply memo_not_token. Qed.

(** The received tokens stay where ITS put them, or go on to the first of the remaining accounts. *)
Definition forwarded (a : MemoExecuteWithInterchainToken) (amount : Z) (L L' : Ledger) : Prop :=
  let e := mt_its_executable a in
  match head (mt_remaining_accounts a) with
  | Some d => tokens_taken LockUnlock (ae_token_program e) (key (ae_token_mint e)) (key (ae_destination_program_ata e))
                (key d) amount amount L L'
  | None => same_tokens L L'
  end.

(** The accounts are those of a transfer of ITS to the memo program. *)
Definition called_by_its (e : AxelarExecuteWithInterchainToken) : Prop :=
  is_signer (ae_interchain_transfer_execute e) = true /\
  (exists b, find_program_address (InterchainTransferExecute.pda_seeds memo_ID) its_ID
     = Some (key (ae_interchain_transfer_execute e), b)) /\
  (exists b, find_program_address [ITS_TOKEN_AUTHORITY_SEED] memo_ID = Some (key (ae_destination_token_authority e), b)) /\
  key (ae_destination_program_ata e) =
    get_associated_token_address (key (ae_destination_token_authority e)) (key (ae_token_mint e)) (ae_token_program e).

Definition memo_tokens_received (a : MemoExecuteWithInterchainToken) (x : AxelarExecuteWithInterchainTokenPayload)
    (w w' : World) : Prop :=
  exists c cs, called_by_its (mt_its_executable a) /\ text cs (ap_data x) /\ counted (key (mt_counter a)) c w w' /\
    forwarded a (ap_amount x) (ledger w) (ledger w') /\
    (forall pid, pid ∈ repository_programs -> pid <> memo_ID -> state_of pid w' = state_of pid w) /\
    now w' = now w /\ log w' = log w.

Lemma forward_tokens_ok e d amount decimals b w u w' : is_token_program (ae_token_program e) = true ->
  forward_tokens e d amount decimals b w = Ok (u, w') ->
  tokens_taken LockUnlock (ae_token_program e) (key (ae_token_mint e)) (key (ae_destination_program_ata e))
    (key d) amount amount (ledger w) (ledger w') /\
  (forall pid, pid ∈ repository_programs -> state_of pid w' = state_of pid w) /\ now w' = now w /\ log w' = log w.
Proof.
  unfold forward_tokens. intros Hp H. inv_instr.
  repeat match goal with H : invoke_signed_account _ _ _ _ _ _ = _ |- _ => apply invoke_signed_account_ok in H as (-> & -> & _) end.
  destruct (token_cpi_state _ _ _ _ _ memo_ID H (proj2 in_repository)) as (_ & Hn & Hl).
  split_and!; [|intros pid Hpid; by eapply token_cpi_state in H as [H _]|done|done].
  apply token_cpi_ok in H as (L & H & ->). eapply transfer_taken; [done|exact H].
Qed.

Lemma memo_tokens_accounts_ok e w x w' :
  executable_with_interchain_token_accounts memo_ID e w = Ok (x, w') ->
  called_by_its e /\ is_token_program (ae_token_program e) = true /\ w' = w.
Proof.
  unfold executable_with_interchain_token_accounts, token_interface, mint_token_program, associated_token. intros H.
  inv_instr. bool_props.
  match goal with H : load_mint _ _ = _ |- _ => apply load_mint_ok in H as (-> & _ & _) end.
  match goal with H : load_token_account _ _ = _ |- _ => apply load_token_account_ok in H as (-> & _ & _) end.
  split_and!; try done. split_and!; try done; by eexists.
Qed.

Lemma memo_tokens_ok a x w u w' :
  memo_execute_with_interchain_token a x w = Ok (u, w') -> memo_tokens_received a x w w'.
Proof.
  unfold memo_execute_with_interchain_token. intros H. inv_instr.
  match goal with H : executable_with_interchain_token_accounts _ _ _ = _ |- _ =>
    apply memo_tokens_accounts_ok in H as (Hi & Hp & ->) end.
  match goal with H : counter_account _ _ = Ok (?c, _) |- _ => apply counter_account_ok in H as (Hc & _ & ->); rename c into c0 end.
  match goal with H : read_memo _ = _ |- _ => apply read_memo_ok in H as [cs Hcs] end.
  match goal with H : Counter.increase _ = _ |- _ => apply Counter.increase_ok in H as [Hlt ->] end.
  match goal with H : match head _ with _ => _ end _ = Ok (_, ?v1) |- _ => rename H into Hfw; rename v1 into v end.
  assert (forwarded a (ap_amount x) (ledger w) (ledger v) /\
    (forall pid, pid ∈ repository_programs -> state_of pid v = state_of pid w) /\ now v = now w /\ log v = log w)
    as (Ht & Hs & Hn & Hl).
  { unfold forwarded. destruct (head _) as [d|]; [by eapply forward_tokens_ok|]. inv_instr. by split_and!. }
  pose proof (Hs memo_ID (proj2 in_repository)) as Hmo.
  eapply mo_store in H as (Hst & Ho & Hn' & Hl'); [|unfold mo; rewrite Hmo; apply Hc].
  exists c0, cs. split_and!; try done; [|..|congruence|congruence].
  - split_and!; [done|done|]. rewrite Hst. unfold mo. by rewrite Hmo.
  - unfold forwarded in *. apply memo_same_tokens in Ho. destruct (head _); [by eapply tokens_taken_same|].
    intros p k Hpk. rewrite Ho by done. by apply Ht.
  - intros pid Hr Hm. rewrite Ho by done. by apply Hs.
Qed.

(** Reception of tokens, exactly what it does. A successful [execute_with_interchain_token] was
    started by ITS, which alone signs for the address that the macro checks; the data of the payload
    is the UTF-8 encoding of some text; the counter goes up by one; and of the tokens, exactly the
    received amount leaves the program's own token account for the first of the remaining accounts, or,
    without one, no token moves. No other program's data changes. *)
Theorem memo_tokens_exact a x w u w' (Hrun : memo_entry (MoExecuteWithInterchainToken a x) w = Ok (u, w')) :
  memo_tokens_received a x w w'.
Proof. by eapply memo_tokens_ok. Qed.

(** *** Interchain transfers *)

Lemma send_cpi_ok a seeds w x w' :
  send_interchain_transfer_cpi a seeds w = Ok (x, w') -> w' = w /\ key (ix_authority x) = key (si_counter a).
Proof.
  unfold send_interchain_transfer_cpi. intros H. inv_instr.
  by repeat match goal with H : invoke_signed_account _ _ _ _ _ _ = _ |- _ => apply invoke_signed_account_ok in H as (-> & -> & _) end.
Qed.

Lemma send_interchain_transfer_ok a id dc da n gas w u w' :
  send_interchain_transfer a id dc da n gas w = Ok (u, w') ->
  exists c x, counter_at w (key (si_counter a)) c /\ key (ix_authority x) = key (si_counter a) /\
    interchain_transfer x id dc da n gas (Some memo_ID) (Some [Counter.SEED_PREFIX; [Counter.bump c]]) None w = Ok (u, w').
Proof.
  unfold send_interchain_transfer. intros H. inv_instr.
  match goal with H : send_interchain_transfer_cpi _ _ _ = _ |- _ => apply send_cpi_ok in H as [-> Hk] end.
  do 2 eexists. split_and!; [split; eassumption|exact Hk|exact H].
Qed.

(** Of an outgoing transfer, another program sees the tokens and the event of the call. *)
Lemma interchain_transfer_frame a id dc da n gas program seeds data w u w' :
  interchain_transfer a id dc da n gas program seeds data w = Ok (u, w') ->
  (forall pid, pid ∈ repository_programs -> pid <> its_ID -> state_of pid w' = state_of pid w) /\
  exists h b, gateway_events (log w') = CallContractEvent its_ID (keccak_hash b) ITS_HUB_CHAIN_NAME h b :: gateway_events (log w).
Proof.
  intros H. pose proof H as (? & ? & ? & ? & ? & ? & b & _ & _ & _ & _ & _ & _ & _ & _ & _ & _ & _ & _ & _ & _ & _ & _ & Hlog & _)%interchain_transfer_ok.
  split; [|rewrite Hlog; unfold hub_events; exists (gm_its_hub_address (interchain_transfer_gmp a x)), b; by destruct (0 <? gas)].
  clear Hlog. unfold interchain_transfer, process_outbound_transfer, send_to_hub_wrap in H. inv_instr.
  match goal with H : interchain_transfer_accounts _ _ _ _ = _ |- _ =>
    apply interchain_transfer_accounts_ok in H as (-> & _ & _ & _ & Hm & _ & _ & Htp & _) end.
  match goal with H : transfer_source _ _ _ _ = _ |- _ => apply transfer_source_ok in H as [_ ->] end.
  match goal with H : take_token _ _ _ _ = _ |- _ => apply take_token_ok in H as (_ & _ & Hst & _); [|done] end.
  match goal with H : send_to_hub _ _ _ _ = _ |- _ => apply send_to_hub_ok in H as (b' & _ & [Hq _] & _) end.
  eapply its_store in H as (_ & Ho & _).
  2: { unfold its. rewrite Hq by apply its_not_system. etransitivity; [|exact (proj1 Hm)].
       exact (f_equal (lookup _) (Hst _ its_in_repository)). }
  intros pid Hr Hi. rewrite Ho, Hq by (done || by apply repository_not_system). exact (Hst pid Hr).
Qed.

(** ** Every instruction *)

(** The instructions that count a memo. *)
Definition counts (ix : MemoInstruction) : bool :=
  match ix with MoExecute _ _ _ _ | MoExecuteWithInterchainToken _ _ => true | _ => false end.

(** The counter. *)
Definition memo_change (ix : MemoInstruction) (w w' : World) : Prop :=
  match ix with
  | MoInit a => exists b, find_program_address Counter.pda_seeds memo_ID = Some (key (in_counter a), b) /\
      mo w !! key (in_counter a) = None /\ mo w' = <[key (in_counter a) := DCounter (Counter.mk 0 b)]> (mo w)
  | _ => if counts ix then exists k c, counted k c w w' else mo w' = mo w
  end.

(** The events of the gateway that are not about messages. *)
Definition no_message_event (e : GatewayEvent) : Prop :=
  match e with
  | MessageApprovedEvent _ _ _ _ _ _ _ | MessageExecutedEvent _ _ _ _ _ _ _ => False
  | _ => True
  end.

(** The gateway: only a received message changes its data, and the others' events are not about messages. *)
Definition gateway_change (ix : MemoInstruction) (w w' : World) : Prop :=
  match ix with
  | MoExecute a m p s => memo_received a m p s w w'
  | _ => gw w' = gw w /\ exists evs, gateway_events (log w') = evs ++ gateway_events (log w) /\ Forall no_message_event evs
  end.

Lemma memo_entry_change ix w u w' : memo_entry ix w = Ok (u, w') -> memo_change ix w w' /\ gateway_change ix w w'.
Proof.
  pose proof memo_ids as (Hg & Hi & Hs). pose proof in_repository as [Rg Rm].
  destruct ix as [a dc da p|a|a m p s|a x|p|a id dc da n gas]; cbn [memo_entry memo_change gateway_change counts]; intros H.
  - apply send_memo_ok in H as (_ & _ & ->). split; [done|]. split; [done|]. eexists [_]. split; [done|]. by constructor.
  - apply memo_init_ok in H as (b & Hf & Hn & Hm & Ho & _ & Hl). split; [by exists b|].
    split; [apply Ho; [done|by apply repository_not_system]|]. exists []. by rewrite Hl.
  - apply memo_execute_ok in H as H'. split; [|done]. destruct H' as (? & c & ? & ? & ? & _ & _ & _ & _ & _ & _ & _ & Hc & _).
    by do 2 eexists.
  - apply memo_tokens_ok in H as (c & ? & _ & _ & Hc & _ & Ho & _ & Hl). split; [by do 2 eexists|].
    split; [by apply Ho|]. exists []. by rewrite Hl.
  - unfold emit_memo in H. inv_instr. split; [done|]. split; [done|]. by exists [].
  - apply send_interchain_transfer_ok in H as (c & x & _ & _ & [Ho (h & b & He)]%interchain_transfer_frame).
    split; [by apply Ho|]. split; [apply Ho; [done|apply not_eq_sym, its_not_gateway]|].
    eexists [_]. split; [exact He|]. by constructor.
Qed.

(** C23: Interchain transfers of the memo program are refused. The handler passes to ITS the seeds of its
    counter with the bump, [counter] and the bump, where ITS looks for the bump itself; unless some bump
    added to these seeds leads to the address of the counter again, every call of the instruction fails.
    A call that ITS accepts with the seeds without the bump, it refuses with them, because the address is
    another, or because no bump is left to be found. *)
Theorem memo_transfer_refused a id dc da n gas w c
    (Hc : mo w !! key (si_counter a) = Some (DCounter c))
    (Hno : forall b k, create_program_address [Counter.SEED_PREFIX; [Counter.bump c]; [b]] memo_ID = Some k ->
       create_program_address [Counter.SEED_PREFIX; [Counter.bump c]] memo_ID <> Some k) :
  let seeds := [Counter.SEED_PREFIX; [Counter.bump c]] in
  (exists e, memo_entry (MoSendInterchainTransfer a id dc da n gas) w = Err e) /\
  forall x v u v', create_program_address seeds memo_ID = Some (key (ix_authority x)) ->
    interchain_transfer x id dc da n gas (Some memo_ID) (Some Counter.pda_seeds) None v = Ok (u, v') ->
    interchain_transfer x id dc da n gas (Some memo_ID) (Some seeds) None v =
      Err (if find_program_address seeds memo_ID then EIts ItsInvalidAccountData else EPanic).
Proof.
  intros seeds. split.
  - destruct (memo_entry _ w) as [[u w']|e] eqn:E; [|by eexists]. exfalso.
    apply send_interchain_transfer_ok in E as (c' & x & (Hc' & Hk) & Hx & H).
    rewrite Hc in Hc'. injection Hc' as <-.
    apply interchain_transfer_ok in H as (? & ? & ? & src & ? & ? & ? & _ & _ & _ & _ & _ & _ & _ & _ & (_ & b & Hf) & _).
    apply find_create in Hf. rewrite Hx in Hf. by apply (Hno b _ Hf).
  - intros x v u v' Hk H. unfold interchain_transfer in *. inv_instr.
    match goal with H : interchain_transfer_accounts _ _ _ _ = _ |- _ => rewrite (bind_eval _ _ _ _ _ H); cbv beta;
      apply interchain_transfer_accounts_ok in H as (-> & _) end.
    do 2 run_instr. apply bind_err. unfold transfer_source, find_program_address_or_panic.
    destruct (find_program_address seeds memo_ID) as [[k b]|] eqn:Hf; [|done].
    apply find_create in Hf. erewrite bind_eval by (apply lift_ok; split; reflexivity). cbv beta. apply bind_err, require_false.
    apply bool_decide_eq_false. cbn. intros ->. by apply (Hno b _ Hf).
Qed.

(** ** Runs of the program beside the gateway *)

Definition memo_message (ix : MemoInstruction) : option Message :=
  if ix is MoExecute _ m _ _ then Some m else None.

Section runs.
Variable submitted : GatewayInstruction -> Prop.

(** The successful instructions of the memo program, newest first. Before, after and in between, the
    instructions submitted to the gateway run, and the other programs do anything but change the data
    of the two programs' accounts; the messages that the memo program receives are submitted ones. *)
Inductive memo_run : list MemoInstruction -> World -> Prop :=
| MemoStart w : gw w = ∅ -> gateway_events (log w) = [] -> mo w = ∅ -> memo_run [] w
| MemoGateway l ix w u w' :
    memo_run l w -> submitted ix -> gateway_entry ix w = Ok (u, w') -> mo w' = mo w -> memo_run l w'
| MemoStep l ix w u w' :
    memo_run l w -> (forall m, memo_message ix = Some m -> occurs submitted m) -> memo_entry ix w = Ok (u, w') ->
    memo_run (ix :: l) w'
| MemoOther l w w' :
    memo_run l w -> gw w' = gw w -> gateway_events (log w') = gateway_events (log w) -> mo w' = mo w -> memo_run l w'.

(** C22: The counter counts. In every run, there is no counter and nothing was counted, or there is one,
    at its derived address and with that address's bump, and its value is the number of messages and
    transfers of tokens received so far; it never wraps around. *)
Theorem memo_counts l w (Hrun : memo_run l w) :
  (mo w = ∅ /\ filter counts l = []) \/
  exists k b, find_program_address Counter.pda_seeds memo_ID = Some (k, b) /\
    mo w = {[k := DCounter (Counter.mk (Z.of_nat (length (filter counts l))) b)]} /\
    Z.of_nat (length (filter counts l)) < 2 ^ 64.
Proof.
  induction Hrun as [w _ _ Hm|l ix w u w' _ IH _ _ Hm|l ix w u w' _ IH _ H|l w w' _ IH _ _ Hm];
    [by left|by rewrite Hm| |by rewrite Hm].
  apply memo_entry_change in H as [Hc _]. destruct (counts ix) eqn:Hix.
  - assert (exists k c, counted k c w w') as (k & c & (Hk & Ha) & Hlt & Hw) by by destruct ix.
    rewrite filter_cons_True by (by apply Is_true_true_2). cbn [length].
    destruct IH as [[IH _]|(k' & b & Hf & IH & _)]; rewrite IH in Hk; [by apply lookup_empty_Some in Hk|].
    apply lookup_singleton_Some in Hk as [<- [= <-]]. cbn [Counter.counter Counter.bump] in *.
    right. exists k', b. split_and!; [done| |lia]. rewrite Hw, IH, insert_singleton_eq. do 3 f_equal. lia.
  - rewrite filter_cons_False by (by rewrite Hix; intros []). destruct ix; cbn [memo_change counts] in *; try done; try by rewrite Hc.
    destruct Hc as (b & Hf & Hn & Hw). destruct IH as [[IH ->]|(k' & b' & Hf' & IH & _)].
    + right. do 2 eexists. split_and!; [exact Hf|by rewrite Hw, IH|done].
    + rewrite Hf' in Hf. injection Hf as -> ->. by rewrite IH, lookup_singleton_eq in Hn.
Qed.

Section messages.
Hypothesis message_hash_inj : forall m1 m2,
  occurs submitted m1 -> occurs submitted m2 -> message_hash m1 = message_hash m2 -> m1 = m2.

Record counted_messages (l : list MemoInstruction) (w : World) : Prop := {
  cm_inv : message_inv submitted (abs w);
  cm_executed : sublist (command_id <$> omap memo_message l) (executed_ids (gateway_events (log w)));
  cm_approved : Forall (fun m => approved_event m ∈ gateway_events (log w)) (omap memo_message l)
}.

Lemma no_message_ids evs l : Forall no_message_event evs -> executed_ids (evs ++ l) = executed_ids l.
Proof. by induction 1 as [|[]]. Qed.

Lemma counted_frame l w w' evs :
  counted_messages l w -> gw w' = gw w -> gateway_events (log w') = evs ++ gateway_events (log w) ->
  Forall no_message_event evs -> counted_messages l w'.
Proof.
  intros [Hi He Ha] Hg Hl Hevs. split.
  - apply (message_inv_frame submitted (abs w) _ evs); [done| |exact Hl|exact Hevs]. unfold abs. cbn. by rewrite Hg.
  - by rewrite Hl, no_message_ids.
  - rewrite Hl. eapply Forall_impl; [exact Ha|]. intros m Hm. apply elem_of_app. by right.
Qed.

Lemma astep_events authority ix s s' : astep authority ix s s' -> exists evs, g_events s' = evs ++ g_events s.
Proof. destruct 1; first [by exists [] | by eexists [_]]. Qed.

Lemma executed_ids_app evs l : executed_ids (evs ++ l) = executed_ids evs ++ executed_ids l.
Proof. apply omap_app. Qed.

Lemma counted_gateway l ix w u w' :
  counted_messages l w -> submitted ix -> gateway_entry ix w = Ok (u, w') -> counted_messages l w'.
Proof.
  intros [Hi He Ha] Hs H. apply gateway_entry_astep in H. destruct (astep_events _ _ _ _ H) as [evs Hl].
  cbn in Hl. split; [by eapply message_inv_step|..]; rewrite Hl.
  - rewrite executed_ids_app. by apply sublist_inserts_l.
  - eapply Forall_impl; [exact Ha|]. intros m Hm. apply elem_of_app. by right.
Qed.

Lemma counted_received l ix a m p s w w' :
  counted_messages l w -> occurs submitted m -> ix = MoExecute a m p s -> memo_received a m p s w w' ->
  counted_messages (ix :: l) w'.
Proof.
  intros [Hi He Ha] Hm -> (inc & c & e & cs & d & _ & _ & _ & Hinc & Hap & Hh & Hg & _ & Hd & _ & _ & Hl).
  pose proof Hinc as Hv. apply abs_message in Hv.
  destruct (mi_message _ _ Hi _ _ Hv) as (m' & Hm' & _ & Hh' & _ & Hev & _).
  assert (m' = m) as -> by (apply message_hash_inj; congruence). cbn [omap list_omap memo_message].
  assert (gateway_events (log w') = executed_event m d :: gateway_events (log w)) as Hl' by by rewrite Hl.
  split; rewrite ?Hl'.
  - pose proof (message_inv_validate submitted message_hash_inj (abs w) _ inc m d Hi Hm Hv Hap Hh Hd) as Hi'.
    eapply (message_inv_frame submitted _ (abs w') []) in Hi'; [done| |exact Hl'|constructor].
    unfold abs. cbn. rewrite Hg. exact (view_insert _ IncomingMessage_account _ _ (executed_of inc)).
  - by apply sublist_skip.
  - constructor; [by apply elem_of_cons; right|]. eapply Forall_impl; [exact Ha|]. intros x Hx. apply elem_of_cons. by right.
Qed.

Lemma run_counted l w : memo_run l w -> counted_messages l w.
Proof.
  induction 1 as [w Hg Hl _|l ix w u w' _ IH Hs H _|l ix w u w' _ IH Hs H|l w w' _ IH Hg Hl _].
  - split; [|by rewrite Hl|constructor].
    replace (abs w) with (mkGState ∅ ∅ ∅ ∅ [] (now w)); [apply message_inv_start|].
    unfold abs. by rewrite Hg, Hl, !view_empty.
  - by eapply counted_gateway.
  - apply memo_entry_change in H as [_ Hc]. destruct ix; cbn [gateway_change] in Hc;
      try by destruct Hc as (Hg & evs & Hl & Hevs); destruct (counted_frame _ _ _ _ IH Hg Hl Hevs).
    eapply counted_received; [exact IH|by apply Hs|done|exact Hc].
  - by apply (counted_frame _ w _ []).
Qed.
End messages.

(** C19: No message is counted twice, and none that was not approved. In every run, if different
    submitted messages have different hashes, the messages that the memo program received have distinct
    command ids, and the gateway's log has the approval of each. *)
Theorem memo_messages_once l w (Hrun : memo_run l w)
    (Hinj : forall m1 m2, occurs submitted m1 -> occurs submitted m2 -> message_hash m1 = message_hash m2 -> m1 = m2) :
  NoDup (command_id <$> omap memo_message l) /\
  Forall (fun m => approved_event m ∈ gateway_events (log w)) (omap memo_message l).
Proof.
  destruct (run_counted Hinj _ _ Hrun) as [Hi He Ha]. split; [|done].
  exact (sublist_NoDup _ _ (mi_once_executed _ _ Hi) He).
Qed.
End runs.

(** ** The program as the destination of ITS *)

Section deployed.
Variable other : Runtime.
Variable other_laws : @ItsRuntimeLaws ids other.

#[local] Instance deployed_runtime : Runtime := memo_runtime other.

Lemma passed_accounts_ok caller seeds infos metas w l w' :
  mapM (passed_account caller seeds infos) metas w = Ok (l, w') ->
  w' = w /\ map key l = map meta_pubkey metas.
Proof.
  revert l w'. induction metas as [|m metas IH]; intros l w'; cbn; intros H; inv_instr; [done|].
  match goal with H : passed_account _ _ _ _ _ = _ |- _ => unfold passed_account in H end. inv_instr.
  match goal with H : invoke_signed_account _ _ _ _ _ _ = _ |- _ => apply invoke_signed_account_ok in H as (-> & -> & _) end.
  match goal with H : mapM _ _ _ = _ |- _ => apply IH in H as [-> Hl] end.
  match goal with H : list_find _ _ = Some ?i |- _ => destruct i as [j i]; apply list_find_Some in H as (_ & Hk & _) end.
  cbn. by rewrite Hk, Hl.
Qed.

(** The accounts of the program, in order. *)
Definition memo_accounts (a : MemoExecuteWithInterchainToken) : list Pubkey :=
  let e := mt_its_executable a in
  [ae_token_program e; key (ae_token_mint e); key (ae_destination_token_authority e); key (ae_destination_program_ata e);
   key (ae_interchain_transfer_execute e); key (mt_counter a)] ++ map key (mt_remaining_accounts a).

Lemma memo_call_ok caller seeds ix infos w u w' :
  memo_call caller seeds ix infos w = Ok (u, w') ->
  exists a x rest, borsh_deserialize (drop 8 (ix_data ix)) = Some (x, rest) /\
    memo_accounts a = map meta_pubkey (ix_accounts ix) /\ memo_tokens_received a x w w'.
Proof.
  unfold memo_call. intros H. inv_instr.
  match goal with H : mapM _ _ _ = _ |- _ => apply passed_accounts_ok in H as [-> Hk] end.
  do 6 (destruct x as [|? x]; [done|]). apply memo_tokens_ok in H.
  match goal with H : borsh_deserialize _ = Some ?y |- _ => destruct y as [args rest] end.
  do 3 eexists. split_and!; [eassumption| |exact H]. exact Hk.
Qed.

Lemma memo_runtime_laws : ItsRuntimeLaws.
Proof.
  split. intros seeds ix infos w u w' H Hd. unfold invoke_program, deployed_runtime, memo_runtime in H.
  destruct (_ && _) in H; [|by apply (invoke_keeps_its (ItsRuntimeLaws := other_laws)) in H].
  apply memo_call_ok in H as (a & x & rest & _ & _ & c & cs & _ & _ & _ & _ & Ho & _).
  apply Ho; [apply its_in_repository|apply not_eq_sym, memo_ids].
Qed.

Context {realloc_laws : AnchorReallocLaws} {codec_laws : BorshLaws AxelarExecuteWithInterchainTokenPayload}.
#[local] Existing Instance memo_runtime_laws.

Lemma tokens_given_same_before ty p mint ata dest amount n L0 L1 L2 : is_token_program p = true ->
  same_tokens L0 L1 -> tokens_given ty p mint ata dest amount n L1 L2 -> tokens_given ty p mint ata dest amount n L0 L2.
Proof.
  intros Hp Hs [H0 H]. split; [done|].
  assert (forall k, balance L0 p k = balance L1 p k) as Hb by (intros k; symmetry; by apply same_tokens_balance).
  assert (forall k, mint_at L0 p k = mint_at L1 p k) as Hm by (intros k; symmetry; by apply same_tokens_mint).
  assert (forall ks, keeps_except p ks L1 L2 -> keeps_except p ks L0 L2) as Hk.
  { intros ks Ho q k Hq Hk. rewrite Ho by done. by apply Hs. }
  unfold supply_moved, moved, without_fee in *. rewrite !(Hs p) in H by done.
  destruct ty; try setoid_rewrite Hb; try setoid_rewrite Hm; naive_solver.
Qed.

(** What ITS's call does. *)
Lemma destination_called_memo x m sc sa id n data w w' :
  destination_called x m sc sa id n data w w' -> key (et_destination x) = memo_ID ->
  exists p a args, decode data = Ok p /\ ap_amount args = n /\ ap_data args = payload_without_accounts p /\
    memo_tokens_received a args w w' /\
    ae_token_program (mt_its_executable a) = et_token_program x /\
    key (ae_token_mint (mt_its_executable a)) = key (et_token_mint x) /\
    key (ae_destination_token_authority (mt_its_executable a)) = key (et_destination_token_authority x) /\
    key (ae_destination_program_ata (mt_its_executable a)) = key (et_destination_ata x) /\
    key (mt_counter a) :: map key (mt_remaining_accounts a) = map meta_pubkey (account_meta p).
Proof.
  intros (p & body & execute & bump & Hp & _ & _ & Hbody & H) Hd.
  unfold invoke_program, deployed_runtime, memo_runtime in H. cbn [ix_program_id ix_data] in H.
  rewrite (bool_decide_eq_true_2 _ Hd) in H. change (take 8 (ITS_EXECUTE_IX_DISC ++ body)) with ITS_EXECUTE_IX_DISC in H.
  rewrite bool_decide_eq_true_2 in H by done. cbn [andb] in H.
  apply memo_call_ok in H as (a & args & rest & Hargs & Hk & Hr). cbn [ix_data ix_accounts] in Hargs, Hk.
  change (drop 8 (ITS_EXECUTE_IX_DISC ++ body)) with body in Hargs. pose proof (borsh_roundtrip _ _ [] Hbody) as Hrt.
  rewrite app_nil_r, Hargs in Hrt. injection Hrt as -> _. rewrite map_app in Hk.
  injection Hk as E1 E2 E3 E4 E5 E6. do 3 eexists. split_and!; [exact Hp| | |exact Hr|exact E1|exact E2|exact E3|exact E4|exact E6]; done.
Qed.

(** C20: A transfer of the hub reaches the memo program. With the memo program deployed, an [execute] of ITS
    that succeeds with a transfer to it with data gave the tokens to the account of the program's own
    token authority, and in the same instruction the program read the data's payload as text, added one
    to the counter, which is the first account that the data names, and sent all it received to the
    second, if there is one. *)
Theorem hub_transfer_reaches_memo a m payload w u w' sc tr data
    (Hrun : its_entry (ItExecute a m payload) w = Ok (u, w'))
    (Hmsg : hub_message_try_from_slice payload = Some (encoding.ReceiveFromHub sc (encoding.MInterchainTransfer tr)))
    (Hdest : arr_try_from 32 (encoding.it_destination_address tr) = Some memo_ID)
    (Hdata : encoding.it_data tr = Some data) (Hne : data <> []) :
  exists p cs c k rest ty authority b n v,
    let tp := xe_token_program a in
    let mint := key (xe_token_mint a) in
    let ata := get_associated_token_address authority mint tp in
    decode data = Ok p /\ text cs (payload_without_accounts p) /\ map meta_pubkey (account_meta p) = k :: rest /\
    counted k c w w' /\
    find_program_address [ITS_TOKEN_AUTHORITY_SEED] memo_ID = Some (authority, b) /\
    tokens_given ty tp mint (key (xe_token_manager_ata a)) ata (encoding.it_amount tr) n (ledger w) (ledger v) /\
    match rest with
    | d :: _ => tokens_taken LockUnlock tp mint ata d n n (ledger v) (ledger w')
    | [] => same_tokens (ledger v) (ledger w')
    end.
Proof.
  cbn [its_entry] in Hrun. apply its_execute_ok in Hrun as (c & sc' & inner & v0 & Hrec & Hmr).
  destruct Hrec as (_ & _ & _ & Hm & _ & _ & _ & Hgf & _). rewrite Hmsg in Hm. injection Hm as <- <-.
  destruct Hmr as (d & x & Hd & (_ & _ & Emint & Eata & Etp) & H). rewrite Hdest in Hd. injection Hd as <-.
  rewrite Hdata in H. cbn [default] in H.
  apply execute_interchain_transfer_ok in H
    as (root & t & t' & n & v1 & v & _ & _ & _ & _ & _ & _ & Hd & Hacc & _ & Hata & Htk & _ & _ & _ & _ & Hst & Hend).
  cbn [Datatypes.id] in Hend. rewrite bool_decide_eq_false_2 in Hend by done. destruct Hend as (v' & Hcall & Hits & _).
  apply destination_called_memo in Hcall as (p & a' & args & Hp & Hn & Hargs & Hr & F1 & F2 & F3 & F4 & F5); [|done].
  destruct Hr as (c' & cs & (_ & _ & [b Hb] & _) & Hcs & Hc & Hf & _). rewrite Hargs in Hcs. rewrite Hn in Hf.
  unfold forwarded in Hf. rewrite F1, F2, F4 in Hf. rewrite F3 in Hb.
  apply associated_token_if_needed_ok in Hacc as (_ & _ & _ & _ & Htp & _).
  exists p, cs, c', (key (mt_counter a')), (map key (mt_remaining_accounts a')), (TokenManager.ty t).
  exists (key (et_destination_token_authority x)), b, n, v. cbv zeta. rewrite <- Emint, <- Eata, <- Etp, <- Hata.
  split_and!; try done.
  - assert (mo v = mo w) as E by (unfold mo; rewrite Hst by apply in_repository; apply Hgf, memo_ids).
    assert (mo w' = mo v') as E' by apply Hits, memo_ids. unfold counted, counter_at in *. by rewrite E', <- E.
  - eapply tokens_given_same_before; [done| |exact Htk]. intros q k Hq. rewrite !owned_bytes_state. rewrite Hgf; [done|].
    intros ->. apply token_program_ids in Hq as [Hq _]. by apply Hq, in_repository.
  - apply only_its_tokens in Hits. destruct (mt_remaining_accounts a') as [|d l]; cbn [head map] in *.
    + intros q k Hq. rewrite Hits by done. by apply Hf.
    + by eapply tokens_taken_same.
Qed.
End deployed.
End memo.
