(* ===== verification/Governance.v ===== *)
(** * Instructions of the governance program

    programs/solana-axelar-governance/src/instructions and payload_conversions.rs: the
    configuration, the four commands that arrive as messages, the execution of proposals, and the
    reception of a command from the gateway. [invoke_program], the runtime's call of the target of a
    proposal, is a parameter; it may call back into any program. *)

From stdpp Require Import base gmap list.
From Stdlib Require Import ZArith.
From S2P Require Import Prelude Errors External StdInts StdTypes GatewayState Payload GovernanceState Ledger Gateway Executable.

(** crates/governance-gmp/src/lib.rs; the last variant is the one [sol!] adds. *)
Inductive GovernanceCommand :=
| ScheduleTimeLockProposal
| CancelTimeLockProposal
| ApproveOperatorProposal_
| CancelOperatorApproval
| InvalidCommand.

Record GovernanceCommandPayload := {
  gcp_command : GovernanceCommand;
  gcp_target : bytes;
  gcp_call_data : bytes;
  gcp_native_value : Z;                        (** uint256 *)
  gcp_eta : Z                                  (** uint256 *)
}.

(** [GovernanceCommandPayload::abi_decode(_, true)] *)
Class GovernanceAbi := governance_abi_decode : bytes -> option GovernanceCommandPayload.

(** The call leaves a configuration of the program a configuration at its address: only the program
    itself can write the account, and no instruction of the program closes it. *)
Class RuntimeLaws `{!ProgramIds, !Runtime} : Prop := {
  invoke_keeps_config pid seeds ix infos w u w' k l c :
    invoke_program pid seeds ix infos w = Ok (u, w') ->
    ledger w !! k = Some (mkAccount l governance_ID (DGovernanceConfig c)) ->
    exists l' c', ledger w' !! k = Some (mkAccount l' governance_ID (DGovernanceConfig c'))
}.

Section governance.
Context {keccak : Keccak} {merkle : RsMerkle} {secp : Secp256k1} {bits : BitVec} {bnum : Bnum}
  {pda : SolanaPda} {ids : ProgramIds} {system : SolanaSystem}.
Context {leaf_digest : Digestable VerifierSetLeaf} {message_digest : Digestable Message}
  {message_leaf_digest : Digestable MessageLeaf}.
Context {vecs : BorshVec} {abi : SolAbi}.
Context {accounts_codec : Borsh (list SolanaAccountMetadata)}
  {receiver_codec : Borsh (option SolanaAccountMetadata)} {call_data_codec : Borsh ExecuteProposalCallData}.
Context {gov_abi : GovernanceAbi} {runtime : Runtime}.

(** [seeds = [GovernanceConfig::SEED_PREFIX], bump = governance_config.bump] *)
Definition governance_seeds (k : Pubkey) (c : GovernanceConfig.t) : Instr unit :=
  constraint_seeds GovernanceConfig.pda_seeds (GovernanceConfig.bump c) governance_ID k.

(** ** initialize_config.rs *)

Record GovInitializeConfig := {
  gv_payer : AccountInfo;
  gv_upgrade_authority : AccountInfo;
  gv_program_data : AccountInfo;
  gv_governance_config : AccountInfo;
  gv_system_program : Pubkey
}.

Definition governance_initialize_config (a : GovInitializeConfig) (params : GovernanceConfigInit) : Instr unit :=
  _ ← signer_account (gv_payer a);
  _ ← signer_account (gv_upgrade_authority a);
  program_data ← load ProgramData (key (gv_program_data a));
  _ ← program_account system_program_ID (gv_system_program a);
  b ← init_account GovernanceConfig.t (key (gv_payer a)) (key (gv_governance_config a))
        (8 + GovernanceConfig.INIT_SPACE) GovernanceConfig.pda_seeds;
  _ ← constraint_mut (gv_payer a);
  _ ← constraint_seeds_find [arr_bytes governance_ID] bpf_loader_upgradeable_ID (key (gv_program_data a));
  _ ← require (bool_decide (upgrade_authority_address program_data = Some (key (gv_upgrade_authority a))))
        (EGovernance InvalidUpgradeAuthority);
  _ ← constraint_mut (gv_governance_config a);
  let config := {| GovernanceConfig.bump := b;
                   GovernanceConfig.chain_hash := gci_chain_hash params;
                   GovernanceConfig.address_hash := gci_address_hash params;
                   GovernanceConfig.minimum_proposal_eta_delay := gci_minimum_proposal_eta_delay params;
                   GovernanceConfig.operator := gci_operator params |} in
  _ ← lift (GovernanceConfig.validate_config config);
  store (key (gv_governance_config a)) config.

(** ** update_config.rs *)

Record GovUpdateConfig := { gu_operator : AccountInfo; gu_governance_config : AccountInfo }.

Definition update_config (a : GovUpdateConfig) (params : GovernanceConfigUpdate) : Instr unit :=
  _ ← signer_account (gu_operator a);
  config ← load GovernanceConfig.t (key (gu_governance_config a));
  _ ← constraint_mut (gu_operator a);
  _ ← require (bool_decide (GovernanceConfig.operator config = key (gu_operator a))) (EGovernance NotOperator);
  _ ← constraint_seeds_find GovernanceConfig.pda_seeds governance_ID (key (gu_governance_config a));
  _ ← constraint_mut (gu_governance_config a);
  config ← lift (GovernanceConfig.update config params);
  store (key (gu_governance_config a)) config.

(** ** transfer_operatorship.rs *)

Record GovTransferOperatorship := {
  gt_system_program : Pubkey;
  gt_operator_account : option AccountInfo;
  gt_governance_config : AccountInfo
}.

Definition governance_transfer_operatorship (a : GovTransferOperatorship) (new_operator : array 32) : Instr unit :=
  _ ← program_account system_program_ID (gt_system_program a);
  _ ← optional_signer (gt_operator_account a);
  config ← load GovernanceConfig.t (key (gt_governance_config a));
  _ ← match gt_operator_account a with
      | Some o => require (bool_decide (key o = GovernanceConfig.operator config))
                    (EGovernance GovMissingRequiredSignature)
      | None => mret tt
      end;
  _ ← governance_seeds (key (gt_governance_config a)) config;
  _ ← constraint_mut (gt_governance_config a);
  _ ← require ((if gt_operator_account a is Some _ then true else false) || is_signer (gt_governance_config a))
        (EGovernance GovMissingRequiredSignature);
  let old_operator := GovernanceConfig.operator config in
  _ ← emit (EvGovernance (OperatorshipTransferred (arr_bytes old_operator) (arr_bytes new_operator)));
  store (key (gt_governance_config a))
    {| GovernanceConfig.bump := GovernanceConfig.bump config;
       GovernanceConfig.chain_hash := GovernanceConfig.chain_hash config;
       GovernanceConfig.address_hash := GovernanceConfig.address_hash config;
       GovernanceConfig.minimum_proposal_eta_delay := GovernanceConfig.minimum_proposal_eta_delay config;
       GovernanceConfig.operator := new_operator |}.

(** ** withdraw_tokens.rs *)

Record WithdrawTokens := {
  wt_system_program : Pubkey;
  wt_governance_config : AccountInfo;
  wt_receiver : AccountInfo
}.

Definition withdraw_tokens (a : WithdrawTokens) (amount : Z) : Instr unit :=
  _ ← program_account system_program_ID (wt_system_program a);
  config ← load GovernanceConfig.t (key (wt_governance_config a));
  _ ← governance_seeds (key (wt_governance_config a)) config;
  _ ← constraint_mut (wt_governance_config a);
  _ ← constraint_signer (wt_governance_config a);
  _ ← constraint_mut (wt_receiver a);
  _ ← transfer_lamports_anchor (key (wt_governance_config a)) (key (wt_receiver a)) amount;
  l ← get_lamports (key (wt_governance_config a));
  _ ← require (rent_is_exempt l (GovernanceConfig.INIT_SPACE + 8)) (EProgram PE_InvalidAccountData);
  store (key (wt_governance_config a)) config.

(** ** gmp/schedule_timelock_proposal.rs *)

Record ScheduleTimelockProposal := {
  st_system_program : Pubkey;
  st_governance_config : AccountInfo;
  st_payer : AccountInfo;
  st_proposal_pda : AccountInfo
}.

Definition at_least_default_eta_delay (proposal_time min_eta_delay : Z) : Instr Z :=
  unix_timestamp ← get_clock;
  let now := as_uint 64 unix_timestamp in
  minimum_proposal_eta ← lift (ok_or (checked_add 64 now min_eta_delay) (EGovernance GovArithmeticOverflow));
  if proposal_time <? minimum_proposal_eta then mret minimum_proposal_eta else mret proposal_time.

Definition schedule_timelock_proposal (a : ScheduleTimelockProposal) (proposal_hash : array 32) (eta : Z)
    (native_value target call_data : bytes) : Instr unit :=
  _ ← program_account system_program_ID (st_system_program a);
  config ← load GovernanceConfig.t (key (st_governance_config a));
  _ ← signer_account (st_payer a);
  b ← init_account ExecutableProposal.t (key (st_payer a)) (key (st_proposal_pda a)) (8 + 10)
        (ExecutableProposal.pda_seeds proposal_hash);
  _ ← governance_seeds (key (st_governance_config a)) config;
  _ ← constraint_signer (st_governance_config a);
  _ ← constraint_mut (st_payer a);
  _ ← constraint_mut (st_proposal_pda a);
  managed ← lift (OperatorProposal.find_pda proposal_hash);
  final_eta ← at_least_default_eta_delay eta (GovernanceConfig.minimum_proposal_eta_delay config);
  _ ← store (key (st_proposal_pda a))
    {| ExecutableProposal.eta := final_eta; ExecutableProposal.bump := b;
       ExecutableProposal.managed_bump := managed.2 |};
  emit (EvGovernance (ProposalScheduled proposal_hash target call_data native_value final_eta)).

(** ** gmp/cancel_timelock_proposal.rs *)

Record CancelTimelockProposal := {
  ct_governance_config : AccountInfo;
  ct_proposal_pda : AccountInfo
}.

Definition cancel_timelock_proposal (a : CancelTimelockProposal) (proposal_hash : array 32) (eta : Z)
    (native_value target call_data : bytes) : Instr unit :=
  config ← load GovernanceConfig.t (key (ct_governance_config a));
  proposal ← load ExecutableProposal.t (key (ct_proposal_pda a));
  _ ← governance_seeds (key (ct_governance_config a)) config;
  _ ← constraint_mut (ct_governance_config a);
  _ ← constraint_signer (ct_governance_config a);
  _ ← constraint_seeds (ExecutableProposal.pda_seeds proposal_hash) (ExecutableProposal.bump proposal)
        governance_ID (key (ct_proposal_pda a));
  _ ← constraint_mut (ct_proposal_pda a);
  _ ← require (eta =? ExecutableProposal.eta proposal) (EGovernance GovInvalidArgument);
  _ ← emit (EvGovernance (ProposalCancelled proposal_hash target call_data native_value eta));
  _ ← store (key (ct_governance_config a)) config;
  close_account (key (ct_proposal_pda a)) (key (ct_governance_config a)).

(** ** gmp/approve_operator_proposal.rs *)

Record ApproveOperatorProposal := {
  ap_system_program : Pubkey;
  ap_payer : AccountInfo;
  ap_governance_config : AccountInfo;
  ap_proposal_pda : AccountInfo;
  ap_operator_proposal_pda : AccountInfo
}.

Definition approve_operator_proposal (a : ApproveOperatorProposal) (proposal_hash : array 32)
    (native_value target call_data : bytes) : Instr unit :=
  _ ← program_account system_program_ID (ap_system_program a);
  _ ← signer_account (ap_payer a);
  config ← load GovernanceConfig.t (key (ap_governance_config a));
  proposal ← load ExecutableProposal.t (key (ap_proposal_pda a));
  b ← init_account OperatorProposal.t (key (ap_payer a)) (key (ap_operator_proposal_pda a)) 8
        (OperatorProposal.pda_seeds proposal_hash);
  _ ← constraint_mut (ap_payer a);
  _ ← governance_seeds (key (ap_governance_config a)) config;
  _ ← constraint_signer (ap_governance_config a);
  _ ← constraint_seeds (ExecutableProposal.pda_seeds proposal_hash) (ExecutableProposal.bump proposal)
        governance_ID (key (ap_proposal_pda a));
  _ ← require (bool_decide (ExecutableProposal.managed_bump proposal = b)) (EGovernance GovInvalidArgument);
  _ ← constraint_mut (ap_operator_proposal_pda a);
  _ ← emit (EvGovernance (OperatorProposalApproved proposal_hash target call_data native_value));
  store (key (ap_operator_proposal_pda a)) OperatorProposal.mk.

(** ** gmp/cancel_operator_proposal.rs *)

Record CancelOperatorProposal := {
  co_governance_config : AccountInfo;
  co_proposal_pda : AccountInfo;
  co_operator_proposal_pda : AccountInfo
}.

Definition cancel_operator_proposal (a : CancelOperatorProposal) (proposal_hash : array 32)
    (native_value target call_data : bytes) : Instr unit :=
  config ← load GovernanceConfig.t (key (co_governance_config a));
  proposal ← load ExecutableProposal.t (key (co_proposal_pda a));
  _ ← load OperatorProposal.t (key (co_operator_proposal_pda a));
  _ ← governance_seeds (key (co_governance_config a)) config;
  _ ← constraint_mut (co_governance_config a);
  _ ← constraint_signer (co_governance_config a);
  _ ← constraint_seeds (ExecutableProposal.pda_seeds proposal_hash) (ExecutableProposal.bump proposal)
        governance_ID (key (co_proposal_pda a));
  _ ← constraint_seeds (OperatorProposal.pda_seeds proposal_hash) (ExecutableProposal.managed_bump proposal)
        governance_ID (key (co_operator_proposal_pda a));
  _ ← constraint_mut (co_operator_proposal_pda a);
  _ ← emit (EvGovernance (OperatorProposalCancelled proposal_hash target call_data native_value));
  _ ← store (key (co_governance_config a)) config;
  close_account (key (co_operator_proposal_pda a)) (key (co_governance_config a)).

(** ** execute_timelock_proposal.rs: the shared steps *)

Definition check_target_program_presence (remaining_accounts : list AccountInfo) (target_program : Pubkey)
    : Result unit :=
  let program_present := existsb (fun acc => bool_decide (key acc = target_program)) remaining_accounts in
  ensure program_present (EGovernance InvalidTargetProgram).

Definition check_governance_config_presence (governance_config_key : Pubkey)
    (remaining_accounts : list AccountInfo) (solana_accounts : list SolanaAccountMetadata) : Result unit :=
  _ ← ensure (existsb (fun account => bool_decide (key account = governance_config_key)) remaining_accounts)
        (EGovernance GovernanceConfigMissing);
  ensure (existsb (fun metadata => bool_decide (sam_pubkey metadata = governance_config_key)) solana_accounts)
    (EGovernance GovernanceConfigMissing).

Definition checked_from_u256_le_bytes_to_u64 (le_u256 : array 32) : Result Z :=
  _ ← ensure (negb (existsb (fun b => negb (bool_decide (b = Byte.x00))) (drop 8 (arr_bytes le_u256))))
        (EGovernance InvalidNativeValue);
  mret (le_val (take 8 (arr_bytes le_u256))).

Definition get_account_metadata (data : ExecuteProposalData) : list AccountMeta :=
  map (fun metadata =>
    if sam_is_writable metadata && sam_is_signer metadata then meta_new (sam_pubkey metadata) true
    else if sam_is_writable metadata then meta_new (sam_pubkey metadata) false
    else if sam_is_signer metadata then meta_new_readonly (sam_pubkey metadata) true
    else meta_new_readonly (sam_pubkey metadata) false)
  (solana_accounts (epd_call_data data)).

Definition manual_lamport_transfer (data : ExecuteProposalData) (remaining_accounts : list AccountInfo)
    (native_value_u64 : Z) (governance_config : Pubkey) : Instr unit :=
  receiver ← lift (ok_or (solana_native_value_receiver_account (epd_call_data data))
                         (EGovernance MissingNativeValueReceiver));
  target_account_info ← lift (ok_or
    (List.find (fun account => bool_decide (key account = sam_pubkey receiver)) remaining_accounts)
    (EGovernance TargetAccountNotFound));
  transfer_lamports_anchor governance_config (key target_account_info) native_value_u64.

Definition execute_proposal_cpi (data : ExecuteProposalData) (remaining_accounts : list AccountInfo)
    (governance_config : Pubkey) (governance_config_bump : byte) : Instr unit :=
  native_value_u64 ← lift (checked_from_u256_le_bytes_to_u64 (native_value data));
  _ ← (if 0 <? native_value_u64
       then manual_lamport_transfer data remaining_accounts native_value_u64 governance_config
       else mret tt);
  let account_metas := get_account_metadata data in
  invoke_program governance_ID [GovernanceConfig.SEED_PREFIX; [governance_config_bump]]
    {| ix_program_id := target_address data; ix_accounts := account_metas;
       ix_data := call_data (epd_call_data data) |} remaining_accounts.

Record ExecuteProposal := {
  ep_system_program : Pubkey;
  ep_governance_config : AccountInfo;
  ep_proposal_pda : AccountInfo;
  ep_remaining_accounts : list AccountInfo
}.

Definition execute_proposal_accounts (a : ExecuteProposal) (data : ExecuteProposalData)
    : Instr (GovernanceConfig.t * ExecutableProposal.t) :=
  _ ← program_account system_program_ID (ep_system_program a);
  config ← load GovernanceConfig.t (key (ep_governance_config a));
  proposal ← load ExecutableProposal.t (key (ep_proposal_pda a));
  _ ← governance_seeds (key (ep_governance_config a)) config;
  _ ← constraint_mut (ep_governance_config a);
  hash ← lift (ExecutableProposal.hash_from_data data);
  _ ← constraint_seeds (ExecutableProposal.pda_seeds hash) (ExecutableProposal.bump proposal)
        governance_ID (key (ep_proposal_pda a));
  _ ← constraint_mut (ep_proposal_pda a);
  mret (config, proposal).

(** The call of the target with the checks before it, for both ways of executing a proposal. *)
Definition execute_target (governance_config : Pubkey) (config : GovernanceConfig.t)
    (remaining_accounts : list AccountInfo) (data : ExecuteProposalData) : Instr (array 32) :=
  _ ← lift (check_governance_config_presence governance_config remaining_accounts
              (solana_accounts (epd_call_data data)));
  _ ← lift (check_target_program_presence remaining_accounts (target_address data));
  _ ← execute_proposal_cpi data remaining_accounts governance_config (GovernanceConfig.bump config);
  lift (ExecutableProposal.calculate_hash (target_address data) (epd_call_data data) (native_value data)).

(** On exit Anchor writes the configuration back as it was deserialised, and closes the proposal. *)
Definition execute_timelock_proposal (a : ExecuteProposal) (data : ExecuteProposalData) : Instr unit :=
  loaded ← execute_proposal_accounts a data;
  let config := loaded.1 in
  let proposal := loaded.2 in
  unix_timestamp ← get_clock;
  timestamp ← lift (ok_or (try_into_uint 64 unix_timestamp) EPanic);
  _ ← require (ExecutableProposal.eta proposal <=? timestamp) (EGovernance ProposalNotReady);
  proposal_hash ← execute_target (key (ep_governance_config a)) config (ep_remaining_accounts a) data;
  _ ← emit (EvGovernance (ProposalExecuted proposal_hash (arr_bytes (target_address data))
        (call_data (epd_call_data data)) (arr_bytes (native_value data)) (ExecutableProposal.eta proposal)));
  _ ← store (key (ep_governance_config a)) config;
  close_account (key (ep_proposal_pda a)) (key (ep_governance_config a)).

(** ** execute_operator_proposal.rs *)

Record ExecuteOperatorProposal := {
  eo_system_program : Pubkey;
  eo_governance_config : AccountInfo;
  eo_proposal_pda : AccountInfo;
  eo_operator : AccountInfo;
  eo_operator_pda_marker_account : AccountInfo;
  eo_remaining_accounts : list AccountInfo
}.

Definition execute_operator_proposal_accounts (a : ExecuteOperatorProposal) (data : ExecuteProposalData)
    : Instr GovernanceConfig.t :=
  _ ← program_account system_program_ID (eo_system_program a);
  config ← load GovernanceConfig.t (key (eo_governance_config a));
  proposal ← load ExecutableProposal.t (key (eo_proposal_pda a));
  _ ← signer_account (eo_operator a);
  _ ← load OperatorProposal.t (key (eo_operator_pda_marker_account a));
  _ ← governance_seeds (key (eo_governance_config a)) config;
  _ ← constraint_mut (eo_governance_config a);
  hash ← lift (ExecutableProposal.hash_from_data data);
  _ ← constraint_seeds (ExecutableProposal.pda_seeds hash) (ExecutableProposal.bump proposal)
        governance_ID (key (eo_proposal_pda a));
  _ ← constraint_mut (eo_proposal_pda a);
  _ ← require (bool_decide (key (eo_operator a) = GovernanceConfig.operator config))
        (EGovernance UnauthorizedOperator);
  _ ← constraint_seeds_find (OperatorProposal.pda_seeds hash) governance_ID
        (key (eo_operator_pda_marker_account a));
  _ ← constraint_mut (eo_operator_pda_marker_account a);
  mret config.

Definition execute_operator_proposal (a : ExecuteOperatorProposal) (data : ExecuteProposalData) : Instr unit :=
  config ← execute_operator_proposal_accounts a data;
  proposal_hash ← execute_target (key (eo_governance_config a)) config (eo_remaining_accounts a) data;
  _ ← emit (EvGovernance (OperatorProposalExecuted proposal_hash (arr_bytes (target_address data))
        (call_data (epd_call_data data)) (arr_bytes (native_value data))));
  _ ← store (key (eo_governance_config a)) config;
  _ ← close_account (key (eo_proposal_pda a)) (key (eo_governance_config a));
  close_account (key (eo_operator_pda_marker_account a)) (key (eo_governance_config a)).

(** ** payload_conversions.rs *)

Definition decode_payload (raw_payload : bytes) : Result GovernanceCommandPayload :=
  ok_or (governance_abi_decode raw_payload) (EProgram PE_InvalidArgument).

Definition decode_payload_target (payload_target_addr : bytes) : Result Pubkey :=
  ok_or (arr_try_from 32 payload_target_addr) (EProgram PE_InvalidArgument).

(** [try_from_slice]: the whole slice is read. *)
Definition decode_payload_call_data (call_data : bytes) : Result ExecuteProposalCallData :=
  match borsh_deserialize call_data with
  | Some (d, []) => Ok d
  | _ => Err (EProgram PE_InvalidArgument)
  end.

(** ** process_gmp.rs *)

Record GovExecute := {
  ge_executable : AxelarExecutableAccounts;
  ge_system_program : Pubkey;
  ge_payer : AccountInfo;
  ge_governance_config : AccountInfo;
  ge_proposal_pda : AccountInfo;
  ge_operator_proposal_pda : AccountInfo;
  ge_axelar_governance_program : Pubkey
}.

Definition ensure_authorized_gmp_command (config : GovernanceConfig.t) (message : Message) : Result unit :=
  let address_hash := keccak_hashv [source_address message] in
  _ ← ensure (bool_decide (address_hash = GovernanceConfig.address_hash config)) (EGovernance UnauthorizedAddress);
  let chain_hash := keccak_hashv [chain (cc_id message)] in
  ensure (bool_decide (chain_hash = GovernanceConfig.chain_hash config)) (EGovernance UnauthorizedChain).

Definition calculate_gmp_context (payload : bytes)
    : Result (GovernanceCommandPayload * Pubkey * ExecuteProposalCallData * array 32) :=
  cmd_payload ← decode_payload payload;
  target ← decode_payload_target (gcp_target cmd_payload);
  execute_proposal_call_data ← decode_payload_call_data (gcp_call_data cmd_payload);
  proposal_hash ← ExecutableProposal.calculate_hash target execute_proposal_call_data
                    (arr_le 32 (gcp_native_value cmd_payload));
  mret (cmd_payload, target, execute_proposal_call_data, proposal_hash).

(** eta, native value, call data and target of a command. *)
Definition extract_proposal_data (cmd_payload : GovernanceCommandPayload) : Result (Z * bytes * bytes * bytes) :=
  eta ← ok_or (try_into_uint 64 (gcp_eta cmd_payload)) (EGovernance GovInvalidInstructionData);
  mret (eta, le_bytes 32 (gcp_native_value cmd_payload), gcp_call_data cmd_payload, gcp_target cmd_payload).

(** The program calls its own instruction, signing as the configuration. *)
Definition signed_config (a : GovExecute) (bump : byte) (signer writable : bool) : Instr AccountInfo :=
  invoke_signed_account governance_ID [GovernanceConfig.SEED_PREFIX; [bump]] (ge_governance_config a) signer writable.
Definition passed (a : GovExecute) (bump : byte) (x : AccountInfo) (signer writable : bool) : Instr AccountInfo :=
  invoke_signed_account governance_ID [GovernanceConfig.SEED_PREFIX; [bump]] x signer writable.

Definition send_schedule_timelock_proposal (a : GovExecute) (bump : byte) (proposal_hash : array 32)
    (cmd_payload : GovernanceCommandPayload) : Instr unit :=
  '(eta, value, cd, target) ← lift (extract_proposal_data cmd_payload);
  gc ← signed_config a bump true false;
  payer ← passed a bump (ge_payer a) true true;
  p ← passed a bump (ge_proposal_pda a) false true;
  schedule_timelock_proposal {| st_system_program := ge_system_program a; st_governance_config := gc;
      st_payer := payer; st_proposal_pda := p |} proposal_hash eta value target cd.

Definition send_cancel_timelock_proposal (a : GovExecute) (bump : byte) (proposal_hash : array 32)
    (cmd_payload : GovernanceCommandPayload) : Instr unit :=
  '(eta, value, cd, target) ← lift (extract_proposal_data cmd_payload);
  gc ← signed_config a bump true true;
  p ← passed a bump (ge_proposal_pda a) false true;
  cancel_timelock_proposal {| ct_governance_config := gc; ct_proposal_pda := p |}
    proposal_hash eta value target cd.

Definition send_approve_operator_proposal (a : GovExecute) (bump : byte) (proposal_hash : array 32)
    (cmd_payload : GovernanceCommandPayload) : Instr unit :=
  '(_, value, cd, target) ← lift (extract_proposal_data cmd_payload);
  payer ← passed a bump (ge_payer a) true true;
  gc ← signed_config a bump true false;
  p ← passed a bump (ge_proposal_pda a) false false;
  o ← passed a bump (ge_operator_proposal_pda a) false true;
  approve_operator_proposal {| ap_system_program := ge_system_program a; ap_payer := payer;
      ap_governance_config := gc; ap_proposal_pda := p; ap_operator_proposal_pda := o |}
    proposal_hash value target cd.

Definition send_cancel_operator_proposal (a : GovExecute) (bump : byte) (proposal_hash : array 32)
    (cmd_payload : GovernanceCommandPayload) : Instr unit :=
  '(_, value, cd, target) ← lift (extract_proposal_data cmd_payload);
  gc ← signed_config a bump true true;
  p ← passed a bump (ge_proposal_pda a) false false;
  o ← passed a bump (ge_operator_proposal_pda a) false true;
  cancel_operator_proposal {| co_governance_config := gc; co_proposal_pda := p; co_operator_proposal_pda := o |}
    proposal_hash value target cd.

Definition process_proposal_gmp (a : GovExecute) (bump : byte) (proposal_hash : array 32)
    (cmd_payload : GovernanceCommandPayload) : Instr unit :=
  match gcp_command cmd_payload with
  | ScheduleTimeLockProposal => send_schedule_timelock_proposal a bump proposal_hash cmd_payload
  | CancelTimeLockProposal => send_cancel_timelock_proposal a bump proposal_hash cmd_payload
  | ApproveOperatorProposal_ => send_approve_operator_proposal a bump proposal_hash cmd_payload
  | CancelOperatorApproval => send_cancel_operator_proposal a bump proposal_hash cmd_payload
  | InvalidCommand => fail (EGovernance GovInvalidInstructionData)
  end.

Definition execute_accounts (a : GovExecute) (message : Message) : Instr GovernanceConfig.t :=
  _ ← executable_accounts governance_ID (ge_executable a) message;
  _ ← program_account system_program_ID (ge_system_program a);
  _ ← signer_account (ge_payer a);
  config ← load GovernanceConfig.t (key (ge_governance_config a));
  _ ← program_account governance_ID (ge_axelar_governance_program a);
  _ ← constraint_mut (ge_payer a);
  _ ← governance_seeds (key (ge_governance_config a)) config;
  _ ← constraint_mut (ge_governance_config a);
  _ ← constraint_mut (ge_proposal_pda a);
  _ ← constraint_mut (ge_operator_proposal_pda a);
  mret config.

Definition execute (a : GovExecute) (message : Message) (payload : bytes) : Instr unit :=
  config ← execute_accounts a message;
  _ ← lift (ensure_authorized_gmp_command config message);
  _ ← validate_message_raw governance_ID (ge_executable a) message payload;
  context ← lift (calculate_gmp_context payload);
  _ ← process_proposal_gmp a (GovernanceConfig.bump config) context.2 context.1.1.1;
  store (key (ge_governance_config a)) config.

(** ** lib.rs *)

Inductive GovernanceInstruction :=
| VxInitializeConfig (a : GovInitializeConfig) (params : GovernanceConfigInit)
| VxUpdateConfig (a : GovUpdateConfig) (params : GovernanceConfigUpdate)
| VxExecute (a : GovExecute) (message : Message) (payload : bytes)
| VxSchedule (a : ScheduleTimelockProposal) (proposal_hash : array 32) (eta : Z) (native_value target call_data : bytes)
| VxCancel (a : CancelTimelockProposal) (proposal_hash : array 32) (eta : Z) (native_value target call_data : bytes)
| VxApproveOperator (a : ApproveOperatorProposal) (proposal_hash : array 32) (native_value target call_data : bytes)
| VxCancelOperator (a : CancelOperatorProposal) (proposal_hash : array 32) (native_value target call_data : bytes)
| VxExecuteTimelock (a : ExecuteProposal) (data : ExecuteProposalData)
| VxExecuteOperator (a : ExecuteOperatorProposal) (data : ExecuteProposalData)
| VxTransferOperatorship (a : GovTransferOperatorship) (new_operator : array 32)
| VxWithdrawTokens (a : WithdrawTokens) (amount : Z).

Definition governance_entry (ix : GovernanceInstruction) : Instr unit :=
  match ix with
  | VxInitializeConfig a p => governance_initialize_config a p
  | VxUpdateConfig a p => update_config a p
  | VxExecute a m p => execute a m p
  | VxSchedule a h e v t c => schedule_timelock_proposal a h e v t c
  | VxCancel a h e v t c => cancel_timelock_proposal a h e v t c
  | VxApproveOperator a h v t c => approve_operator_proposal a h v t c
  | VxCancelOperator a h v t c => cancel_operator_proposal a h v t c
  | VxExecuteTimelock a d => execute_timelock_proposal a d
  | VxExecuteOperator a d => execute_operator_proposal a d
  | VxTransferOperatorship a n => governance_transfer_operatorship a n
  | VxWithdrawTokens a n => withdraw_tokens a n
  end.
End governance.
