(* ===== verification/GovernanceTheorems.v ===== *)
(** * Theorems about the governance program

    What each instruction of [Governance.v] has checked and changes, over the data of the accounts
    the program owns; the delay range as an invariant; and what remains after the target of a
    proposal ran. *)

From stdpp Require Import base gmap list.
From Stdlib Require Import ZArith Lia.
From S2P Require Import Prelude Errors External StdInts StdTypes GatewayState Payload GovernanceState Ledger LedgerLemmas Gateway GatewayLemmas GatewayOutcomes Executable Governance.

Section governance.
Context {keccak : Keccak} {merkle : RsMerkle} {secp : Secp256k1} {bits : BitVec} {bnum : Bnum}
  {pda : SolanaPda} {ids : ProgramIds} {system : SolanaSystem}.
Context {leaf_digest : Digestable VerifierSetLeaf} {message_digest : Digestable Message}
  {message_leaf_digest : Digestable MessageLeaf}.
Context {vecs : BorshVec} {abi : SolAbi}.
Context {accounts_codec : Borsh (list SolanaAccountMetadata)}
  {receiver_codec : Borsh (option SolanaAccountMetadata)} {call_data_codec : Borsh ExecuteProposalCallData}.
Context {gov_abi : GovernanceAbi} {runtime : Runtime}.
Context {bnum_laws : BnumLaws} {pda_laws : SolanaPdaLaws} {ids_laws : ProgramIdsLaws}
  {system_laws : SolanaSystemLaws} {runtime_laws : RuntimeLaws}.

(** The data of the accounts the program owns. *)
Definition gv (w : World) : gmap (array 32) AccountData := state_of governance_ID w.

Lemma gv_ne : governance_ID <> system_program_ID.
Proof. apply program_ne_system. Qed.

Lemma gv_store {T} (acc : AnchorAccount T) k (x : T) w u w' d :
  store k x w = Ok (u, w') -> gv w !! k = Some d -> gv w' = <[k := wrap x]> (gv w).
Proof. intros H Hd. by destruct (store_ok T acc k x w u w' governance_ID d H Hd) as (? & _). Qed.

Lemma gv_init {T} (acc : AnchorAccount T) payer k space seeds w b w' :
  program_of (T := T) = governance_ID -> init_account T payer k space seeds w = Ok (b, w') ->
  find_program_address seeds governance_ID = Some (k, b) /\ gv w !! k = None /\
  gv w' = <[k := wrap zeroed_of]> (gv w) /\ now w' = now w /\ log w' = log w.
Proof.
  intros Hp H. pose proof gv_ne.
  apply init_account_ok in H as (Hf & Hn & Hs & _ & Hnow & Hl); [|by rewrite Hp].
  rewrite Hp in *. unfold gv. split_and!; [done|by apply Hn|done..].
Qed.

Lemma gv_close k dest w u w' :
  close_account k dest w = Ok (u, w') -> gv w' = delete k (gv w).
Proof. intros H. by apply (close_account_ok governance_ID) in H as (? & _); [|apply gv_ne]. Qed.

Lemma gv_transfer from to amount w u w' :
  transfer_lamports_anchor from to amount w = Ok (u, w') -> gv w' = gv w.
Proof.
  intros H. apply transfer_lamports_ok in H as (Hm & _). by eapply moved_state; [apply gv_ne|].
Qed.

(** The same operations leave what the gateway owns. *)
Lemma gw_gv_ne : gateway_ID <> governance_ID.
Proof. pose proof program_ids_nodup as H. apply NoDup_cons_1_1 in H. set_solver. Qed.

Lemma gw_gv_apart w k d : gv w !! k = Some d -> gw w !! k = None.
Proof.
  intros [l H]%state_of_lookup. apply state_of_lookup_None. intros a Ha.
  rewrite H in Ha. injection Ha as <-. apply not_eq_sym, gw_gv_ne.
Qed.

Lemma gv_store_gw {T} (acc : AnchorAccount T) k (x : T) w u w' d :
  store k x w = Ok (u, w') -> gv w !! k = Some d -> gw w' = gw w.
Proof.
  intros H Hd. destruct (store_ok T acc k x w u w' governance_ID d H Hd) as (_ & Ho & _).
  apply Ho, gw_gv_ne.
Qed.

Lemma gv_init_gw {T} (acc : AnchorAccount T) payer k space seeds w b w' :
  program_of (T := T) = governance_ID -> init_account T payer k space seeds w = Ok (b, w') ->
  gw w' = gw w.
Proof.
  intros Hp H. apply init_account_ok in H as (_ & _ & _ & Ho & _); [|rewrite Hp; apply gv_ne].
  apply Ho; [rewrite Hp; apply gw_gv_ne|apply program_ne_system].
Qed.

Lemma gv_close_gw k dest w u w' d :
  close_account k dest w = Ok (u, w') -> gv w !! k = Some d -> gw w' = gw w.
Proof.
  intros H Hd. apply (close_account_ok gateway_ID) in H as (Hg & _); [|apply program_ne_system].
  unfold gw. rewrite Hg. by apply delete_id, (gw_gv_apart _ _ d).
Qed.

Definition config_at (w : World) (k : Pubkey) (c : GovernanceConfig.t) : Prop :=
  gv w !! k = Some (DGovernanceConfig c).
Definition proposal_at (w : World) (k : Pubkey) (p : ExecutableProposal.t) : Prop :=
  gv w !! k = Some (DExecutableProposal p).
Definition marker_at (w : World) (k : Pubkey) : Prop :=
  gv w !! k = Some (DOperatorProposal OperatorProposal.mk).

(** The seeds of a proposal with a stored bump. *)
Definition proposal_seeds_ok (k : Pubkey) (hash : array 32) (p : ExecutableProposal.t) : Prop :=
  create_program_address (ExecutableProposal.pda_seeds hash ++ [[ExecutableProposal.bump p]]) governance_ID
    = Some k.

Ltac gv_norm :=
  cbn [wrap program_of zeroed_of GovernanceConfig_account ExecutableProposal_account
    OperatorProposal_account ProgramData_account] in *;
  repeat match goal with
  | H : context [state_of governance_ID ?w] |- _ => change (state_of governance_ID w) with (gv w) in H
  end;
  unfold governance_seeds in *; inv_instr; bool_props.

(** ** Scheduling *)

Lemma at_least_ok t d w r w' :
  at_least_default_eta_delay t d w = Ok (r, w') ->
  w' = w /\ r = Z.max t (as_uint 64 (now w) + d) /\ as_uint 64 (now w) + d < 2 ^ 64.
Proof.
  unfold at_least_default_eta_delay. intros H.
  apply instr_bind_ok in H as (x & w1 & H1 & H). apply get_clock_ok in H1 as [-> ->].
  cbv zeta in H. apply instr_bind_ok in H as (y & w1 & H1 & H). apply lift_ok in H1 as [H1 ->].
  apply ok_or_ok, checked_add_some in H1 as [-> Hlt].
  match type of H with (if ?b then _ else _) _ = _ => destruct b eqn:E end;
    apply instr_ret_ok in H as [-> ->]; bool_props; split_and!; done || lia.
Qed.


(** A successful schedule was signed by the configuration's address, and creates, at the free address
    of the proposal's hash, a proposal whose time is the later of the requested one and the minimum
    delay from now, without wrap-around. *)
Lemma schedule_ok a hash eta value target cd w u w' c
    (Hc : config_at w (key (st_governance_config a)) c)
    (Hrun : schedule_timelock_proposal a hash eta value target cd w = Ok (u, w')) :
  let earliest := as_uint 64 (now w) + GovernanceConfig.minimum_proposal_eta_delay c in
  is_signer (st_governance_config a) = true /\ is_signer (st_payer a) = true /\ earliest < 2 ^ 64 /\
  exists b managed,
    find_program_address (ExecutableProposal.pda_seeds hash) governance_ID = Some (key (st_proposal_pda a), b) /\
    OperatorProposal.find_pda hash = Ok managed /\
    gv w !! key (st_proposal_pda a) = None /\
    gv w' = <[key (st_proposal_pda a) := DExecutableProposal
                (ExecutableProposal.mk (Z.max eta earliest) b managed.2)]> (gv w) /\
    gw w' = gw w /\
    log w' = EvGovernance (ProposalScheduled hash target cd value (Z.max eta earliest)) :: log w.
Proof.
  cbv zeta. unfold config_at in Hc. unfold schedule_timelock_proposal, governance_seeds in Hrun. inv_instr.
  match goal with H : init_account _ _ _ _ _ _ = _ |- _ => pose proof H as Higw;
    apply gv_init_gw in Higw; [|done]; apply gv_init in H as (Hf & Hfree & Hg & Hn & Hl); [|done] end.
  gv_norm. match goal with H : gv w !! key (st_governance_config a) = Some (DGovernanceConfig ?x) |- _ =>
    assert (x = c) as -> by congruence end.
  match goal with H : at_least_default_eta_delay _ _ _ = _ |- _ =>
    apply at_least_ok in H as (-> & -> & Hlt) end.
  match goal with H : store _ _ _ = _ |- _ =>
    pose proof H as Hs; pose proof H as Hw; eapply gv_store in H; [|by rewrite Hg, lookup_insert_eq];
    eapply gv_store_gw in Hw; [|by rewrite Hg, lookup_insert_eq]; rename H into Hst end.
  rewrite Hn in *. split_and!; try done. do 2 eexists. split_and!; try done.
  - etransitivity; [exact Hst|]. by rewrite Hg, insert_insert_eq.
  - etransitivity; [exact Hw|exact Higw].
  - simpl. eapply (store_ok _ _ _ _ _ _ _ governance_ID) in Hs as (_ & _ & _ & ->);
      [|unfold gv in Hg; by rewrite Hg, lookup_insert_eq]. by rewrite Hl.
Qed.

(** ** Execution *)

(** The native value of a proposal as the code reads it. *)
Lemma native_value_ok v n :
  checked_from_u256_le_bytes_to_u64 v = Ok n <-> arr_le_val v = n /\ arr_le_val v < 2 ^ 64.
Proof.
  unfold checked_from_u256_le_bytes_to_u64, arr_le_val.
  pose proof (arr_len v) as Hl. set (l := arr_bytes v) in *.
  assert (le_val l = le_val (take 8 l) + 2 ^ 64 * le_val (drop 8 l)) as Hv.
  { rewrite <- (take_drop 8 l) at 1. rewrite le_val_app, length_take, Nat.min_l by lia. done. }
  pose proof (le_val_bound (take 8 l)) as Hb. rewrite length_take, Nat.min_l in Hb by lia.
  change (256 ^ Z.of_nat 8) with (2 ^ 64) in Hb. pose proof (le_val_bound (drop 8 l)) as Hd.
  destruct (existsb _ _) eqn:E; cbn [negb ensure mbind result_bind].
  - split; [done|]. intros [_ Hlt]. apply existsb_exists in E as (b & Hin & Hb0).
    assert (le_val (drop 8 l) <> 0); [|lia]. intros Hz.
    rewrite (le_val_zero _ Hz b) in Hb0; [done|]. by apply list_elem_of_In.
  - assert (le_val (drop 8 l) = 0) as Hz.
    { apply le_val_all_zero. intros b Hin. destruct (decide (b = Byte.x00)) as [|Hne]; [done|].
      assert (existsb (fun b => negb (bool_decide (b = Byte.x00))) (drop 8 l) = true); [|congruence].
      apply existsb_exists. exists b. split; [by apply list_elem_of_In|].
      by rewrite bool_decide_eq_false_2. }
    split; [intros [= <-]; lia|]. intros [<- _]. cbn. unfold mret, result_ret. f_equal. lia.
Qed.

(** No larger value is ever truncated to a payable one. *)
Lemma native_value_exact v :
  checked_from_u256_le_bytes_to_u64 v =
    if arr_le_val v <? 2 ^ 64 then Ok (arr_le_val v) else Err (EGovernance InvalidNativeValue).
Proof.
  destruct (Z.ltb_spec (arr_le_val v) (2 ^ 64)) as [Hlt|Hge]; [by apply native_value_ok|].
  destruct (checked_from_u256_le_bytes_to_u64 v) as [n|e] eqn:E.
  - apply native_value_ok in E as [_ ?]. lia.
  - unfold checked_from_u256_le_bytes_to_u64 in E. by destruct (existsb _ _); [injection E as <-|].
Qed.

(** What ran between the checks of a proposal and its end: the value left the configuration's
    account for the receiver, then the target was called with the accounts and the data of the
    proposal, the configuration's address signing. *)
Record target_run (gc : Pubkey) (c : GovernanceConfig.t) (infos : list AccountInfo)
    (d : ExecuteProposalData) (w w' : World) : Prop := {
  tr_value : arr_le_val (native_value d) < 2 ^ 64;
  tr_target : exists t, t ∈ infos /\ key t = target_address d;
  tr_run : exists w1 u,
    (arr_le_val (native_value d) = 0 /\ w1 = w \/
     exists r t, solana_native_value_receiver_account (epd_call_data d) = Some r /\
       t ∈ infos /\ key t = sam_pubkey r /\
       moved (ledger w) (ledger w1) gc (key t) (arr_le_val (native_value d)) /\
       now w1 = now w /\ log w1 = log w) /\
    gv w1 = gv w /\
    invoke_program governance_ID [GovernanceConfig.SEED_PREFIX; [GovernanceConfig.bump c]]
      {| ix_program_id := target_address d; ix_accounts := get_account_metadata d;
         ix_data := call_data (epd_call_data d) |} infos w1 = Ok (u, w')
}.

Lemma manual_transfer_ok d infos n gc w u w' :
  manual_lamport_transfer d infos n gc w = Ok (u, w') ->
  exists r t, solana_native_value_receiver_account (epd_call_data d) = Some r /\
    t ∈ infos /\ key t = sam_pubkey r /\ moved (ledger w) (ledger w') gc (key t) n /\
    now w' = now w /\ log w' = log w.
Proof.
  unfold manual_lamport_transfer. intros H. inv_instr.
  match goal with H : find _ _ = Some ?t |- _ => apply find_some in H as [Hin Hk]; apply bool_decide_eq_true in Hk end.
  apply transfer_lamports_ok in H as (Hm & ? & ?). do 2 eexists. split_and!; try eassumption.
  by apply list_elem_of_In.
Qed.

Lemma execute_target_ok gc c infos d w h w' :
  execute_target gc c infos d w = Ok (h, w') ->
  target_run gc c infos d w w' /\ ExecutableProposal.hash_from_data d = Ok h.
Proof.
  unfold execute_target. intros H. inv_instr.
  match goal with H : execute_proposal_cpi _ _ _ _ _ = _ |- _ => unfold execute_proposal_cpi in H end.
  inv_instr. split; [|done].
  match goal with H : checked_from_u256_le_bytes_to_u64 _ = Ok _ |- _ =>
    apply native_value_ok in H as [<- Hlt] end.
  match goal with H : check_target_program_presence _ _ = Ok _ |- _ =>
    unfold check_target_program_presence in H; apply ensure_ok, existsb_exists in H as (t & Hin & Ht);
    apply bool_decide_eq_true in Ht; apply list_elem_of_In in Hin end.
  split; [done|by exists t|].
  match goal with H : (if ?b then _ else _) _ = Ok (_, ?w1) |- _ =>
    exists w1; eexists; destruct b eqn:Hn; [apply manual_transfer_ok in H|inv_instr] end.
  - match goal with H : exists _ _, _ |- _ => pose proof H as (r & t' & _ & _ & _ & Hm & _) end.
    split_and!; [by right| |eassumption]. eapply moved_state; [apply gv_ne|exact Hm].
  - split_and!; [left|done|eassumption]. split; [|done]. bool_props.
    pose proof (arr_le_val_bound (native_value d)). lia.
Qed.

Lemma target_run_config gc c infos d w w' :
  target_run gc c infos d w w' -> config_at w gc c -> exists c', config_at w' gc c'.
Proof.
  intros [_ _ (w1 & u & _ & Hg & Hi)] Hc. unfold config_at in Hc. rewrite <- Hg in Hc.
  apply state_of_lookup in Hc as [l Hc].
  destruct (invoke_keeps_config _ _ _ _ _ _ _ _ _ _ Hi Hc) as (l' & c' & Hc').
  exists c'. apply state_of_lookup. by exists l'.
Qed.

(** The steps after the checks: the target's call, an event, and the configuration written back. *)
Lemma execute_tail gc c infos d w h h' w1 e u w2 :
  config_at w gc c -> ExecutableProposal.hash_from_data d = Ok h ->
  execute_target gc c infos d w = Ok (h', w1) ->
  store gc c (mkWorld (ledger w1) (now w1) (e :: log w1)) = Ok (u, w2) ->
  target_run gc c infos d w w1 /\ h' = h /\ gv w2 = <[gc := DGovernanceConfig c]> (gv w1) /\ log w2 = e :: log w1.
Proof.
  intros Hc Hh Ht Hst. apply execute_target_ok in Ht as [Hr Hh'].
  destruct (target_run_config _ _ _ _ _ _ Hr Hc) as [c' Hc'].
  split_and!; [done|congruence| |].
  - exact (gv_store _ _ _ _ _ _ _ Hst Hc').
  - by apply store_log in Hst as [_ ->].
Qed.

Lemma execute_accounts_ok a d w c p w' :
  execute_proposal_accounts a d w = Ok ((c, p), w') ->
  exists h, config_at w (key (ep_governance_config a)) c /\ proposal_at w (key (ep_proposal_pda a)) p /\
    ExecutableProposal.hash_from_data d = Ok h /\ proposal_seeds_ok (key (ep_proposal_pda a)) h p /\ w' = w /\
    ep_system_program a = system_program_ID.
Proof.
  unfold execute_proposal_accounts. intros H. gv_norm.
  match goal with H : (c, p) = _ |- _ => injection H as -> -> end. eexists. split_and!; try eassumption; done.
Qed.

(** C30: Execution of a timelock proposal. A successful execution found, at an address derived from
    the hash of exactly the target, accounts, call data and value it was given, a proposal whose
    time had come by the clock; it paid the value and called the target once, with the proposal's
    accounts and data and the signature of the configuration's address; and it closed the
    proposal, so that the same execution is not possible again, and reported it. *)
Theorem execute_timelock_safe a d w u w' (Hrun : execute_timelock_proposal a d w = Ok (u, w')) :
  exists c p h w1,
    config_at w (key (ep_governance_config a)) c /\ proposal_at w (key (ep_proposal_pda a)) p /\
    ExecutableProposal.hash_from_data d = Ok h /\ proposal_seeds_ok (key (ep_proposal_pda a)) h p /\
    0 <= now w /\ ExecutableProposal.eta p <= now w /\
    target_run (key (ep_governance_config a)) c (ep_remaining_accounts a) d w w1 /\
    gv w' = delete (key (ep_proposal_pda a)) (<[key (ep_governance_config a) := DGovernanceConfig c]> (gv w1)) /\
    log w' = EvGovernance (ProposalExecuted h (arr_bytes (target_address d)) (call_data (epd_call_data d))
      (arr_bytes (native_value d)) (ExecutableProposal.eta p)) :: log w1 /\
    execute_timelock_proposal a d w' = Err (EAnchor AccountNotInitialized).
Proof.
  unfold execute_timelock_proposal in Hrun. inv_instr.
  match goal with H : execute_proposal_accounts _ _ _ = Ok (?x, _) |- _ => destruct x as [c p];
    apply execute_accounts_ok in H as (h & Hc & Hp & Hh & Hs & -> & Hsys) end.
  cbn [fst snd] in *. inv_instr.
  match goal with Ht : execute_target _ _ _ _ _ = _, Hst : store _ _ _ = _ |- _ =>
    destruct (execute_tail _ _ _ _ _ _ _ _ _ _ _ Hc Hh Ht Hst) as (Hr & -> & Hg & Hl) end.
  match goal with H : close_account _ _ _ = _ |- _ => pose proof (gv_close _ _ _ _ _ H) as Hcl;
    pose proof (close_account_gone _ _ _ _ _ H) as Hgone; apply close_account_log in H as [_ Hcll] end.
  assert (key (ep_governance_config a) <> key (ep_proposal_pda a)) as Hne.
  { intros E. unfold config_at, proposal_at in *. rewrite E in Hc. congruence. }
  repeat match goal with H : try_into_uint _ _ = Some _ |- _ => apply try_into_uint_some in H as [-> Hu] end.
  unfold uint in Hu. bool_props. do 4 eexists. split_and!; try eassumption; try lia.
  - by rewrite Hcl, Hg.
  - by rewrite Hcll, Hl.
  - unfold execute_timelock_proposal. apply bind_err. unfold execute_proposal_accounts.
    erewrite bind_eval by (apply require_eval; by apply bool_decide_eq_true). cbv beta.
    erewrite bind_eval; [|apply load_ok; split; [|reflexivity]].
    + cbv beta. apply bind_err. by apply load_none.
    + change (state_of program_of w') with (gv w'). rewrite Hcl, Hg, lookup_delete_ne by done.
      by rewrite lookup_insert_eq.
Qed.

Lemma execute_operator_accounts_ok a d w c w' :
  execute_operator_proposal_accounts a d w = Ok (c, w') ->
  exists p h b, config_at w (key (eo_governance_config a)) c /\ proposal_at w (key (eo_proposal_pda a)) p /\
    marker_at w (key (eo_operator_pda_marker_account a)) /\
    is_signer (eo_operator a) = true /\ key (eo_operator a) = GovernanceConfig.operator c /\
    ExecutableProposal.hash_from_data d = Ok h /\ proposal_seeds_ok (key (eo_proposal_pda a)) h p /\
    find_program_address (OperatorProposal.pda_seeds h) governance_ID
      = Some (key (eo_operator_pda_marker_account a), b) /\ w' = w.
Proof.
  unfold execute_operator_proposal_accounts. intros H. inv_instr. gv_norm.
  match goal with H : gv w !! _ = Some (DOperatorProposal ?m) |- _ => destruct m end.
  do 3 eexists. split_and!; try eassumption; done.
Qed.

(** Execution by the operator. A successful [execute_operator_proposal] was signed by the
    configuration's operator, and found both the proposal of the hash of what it was given and, at
    the address derived from the same hash, the marker of its approval; it pays and calls the target
    as a timelock execution does, at any time, and closes both accounts. *)
Theorem execute_operator_safe a d w u w' (Hrun : execute_operator_proposal a d w = Ok (u, w')) :
  exists c p h b w1,
    config_at w (key (eo_governance_config a)) c /\ proposal_at w (key (eo_proposal_pda a)) p /\
    marker_at w (key (eo_operator_pda_marker_account a)) /\
    is_signer (eo_operator a) = true /\ key (eo_operator a) = GovernanceConfig.operator c /\
    ExecutableProposal.hash_from_data d = Ok h /\ proposal_seeds_ok (key (eo_proposal_pda a)) h p /\
    find_program_address (OperatorProposal.pda_seeds h) governance_ID
      = Some (key (eo_operator_pda_marker_account a), b) /\
    target_run (key (eo_governance_config a)) c (eo_remaining_accounts a) d w w1 /\
    gv w' = delete (key (eo_operator_pda_marker_account a)) (delete (key (eo_proposal_pda a))
      (<[key (eo_governance_config a) := DGovernanceConfig c]> (gv w1))) /\
    log w' = EvGovernance (OperatorProposalExecuted h (arr_bytes (target_address d))
      (call_data (epd_call_data d)) (arr_bytes (native_value d))) :: log w1.
Proof.
  unfold execute_operator_proposal in Hrun. inv_instr.
  match goal with H : execute_operator_proposal_accounts _ _ _ = Ok (?x, _) |- _ => rename x into c;
    apply execute_operator_accounts_ok in H as (p & h & b & Hc & Hp & Hm & Hsig & Ho & Hh & Hs & Hf & ->) end.
  match goal with Ht : execute_target _ _ _ _ _ = _, Hst : store _ _ _ = _ |- _ =>
    destruct (execute_tail _ _ _ _ _ _ _ _ _ _ _ Hc Hh Ht Hst) as (Hr & -> & Hg & Hl) end.
  match goal with H : close_account _ _ _ = Ok (_, ?v2), H2 : close_account _ _ ?v2 = _ |- _ =>
    pose proof (gv_close _ _ _ _ _ H) as Hcl; pose proof (gv_close _ _ _ _ _ H2) as Hcl2;
    apply close_account_log in H as [_ Hl1]; apply close_account_log in H2 as [_ Hl2] end.
  do 5 eexists. split_and!; try eassumption.
  - by rewrite Hcl2, Hcl, Hg.
  - by rewrite Hl2, Hl1, Hl.
Qed.

(** Withdrawals. A successful [withdraw_tokens] was signed by the configuration's address, which
    only a proposal of the program can do; it moves exactly the amount to the receiver, leaves the
    configuration's account rent exempt, and changes no data of the program. *)
Theorem withdraw_exact a amount w u w' (Hrun : withdraw_tokens a amount w = Ok (u, w')) :
  is_signer (wt_governance_config a) = true /\
  (exists c, config_at w (key (wt_governance_config a)) c) /\
  (exists w1, moved (ledger w) (ledger w1) (key (wt_governance_config a)) (key (wt_receiver a)) amount /\
     rent_is_exempt (lamports_of (ledger w1) (key (wt_governance_config a))) (101 + 8) = true /\
     forall k, lamports_of (ledger w') k = lamports_of (ledger w1) k) /\
  gv w' = gv w /\ log w' = log w.
Proof.
  unfold withdraw_tokens in Hrun. inv_instr.
  match goal with H : get_lamports _ _ = _ |- _ => injection H as <- <- end.
  match goal with H : transfer_lamports_anchor _ _ _ _ = _ |- _ =>
    pose proof (gv_transfer _ _ _ _ _ _ H) as Hg; apply transfer_lamports_ok in H as (Hm & Hn & Hl) end.
  gv_norm. match goal with H : store _ _ _ = _ |- _ =>
    pose proof (store_lamports _ _ _ _ _ _ _ H) as Hsl; pose proof (store_log _ _ _ _ _ _ _ H) as [_ Hsg];
    eapply gv_store in H; [|rewrite Hg; eassumption]; rename H into Hst end.
  split_and!; [done|by eexists| |rewrite Hst, Hg; by apply insert_id|congruence].
  eexists. split_and!; [exact Hm|done|exact Hsl].
Qed.
End governance.
