(* ===== verification/GovernanceGmp.v ===== *)
(** * Commands of the governance program

    The four commands that arrive as messages of the configured governor, from the checks of the
    message to the change they make, and who can change the configuration of the program. *)

From stdpp Require Import base gmap list.
From Stdlib Require Import ZArith Lia.
From S2P Require Import Prelude Errors External StdInts StdTypes GatewayState Payload GovernanceState Ledger LedgerLemmas Gateway GatewayLemmas GatewayOutcomes Executable Governance GovernanceTheorems.

Section governance.
Context {keccak : Keccak} {merkle : RsMerkle} {secp : Secp256k1} {bits : BitVec} {bnum : Bnum}
  {pda : SolanaPda} {ids : ProgramIds} {system : SolanaSystem}.
Context {leaf_digest : Digestable VerifierSetLeaf} {message_digest : Digestable Message}
  {message_leaf_digest : Digestable MessageLeaf}.
Context {vecs : BorshVec} {abi : SolAbi}.
Context {accounts_codec : Borsh (list SolanaAccountMetadata)}
  {receiver_codec : Borsh (option SolanaAccountMetadata)} {call_data_codec : Borsh ExecuteProposalCallData}.
Context {gov_abi : GovernanceAbi} {runtime : Runtime}.
Context {bnum_laws : BnumLaws} {pda_laws : SolanaPdaLaws} {ids_laws : ProgramIdsLaws}
  {system_laws : SolanaSystemLaws} {runtime_laws : RuntimeLaws}.

Ltac gv_norm :=
  cbn [wrap program_of zeroed_of GovernanceConfig_account ExecutableProposal_account
    OperatorProposal_account ProgramData_account] in *;
  repeat match goal with
  | H : context [state_of governance_ID ?w] |- _ => change (state_of governance_ID w) with (gv w) in H
  end;
  unfold governance_seeds in *; inv_instr; bool_props.

(** The event at the head of the log does not matter for the data. *)
Lemma gv_emit w e : gv (mkWorld (ledger w) (now w) (e :: log w)) = gv w.
Proof. done. Qed.
Lemma gw_emit w e : gw (mkWorld (ledger w) (now w) (e :: log w)) = gw w.
Proof. done. Qed.

(** Storing a configuration where it was. *)
Lemma store_same gc c w u w' :
  store gc c w = Ok (u, w') -> config_at w gc c -> gv w' = gv w /\ gw w' = gw w.
Proof.
  intros H Hc. pose proof (gv_store_gw _ _ _ _ _ _ _ H Hc) as Hw.
  apply (gv_store _ _ _ _ _ _ (DGovernanceConfig c)) in H; [|done]. split; [|done].
  rewrite H. by apply insert_id.
Qed.

(** ** The four commands *)

Lemma cancel_ok a hash eta value target cd w u w' :
  cancel_timelock_proposal a hash eta value target cd w = Ok (u, w') ->
  is_signer (ct_governance_config a) = true /\
  exists p, proposal_at w (key (ct_proposal_pda a)) p /\ proposal_seeds_ok (key (ct_proposal_pda a)) hash p /\
    ExecutableProposal.eta p = eta /\
    gv w' = delete (key (ct_proposal_pda a)) (gv w) /\ gw w' = gw w /\
    log w' = EvGovernance (ProposalCancelled hash target cd value eta) :: log w.
Proof.
  unfold cancel_timelock_proposal. intros H. inv_instr. gv_norm.
  match goal with Hs : store _ _ _ = Ok (_, ?v), Hc : close_account _ _ ?v = _ |- _ =>
    pose proof (store_log _ _ _ _ _ _ _ Hs) as [_ Hl]; apply store_same in Hs as [Hg Hw]; [|assumption];
    rewrite gw_emit in Hw;
    pose proof (gv_close _ _ _ _ _ Hc) as Hg2; pose proof (close_account_log _ _ _ _ _ Hc) as [_ Hl2];
    eapply gv_close_gw in Hc; [|rewrite Hg, gv_emit; eassumption] end.
  split; [done|]. eexists. split_and!; try eassumption; [done|by rewrite Hg2, Hg|congruence|by rewrite Hl2, Hl].
Qed.

Lemma approve_ok a hash value target cd w u w' :
  approve_operator_proposal a hash value target cd w = Ok (u, w') ->
  is_signer (ap_governance_config a) = true /\
  exists p, proposal_at w (key (ap_proposal_pda a)) p /\ proposal_seeds_ok (key (ap_proposal_pda a)) hash p /\
    find_program_address (OperatorProposal.pda_seeds hash) governance_ID
      = Some (key (ap_operator_proposal_pda a), ExecutableProposal.managed_bump p) /\
    gv w !! key (ap_operator_proposal_pda a) = None /\
    gv w' = <[key (ap_operator_proposal_pda a) := DOperatorProposal OperatorProposal.mk]> (gv w) /\
    gw w' = gw w /\
    log w' = EvGovernance (OperatorProposalApproved hash target cd value) :: log w.
Proof.
  unfold approve_operator_proposal. intros H. inv_instr.
  match goal with H : init_account _ _ _ _ _ _ = _ |- _ => pose proof H as Higw;
    apply gv_init_gw in Higw; [|done]; apply gv_init in H as (Hf & Hfree & Hg & Hn & Hl); [|done] end.
  gv_norm. match goal with H : store _ _ _ = _ |- _ =>
    pose proof (store_log _ _ _ _ _ _ _ H) as [_ Hsl]; pose proof H as Hw;
    eapply gv_store in H; [|rewrite gv_emit, Hg; apply lookup_insert_eq];
    eapply gv_store_gw in Hw; [|rewrite gv_emit, Hg; apply lookup_insert_eq]; rename H into Hst end.
  split; [done|]. eexists. split_and!; try eassumption.
  - congruence.
  - etransitivity; [exact Hst|]. by rewrite gv_emit, Hg, insert_insert_eq.
  - etransitivity; [exact Hw|exact Higw].
  - rewrite Hsl. simpl. by rewrite Hl.
Qed.

Lemma cancel_operator_ok a hash value target cd w u w' :
  cancel_operator_proposal a hash value target cd w = Ok (u, w') ->
  is_signer (co_governance_config a) = true /\
  exists p, proposal_at w (key (co_proposal_pda a)) p /\ proposal_seeds_ok (key (co_proposal_pda a)) hash p /\
    marker_at w (key (co_operator_proposal_pda a)) /\
    create_program_address (OperatorProposal.pda_seeds hash ++ [[ExecutableProposal.managed_bump p]]) governance_ID
      = Some (key (co_operator_proposal_pda a)) /\
    gv w' = delete (key (co_operator_proposal_pda a)) (gv w) /\ gw w' = gw w /\
    log w' = EvGovernance (OperatorProposalCancelled hash target cd value) :: log w.
Proof.
  unfold cancel_operator_proposal. intros H. inv_instr. gv_norm.
  match goal with Hs : store _ _ _ = Ok (_, ?v), Hc : close_account _ _ ?v = _ |- _ =>
    pose proof (store_log _ _ _ _ _ _ _ Hs) as [_ Hl]; apply store_same in Hs as [Hg Hw]; [|assumption];
    rewrite gw_emit in Hw;
    pose proof (gv_close _ _ _ _ _ Hc) as Hg2; pose proof (close_account_log _ _ _ _ _ Hc) as [_ Hl2];
    eapply gv_close_gw in Hc; [|rewrite Hg, gv_emit; eassumption] end.
  match goal with m : OperatorProposal.t |- _ => destruct m end.
  split; [done|]. eexists. split_and!; try eassumption; [by rewrite Hg2, Hg|congruence|by rewrite Hl2, Hl].
Qed.

(** What a command does to the data of the program, for a proposal with the hash [hash]. *)
Definition command_effect (a : GovExecute) (c : GovernanceConfig.t) (hash : array 32)
    (cmd : GovernanceCommandPayload) (w w' : World) : Prop :=
  let kp := key (ge_proposal_pda a) in
  let ko := key (ge_operator_proposal_pda a) in
  match gcp_command cmd with
  | ScheduleTimeLockProposal =>
    let eta := Z.max (gcp_eta cmd) (as_uint 64 (now w) + GovernanceConfig.minimum_proposal_eta_delay c) in
    exists b managed,
      find_program_address (ExecutableProposal.pda_seeds hash) governance_ID = Some (kp, b) /\
      OperatorProposal.find_pda hash = Ok managed /\ gv w !! kp = None /\ eta < 2 ^ 64 /\
      gv w' = <[kp := DExecutableProposal (ExecutableProposal.mk eta b managed.2)]> (gv w)
  | CancelTimeLockProposal =>
    exists p, proposal_at w kp p /\ proposal_seeds_ok kp hash p /\ ExecutableProposal.eta p = gcp_eta cmd /\
      gv w' = delete kp (gv w)
  | ApproveOperatorProposal_ =>
    exists p, proposal_at w kp p /\ proposal_seeds_ok kp hash p /\
      find_program_address (OperatorProposal.pda_seeds hash) governance_ID
        = Some (ko, ExecutableProposal.managed_bump p) /\ gv w !! ko = None /\
      gv w' = <[ko := DOperatorProposal OperatorProposal.mk]> (gv w)
  | CancelOperatorApproval =>
    exists p, proposal_at w kp p /\ proposal_seeds_ok kp hash p /\ marker_at w ko /\
      create_program_address (OperatorProposal.pda_seeds hash ++ [[ExecutableProposal.managed_bump p]])
        governance_ID = Some ko /\ gv w' = delete ko (gv w)
  | InvalidCommand => False
  end.

Lemma command_effect_same a c hash cmd w1 w w2 w' :
  gv w1 = gv w -> now w1 = now w -> gv w2 = gv w' ->
  command_effect a c hash cmd w1 w2 -> command_effect a c hash cmd w w'.
Proof.
  intros Hg Hn Hg2. unfold command_effect, proposal_at, marker_at. by rewrite Hg, Hn, Hg2.
Qed.

Lemma command_effect_config a c hash cmd w w' k :
  config_at w k c -> command_effect a c hash cmd w w' -> config_at w' k c.
Proof.
  intros Hc. unfold command_effect, config_at, proposal_at, marker_at in *.
  destruct (gcp_command cmd); [| | | |done].
  - intros (b & m & _ & _ & Hn & _ & ->). rewrite lookup_insert_ne; [done|congruence].
  - intros (p & Hp & _ & _ & ->). rewrite lookup_delete_ne; [done|congruence].
  - intros (p & Hp & _ & _ & Hn & ->). rewrite lookup_insert_ne; [done|congruence].
  - intros (p & Hp & _ & Hm & _ & ->). rewrite lookup_delete_ne; [done|congruence].
Qed.

Lemma extract_ok cmd eta v cd t :
  extract_proposal_data cmd = Ok (eta, v, cd, t) -> eta = gcp_eta cmd /\ uint 64 eta.
Proof.
  unfold extract_proposal_data. intros H. inv_result.
  match goal with H : try_into_uint _ _ = Some _ |- _ => apply try_into_uint_some in H as [-> Hu] end.
  done.
Qed.

(** An account passed to the called instruction keeps its address. *)
Lemma passed_ok a bump x s m w b w' : passed a bump x s m w = Ok (b, w') -> key b = key x /\ w' = w.
Proof. intros (-> & -> & _)%invoke_signed_account_ok. done. Qed.

Ltac same_keys := repeat match goal with E : key ?p = key ?q |- _ => rewrite E in *; clear E end.

Lemma process_ok a c hash cmd w u w' :
  config_at w (key (ge_governance_config a)) c ->
  process_proposal_gmp a (GovernanceConfig.bump c) hash cmd w = Ok (u, w') ->
  command_effect a c hash cmd w w' /\ gw w' = gw w.
Proof.
  intros Hc. unfold process_proposal_gmp, command_effect, send_schedule_timelock_proposal,
    send_cancel_timelock_proposal, send_approve_operator_proposal, send_cancel_operator_proposal, signed_config.
  change (invoke_signed_account governance_ID [GovernanceConfig.SEED_PREFIX; [GovernanceConfig.bump c]])
    with (passed a (GovernanceConfig.bump c)).
  destruct (gcp_command cmd); intros H; [..|by apply fail_ok in H];
    apply instr_bind_ok in H as ([[[eta v] cd] t] & w1 & Hx & H); apply lift_ok in Hx as [Hx ->];
    apply extract_ok in Hx as [-> Hu]; inv_instr;
    repeat match goal with Hp : passed _ _ _ _ _ _ = _ |- _ => apply passed_ok in Hp as [? ->] end.
  - eapply schedule_ok in H as (_ & _ & Hlt & b & m & Hf & Hm & Hn & Hg & Hw & _);
      [|cbn; same_keys; exact Hc]. cbn [st_governance_config st_proposal_pda] in *.
    split; [|done]. exists b, m.
    same_keys.
    split_and!; try done. unfold uint in *. lia.
  - apply cancel_ok in H as (_ & p & Hp & Hs & He & Hg & Hw & _). cbn [ct_proposal_pda] in *.
    same_keys. split; [by exists p|done].
  - apply approve_ok in H as (_ & p & Hp & Hs & Hf & Hn & Hg & Hw & _).
    cbn [ap_proposal_pda ap_operator_proposal_pda] in *.
    same_keys. split; [by exists p|done].
  - apply cancel_operator_ok in H as (_ & p & Hp & Hs & Hm & Hf & Hg & Hw & _).
    cbn [co_proposal_pda co_operator_proposal_pda] in *.
    same_keys. split; [by exists p|done].
Qed.

(** ** The reception of a command *)

Lemma validate_message_raw_gv pid a m payload w u w' :
  validate_message_raw pid a m payload w = Ok (u, w') -> gv w' = gv w.
Proof. intros (_ & _ & _ & H & _)%validate_message_raw_ok. apply H, not_eq_sym, gw_gv_ne. Qed.

Lemma execute_gmp_accounts_ok a m w c w' :
  execute_accounts a m w = Ok (c, w') -> config_at w (key (ge_governance_config a)) c /\ w' = w.
Proof.
  unfold execute_accounts. intros H. inv_instr.
  match goal with H : executable_accounts _ _ _ _ = _ |- _ => apply executable_accounts_world in H as -> end.
  gv_norm. done.
Qed.

(** C29: A command of the governor, from message to effect. If [execute] succeeds, the source address
    and the source chain of the message hash to those of the configuration, the payload has the
    message's hash, and the gateway held the message as approved and now holds it as executed. The
    payload decodes to a command for a 32-byte target whose call data decodes completely, and the
    instruction had exactly that command's effect, on the accounts of the hash of the proposal:
    scheduling never before the minimum delay, cancelling only the proposal with the given time, and
    giving or withdrawing the operator's approval; nothing else of the program's data changes. *)
Theorem governance_command_exact a m payload w u w' c (Hrun : execute a m payload w = Ok (u, w'))
    (Hc : config_at w (key (ge_governance_config a)) c) :
  keccak_hashv [source_address m] = GovernanceConfig.address_hash c /\
  keccak_hashv [chain (cc_id m)] = GovernanceConfig.chain_hash c /\
  keccak_hash payload = payload_hash m /\
  (exists inc, gw w !! key (ex_incoming_message_pda (ge_executable a)) = Some (DIncomingMessage inc) /\
     MessageStatus.is_approved (IncomingMessage.status inc) = true /\
     IncomingMessage.message_hash inc = message_hash m /\
     gw w' = <[key (ex_incoming_message_pda (ge_executable a)) := DIncomingMessage (executed_of inc)]> (gw w)) /\
  exists cmd target cd hash,
    governance_abi_decode payload = Some cmd /\ arr_bytes target = gcp_target cmd /\
    borsh_deserialize (gcp_call_data cmd) = Some (cd, []) /\
    ExecutableProposal.calculate_hash target cd (arr_le 32 (gcp_native_value cmd)) = Ok hash /\
    command_effect a c hash cmd w w'.
Proof.
  unfold execute in Hrun. inv_instr.
  match goal with H : execute_accounts _ _ _ = Ok (?c0, _) |- _ =>
    apply execute_gmp_accounts_ok in H as [Hc0 ->]; assert (c0 = c) as -> by (unfold config_at in *; congruence) end.
  match goal with H : ensure_authorized_gmp_command _ _ = _ |- _ => unfold ensure_authorized_gmp_command in H end.
  match goal with H : calculate_gmp_context _ = _ |- _ =>
    unfold calculate_gmp_context, decode_payload, decode_payload_target, decode_payload_call_data in H end.
  inv_instr. bool_props.
  match goal with H : validate_message_raw _ _ _ _ _ = _ |- _ =>
    pose proof (validate_message_raw_gv _ _ _ _ _ _ _ H) as Hgv;
    apply validate_message_raw_ok in H as (Hp & (inc & Hi & Ha & Hh & Hg) & _ & _ & Hn) end.
  match goal with H : match borsh_deserialize ?b with _ => _ end = Ok _ |- _ =>
    destruct (borsh_deserialize b) as [[cd [|]]|] eqn:Hcd; [injection H as <-|done..] end.
  match goal with H : process_proposal_gmp _ _ _ _ _ = _ |- _ =>
    cbn [fst snd] in H; apply process_ok in H as [He Hw]; [|unfold config_at; by rewrite Hgv] end.
  match goal with H : store _ _ _ = _ |- _ => apply store_same in H as [Hg' Hw'];
    [|eapply command_effect_config; [|exact He]; unfold config_at; by rewrite Hgv] end.
  split_and!; try done; [exists inc; split_and!; congruence|].
  do 4 eexists. split_and!; try eassumption; [by eapply arr_try_from_some|].
  by apply (command_effect_same a c _ _ _ w _ w' Hgv Hn (eq_sym Hg')).
Qed.

(** ** The configuration *)

(** The configuration account an instruction names. *)
Definition config_account (ix : GovernanceInstruction) : Pubkey :=
  key match ix with
  | VxInitializeConfig a _ => gv_governance_config a
  | VxUpdateConfig a _ => gu_governance_config a
  | VxExecute a _ _ => ge_governance_config a
  | VxSchedule a _ _ _ _ _ => st_governance_config a
  | VxCancel a _ _ _ _ _ => ct_governance_config a
  | VxApproveOperator a _ _ _ _ => ap_governance_config a
  | VxCancelOperator a _ _ _ _ => co_governance_config a
  | VxExecuteTimelock a _ => ep_governance_config a
  | VxExecuteOperator a _ => eo_governance_config a
  | VxTransferOperatorship a _ => gt_governance_config a
  | VxWithdrawTokens a _ => wt_governance_config a
  end.

Definition with_operator (c : GovernanceConfig.t) (o : array 32) : GovernanceConfig.t :=
  GovernanceConfig.mk (GovernanceConfig.bump c) (GovernanceConfig.chain_hash c)
    (GovernanceConfig.address_hash c) (GovernanceConfig.minimum_proposal_eta_delay c) o.

Lemma update_ok c p c' : GovernanceConfig.update c p = Ok c' ->
  GovernanceConfig.delay_ok c' /\ GovernanceConfig.operator c' = GovernanceConfig.operator c /\
  GovernanceConfig.bump c' = GovernanceConfig.bump c.
Proof.
  unfold GovernanceConfig.update. intros H. apply result_bind_ok in H as ([] & Hv & [= <-]).
  apply GovernanceConfig.validate_config_ok in Hv. done.
Qed.

Lemma execute_timelock_config a d w u w' c :
  config_at w (key (ep_governance_config a)) c -> execute_timelock_proposal a d w = Ok (u, w') ->
  config_at w' (key (ep_governance_config a)) c.
Proof.
  intros Hc Hrun. unfold execute_timelock_proposal in Hrun. inv_instr.
  match goal with H : execute_proposal_accounts _ _ _ = Ok (?x, _) |- _ => destruct x as [c' p];
    apply execute_accounts_ok in H as (h & Hc' & Hp & Hh & Hs & -> & _) end.
  assert (c' = c) as -> by (unfold config_at in *; congruence). cbn [fst snd] in *. inv_instr.
  match goal with Ht : execute_target _ _ _ _ _ = _, Hst : store _ _ _ = _ |- _ =>
    destruct (execute_tail _ _ _ _ _ _ _ _ _ _ _ Hc Hh Ht Hst) as (_ & _ & Hg & _) end.
  unfold config_at, proposal_at in *.
  match goal with H : close_account _ _ _ = _ |- _ => rewrite (gv_close _ _ _ _ _ H), Hg end.
  rewrite lookup_delete_ne, lookup_insert_eq; [done|congruence].
Qed.

Lemma execute_operator_config a d w u w' c :
  config_at w (key (eo_governance_config a)) c -> execute_operator_proposal a d w = Ok (u, w') ->
  config_at w' (key (eo_governance_config a)) c.
Proof.
  intros Hc Hrun. unfold execute_operator_proposal in Hrun. inv_instr.
  match goal with H : execute_operator_proposal_accounts _ _ _ = Ok (?x, _) |- _ => rename x into c';
    apply execute_operator_accounts_ok in H as (p & h & b & Hc' & Hp & Hm & _ & _ & Hh & _ & _ & ->) end.
  assert (c' = c) as -> by (unfold config_at in *; congruence).
  match goal with Ht : execute_target _ _ _ _ _ = _, Hst : store _ _ _ = _ |- _ =>
    destruct (execute_tail _ _ _ _ _ _ _ _ _ _ _ Hc Hh Ht Hst) as (_ & _ & Hg & _) end.
  unfold config_at, proposal_at, marker_at in *.
  match goal with H : close_account _ _ ?v1 = Ok (_, ?v2), H2 : close_account _ _ ?v2 = _ |- _ =>
    rewrite (gv_close _ _ _ _ _ H2), (gv_close _ _ _ _ _ H), Hg end.
  rewrite !lookup_delete_ne, lookup_insert_eq; [done|congruence..].
Qed.

Lemma execute_gmp_config a m p w u w' c :
  config_at w (key (ge_governance_config a)) c ->
  execute a m p w = Ok (u, w') -> config_at w' (key (ge_governance_config a)) c.
Proof.
  intros Hc Hrun. unfold execute in Hrun. inv_instr.
  match goal with H : execute_accounts _ _ _ = Ok (?c0, _) |- _ =>
    apply execute_gmp_accounts_ok in H as [Hc0 ->]; assert (c0 = c) as -> by (unfold config_at in *; congruence) end.
  match goal with H : validate_message_raw _ _ _ _ _ = _ |- _ =>
    apply validate_message_raw_gv in H as Hgv end.
  match goal with H : process_proposal_gmp _ _ _ _ ?w1 = _ |- _ =>
    assert (config_at w1 (key (ge_governance_config a)) c) as Hc1 by (unfold config_at; by rewrite Hgv);
    apply process_ok in H as [He _]; [|done] end.
  match goal with H : store _ _ _ = _ |- _ => apply store_same in H as [Hg' _];
    [|by eapply command_effect_config; [|exact He]] end.
  unfold config_at. rewrite Hg'. by eapply command_effect_config; [|exact He].
Qed.

(** Who changed a configuration [c] into [c'], and how. *)
Inductive config_change (ix : GovernanceInstruction) (c c' : GovernanceConfig.t) : Prop :=
| config_kept : c' = c -> config_change ix c c'
| config_updated a params :
    ix = VxUpdateConfig a params -> is_signer (gu_operator a) = true ->
    key (gu_operator a) = GovernanceConfig.operator c -> GovernanceConfig.update c params = Ok c' ->
    config_change ix c c'
| operatorship_transferred a new_operator :
    ix = VxTransferOperatorship a new_operator -> c' = with_operator c new_operator ->
    (exists o, gt_operator_account a = Some o /\ is_signer o = true /\ key o = GovernanceConfig.operator c) \/
      is_signer (gt_governance_config a) = true ->
    config_change ix c c'.

Lemma update_config_ok a params w u w' c :
  config_at w (key (gu_governance_config a)) c -> update_config a params w = Ok (u, w') ->
  exists c', config_at w' (key (gu_governance_config a)) c' /\
    config_change (VxUpdateConfig a params) c c'.
Proof.
  intros Hc. unfold update_config. intros H. inv_instr. gv_norm. unfold config_at in *.
  match goal with H : gv w !! key (gu_governance_config a) = Some (DGovernanceConfig ?x) |- _ =>
    assert (x = c) as -> by congruence end.
  match goal with H : store _ ?x _ = _ |- _ =>
    exists x; eapply gv_store in H; [|eassumption]; rewrite H end.
  split; [apply lookup_insert_eq|]. by eapply config_updated.
Qed.

Lemma governance_transfer_ok a n w u w' c :
  config_at w (key (gt_governance_config a)) c -> governance_transfer_operatorship a n w = Ok (u, w') ->
  config_at w' (key (gt_governance_config a)) (with_operator c n) /\
  config_change (VxTransferOperatorship a n) c (with_operator c n).
Proof.
  intros Hc. unfold governance_transfer_operatorship, optional_signer. intros H.
  destruct (gt_operator_account a) as [o|] eqn:Ho; inv_instr; gv_norm; unfold config_at in *;
    match goal with H : gv w !! key (gt_governance_config a) = Some (DGovernanceConfig ?x) |- _ =>
      assert (x = c) as -> by congruence end;
    match goal with H : store _ _ _ = _ |- _ => eapply gv_store in H; [|rewrite gv_emit; eassumption] end.
  all: split; [match goal with H : gv ?v = _ |- gv ?v !! _ = _ => rewrite H end; apply lookup_insert_eq|].
  all: eapply operatorship_transferred; [done|done|].
  - left. by exists o.
  - by right.
Qed.

Lemma withdraw_config a amount w u w' c :
  config_at w (key (wt_governance_config a)) c -> withdraw_tokens a amount w = Ok (u, w') ->
  config_at w' (key (wt_governance_config a)) c.
Proof.
  unfold withdraw_tokens. intros Hc H. inv_instr. gv_norm.
  match goal with H : get_lamports _ _ = _ |- _ => injection H as _ <- end.
  match goal with H : transfer_lamports_anchor _ _ _ _ = _ |- _ =>
    pose proof (gv_transfer _ _ _ _ _ _ H) as Hg end. unfold config_at in *.
  match goal with H : store _ _ _ = _ |- _ => eapply gv_store in H; [|rewrite Hg; eassumption]; rewrite H end.
  rewrite lookup_insert_eq. cbn. congruence.
Qed.

(** C31: Who changes the configuration. No instruction of the program removes a configuration, and
    every one leaves it exactly as it was, the execution of a proposal included, whatever the
    proposal's target did to it, but for two: an update signed by its operator, and a transfer of
    the operatorship signed by the operator or by the configuration's own address. The minimum delay
    stays within its range, and the bump never changes. *)
Theorem governance_config_authority ix w u w' c (Hc : config_at w (config_account ix) c)
    (Hd : GovernanceConfig.delay_ok c) (Hrun : governance_entry ix w = Ok (u, w')) :
  exists c', config_at w' (config_account ix) c' /\ config_change ix c c' /\
    GovernanceConfig.delay_ok c' /\ GovernanceConfig.bump c' = GovernanceConfig.bump c.
Proof.
  assert (config_at w' (config_account ix) c \/ exists c', config_at w' (config_account ix) c' /\
    config_change ix c c') as [Hk|(c' & Hk & Hch)].
  - destruct ix; cbn [governance_entry] in Hrun; unfold config_at, config_account in *.
    + exfalso. unfold governance_initialize_config in Hrun. inv_instr.
      match goal with H : init_account _ _ _ _ _ _ = _ |- _ =>
        apply gv_init in H as (_ & Hn & _); [|done] end. by rewrite Hn in Hc.
    + right. by eapply update_config_ok.
    + left. by eapply execute_gmp_config.
    + left. eapply schedule_ok in Hrun as (_ & _ & _ & b & m & _ & _ & Hn & Hg & _ & _); [|exact Hc].
      unfold config_at in *. rewrite Hg, lookup_insert_ne; congruence.
    + left. apply cancel_ok in Hrun as (_ & p & Hp & _ & _ & Hg & _).
      unfold config_at, proposal_at in *. rewrite Hg, lookup_delete_ne; congruence.
    + left. apply approve_ok in Hrun as (_ & p & _ & _ & _ & Hn & Hg & _).
      unfold config_at in *. rewrite Hg, lookup_insert_ne; congruence.
    + left. apply cancel_operator_ok in Hrun as (_ & p & _ & _ & Hm & _ & Hg & _).
      unfold config_at, marker_at in *. rewrite Hg, lookup_delete_ne; congruence.
    + left. by eapply execute_timelock_config.
    + left. by eapply execute_operator_config.
    + right. eexists. by eapply governance_transfer_ok.
    + left. by eapply withdraw_config.
  - exists c. split_and!; done || by apply config_kept.
  - exists c'. split_and!; [done..| |]; destruct Hch as [->|a p -> _ _ Hu|a n -> -> _];
      done || by destruct (update_ok _ _ _ Hu) as (? & ? & ?).
Qed.
End governance.
