(* ===== verification/Instances.v ===== *)
(** * Concrete implementations of the parameters

    For every class of [External.v] one computable implementation that satisfies its laws. They
    stand for no real algorithm: the witnesses of the library evaluate theorems on them, which
    shows that the assumed laws can hold together. None is exported as an instance. *)

From stdpp Require Import base list countable.
From Stdlib Require Import ZArith Lia.
From S2P Require Import Prelude External BorshFormat StdTypes.

(** ** Hashing *)

(** A checksum of 30 bits, so that the runs of the witnesses are cheap to evaluate. *)
Definition toy_hash (b : bytes) : Hash32 :=
  let mask := Z.ones 30 in
  arr_le 32 (foldl (fun acc x => Z.land (acc * 5 + byte_val x + 1) mask) 0 b).

Definition toy_keccak : Keccak :=
  {| keccak_hash := toy_hash; keccak_hashv ls := toy_hash (concat ls) |}.

Lemma toy_keccak_laws : @KeccakLaws toy_keccak.
Proof. split. done. Defined.

(** ** Encodings of countable types *)

Section countable.
Context {T : Type} `{!EqDecision T, !Countable T}.

(** The bytes of the code of a value, not self-delimiting. *)
Definition toy_pack (x : T) : bytes :=
  let p := Z.pos (countable.encode x) in le_bytes (Z.to_nat (Z.log2 p / 8 + 1)) p.
Definition toy_unpack (b : bytes) : option T := decode (Z.to_pos (le_val b)).

Lemma toy_unpack_pack x : toy_unpack (toy_pack x) = Some x.
Proof.
  unfold toy_unpack, toy_pack. set (p := Z.pos (countable.encode x)).
  pose proof (Z.log2_nonneg p) as Hl. pose proof (Z.div_pos (Z.log2 p) 8 Hl ltac:(lia)) as Hd.
  rewrite le_val_bytes, Z2Nat.id by lia.
  rewrite Z.mod_small; [apply decode_encode|]. split; [lia|].
  change 256 with (2 ^ 8). rewrite <- Z.pow_mul_r by lia.
  eapply Z.lt_le_trans; [apply (Z.log2_spec p); lia|]. apply Z.pow_le_mono_r; [lia|].
  pose proof (Z.div_mod (Z.log2 p) 8). pose proof (Z.mod_pos_bound (Z.log2 p) 8). lia.
Qed.

End countable.

(** ** Borsh codecs of the structures of the standard crate, as derived *)

Abbreviation string_codec := borsh_u8vec (only parsing).

Definition message_codec : Borsh Message :=
  borsh_iso (borsh_pair (borsh_pair string_codec string_codec) (borsh_pair string_codec
      (borsh_pair string_codec (borsh_pair string_codec (borsh_array 32)))))
    (fun m => ((chain (cc_id m), id (cc_id m)), (source_address m, (destination_chain m,
       (destination_address m, payload_hash m)))))
    (fun '((a, b), (c, (d, (e, f)))) => Build_Message (Build_CrossChainId a b) c d e f).

Definition message_leaf_codec : Borsh MessageLeaf :=
  borsh_iso (borsh_pair message_codec (borsh_pair (borsh_uint 2) (borsh_pair (borsh_uint 2) (borsh_array 32))))
    (fun l => (ml_message l, (ml_position l, (ml_set_size l, ml_domain_separator l))))
    (fun '(a, (b, (c, d))) => Build_MessageLeaf a b c d).

Definition merklized_message_codec : Borsh MerklizedMessage :=
  borsh_iso (borsh_pair message_leaf_codec borsh_u8vec)
    (fun m => (mm_leaf m, mm_proof m)) (fun '(a, b) => Build_MerklizedMessage a b).

Definition verifier_leaf_codec : Borsh VerifierSetLeaf :=
  borsh_iso (borsh_pair (borsh_uint 8) (borsh_pair (borsh_uint 16) (borsh_pair (borsh_array 33)
      (borsh_pair (borsh_uint 16) (borsh_pair (borsh_uint 2) (borsh_pair (borsh_uint 2) (borsh_array 32)))))))
    (fun l => (vl_nonce l, (vl_quorum l, (pk_0 (vl_signer_pubkey l), (vl_signer_weight l,
       (vl_position l, (vl_set_size l, vl_domain_separator l)))))))
    (fun '(a, (b, (c, (d, (e, (f, g)))))) => Build_VerifierSetLeaf a b (Build_PublicKey c) d e f g).

(** [#[borsh(use_discriminant = false)]]: the tag is the position of the variant. *)
Definition payload_type_codec : Borsh PayloadType :=
  borsh_iso (borsh_sum borsh_unit borsh_unit)
    (fun t => match t with ApproveMessages => inl tt | RotateSigners => inr tt end)
    (fun s => match s with inl _ => ApproveMessages | inr _ => RotateSigners end).

Definition signing_info_codec : Borsh SigningVerifierSetInfo :=
  borsh_iso (borsh_pair (borsh_array 65) (borsh_pair verifier_leaf_codec
      (borsh_pair borsh_u8vec payload_type_codec)))
    (fun i => (sig_0 (si_signature i), (si_leaf i, (si_merkle_proof i, si_payload_type i))))
    (fun '(a, (b, (c, d))) => Build_SigningVerifierSetInfo (Build_Signature a) b c d).

Definition merklized_payload_codec : Borsh MerklizedPayload :=
  borsh_iso (borsh_sum (borsh_array 32) (borsh_list merklized_message_codec))
    (fun p => match p with VerifierSetRotation r => inl r | NewMessages l => inr l end)
    (fun s => match s with inl r => VerifierSetRotation r | inr l => NewMessages l end).

Definition execute_data_codec : Borsh ExecuteData :=
  borsh_iso (borsh_pair (borsh_array 32) (borsh_pair (borsh_list signing_info_codec)
      (borsh_pair (borsh_array 32) merklized_payload_codec)))
    (fun e => (signing_verifier_set_merkle_root e, (signing_verifier_set_leaves e,
                            (ed_payload_merkle_root e, payload_items e))))
    (fun '(a, (b, (c, d))) => Build_ExecuteData a b c d).

(** The digest of a structure: here its Borsh image. *)
Definition toy_digestable {T} (codec : Borsh T) : Digestable T := fun x => default [] (borsh_serialize x).

(** The law of a composed codec, from the laws of its parts. *)
Ltac codec_laws :=
  repeat (eapply @borsh_pair_laws || eapply @borsh_sum_laws || eapply @borsh_list_laws);
  eauto with borsh.

Lemma message_codec_laws : @BorshLaws Message message_codec.
Proof. eapply @borsh_iso_laws; [codec_laws|by intros [[] ????]]. Qed.

Lemma message_leaf_codec_laws : @BorshLaws MessageLeaf message_leaf_codec.
Proof. eapply @borsh_iso_laws; [|by intros []]. pose proof message_codec_laws. codec_laws. Qed.

Lemma merklized_message_codec_laws : @BorshLaws MerklizedMessage merklized_message_codec.
Proof. eapply @borsh_iso_laws; [|by intros []]. pose proof message_leaf_codec_laws. codec_laws. Qed.

Lemma verifier_leaf_codec_laws : @BorshLaws VerifierSetLeaf verifier_leaf_codec.
Proof. eapply @borsh_iso_laws; [codec_laws|by intros [?? [] ????]]. Qed.

Lemma payload_type_codec_laws : @BorshLaws PayloadType payload_type_codec.
Proof. eapply @borsh_iso_laws; [codec_laws|by intros []]. Qed.

Lemma signing_info_codec_laws : @BorshLaws SigningVerifierSetInfo signing_info_codec.
Proof.
  eapply @borsh_iso_laws; [|by intros [[] ???]].
  pose proof verifier_leaf_codec_laws. pose proof payload_type_codec_laws. codec_laws.
Qed.

Lemma merklized_payload_codec_laws : @BorshLaws MerklizedPayload merklized_payload_codec.
Proof. eapply @borsh_iso_laws; [|by intros []]. pose proof merklized_message_codec_laws. codec_laws. Qed.

Lemma execute_data_codec_laws : @BorshLaws ExecuteData execute_data_codec.
Proof.
  eapply @borsh_iso_laws; [|by intros []].
  pose proof signing_info_codec_laws. pose proof merklized_payload_codec_laws. codec_laws.
Qed.

(** ** Merkle trees: the root hashes all the leaves, and a proof lists them *)

Definition toy_root (T : Hasher) (ls : list Hash32) : option Hash32 :=
  match ls with [] => None | _ => Some (hasher_hash T (concat (map arr_bytes ls))) end.

(** The hashes, one after the other. *)
Fixpoint chunks (fuel : nat) (b : bytes) : option (list Hash32) :=
  match b, fuel with
  | [], _ => Some []
  | _, O => None
  | _, S fuel => h ← arr_try_from 32 (take 32 b); l ← chunks fuel (drop 32 b); Some (h :: l)
  end.

Lemma chunks_concat l fuel : (length l <= fuel)%nat -> chunks fuel (concat (map arr_bytes l)) = Some l.
Proof.
  revert fuel. induction l as [|h l IH]; intros [|fuel] Hf; simpl in Hf; [done|done|lia|].
  cbn [map concat]. unfold chunks; fold chunks.
  assert (exists x r, arr_bytes h ++ concat (map arr_bytes l) = x :: r) as (x & r & E).
  { pose proof (arr_len h). destruct (arr_bytes h) as [|x r]; [done|]. by exists x, (r ++ concat (map arr_bytes l)). }
  rewrite E. rewrite <- E, take_app_length', drop_app_length' by (by rewrite arr_len).
  rewrite arr_try_from_bytes. cbn. rewrite IH by lia. done.
Qed.

Definition toy_merkle : RsMerkle := {|
  MerkleTree := list Hash32;
  MerkleProof := list Hash32;
  from_leaves _ ls := ls;
  tree_root := toy_root;
  tree_proof _ t _ := t;
  proof_to_bytes p := concat (map arr_bytes p);
  proof_from_bytes b := chunks (length b) b;
  proof_verify T p root ix hs n :=
    bool_decide (toy_root T p = Some root) && bool_decide (Z.of_nat (length p) = n) &&
    bool_decide (map (fun i => p !! Z.to_nat i) ix = map Some hs)
|}.

Lemma concat_hashes_length (l : list Hash32) : (length l <= length (concat (map arr_bytes l)))%nat.
Proof.
  induction l as [|h l IH]; [done|]. cbn [map concat length]. rewrite length_app, arr_len. lia.
Qed.

Lemma toy_merkle_laws : @RsMerkleLaws toy_merkle.
Proof.
  split; simpl.
  - done.
  - intros T l ls. by eexists.
  - intros p. apply chunks_concat, concat_hashes_length.
  - intros T ls root i h -> Hi. rewrite Nat2Z.id, Hi.
    by rewrite !bool_decide_eq_true_2.
Defined.

(** ** Signatures: the signature bytes start with the abscissa of the key *)

Definition toy_secp : Secp256k1 := {|
  secp256k1_recover _ _ s := Some (arr_fill 64 (take 32 (arr_bytes s)));
  parse_compressed_serialize k := Some (arr_fill 65 (Byte.x04 :: drop 1 (arr_bytes k)))
|}.

(** ** Bits *)

Definition bit_of (b : byte) (i : Z) : bool := Z.testbit (byte_val b) i.

Definition toy_bits : BitVec := {|
  bits_get n a i := (fun b => bit_of b (i mod 8)) <$> (arr_bytes a !! Z.to_nat (i / 8));
  bits_set n a i := arr_fill n
    (alter (fun b => byte_of_Z (Z.lor (byte_val b) (2 ^ (i mod 8)))) (Z.to_nat (i / 8)) (arr_bytes a))
|}.

Lemma bit_of_set b i j : 0 <= i < 8 -> 0 <= j < 8 ->
  bit_of (byte_of_Z (Z.lor (byte_val b) (2 ^ i))) j = bit_of b j || bool_decide (i = j).
Proof.
  intros Hi Hj. unfold bit_of. rewrite byte_val_of_Z. change 256 with (2 ^ 8).
  rewrite Z.mod_pow2_bits_low, Z.lor_spec, Z.pow2_bits_eqb by lia. f_equal.
  case_bool_decide; [by apply Z.eqb_eq|by apply Z.eqb_neq].
Qed.

Lemma toy_bits_set_bytes n (a : array n) i :
  arr_bytes (bits_set (BitVec := toy_bits) a i) =
  alter (fun b => byte_of_Z (Z.lor (byte_val b) (2 ^ (i mod 8)))) (Z.to_nat (i / 8)) (arr_bytes a).
Proof.
  unfold bits_set, toy_bits. rewrite arr_fill_bytes; [done|].
  by rewrite length_alter, arr_len.
Qed.

Lemma toy_bits_set_get n (a : array n) i j : 0 <= i -> 0 <= j ->
  bits_get (BitVec := toy_bits) (bits_set (BitVec := toy_bits) a i) j =
  (fun b => b || bool_decide (i = j)) <$> bits_get (BitVec := toy_bits) a j.
Proof.
  intros Hi Hj. cbn [bits_get toy_bits]. fold toy_bits. rewrite toy_bits_set_bytes.
  pose proof (Z.mod_pos_bound i 8). pose proof (Z.mod_pos_bound j 8).
  destruct (decide (Z.to_nat (i / 8) = Z.to_nat (j / 8))) as [E|E].
  - rewrite E, list_lookup_alter_eq, <- !option_fmap_compose. apply option_fmap_ext.
    intros b. simpl. rewrite bit_of_set by lia. f_equal. apply bool_decide_ext.
    apply Z2Nat.inj in E; [|apply Z.div_pos; lia..].
    pose proof (Z.div_mod i 8). pose proof (Z.div_mod j 8). lia.
  - rewrite list_lookup_alter_ne by done. rewrite <- option_fmap_compose. apply option_fmap_ext.
    intros b. simpl. rewrite bool_decide_eq_false_2 by congruence. by rewrite orb_false_r.
Qed.

Lemma toy_bits_laws : @BitVecLaws toy_bits.
Proof.
  split.
  - intros n a i Hi. cbn [bits_get toy_bits]. rewrite fmap_None, lookup_ge_None, arr_len.
    pose proof (Z.div_mod i 8). pose proof (Z.mod_pos_bound i 8).
    pose proof (Z.div_pos i 8). lia.
  - intros n i Hi. cbn [bits_get toy_bits].
    destruct (arr_bytes (arr_zero n) !! Z.to_nat (i / 8)) as [b|] eqn:Hb.
    + simpl in Hb. unfold arr_fill_list in Hb. apply list_elem_of_lookup_2 in Hb.
      simpl in Hb. apply elem_of_take in Hb as (k & Hk & _).
      apply lookup_replicate in Hk as [-> _]. simpl. f_equal. unfold bit_of.
      change (byte_val Byte.x00) with 0. apply Z.testbit_0_l.
    + exfalso. apply lookup_ge_None in Hb. rewrite arr_len in Hb.
      pose proof (Z.div_mod i 8). pose proof (Z.mod_pos_bound i 8).
      pose proof (Z.div_pos i 8). lia.
  - intros n a i Hi. rewrite toy_bits_set_get by lia.
    destruct (bits_get (BitVec := toy_bits) a i) as [b|] eqn:Hb; simpl.
    + by rewrite bool_decide_eq_true_2, orb_true_r.
    + exfalso. revert Hb. cbn [bits_get toy_bits]. rewrite fmap_None, lookup_ge_None, arr_len.
      pose proof (Z.div_mod i 8). pose proof (Z.mod_pos_bound i 8).
      pose proof (Z.div_pos i 8). lia.
  - intros n a i j Hi Hj Hij. rewrite toy_bits_set_get by lia.
    destruct (bits_get (BitVec := toy_bits) a j) as [b|]; simpl; [|done].
    by rewrite bool_decide_eq_false_2, orb_false_r.
Defined.

(** ** 256-bit integers: a bounded integer *)

Definition in_256 (z : Z) : bool := (0 <=? z) && (z <? 2 ^ 256).
Record z256 := { z256_val : Z; z256_ok : Is_true (in_256 z256_val) }.

Definition z256_try (z : Z) : option z256 :=
  (if in_256 z as b return (in_256 z = b -> option z256)
   then fun H => Some (Build_z256 z (is_true_canon _ H)) else fun _ => None) eq_refl.

Lemma z256_range x : 0 <= z256_val x < 2 ^ 256.
Proof. destruct x as [z H]. simpl. unfold in_256 in H. apply Is_true_true in H. bool_props. lia. Qed.

Lemma z256_try_spec z :
  match z256_try z with Some x => z256_val x = z | None => ~ 0 <= z < 2 ^ 256 end.
Proof.
  unfold z256_try. generalize (@eq_refl bool (in_256 z)).
  generalize (in_256 z) at 2 3. intros [] E; [done|].
  unfold in_256 in E. apply andb_false_iff in E as [E|E]; bool_props; lia.
Qed.

(** Reduction modulo 2^256. *)
Lemma mod_256_ok z : in_256 (z mod 2 ^ 256) = true.
Proof.
  pose proof (Z.mod_pos_bound z (2 ^ 256)). unfold in_256.
  apply andb_true_iff; rewrite Z.leb_le, Z.ltb_lt; lia.
Qed.
Definition z256_of (z : Z) : z256 := Build_z256 (z mod 2 ^ 256) (is_true_canon _ (mod_256_ok z)).

Definition z256_digits (x : z256) : u64x4 :=
  let z := z256_val x in
  U64x4 (z mod 2 ^ 64) (z / 2 ^ 64 mod 2 ^ 64) (z / 2 ^ 64 / 2 ^ 64 mod 2 ^ 64)
        (z / 2 ^ 64 / 2 ^ 64 / 2 ^ 64 mod 2 ^ 64).

Definition toy_bnum : Bnum := {|
  BUint256 := z256;
  bn_from_digits d := z256_of (u64x4_val d);
  bn_digits := z256_digits;
  bn_checked_add a b := z256_try (z256_val a + z256_val b);
  bn_checked_sub a b := z256_try (z256_val a - z256_val b);
  bn_cmp a b := Z.compare (z256_val a) (z256_val b);
  bn_from := z256_of
|}.

Lemma digits_val (z : Z) : 0 <= z < 2 ^ 256 ->
  u64x4_val (U64x4 (z mod 2 ^ 64) (z / 2 ^ 64 mod 2 ^ 64) (z / 2 ^ 64 / 2 ^ 64 mod 2 ^ 64)
        (z / 2 ^ 64 / 2 ^ 64 / 2 ^ 64 mod 2 ^ 64)) = z.
Proof.
  intros Hz. unfold u64x4_val. cbn [d0 d1 d2 d3].
  change (2 ^ 256) with (2 ^ 64 * (2 ^ 64 * (2 ^ 64 * 2 ^ 64))) in Hz.
  assert (Hp : 0 < 2 ^ 64) by lia. revert Hz Hp. generalize (2 ^ 64) as m. intros m Hz Hm.
  rewrite (Z.mod_small (z / m / m / m)).
  - pose proof (Z.div_mod z m). pose proof (Z.div_mod (z / m) m).
    pose proof (Z.div_mod (z / m / m) m). lia.
  - split; [repeat (apply Z.div_pos; [|done]); lia|].
    repeat (apply Z.div_lt_upper_bound; [done|]). lia.
Qed.

Lemma z256_digits_val x : u64x4_val (z256_digits x) = z256_val x.
Proof. apply digits_val, z256_range. Qed.

Lemma u64x4_val_inj a b : u64x4_wf a -> u64x4_wf b -> u64x4_val a = u64x4_val b -> a = b.
Proof.
  destruct a as [a0 a1 a2 a3], b as [b0 b1 b2 b3].
  unfold u64x4_wf, u64x4_val, uint. cbn [d0 d1 d2 d3]. intros.
  assert (a0 = b0 /\ a1 = b1 /\ a2 = b2 /\ a3 = b3) as (-> & -> & -> & ->) by lia. done.
Qed.

Lemma z256_digits_wf x : u64x4_wf (z256_digits x).
Proof. unfold u64x4_wf, uint. cbn. repeat split; apply Z.mod_pos_bound; lia. Qed.

Lemma u64x4_val_range d : u64x4_wf d -> 0 <= u64x4_val d < 2 ^ 256.
Proof.
  destruct d as [a0 a1 a2 a3]. unfold u64x4_wf, u64x4_val, uint. cbn [d0 d1 d2 d3].
  change (2 ^ 256) with (2 ^ 64 * (2 ^ 64 * (2 ^ 64 * 2 ^ 64))). lia.
Qed.

Lemma toy_bnum_laws : @BnumLaws toy_bnum.
Proof.
  split; unfold bn_val; cbn [toy_bnum bn_digits bn_from_digits bn_checked_add bn_checked_sub
    bn_cmp bn_from BUint256]; intros; rewrite ?z256_digits_val in *.
  - apply z256_digits_wf.
  - apply u64x4_val_inj; [apply z256_digits_wf|done|]. rewrite z256_digits_val.
    apply Z.mod_small, u64x4_val_range. done.
  - pose proof (z256_try_spec (z256_val a + z256_val b)). by rewrite H in H0.
  - pose proof (z256_try_spec (z256_val a + z256_val b)) as H.
    pose proof (z256_range a). pose proof (z256_range b).
    destruct (z256_try _) as [x|]; [pose proof (z256_range x)|]; split; (done || lia).
  - pose proof (z256_try_spec (z256_val a - z256_val b)). by rewrite H in H0.
  - pose proof (z256_try_spec (z256_val a - z256_val b)) as H.
    pose proof (z256_range a). pose proof (z256_range b).
    destruct (z256_try _) as [x|]; [pose proof (z256_range x)|]; split; (done || lia).
  - done.
  - apply Z.mod_small. unfold uint in *. split; [lia|].
    eapply Z.lt_le_trans; [apply H|]. apply Z.pow_le_mono_r; lia.
Defined.
