(* ===== verification/InstancesSolana.v ===== *)
(** * Concrete implementations of the Solana parameters

    Addresses, program ids, the system program, the ABI decoders and the runtime of Solana as
    computable functions that satisfy the laws of [External.v], [Ledger.v] and [Governance.v]. *)

From stdpp Require Import base gmap list countable strings.
From Stdlib Require Import ZArith Lia.
From S2P Require Import Prelude Errors External BorshFormat StdTypes Payload GovernanceState Ledger Executable Governance Instances.

(** ** Derived addresses: every address is the hash of seeds and program, with the highest bump *)

Definition toy_address (seeds : list bytes) (pid : Pubkey) : Pubkey :=
  toy_hash (concat seeds ++ arr_bytes pid).

Definition toy_pda : SolanaPda := {|
  create_program_address seeds pid := Some (toy_address seeds pid);
  find_program_address seeds pid := Some (toy_address (seeds ++ [[Byte.xff]]) pid, Byte.xff);
  pubkey_from_str s := arr_try_from 32 s
|}.

Lemma toy_pda_laws : @SolanaPdaLaws toy_pda.
Proof.
  split.
  - by intros seeds pid k b [= <- <-].
  - intros s1 s2 pid H. cbn. unfold toy_address. by rewrite H.
Defined.

Definition toy_id (s : bytes) : Pubkey := arr_fill 32 s.

Definition toy_ids : ProgramIds := {|
  gateway_ID := toy_id (bstr "gateway"); governance_ID := toy_id (bstr "governance");
  operators_ID := toy_id (bstr "operators"); gas_service_ID := toy_id (bstr "gas");
  its_ID := toy_id (bstr "its"); memo_ID := toy_id (bstr "memo");
  system_program_ID := toy_id (bstr "system"); bpf_loader_upgradeable_ID := toy_id (bstr "loader")
|}.

Lemma toy_ids_laws : @ProgramIdsLaws toy_ids.
Proof. split. apply (bool_decide_unpack _). by vm_compute. Defined.

(** ** The system program *)

Definition toy_rent (space : Z) : Z := (space + 128) * 6960.

Section system.
#[local] Existing Instance toy_ids.

Definition toy_unused (L : Ledger) (k : Pubkey) : bool :=
  match L !! k with
  | Some a => bool_decide (owner a = system_program_ID) && match data a with DEmpty => true | _ => false end
  | None => true
  end.

Definition toy_create (L : Ledger) (p k : Pubkey) (sp : Z) (o : Pubkey) : Result Ledger :=
  let need := Z.max 0 (toy_rent sp - lamports_of L k) in
  match L !! p with
  | Some pa =>
    if bool_decide (owner pa = system_program_ID) && (need <=? lamports pa) &&
       negb (bool_decide (p = k)) && toy_unused L k
    then Ok (<[k := mkAccount (lamports_of L k + need) o DEmpty]>
               (<[p := mkAccount (lamports pa - need) (owner pa) (data pa)]> L))
    else Err ERuntime
  | None => Err ERuntime
  end.

Definition toy_transfer (L : Ledger) (f t : Pubkey) (a : Z) : Result Ledger :=
  match L !! f with
  | Some fa =>
    if bool_decide (owner fa = system_program_ID) && (0 <=? a) && (a <=? lamports fa)
    then let L1 := set_lamports L f (lamports_of L f - a) in
         Ok (set_lamports L1 t (lamports_of L1 t + a))
    else Err ERuntime
  | None => Err ERuntime
  end.

Definition toy_system : SolanaSystem := {|
  sys_create_account := toy_create; sys_transfer := toy_transfer;
  rent_is_exempt l sp := toy_rent sp <=? l
|}.

Lemma toy_system_laws : @SolanaSystemLaws toy_ids toy_system.
Proof.
  split; cbn [sys_create_account sys_transfer rent_is_exempt toy_system].
  - intros L p k sp o L'. unfold toy_create. destruct (L !! p) as [pa|] eqn:Hp; [|done].
    destruct (_ && _) eqn:E; [|done]. intros [= <-].
    apply andb_true_iff in E as [E Hu]. apply andb_true_iff in E as [E Hk].
    apply andb_true_iff in E as [Ho Hn]. apply bool_decide_eq_true in Ho.
    apply negb_true_iff, bool_decide_eq_false in Hk. apply Z.leb_le in Hn. split_and!; [|done|].
    + unfold toy_unused in Hu. unfold unused. destruct (L !! k) as [a|]; [|done].
      apply andb_true_iff in Hu as [Hu Hd]. apply bool_decide_eq_true in Hu. by destruct (data a).
    + do 3 eexists. split_and!; [done|done| | |done]; [lia|]. apply Z.leb_le. lia.
  - intros L f t a L'. unfold toy_transfer. destruct (L !! f) as [fa|] eqn:Hf; [|done].
    destruct (_ && _) eqn:E; [|done]. intros [= <-].
    apply andb_true_iff in E as [E Ha]. apply andb_true_iff in E as [Ho H0]. apply bool_decide_eq_true in Ho.
    apply Z.leb_le in Ha, H0. split_and!; [done|unfold lamports_of; by rewrite Hf|by exists fa|done].
Defined.

(** A target that does nothing. *)
Definition toy_runtime : Runtime := fun _ _ _ _ w => Ok (tt, w).

Lemma toy_runtime_laws : @RuntimeLaws toy_ids toy_runtime.
Proof. split. intros pid seeds ix infos w u w' k l c [= _ <-] H. by exists l, c. Defined.
End system.

(** ** Decoders of the Ethereum ABI: any unambiguous format will do *)

Definition toy_abi : SolAbi := {|
  abi_encode_params p l := toy_pack (p, l);
  abi_decode_sequence b :=
    (fun '(p, l) => (p, map (fun '(k, s, w) => (k, abi_bool s, abi_bool w)) l)) <$> toy_unpack b
|}.

Lemma toy_abi_laws : @SolAbiLaws toy_abi.
Proof. split. intros p l. cbn. by rewrite toy_unpack_pack. Defined.

(** Commands of the governor, in a format of our own. *)
Definition command_number (c : GovernanceCommand) : Z :=
  match c with
  | ScheduleTimeLockProposal => 0 | CancelTimeLockProposal => 1 | ApproveOperatorProposal_ => 2
  | CancelOperatorApproval => 3 | InvalidCommand => 4
  end.
Definition command_of_number (n : Z) : GovernanceCommand :=
  match n with
  | 0 => ScheduleTimeLockProposal | 1 => CancelTimeLockProposal | 2 => ApproveOperatorProposal_
  | 3 => CancelOperatorApproval | _ => InvalidCommand
  end.

Definition command_codec : Borsh GovernanceCommandPayload :=
  borsh_iso (borsh_pair (borsh_uint 1) (borsh_pair borsh_u8vec (borsh_pair borsh_u8vec
      (borsh_pair (borsh_uint 32) (borsh_uint 32)))))
    (fun p => (command_number (gcp_command p), (gcp_target p, (gcp_call_data p, (gcp_native_value p, gcp_eta p)))))
    (fun '(c, (t, (d, (v, e)))) => Build_GovernanceCommandPayload (command_of_number c) t d v e).

Definition toy_gov_abi : GovernanceAbi := fun b =>
  match @borsh_deserialize _ command_codec b with Some (p, []) => Some p | _ => None end.

(** ** Borsh codecs of the structures the programs send, as derived *)

Definition borsh_bool : Borsh bool :=
  borsh_iso (borsh_sum borsh_unit borsh_unit)
    (fun b : bool => if b then inr tt else inl tt) (fun s => match s with inl _ => false | inr _ => true end).
Definition borsh_option {T} (codec : Borsh T) : Borsh (option T) :=
  borsh_iso (borsh_sum borsh_unit codec)
    (fun o => match o with None => inl tt | Some x => inr x end)
    (fun s => match s with inl _ => None | inr x => Some x end).

Definition metadata_codec : Borsh SolanaAccountMetadata :=
  borsh_iso (borsh_pair (borsh_array 32) (borsh_pair borsh_bool borsh_bool))
    (fun m => (sam_pubkey m, (sam_is_signer m, sam_is_writable m)))
    (fun '(a, (b, c)) => Build_SolanaAccountMetadata a b c).
Definition metadatas_codec : Borsh (list SolanaAccountMetadata) := borsh_list metadata_codec.
Definition receiver_codec : Borsh (option SolanaAccountMetadata) := borsh_option metadata_codec.

Definition call_data_codec : Borsh ExecuteProposalCallData :=
  borsh_iso (borsh_pair metadatas_codec (borsh_pair receiver_codec borsh_u8vec))
    (fun d => (solana_accounts d, (solana_native_value_receiver_account d, call_data d)))
    (fun '(a, (b, c)) => Build_ExecuteProposalCallData a b c).

Definition scheme_codec : Borsh EncodingScheme :=
  borsh_iso borsh_bool (fun s => match s with Borsh_ => false | AbiEncoding => true end)
    (fun b : bool => if b then AbiEncoding else Borsh_).

Definition execute_instruction_codec : Borsh AxelarExecuteInstruction :=
  borsh_iso (borsh_pair message_codec (borsh_pair borsh_u8vec scheme_codec))
    (fun i => (ei_message i, (ei_payload_without_accounts i, ei_encoding_scheme i)))
    (fun '(a, (b, c)) => Build_AxelarExecuteInstruction a b c).

Lemma borsh_bool_laws : @BorshLaws bool borsh_bool.
Proof. eapply @borsh_iso_laws; [codec_laws|by intros []]. Defined.
#[local] Hint Resolve borsh_bool_laws : borsh.

Lemma borsh_option_laws {T} (codec : Borsh T) : BorshLaws T -> @BorshLaws (option T) (borsh_option codec).
Proof. intros H. eapply @borsh_iso_laws; [codec_laws|by intros []]. Defined.
#[local] Hint Resolve borsh_option_laws : borsh.

Lemma metadata_codec_laws : @BorshLaws SolanaAccountMetadata metadata_codec.
Proof. eapply @borsh_iso_laws; [codec_laws|by intros []]. Defined.
#[local] Hint Resolve metadata_codec_laws : borsh.

Lemma metadatas_codec_laws : @BorshLaws (list SolanaAccountMetadata) metadatas_codec.
Proof. apply (@borsh_list_laws _ _ metadata_codec_laws). Defined.
Lemma receiver_codec_laws : @BorshLaws (option SolanaAccountMetadata) receiver_codec.
Proof. apply borsh_option_laws, metadata_codec_laws. Defined.

Lemma execute_instruction_codec_laws : @BorshLaws AxelarExecuteInstruction execute_instruction_codec.
Proof.
  eapply @borsh_iso_laws; [|by intros []]. pose proof message_codec_laws.
  assert (@BorshLaws EncodingScheme scheme_codec) by (eapply @borsh_iso_laws; [codec_laws|by intros []]).
  codec_laws.
Defined.
