(* ===== verification/InstancesIts.v ===== *)
(** * Concrete implementations of the parameters of ITS

    A token program, the codecs of the messages and the remaining parameters of ITS as computable
    functions that satisfy the laws of [SplToken.v], [Ledger.v] and [ItsTransfers.v]. *)

From stdpp Require Import base gmap list countable strings.
From Stdlib Require Import ZArith Lia.
From S2P Require Import Prelude Errors External BorshFormat StdTypes GatewayState ItsState Ledger LedgerLemmas SplToken Executable ItsExecute ItsClient ItsTransfers Instances InstancesSolana.

(** ** Accounts of the token program: a mint or a token account, in the Borsh format *)

Definition mint_codec : Borsh MintState :=
  borsh_iso (borsh_pair (borsh_option (borsh_array 32)) (borsh_pair (borsh_uint 8) (borsh_uint 1)))
    (fun m => (ms_mint_authority m, (ms_supply m, ms_decimals m))) (fun '(a, (b, c)) => mkMint a b c).
Definition token_codec : Borsh TokenAccountState :=
  borsh_iso (borsh_pair (borsh_array 32) (borsh_pair (borsh_array 32) (borsh_uint 8)))
    (fun t => (ta_mint t, (ta_owner t, ta_amount t))) (fun '(a, (b, c)) => mkToken a b c).
Definition toy_state_codec : Borsh (MintState + TokenAccountState) := borsh_sum mint_codec token_codec.

Lemma toy_state_laws : @BorshLaws _ toy_state_codec.
Proof.
  assert (@BorshLaws _ (borsh_option (borsh_array 32))) by (apply borsh_option_laws; codec_laws).
  eapply @borsh_sum_laws; (eapply @borsh_iso_laws; [codec_laws|by intros []]).
Qed.

Definition toy_encode (x : MintState + TokenAccountState) : option bytes := @borsh_serialize _ toy_state_codec x.
Definition toy_decode (b : bytes) : option (MintState + TokenAccountState) :=
  match @borsh_deserialize _ toy_state_codec b with Some (x, []) => Some x | _ => None end.

Lemma toy_decode_encode x b : toy_encode x = Some b -> toy_decode b = Some x.
Proof.
  intros H. unfold toy_decode. pose proof (@borsh_roundtrip _ _ toy_state_laws x b [] H) as Hr.
  rewrite app_nil_r in Hr. by rewrite Hr.
Qed.

Definition toy_mint (b : bytes) : option MintState := x ← toy_decode b; if x is inl m then Some m else None.
Definition toy_token (b : bytes) : option TokenAccountState := x ← toy_decode b; if x is inr t then Some t else None.

Definition toy_token_ID : Pubkey := toy_id (bstr "token").
Definition toy_token_2022_ID : Pubkey := toy_id (bstr "token 2022").

Section token.
#[local] Existing Instances toy_ids toy_pda toy_system.

Definition toy_mint_at (L : Ledger) (p k : Pubkey) : option MintState := owned_bytes L p k ≫= toy_mint.
Definition toy_token_at (L : Ledger) (p k : Pubkey) : option TokenAccountState := owned_bytes L p k ≫= toy_token.

(** Write an account of the program [p]. *)
Definition toy_write (p k : Pubkey) (x : MintState + TokenAccountState) (L : Ledger) : option Ledger :=
  b ← toy_encode x; a ← L !! k;
  if bool_decide (owner a = p) then Some (<[k := mkAccount (lamports a) p (DOther b)]> L) else None.

Definition toy_ata (wallet mint p : Pubkey) : Pubkey :=
  toy_address [arr_bytes wallet; arr_bytes p; arr_bytes mint] (toy_id (bstr "associated token")).

Definition check (b : bool) : option unit := if b then Some tt else None.

(** Move [n] tokens, of which [fee] are withheld; nothing moves between an account and itself. *)
Definition toy_move (p f m t au : Pubkey) (n fee : Z) (L : Ledger) : option Ledger :=
  ms ← toy_mint_at L p m; fs ← toy_token_at L p f; ts ← toy_token_at L p t;
  _ ← check (bool_decide (ta_mint fs = m) && bool_decide (ta_mint ts = m) && bool_decide (ta_owner fs = au) &&
             (n <=? ta_amount fs) && (0 <=? fee) && (fee <=? n));
  if bool_decide (f = t) then Some L else
  L ← toy_write p f (inr (mkToken (ta_mint fs) (ta_owner fs) (ta_amount fs - n))) L;
  toy_write p t (inr (mkToken (ta_mint ts) (ta_owner ts) (ta_amount ts + n - fee))) L.

Definition toy_invoke_option (p : Pubkey) (ix : TokenInstruction) (L : Ledger) : option Ledger :=
  match ix with
  | MintTo m t au n =>
      ms ← toy_mint_at L p m; ts ← toy_token_at L p t;
      _ ← check (bool_decide (ta_mint ts = m) && bool_decide (ms_mint_authority ms = Some au) &&
                 (0 <=? n) && (ms_supply ms + n <? 2 ^ 64));
      L ← toy_write p m (inl (mkMint (ms_mint_authority ms) (ms_supply ms + n) (ms_decimals ms))) L;
      toy_write p t (inr (mkToken (ta_mint ts) (ta_owner ts) (ta_amount ts + n))) L
  | Burn m f au n =>
      ms ← toy_mint_at L p m; fs ← toy_token_at L p f;
      _ ← check (bool_decide (ta_mint fs = m) && bool_decide (ta_owner fs = au) && (0 <=? n) &&
                 (n <=? ta_amount fs));
      L ← toy_write p m (inl (mkMint (ms_mint_authority ms) (ms_supply ms - n) (ms_decimals ms))) L;
      toy_write p f (inr (mkToken (ta_mint fs) (ta_owner fs) (ta_amount fs - n))) L
  | TransferChecked f m t au n _ => toy_move p f m t au n 0 L
  | TransferCheckedWithFee f m t au n _ fee => toy_move p f m t au n fee L
  | SetMintAuthority m cur new =>
      ms ← toy_mint_at L p m; _ ← check (bool_decide (ms_mint_authority ms = Some cur));
      toy_write p m (inl (mkMint new (ms_supply ms) (ms_decimals ms))) L
  | InitializeMint2 m d au _ =>
      a ← L !! m; _ ← check (match data a with DEmpty => true | _ => false end);
      toy_write p m (inl (mkMint (Some au) 0 d)) L
  | CreateAssociatedTokenAccount _ wallet m =>
      let k := toy_ata wallet m p in
      _ ← toy_mint_at L p m; _ ← check (toy_unused L k);
      toy_write p k (inr (mkToken m wallet 0)) (<[k := mkAccount (lamports_of L k) p DEmpty]> L)
  | CreateMetadataV1 _ _ _ _ _ _ => Some L
  end.

Definition toy_token_program (p : Pubkey) : bool :=
  bool_decide (p = toy_token_ID) || bool_decide (p = toy_token_2022_ID).

Definition toy_token_invoke (p : Pubkey) (ix : TokenInstruction) (L : Ledger) : Result Ledger :=
  match ix with
  | CreateMetadataV1 _ _ _ _ _ _ => Ok L
  | _ => if toy_token_program p then ok_or (toy_invoke_option p ix L) ERuntime else Err ERuntime
  end.

Definition toy_spl : SplToken := {|
  spl_token_ID := toy_token_ID; spl_token_2022_ID := toy_token_2022_ID;
  associated_token_ID := toy_id (bstr "associated token"); token_metadata_ID := toy_id (bstr "metadata");
  sysvar_instructions_ID := toy_id (bstr "sysvar"); bpf_loader_ID := toy_id (bstr "loader 2");
  bpf_loader_deprecated_ID := toy_id (bstr "loader 1"); loader_v4_ID := toy_id (bstr "loader 4");
  mint_unpack := toy_mint; mint_unpack_from_slice := toy_mint;
  mint_has_transfer_fee b := (fun _ => false) <$> toy_mint b;
  FeeConfig := unit; mint_fee_config _ := None; calculate_epoch_fee _ _ _ := None;
  mint_metadata_pointer _ := None; mint_token_metadata _ := None; metadata_from_bytes _ := None;
  metadata_find_pda m := toy_address [arr_bytes m] (toy_id (bstr "metadata"));
  MAX_NAME_LENGTH := 32%nat; MAX_SYMBOL_LENGTH := 10%nat;
  token_account_unpack := toy_token; get_associated_token_address := toy_ata; mint_space := 82;
  clock_epoch t := t / 432000; token_invoke := toy_token_invoke
|}.

(** ** The laws *)

Lemma toy_token_ids p : toy_token_program p = true -> p ∉ repository_programs /\ p <> system_program_ID.
Proof.
  intros [Hp|Hp]%orb_true_iff; apply bool_decide_eq_true in Hp as ->;
    (split; [apply (bool_decide_unpack _); by vm_compute|by vm_compute]).
Qed.

(** What a write does. *)
Lemma toy_write_ok p k x L L' :
  toy_write p k x L = Some L' ->
  (exists b, owned_bytes L' p k = Some b /\ toy_decode b = Some x) /\ only_changes [k] L L' /\
  (p ∉ repository_programs -> programs_kept L L').
Proof.
  unfold toy_write. intros H. destruct (toy_encode x) as [b|] eqn:Hb; [|done]. cbn in H.
  destruct (L !! k) as [a|] eqn:Hk; [|done]. cbn in H. case_bool_decide as Ho; [|done]. injection H as <-.
  split_and!.
  - exists b. split; [|by apply toy_decode_encode]. unfold owned_bytes. rewrite lookup_insert_eq. cbn.
    by rewrite bool_decide_eq_true_2.
  - intros j Hj. rewrite lookup_insert_ne; [done|]. intros ->. apply Hj. set_solver.
  - intros Hp pid Hpid. assert (owner a <> pid) by (intros E; apply Hp; congruence).
    rewrite omap_insert_None by (unfold owned_data; cbn; rewrite decide_False; congruence).
    apply delete_id. rewrite lookup_omap, Hk. unfold owned_data. cbn. by rewrite decide_False.
Qed.

Lemma programs_kept_trans L1 L2 L3 : programs_kept L1 L2 -> programs_kept L2 L3 -> programs_kept L1 L3.
Proof. intros H1 H2 pid Hp. by rewrite H2, H1. Qed.

Lemma check_some b u : check b = Some u -> b = true.
Proof. by destruct b. Qed.

(** Two writes at different addresses. *)
Lemma toy_write_two p k1 x1 k2 x2 L L1 L2 :
  toy_write p k1 x1 L = Some L1 -> toy_write p k2 x2 L1 = Some L2 -> k1 <> k2 ->
  (exists b, owned_bytes L2 p k1 = Some b /\ toy_decode b = Some x1) /\
  (exists b, owned_bytes L2 p k2 = Some b /\ toy_decode b = Some x2) /\ only_changes [k1; k2] L L2.
Proof.
  intros H1 H2 Hne. apply toy_write_ok in H1 as ((b1 & Hb1 & Hx1) & Ho1 & _).
  apply toy_write_ok in H2 as (Hw2 & Ho2 & _). split_and!; [|exact Hw2|].
  - exists b1. split; [|done]. unfold owned_bytes in *. rewrite Ho2; [done|]. intros ->%list_elem_of_singleton. done.
  - intros j Hj. rewrite Ho2, Ho1; [done|set_solver..].
Qed.

#[local] Ltac inv_option := repeat match goal with
  | H : (_ ≫= _) = Some _ |- _ => apply bind_Some in H; destruct H as (? & ? & H)
  | H : check _ = Some _ |- _ => apply check_some in H
  | H : ok_or _ _ = Ok _ |- _ => apply ok_or_ok in H
  end.

Lemma toy_mint_token L p j k a b : toy_mint_at L p j = Some a -> toy_token_at L p k = Some b -> j <> k.
Proof.
  unfold toy_mint_at, toy_token_at, toy_mint, toy_token. intros H1 H2 ->. inv_option. simplify_eq.
  repeat case_match; simplify_eq.
Qed.

Lemma toy_mint_of L p k b m : owned_bytes L p k = Some b -> toy_decode b = Some (inl m) -> toy_mint_at L p k = Some m.
Proof. intros H1 H2. unfold toy_mint_at, toy_mint. rewrite H1. cbn. by rewrite H2. Qed.
Lemma toy_token_of L p k b t : owned_bytes L p k = Some b -> toy_decode b = Some (inr t) -> toy_token_at L p k = Some t.
Proof. intros H1 H2. unfold toy_token_at, toy_token. rewrite H1. cbn. by rewrite H2. Qed.

Lemma toy_invoke_inv p ix L L' :
  toy_token_invoke p ix L = Ok L' ->
  (match ix with CreateMetadataV1 _ _ _ _ _ _ => True | _ => False end /\ L' = L) \/
  (toy_token_program p = true /\ toy_invoke_option p ix L = Some L').
Proof.
  unfold toy_token_invoke. destruct ix; try (by intros [= <-]; left);
    (destruct (toy_token_program p); [intros H%ok_or_ok; by right|done]).
Qed.

Lemma toy_move_ok p f m t au n fee L L' :
  toy_move p f m t au n fee L = Some L' ->
  exists ms fs ts, toy_mint_at L p m = Some ms /\ toy_token_at L p f = Some fs /\ toy_token_at L p t = Some ts /\
    ta_mint fs = m /\ ta_mint ts = m /\ n <= ta_amount fs /\ 0 <= fee <= n /\
    (f <> t -> toy_token_at L' p f = Some (with_amount fs (ta_amount fs - n)) /\
               toy_token_at L' p t = Some (with_amount ts (ta_amount ts + n - fee))) /\
    (f = t -> L' = L) /\ only_changes [f; t] L L'.
Proof.
  unfold toy_move. intros H. inv_option. bool_props.
  match goal with H : (if bool_decide ?P then _ else _) = _ |- _ => destruct (bool_decide P) eqn:Hft; bool_props end.
  { simplify_eq. do 3 eexists. split_and!; try eassumption; done || by intros ?. }
  inv_option.
  match goal with H1 : toy_write p f _ L = Some _, H2 : toy_write p t _ _ = Some _ |- _ =>
    destruct (toy_write_two _ _ _ _ _ _ _ _ H1 H2) as ((b1 & Hb1 & Hd1) & (b2 & Hb2 & Hd2) & Ho); [done|] end.
  do 3 eexists. split_and!; try eassumption; [|done]. intros _. split; by eapply toy_token_of.
Qed.

(** The two cases of a move. *)
#[local] Ltac toy_self :=
  try match goal with H : (if bool_decide ?P then _ else _) = Some _ |- _ => destruct (bool_decide P); inv_option; simplify_eq end.

Lemma toy_frame p ix L L' : toy_token_invoke p ix L = Ok L' -> programs_kept L L'.
Proof.
  intros [[_ ->]|[Hp H]]%toy_invoke_inv; [by intros ? ?|]. apply toy_token_ids in Hp as [Hp Hs].
  assert (forall k x L1 L2, toy_write p k x L1 = Some L2 -> programs_kept L1 L2) as Hw.
  { intros k x L1 L2 HH. apply toy_write_ok in HH as (_ & _ & HH). by apply HH. }
  destruct ix; cbn [toy_invoke_option] in H; unfold toy_move in H; inv_option; toy_self;
    try (by eapply programs_kept_trans; eapply Hw); try (by eapply Hw); try (by intros ? ?).
  - eapply programs_kept_trans; [|by eapply Hw]. intros pid Hpid.
    match goal with |- context [<[?k := _]> L] => set (k0 := k) in * end.
    rewrite omap_insert_None by (unfold owned_data; cbn; rewrite decide_False; [done|by intros ->]).
    apply delete_id. rewrite lookup_omap. unfold toy_unused in *. destruct (L !! k0) as [a|]; [|done]. bool_props.
    unfold owned_data. cbn. rewrite decide_False; [done|]. intros <-.
    assert (system_program_ID ∉ repository_programs) as Hn by (apply (bool_decide_unpack _); by vm_compute). congruence.
  - injection H as <-. by intros ? ?.
Qed.

(** No account of the token programs is closed. *)
Lemma toy_accounts_kept p ix L L' q k :
  toy_token_invoke p ix L = Ok L' -> toy_token_program q = true -> is_Some (owned_bytes L q k) ->
  is_Some (owned_bytes L' q k).
Proof.
  intros [[_ ->]|[Hp H]]%toy_invoke_inv Hq; [done|].
  assert (forall j x L1 L2, toy_write p j x L1 = Some L2 -> is_Some (owned_bytes L1 q k) -> is_Some (owned_bytes L2 q k)) as Hw.
  { unfold toy_write. intros j x L1 L2 HH Hs. destruct (toy_encode x) as [b|]; [|done]. cbn in HH.
    destruct (L1 !! j) as [a|] eqn:Hj; [|done]. cbn in HH. case_bool_decide as Ho; [|done]. injection HH as <-.
    unfold owned_bytes in *. destruct (decide (k = j)) as [->|]; [|by rewrite lookup_insert_ne].
    rewrite lookup_insert_eq. cbn. rewrite Hj in Hs. cbn in Hs. rewrite <- Ho. case_bool_decide; [by eexists|done]. }
  destruct ix; cbn [toy_invoke_option] in H; unfold toy_move in H; inv_option; toy_self; eauto.
  - intros Hs. eapply Hw; [eassumption|]. unfold owned_bytes in *.
    match goal with |- context [<[?j := _]> L] => destruct (decide (k = j)) as [->|]; [|by rewrite lookup_insert_ne] end.
    unfold toy_unused in *. destruct (L !! _) as [a|]; [|by destruct Hs]. bool_props. cbn in Hs.
    case_bool_decide; [|by destruct Hs]. apply toy_token_ids in Hq as [_ Hq]. congruence.
  - by injection H as <-.
Qed.

Lemma toy_spl_laws : @SplTokenLaws toy_ids toy_spl.
Proof.
  split; cbn [token_invoke mint_unpack token_account_unpack toy_spl].
  - unfold toy_mint, toy_token. intros b [m Hm]. destruct (toy_decode b) as [[]|]; done.
  - exact toy_token_ids.
  - exact toy_frame.
  - exact toy_accounts_kept.
  - intros p m t au n L L' [[[] _]|[_ H]]%toy_invoke_inv. cbn [toy_invoke_option] in H. inv_option. bool_props.
    match goal with Hm : toy_mint_at _ _ _ = _, Ht : toy_token_at _ _ _ = _ |- _ => pose proof (toy_mint_token _ _ _ _ _ _ Hm Ht) end.
    match goal with H1 : toy_write p m _ L = Some _, H2 : toy_write p t _ _ = Some _ |- _ =>
      destruct (toy_write_two _ _ _ _ _ _ _ _ H1 H2) as ((b1 & Hb1 & Hd1) & (b2 & Hb2 & Hd2) & Ho); [done|] end.
    do 2 eexists. split_and!; try eassumption; first [by eapply toy_mint_of|by eapply toy_token_of].
  - intros p m f au n L L' [[[] _]|[_ H]]%toy_invoke_inv. cbn [toy_invoke_option] in H. inv_option. bool_props.
    match goal with Hm : toy_mint_at _ _ _ = _, Ht : toy_token_at _ _ _ = _ |- _ => pose proof (toy_mint_token _ _ _ _ _ _ Hm Ht) end.
    match goal with H1 : toy_write p m _ L = Some _, H2 : toy_write p f _ _ = Some _ |- _ =>
      destruct (toy_write_two _ _ _ _ _ _ _ _ H1 H2) as ((b1 & Hb1 & Hd1) & (b2 & Hb2 & Hd2) & Ho); [done|] end.
    do 2 eexists. split_and!; try eassumption; first [by eapply toy_mint_of|by eapply toy_token_of].
  - intros p f m t au n d L L' [[[] _]|[_ H]]%toy_invoke_inv. cbn [toy_invoke_option] in H.
    apply toy_move_ok in H as (ms & fs & ts & Hm & Hf & Ht & E1 & E2 & Hn & Hfee & Hmv & Hs & Ho).
    exists ms, fs, ts, 0. split_and!; done || lia.
  - intros p f m t au n d fee L L' [[[] _]|[_ H]]%toy_invoke_inv. cbn [toy_invoke_option] in H.
    apply toy_move_ok in H as (ms & fs & ts & Hm & Hf & Ht & E1 & E2 & Hn & Hfee & Hmv & Hs & Ho).
    exists ms, fs, ts. split_and!; done || lia.
  - intros p m cur new L L' [[[] _]|[_ H]]%toy_invoke_inv. cbn [toy_invoke_option] in H. inv_option. bool_props.
    match goal with H : toy_write _ _ _ _ = Some _ |- _ => apply toy_write_ok in H as ((b & Hb & Hd) & Ho & _) end.
    eexists. split_and!; try eassumption. by eapply toy_mint_of.
  - intros p payer wallet m L L' [[[] _]|[Hp H]]%toy_invoke_inv. cbn [toy_invoke_option] in H. inv_option.
    match goal with H : toy_write _ _ _ _ = Some _ |- _ => apply toy_write_ok in H as ((b & Hb & Hd) & Ho & _) end.
    split; [by eapply toy_token_of|]. intros q j _ Hj. unfold owned_bytes.
    rewrite Ho, lookup_insert_ne; [done|by apply not_eq_sym|by intros ->%list_elem_of_singleton].
  - intros p m d au fr L L' [[[] _]|[_ H]]%toy_invoke_inv. cbn [toy_invoke_option] in H. inv_option.
    match goal with H : toy_write _ _ _ _ = Some _ |- _ => apply toy_write_ok in H as ((b & Hb & Hd) & Ho & _) end.
    split; [by eapply toy_mint_of|done].
  - intros p md m au payer n y L L' [[_ ->]|[_ H]]%toy_invoke_inv; [done|]. by injection H as <-.
Qed.
(** The token program mints whatever the accounts of other programs are. *)
Lemma owned_account L p k b : owned_bytes L p k = Some b -> exists a, L !! k = Some a /\ owner a = p.
Proof.
  unfold owned_bytes. destruct (L !! k) as [a|]; [|done]. cbn. case_bool_decide as H; [|done]. intros _. by exists a.
Qed.

Lemma toy_write_succeeds p k x L : is_Some (toy_encode x) -> is_Some (owned_bytes L p k) ->
  exists L', toy_write p k x L = Some L' /\ forall j, j <> k -> L' !! j = L !! j.
Proof.
  intros [b Hb] [b' (a & Ha & Ho)%owned_account]. unfold toy_write. rewrite Hb. cbn. rewrite Ha. cbn.
  rewrite (bool_decide_eq_true_2 _ Ho). eexists. split; [reflexivity|]. intros j Hj. by apply lookup_insert_ne.
Qed.

Lemma toy_mints L p m t au n ms ts :
  toy_token_program p = true -> toy_mint_at L p m = Some ms -> toy_token_at L p t = Some ts ->
  bool_decide (ta_mint ts = m) && bool_decide (ms_mint_authority ms = Some au) && (0 <=? n) && (ms_supply ms + n <? 2 ^ 64) = true ->
  is_Some (toy_encode (inl (mkMint (ms_mint_authority ms) (ms_supply ms + n) (ms_decimals ms)))) ->
  is_Some (toy_encode (inr (mkToken (ta_mint ts) (ta_owner ts) (ta_amount ts + n)))) ->
  exists L', toy_token_invoke p (MintTo m t au n) L = Ok L'.
Proof.
  intros Hp Hm Ht Hc Em Et. pose proof (toy_mint_token _ _ _ _ _ _ Hm Ht) as Hne.
  assert (is_Some (owned_bytes L p m)) as Hbm by (by apply bind_Some in Hm as (b & Hb & _); exists b).
  assert (is_Some (owned_bytes L p t)) as Hbt by (by apply bind_Some in Ht as (b & Hb & _); exists b).
  destruct (toy_write_succeeds p m _ L Em Hbm) as (L1 & H1 & Hsame).
  destruct (toy_write_succeeds p t _ L1 Et) as (L2 & H2 & _).
  { unfold owned_bytes in *. by rewrite Hsame by by apply not_eq_sym. }
  exists L2. unfold toy_token_invoke. rewrite Hp. unfold toy_invoke_option. rewrite Hm. cbn [mbind option_bind].
  rewrite Ht. cbn [mbind option_bind]. unfold check. rewrite Hc. cbn [mbind option_bind]. rewrite H1. cbn [mbind option_bind].
  by rewrite H2.
Qed.
End token.

(** ** The other parameters *)

(** Only the lengths of the accounts change, which the ledger does not record. *)
Definition toy_realloc : AnchorRealloc := fun L _ _ _ => Ok L.

Lemma toy_realloc_laws : @AnchorReallocLaws toy_realloc.
Proof. split. by intros L p k n L' [= <-]. Defined.

Definition toy_network : ItsNetwork := toy_id (bstr "network").

Lemma toy_its_runtime_laws : @ItsRuntimeLaws toy_ids toy_runtime.
Proof. split. by intros seeds ix infos w u w' [= _ <-] _. Defined.

(** ** Codecs of the messages *)

Definition transfer_codec : Borsh encoding.InterchainTransfer :=
  borsh_iso (borsh_pair (borsh_array 32) (borsh_pair borsh_u8vec (borsh_pair borsh_u8vec
      (borsh_pair (borsh_uint 8) (borsh_option borsh_u8vec)))))
    (fun m => (encoding.it_token_id m, (encoding.it_source_address m, (encoding.it_destination_address m,
       (encoding.it_amount m, encoding.it_data m)))))
    (fun '(a, (b, (c, (d, e)))) => encoding.Build_InterchainTransfer a b c d e).

Definition deploy_codec : Borsh encoding.DeployInterchainToken :=
  borsh_iso (borsh_pair (borsh_array 32) (borsh_pair borsh_u8vec (borsh_pair borsh_u8vec
      (borsh_pair (borsh_uint 1) (borsh_option borsh_u8vec)))))
    (fun m => (encoding.di_token_id m, (encoding.di_name m, (encoding.di_symbol m,
       (encoding.di_decimals m, encoding.di_minter m)))))
    (fun '(a, (b, (c, (d, e)))) => encoding.Build_DeployInterchainToken a b c d e).

Definition link_codec : Borsh encoding.LinkToken :=
  borsh_iso (borsh_pair (borsh_array 32) (borsh_pair (borsh_uint 1) (borsh_pair borsh_u8vec
      (borsh_pair borsh_u8vec (borsh_option borsh_u8vec)))))
    (fun m => (encoding.lt_token_id m, (encoding.lt_token_manager_type m, (encoding.lt_source_token_address m,
       (encoding.lt_destination_token_address m, encoding.lt_params m)))))
    (fun '(a, (b, (c, (d, e)))) => encoding.Build_LinkToken a b c d e).

Definition message_payload_codec : Borsh encoding.Message :=
  borsh_iso (borsh_sum transfer_codec (borsh_sum deploy_codec link_codec))
    (fun m => match m with
              | encoding.MInterchainTransfer t => inl t
              | encoding.MDeployInterchainToken d => inr (inl d)
              | encoding.MLinkToken l => inr (inr l)
              end)
    (fun s => match s with
              | inl t => encoding.MInterchainTransfer t
              | inr (inl d) => encoding.MDeployInterchainToken d
              | inr (inr l) => encoding.MLinkToken l
              end).

Definition hub_message_codec : Borsh encoding.HubMessage :=
  borsh_iso (borsh_sum (borsh_pair borsh_u8vec message_payload_codec)
      (borsh_sum (borsh_pair borsh_u8vec message_payload_codec) (borsh_pair (borsh_uint 1) borsh_u8vec)))
    (fun m => match m with
              | encoding.SendToHub c m => inl (c, m)
              | encoding.ReceiveFromHub c m => inr (inl (c, m))
              | encoding.HRegisterTokenMetadata r => inr (inr (encoding.rt_decimals r, encoding.rt_token_address r))
              end)
    (fun s => match s with
              | inl (c, m) => encoding.SendToHub c m
              | inr (inl (c, m)) => encoding.ReceiveFromHub c m
              | inr (inr (d, a)) => encoding.HRegisterTokenMetadata (encoding.Build_RegisterTokenMetadata d a)
              end).

Definition token_payload_codec : Borsh AxelarExecuteWithInterchainTokenPayload :=
  borsh_iso (borsh_pair (borsh_array 32) (borsh_pair borsh_u8vec (borsh_pair borsh_u8vec (borsh_pair (borsh_array 32)
      (borsh_pair (borsh_array 32) (borsh_pair (borsh_uint 8) borsh_u8vec))))))
    (fun p => (ap_command_id p, (ap_source_chain p, (ap_source_address p, (ap_token_id p,
       (ap_token_mint p, (ap_amount p, ap_data p)))))))
    (fun '(a, (b, (c, (d, (e, (f, g)))))) => Build_AxelarExecuteWithInterchainTokenPayload a b c d e f g).

(** The loader keeps the record of a program at an address of its own. *)
Definition toy_loader : ProgramDataAddress := fun pid =>
  toy_address ([arr_bytes pid] ++ [[Byte.xff]]) (@bpf_loader_upgradeable_ID toy_ids).

Lemma toy_loader_laws : @ProgramDataAddressLaws toy_pda toy_ids toy_loader.
Proof. split. intros pid. by exists Byte.xff. Qed.
