(* ===== verification/Scenario.v ===== *)
(** * A concrete run

    Verifiers, messages, accounts and the starting world of the runs that the witnesses evaluate, on
    the implementations of [Instances.v] and [InstancesSolana.v]. *)

From stdpp Require Import base gmap list countable strings.
From Stdlib Require Import ZArith Lia.
From S2P Require Import Prelude Errors External StdInts StdTypes GatewayState GatewaySession Ledger LedgerLemmas Gateway Instances InstancesSolana.

#[export] Existing Instances toy_keccak toy_keccak_laws toy_merkle toy_merkle_laws toy_secp toy_bits
  toy_bits_laws toy_bnum toy_bnum_laws toy_pda toy_pda_laws toy_ids toy_ids_laws toy_system
  toy_system_laws.

#[export] Instance leaf_digest : Digestable VerifierSetLeaf := toy_digestable verifier_leaf_codec.
#[export] Instance message_digest : Digestable Message := toy_digestable message_codec.
#[export] Instance message_leaf_digest : Digestable MessageLeaf := toy_digestable message_leaf_codec.

(** ** Running instructions *)

Definition run {A} (m : Instr A) (w : World) : World :=
  match m w with Ok (_, w') => w' | Err _ => w end.

Definition succeeds {A} (m : Instr A) (w : World) : bool := is_ok (m w).

Lemma run_ok (m : Instr unit) w : succeeds m w = true -> m w = Ok (tt, run m w).
Proof. unfold succeeds, run. by destruct (m w) as [[[] w']|e]. Qed.

(** An instruction that returns [x]. *)
Definition yields {A} `{!EqDecision A} (m : Instr A) (x : A) (w : World) : bool :=
  match m w with Ok (y, _) => bool_decide (y = x) | Err _ => false end.

Lemma yields_ok {A} `{!EqDecision A} (m : Instr A) x w : yields m x w = true -> m w = Ok (x, run m w).
Proof. unfold yields, run. destruct (m w) as [[y w']|e]; [|done]. by intros ->%bool_decide_eq_true. Qed.

(** ** The accounts and data of the run *)

Definition kpay : Pubkey := toy_id (bstr "payer").
Definition kauth : Pubkey := toy_id (bstr "authority").
Definition koper : Pubkey := toy_id (bstr "operator").
Definition kdest : Pubkey := toy_id (bstr "destination").
Definition addr (seeds : list bytes) (pid : Pubkey) : Pubkey := toy_address (seeds ++ [[Byte.xff]]) pid.
Definition kroot : Pubkey := addr GatewayConfig.pda_seeds gateway_ID.
Definition kdata : Pubkey := addr [arr_bytes gateway_ID] bpf_loader_upgradeable_ID.

Definition acct (k : Pubkey) (s m : bool) : AccountInfo := {| key := k; is_signer := s; is_writable := m |}.

Definition ex_ds : array 32 := toy_id (bstr "domain").
Definition ex_pk (n : Z) : PublicKey := {| pk_0 := arr_fill 33 (Byte.x02 :: le_bytes 4 n) |}.
Definition ex_sig (n : Z) : Signature := {| sig_0 := arr_fill 65 (le_bytes 4 n) |}.
Definition ex_vs : VerifierSet :=
  {| vs_nonce := 1; vs_signers := [(ex_pk 11, 3); (ex_pk 12, 4)]; vs_quorum := 5 |}.
Definition ex_tree : MerkleTree := merkle_tree SolanaHasher (imap (vs_leaf ex_vs ex_ds) (vs_signers ex_vs)).
Definition ex_set : Hash32 := default (arr_zero 32) (tree_root SolanaHasher ex_tree).
Definition ktracker : Pubkey := addr (VerifierSetTracker.pda_seeds ex_set) gateway_ID.

Definition ex_info (ty : PayloadType) (n : nat) (k w : Z) : SigningVerifierSetInfo :=
  {| si_signature := ex_sig k; si_leaf := vs_leaf ex_vs ex_ds n (ex_pk k, w);
     si_merkle_proof := proof_to_bytes (tree_proof SolanaHasher ex_tree [Z.of_nat n]);
     si_payload_type := ty |}.

Definition ex_message : Message :=
  {| cc_id := {| chain := bstr "eth"; id := bstr "1" |}; source_address := bstr "src";
     destination_chain := bstr "solana"; destination_address := arr_bytes kdest;
     payload_hash := keccak_hash (bstr "payload") |}.
Definition ex_mleaf : MessageLeaf := msg_leaf {| messages_0 := [ex_message] |} ex_ds 0 ex_message.
Definition ex_mtree : MerkleTree := merkle_tree SolanaHasher [ex_mleaf].
Definition ex_batch : Hash32 := default (arr_zero 32) (tree_root SolanaHasher ex_mtree).
Definition ex_merklized : MerklizedMessage :=
  {| mm_leaf := ex_mleaf; mm_proof := proof_to_bytes (tree_proof SolanaHasher ex_mtree [0]) |}.
Definition kmessage : Pubkey := addr (IncomingMessage.pda_seeds (command_id ex_message)) gateway_ID.
Definition ksigner : Pubkey := addr (ValidateMessageSigner.pda_seeds (command_id ex_message)) kdest.

Definition kbatch_session : Pubkey :=
  addr (Session.pda_seeds ex_batch (payload_type_into_u8 StdTypes.ApproveMessages) ex_set) gateway_ID.

Definition ex_next : Hash32 := toy_id (bstr "next set").
Definition krotation_session : Pubkey :=
  addr (Session.pda_seeds ex_next (payload_type_into_u8 StdTypes.RotateSigners) ex_set) gateway_ID.
Definition knext : Pubkey := addr (VerifierSetTracker.pda_seeds ex_next) gateway_ID.

(** A rich payer, and the loader's record of the gateway. *)
Definition w_start : World :=
  mkWorld (<[kpay := mkAccount 100000000000 system_program_ID DEmpty]>
            (<[kdata := mkAccount 1 bpf_loader_upgradeable_ID (DProgramData (Some kauth))]> ∅)) 1000 [].

(** ** Deployment, approval and execution of a message *)

Definition ix_init : GatewayInstruction := IxInitializeConfig
  {| ic_payer := acct kpay true true; ic_upgrade_authority := acct kauth true false;
     ic_program_data := acct kdata false false; ic_gateway_root_pda := acct kroot false true;
     ic_system_program := system_program_ID; ic_verifier_set_tracker_pda := acct ktracker false true |}
  {| icp_domain_separator := ex_ds;
     icp_initial_verifier_set := {| ivs_hash := ex_set; ivs_pda := ktracker |};
     icp_minimum_rotation_delay := 100; icp_operator := koper;
     icp_previous_verifier_retention := U256.from_u64 4 |}.

Definition ix_session (k : Pubkey) (root : Hash32) (ty : PayloadType) : GatewayInstruction :=
  IxInitializePayloadVerificationSession
    {| ip_payer := acct kpay true true; ip_gateway_root_pda := acct kroot false false;
       ip_verification_session_account := acct k false true;
       ip_verifier_set_tracker_pda := acct ktracker false false; ip_system_program := system_program_ID |}
    root ty.

Definition ix_verify (k : Pubkey) (root : Hash32) (i : SigningVerifierSetInfo) : GatewayInstruction :=
  IxVerifySignature
    {| vg_gateway_root_pda := acct kroot false false; vg_verification_session_account := acct k false true;
       vg_verifier_set_tracker_pda := acct ktracker false false |} root i.

Definition a_approve : ApproveMessage :=
  {| am_gateway_root_pda := acct kroot false false; am_funder := acct kpay true true;
     am_verification_session_account := acct kbatch_session false false;
     am_incoming_message_pda := acct kmessage false true; am_system_program := system_program_ID |}.

Definition a_validate : ValidateMessage :=
  {| vm_incoming_message_pda := acct kmessage false true; vm_caller := acct ksigner true false;
     vm_gateway_root_pda := acct kroot false false |}.

Definition approve_info (n : nat) (k w : Z) : SigningVerifierSetInfo := ex_info StdTypes.ApproveMessages n k w.
Definition rotate_info (n : nat) (k w : Z) : SigningVerifierSetInfo := ex_info StdTypes.RotateSigners n k w.

Definition ixs_message : list GatewayInstruction :=
  [ix_init; ix_session kbatch_session ex_batch StdTypes.ApproveMessages;
   ix_verify kbatch_session ex_batch (approve_info 0 11 3);
   ix_verify kbatch_session ex_batch (approve_info 1 12 4);
   IxApproveMessage a_approve ex_merklized ex_batch;
   IxValidateMessage a_validate ex_message].

Definition a_rotate : RotateSigners :=
  {| rs_gateway_root_pda := acct kroot false true;
     rs_verification_session_account := acct krotation_session false false;
     rs_verifier_set_tracker_pda := acct ktracker false false;
     rs_new_verifier_set_tracker := acct knext false true; rs_payer := acct kpay true true;
     rs_system_program := system_program_ID; rs_operator := Some (acct koper true false) |}.

Definition ixs_rotation : list GatewayInstruction :=
  [ix_init; ix_session krotation_session ex_next StdTypes.RotateSigners;
   ix_verify krotation_session ex_next (rotate_info 1 12 4);
   ix_verify krotation_session ex_next (rotate_info 0 11 3);
   IxRotateSigners a_rotate ex_next].

(** The worlds after each instruction; [None] when one fails. *)
Fixpoint run_all (ixs : list GatewayInstruction) (w : World) : option World :=
  match ixs with
  | [] => Some w
  | ix :: ixs => match gateway_entry ix w with Ok (_, w) => run_all ixs w | Err _ => None end
  end.

Definition world_after (ixs : list GatewayInstruction) : World := default w_start (run_all ixs w_start).

Example message_run_succeeds : (if run_all ixs_message w_start is Some _ then true else false) = true.
Proof. by vm_compute. Qed.

Example rotation_run_succeeds : (if run_all ixs_rotation w_start is Some _ then true else false) = true.
Proof. by vm_compute. Qed.
