(* ===== verification/Witnesses.v ===== *)
(** * Witnesses

    Closed instances of the theorems that have hypotheses, on concrete inputs and with the
    implementations of [Instances.v]: the hypotheses hold together and the definitions evaluate. *)

From stdpp Require Import base list countable strings.
From Stdlib Require Import ZArith Lia.
From S2P Require Import Prelude Errors External StdInts StdTypes GatewayState GatewaySession Instances Scenario.

(** A closed range goal. *)
Ltac closed_uint := unfold uint; split; vm_compute; done.

(** ** Integers *)

Lemma u256_refines_z_witness :
  U256.checked_add (U256.from_u64 5) (U256.from_u64 7) = Some (U256.from_u64 12) /\
  U256.cmp (U256.from_u64 5) (U256.from_u64 7) = Lt.
Proof.
  assert (U256.wf (U256.from_u64 5)) as H5 by (unfold U256.wf, u64x4_wf, uint; simpl; lia).
  assert (U256.wf (U256.from_u64 7)) as H7 by (unfold U256.wf, u64x4_wf, uint; simpl; lia).
  destruct (U256.u256_refines_z (U256.from_u64 5) (U256.from_u64 7) H5 H7)
    as (_ & Hadd & _ & _ & Hcmp & _).
  split.
  - apply Hadd. split; [unfold U256.wf, u64x4_wf, uint; simpl; lia|done].
  - by rewrite Hcmp.
Defined.

(** ** A verifier set of two signers *)

Definition ex_payload : Hash32 := arr_fill 32 (bstr "payload root").

Definition ex_infos : list SigningVerifierSetInfo := [ex_info StdTypes.ApproveMessages 1 12 4; ex_info StdTypes.ApproveMessages 0 11 3].

Definition ex_session : Session.t :=
  match process_all (fresh_session ex_set Byte.xff) ex_payload ex_set ex_infos with
  | Ok s => s | Err _ => Session.default
  end.

Lemma ex_run : process_all (fresh_session ex_set Byte.xff) ex_payload ex_set ex_infos = Ok ex_session.
Proof. by vm_compute. Qed.

Lemma ex_vs_wf : verifier_set_wf ex_vs.
Proof.
  split; [closed_uint|]. split; [closed_uint|]. split.
  - apply (bool_decide_unpack _). by vm_compute.
  - repeat apply Forall_cons_2; try apply Forall_nil_2; closed_uint.
Qed.

Lemma ex_info_wf ty n k w :
  vs_signers ex_vs !! n = Some (ex_pk k, w) -> leaf_wf (si_leaf (ex_info ty n k w)).
Proof. intros H. apply vs_leaf_wf; [exact ex_vs_wf|done|exact H]. Qed.

Lemma ex_leaves_wf : leaves_at 5 ex_infos.
Proof.
  unfold leaves_at, ex_infos. repeat apply Forall_cons_2; try apply Forall_nil_2;
    (split; [by apply ex_info_wf|done]).
Qed.

Lemma session_valid_iff_quorum_witness : Session.is_valid ex_session = true.
Proof.
  destruct (session_valid_iff_quorum 5 ex_set ex_payload Byte.xff [] (fresh_session ex_payload Byte.xff))
    as [Hempty _]; [closed_uint|apply Forall_nil_2|reflexivity|].
  destruct (session_valid_iff_quorum 5 ex_payload ex_set Byte.xff ex_infos ex_session)
    as [-> _]; [closed_uint|exact ex_leaves_wf|exact ex_run|].
  apply bool_decide_eq_true. split; [done|]. vm_compute. done.
Defined.

Lemma session_valid_quorum_of_set_witness :
  exists ks, NoDup ks.*1 /\ ks ⊆ vs_signers ex_vs /\ 5 <= sum_map snd ks.
Proof.
  destruct (session_valid_quorum_of_set ex_vs ex_ds ex_payload ex_set Byte.xff ex_infos ex_session)
    as (ks & H1 & H2 & H3 & _).
  - exact ex_vs_wf.
  - simpl. lia.
  - repeat apply Forall_cons_2; try apply Forall_nil_2; intros _.
    + by exists 1%nat, (ex_pk 12, 4).
    + by exists 0%nat, (ex_pk 11, 3).
  - eapply Forall_impl; [exact ex_leaves_wf|]. by intros ? [].
  - eapply Forall_impl; [exact ex_leaves_wf|]. by intros ? [].
  - exact ex_run.
  - by vm_compute.
  - by exists ks.
Defined.

Lemma session_slot_used_once_witness :
  Session.process_signature ex_session ex_payload ex_set (ex_info StdTypes.ApproveMessages 0 11 3) =
    Err (EGateway SlotAlreadyVerified).
Proof.
  destruct (session_slot_used_once 5 ex_payload ex_set Byte.xff ex_infos ex_session (ex_info StdTypes.ApproveMessages 0 11 3))
    as (_ & _ & H & _); [closed_uint|exact ex_leaves_wf| |exact ex_run|].
  - by apply ex_info_wf.
  - apply H. vm_compute. right. left.
Defined.

(** ** Encoding *)

#[local] Instance execute_data_borsh : Borsh ExecuteData := execute_data_codec.
#[local] Instance execute_data_borsh_laws : BorshLaws ExecuteData := execute_data_codec_laws.

Definition ex_msg (ch i : string) : Message :=
  {| cc_id := {| chain := bstr ch; id := bstr i |}; source_address := bstr "src";
     destination_chain := bstr "solana"; destination_address := bstr "dst";
     payload_hash := arr_fill 32 (bstr "hash") |}.

(** Encoding succeeds on concrete data, and the empty set is refused. *)
Lemma encode_exact_witness :
  (exists ed, execute_data_valid ex_vs [(ex_pk 11, ex_sig 11)] ex_ds (PMessages {| messages_0 := [ex_msg "eth" "1"] |}) ed) /\
  encode {| vs_nonce := 1; vs_signers := []; vs_quorum := 0 |} [] ex_ds (NewVerifierSet ex_vs)
    = Err (EEncoding CannotMerklizeEmptyVerifierSet).
Proof.
  split.
  - destruct (encode_exact ex_vs [(ex_pk 11, ex_sig 11)] ex_ds (PMessages {| messages_0 := [ex_msg "eth" "1"] |}))
      as (ed & H & _). by exists ed.
  - apply (encode_exact {| vs_nonce := 1; vs_signers := []; vs_quorum := 0 |} [] ex_ds (NewVerifierSet ex_vs)).
Defined.

Lemma signed_digest_binds_type_and_root_witness :
  prefixed_message_hash_payload_type ApproveMessages ex_payload =
    prefixed_message_hash_payload_type ApproveMessages ex_payload /\
  ((ApproveMessages = ApproveMessages /\ ex_payload = ex_payload) \/
   keccak_collision (signed_preimage ApproveMessages ex_payload) (signed_preimage ApproveMessages ex_payload)).
Proof.
  split; [done|]. by apply signed_digest_binds_type_and_root.
Defined.

Lemma command_id_identifies_witness :
  command_id (ex_msg "eth" "1-2") = command_id (ex_msg "eth" "1-2") /\
  (cc_id (ex_msg "eth" "1-2") = cc_id (ex_msg "eth" "1-2") \/
   keccak_collision (command_id_preimage (ex_msg "eth" "1-2"))
     (command_id_preimage (ex_msg "eth" "1-2"))).
Proof.
  split; [done|].
  apply (proj1 (command_id_identifies (ex_msg "eth" "1-2") (ex_msg "eth" "1-2") eq_refl));
    apply (bool_decide_unpack _); by vm_compute.
Defined.
