(* ===== verification/WitnessesGateway.v ===== *)
(** * Witnesses: the gateway

    The theorems about the gateway, applied to the worlds and instructions of the runs of
    [Scenario.v]. *)

From stdpp Require Import base gmap list countable strings.
From Stdlib Require Import ZArith Lia.
From S2P Require Import Prelude Errors External StdInts StdTypes GatewayState GatewaySession Ledger LedgerLemmas Gateway GatewayLemmas GatewaySpec GatewaySafety GatewayOutcomes GatewayReach Instances InstancesSolana Scenario.

(** A closed decidable goal. *)
Ltac decide_vm := apply (bool_decide_unpack _); vm_compute; done.

Definition submitted_message (ix : GatewayInstruction) : Prop := In ix ixs_message.
Definition submitted_rotation (ix : GatewayInstruction) : Prop := In ix ixs_rotation.

Lemma start_empty : gw w_start = ∅.
Proof. by vm_compute. Qed.

Lemma run_all_reachable submitted ixs w w' :
  reachable submitted w -> (forall ix, In ix ixs -> submitted ix) -> run_all ixs w = Some w' ->
  reachable submitted w'.
Proof.
  revert w. induction ixs as [|ix ixs IH]; intros w Hw Hs; cbn; [by intros [= <-]|].
  destruct (gateway_entry ix w) as [[u w1]|e] eqn:E; [|done]. apply IH; [|by intros ??; apply Hs; right].
  eapply reach_gateway; [exact Hw| |exact E]. apply Hs. by left.
Qed.

Lemma world_after_some ixs : (if run_all ixs w_start is Some _ then true else false) = true ->
  run_all ixs w_start = Some (world_after ixs).
Proof. unfold world_after. by destruct (run_all ixs w_start). Qed.

Lemma world_after_reachable (submitted : GatewayInstruction -> Prop) ixs :
  (forall ix, In ix ixs -> submitted ix) ->
  (if run_all ixs w_start is Some _ then true else false) = true -> reachable submitted (world_after ixs).
Proof.
  intros Hs Hr. eapply run_all_reachable; [|exact Hs|by apply world_after_some].
  apply reach_start; [exact start_empty|done].
Qed.

(** The world before the last instruction of a run. *)
Definition w_message (n : nat) : World := world_after (take n ixs_message).
Definition w_rotation (n : nat) : World := world_after (take n ixs_rotation).

Lemma message_reachable n : (n < 7)%nat -> reachable submitted_message (w_message n).
Proof.
  intros Hn. apply world_after_reachable.
  - intros ix Hin. unfold submitted_message. rewrite <- (take_drop n ixs_message). apply in_or_app. by left.
  - do 7 (destruct n as [|n]; [by vm_compute|]). lia.
Qed.

Lemma rotation_reachable n : (n < 6)%nat -> reachable submitted_rotation (w_rotation n).
Proof.
  intros Hn. apply world_after_reachable.
  - intros ix Hin. unfold submitted_rotation. rewrite <- (take_drop n ixs_rotation). apply in_or_app. by left.
  - do 6 (destruct n as [|n]; [by vm_compute|]). lia.
Qed.

(** The lookups of the gateway's data in a concrete world. *)
Definition config_of (w : World) : GatewayConfig.t :=
  match gw w !! kroot with Some (DGatewayConfig c) => c | _ => GatewayConfig.zeroed end.
Definition incoming_of (w : World) : IncomingMessage.t :=
  match gw w !! kmessage with Some (DIncomingMessage m) => m | _ => IncomingMessage.zeroed end.

Lemma config_of_ok w :
  (if gw w !! kroot is Some (DGatewayConfig _) then true else false) = true ->
  gw w !! kroot = Some (DGatewayConfig (config_of w)).
Proof. unfold config_of. destruct (gw w !! kroot) as [[]|]; done. Qed.

Lemma incoming_of_ok w :
  (if gw w !! kmessage is Some (DIncomingMessage _) then true else false) = true ->
  gw w !! kmessage = Some (DIncomingMessage (incoming_of w)).
Proof. unfold incoming_of. destruct (gw w !! kmessage) as [[]|]; done. Qed.

(** ** Reachable worlds *)

Lemma gateway_epochs_witness :
  exists k t, gw (w_rotation 5) !! k = Some (DVerifierSetTracker t) /\ epoch_of t = 2.
Proof.
  destruct (gateway_epochs submitted_rotation (w_rotation 5) kroot (config_of (w_rotation 5))) as [H _].
  - apply rotation_reachable. lia.
  - apply config_of_ok. by vm_compute.
  - destruct (H 2) as (k & t & Hk & Ht & _); [split; vm_compute; done|]. exists k, t. split; [exact Hk|exact Ht].
Defined.

Lemma submitted_message_inj m1 m2 :
  occurs submitted_message m1 -> occurs submitted_message m2 -> message_hash m1 = message_hash m2 -> m1 = m2.
Proof.
  assert (forall m, occurs submitted_message m -> m = ex_message) as Hm.
  { intros m (ix & Hin & Hc). repeat destruct Hin as [<-|Hin]; done. }
  intros ->%Hm ->%Hm. done.
Qed.

Lemma message_executed_once_witness :
  NoDup (executed_ids (gateway_events (log (w_message 6)))) /\
  executed_ids (gateway_events (log (w_message 6))) = [command_id ex_message].
Proof.
  destruct (message_executed_once submitted_message (w_message 6)) as (_ & H & _).
  - apply message_reachable. lia.
  - exact submitted_message_inj.
  - split; [exact H|]. by vm_compute.
Defined.

(** ** Signatures *)

Lemma ex_vs_signers_wf : verifier_set_wf ex_vs.
Proof.
  split; [split; vm_compute; done|]. split; [split; vm_compute; done|]. split.
  - decide_vm.
  - repeat apply Forall_cons_2; try apply Forall_nil_2; split; vm_compute; done.
Qed.

(** The signatures of a run are for one session, by the two signers of the set. *)
Lemma one_session_sound (submitted : GatewayInstruction -> Prop) root ty :
  (forall r t, names_session submitted r t -> r = root /\ t = ty) ->
  (forall a r i, submitted (IxVerifySignature a r i) ->
     exists n e, vs_signers ex_vs !! n = Some e /\ si_leaf i = vs_leaf ex_vs ex_ds n e) ->
  sound_submissions submitted (fun _ => 5).
Proof.
  intros Hs Hl. split.
  - intros r1 t1 r2 t2 vh b k [-> ->]%Hs [-> ->]%Hs _ _. done.
  - intros _. split; vm_compute; done.
  - intros a r i (n & e & Hn & ->)%Hl. by apply vs_leaf_wf; [exact ex_vs_signers_wf| |].
  - intros a r i vh (n & e & Hn & ->)%Hl _. done.
Qed.

Lemma message_session : sound_submissions submitted_message (fun _ => 5).
Proof.
  apply (one_session_sound _ ex_batch StdTypes.ApproveMessages).
  - intros r t [(a & H)|[(a & i & H & <-)|[(a & mm & H & ->)|(a & H & ->)]]]; unfold submitted_message in H;
      repeat (destruct H as [H|H]; [try discriminate H; by injection H as <- <- <- || by injection H as <- <-|]); destruct H.
  - intros a r i H. unfold submitted_message in H.
    repeat (destruct H as [H|H]; [try discriminate H; injection H as <- <- <-|]);
      [by exists 0%nat, (ex_pk 11, 3)|by exists 1%nat, (ex_pk 12, 4)|destruct H].
Qed.

Lemma rotation_session : sound_submissions submitted_rotation (fun _ => 5).
Proof.
  apply (one_session_sound _ ex_next StdTypes.RotateSigners).
  - intros r t [(a & H)|[(a & i & H & <-)|[(a & mm & H & ->)|(a & H & ->)]]]; unfold submitted_rotation in H;
      repeat (destruct H as [H|H]; [try discriminate H; by injection H as <- <- <- || by injection H as <- <-|]); destruct H.
  - intros a r i H. unfold submitted_rotation in H.
    repeat (destruct H as [H|H]; [try discriminate H; injection H as <- <- <-|]);
      [by exists 1%nat, (ex_pk 12, 4)|by exists 0%nat, (ex_pk 11, 3)|destruct H].
Qed.

Lemma approvals_signed_by_quorum_witness :
  exists root vh, signed_by_quorum submitted_message (fun _ => 5) ex_ds root StdTypes.ApproveMessages vh.
Proof.
  destruct (approvals_signed_by_quorum submitted_message (fun _ => 5) (w_message 6) (approved_event ex_message))
    as (root & vh & _ & _ & _ & _ & _ & H).
  - exact message_session.
  - apply message_reachable. lia.
  - apply list_elem_of_lookup. exists 1%nat. vm_compute. reflexivity.
  - exists ex_message. reflexivity.
  - exists root, vh. apply (H kroot (config_of (w_message 6))). apply config_of_ok. vm_compute. reflexivity.
Defined.

Definition next_tracker (w : World) : VerifierSetTracker.t :=
  match gw w !! knext with Some (DVerifierSetTracker t) => t | _ => VerifierSetTracker.zeroed end.

Lemma next_tracker_ok w :
  (if gw w !! knext is Some (DVerifierSetTracker _) then true else false) = true ->
  gw w !! knext = Some (DVerifierSetTracker (next_tracker w)).
Proof. unfold next_tracker. destruct (gw w !! knext) as [[]|]; done. Qed.

Lemma verifier_sets_chain_of_trust_witness :
  exists vh, signed_by_quorum submitted_rotation (fun _ => 5) ex_ds ex_next StdTypes.RotateSigners vh.
Proof.
  destruct (verifier_sets_chain_of_trust submitted_rotation (fun _ => 5) (w_rotation 5) knext
    (next_tracker (w_rotation 5))) as [H|(kt & t' & _ & _ & H)].
  - exact rotation_session.
  - apply rotation_reachable. lia.
  - apply next_tracker_ok. vm_compute. reflexivity.
  - exfalso. revert H. vm_compute. discriminate.
  - assert (VerifierSetTracker.verifier_set_hash (next_tracker (w_rotation 5)) = ex_next) as E
      by (vm_compute; reflexivity).
    rewrite E in H. exists (VerifierSetTracker.verifier_set_hash t').
    apply (H kroot (config_of (w_rotation 5))). apply config_of_ok. vm_compute. reflexivity.
Defined.

(** ** Single instructions *)

Lemma gateway_refines_spec_witness :
  astep (upgrade_authority (w_message 4)) (IxApproveMessage a_approve ex_merklized ex_batch)
    (abs (w_message 4)) (abs (run (gateway_entry (IxApproveMessage a_approve ex_merklized ex_batch)) (w_message 4))).
Proof.
  apply (gateway_refines_spec _ _ tt). apply run_ok. vm_compute. reflexivity.
Defined.

Definition w_after : World := run (gateway_entry (IxRotateSigners a_rotate ex_next)) (w_rotation 4).

Lemma u256_wf_vm (x : U256.t) :
  (let d := U256.value x in
   (0 <=? d0 d) && (d0 d <? 2 ^ 64) && (0 <=? d1 d) && (d1 d <? 2 ^ 64) &&
   (0 <=? d2 d) && (d2 d <? 2 ^ 64) && (0 <=? d3 d) && (d3 d <? 2 ^ 64))%bool = true -> U256.wf x.
Proof. unfold U256.wf, u64x4_wf, uint. intros H. bool_props. lia. Qed.

Lemma gateway_config_changes_witness :
  exists c', gw w_after !! kroot = Some (DGatewayConfig c') /\
    GatewayConfig.domain_separator c' = GatewayConfig.domain_separator (config_of (w_rotation 4)).
Proof.
  destruct (gateway_config_changes (IxRotateSigners a_rotate ex_next) (w_rotation 4) tt w_after kroot
    (config_of (w_rotation 4))) as (c' & H1 & H2 & _).
  - apply run_ok. vm_compute. reflexivity.
  - apply config_of_ok. vm_compute. reflexivity.
  - apply u256_wf_vm. vm_compute. reflexivity.
  - exists c'. split; [exact H1|exact H2].
Defined.

Lemma assert_valid_epoch_exact_witness :
  GatewayConfig.assert_valid_epoch (config_of (w_rotation 5)) (U256.from_u64 3)
    = Err (EGateway EpochCalculationOverflow).
Proof.
  destruct (assert_valid_epoch_exact (config_of (w_rotation 5)) (U256.from_u64 3)) as [H _];
    [apply u256_wf_vm; vm_compute; reflexivity..|].
  apply H. vm_compute. reflexivity.
Defined.

Definition old_tracker (w : World) : VerifierSetTracker.t :=
  match gw w !! ktracker with Some (DVerifierSetTracker t) => t | _ => VerifierSetTracker.zeroed end.

Lemma old_tracker_ok w :
  (if gw w !! ktracker is Some (DVerifierSetTracker _) then true else false) = true ->
  gw w !! ktracker = Some (DVerifierSetTracker (old_tracker w)).
Proof. unfold old_tracker. destruct (gw w !! ktracker) as [[]|]; done. Qed.

(** The world in which the accounts of the rotation are loaded and its new tracker exists. *)
Definition w_loaded : World := run (rotate_signers_accounts a_rotate ex_next) (w_rotation 4).
Definition a_rotate_no_operator : RotateSigners :=
  {| rs_gateway_root_pda := rs_gateway_root_pda a_rotate;
     rs_verification_session_account := rs_verification_session_account a_rotate;
     rs_verifier_set_tracker_pda := rs_verifier_set_tracker_pda a_rotate;
     rs_new_verifier_set_tracker := rs_new_verifier_set_tracker a_rotate; rs_payer := rs_payer a_rotate;
     rs_system_program := rs_system_program a_rotate; rs_operator := None |}.

Lemma rotate_signers_outcome_witness :
  rotate_signers_handler a_rotate_no_operator Byte.xff ex_next w_loaded = Err (EGateway RotationCooldownNotDone).
Proof.
  pose proof (rotate_signers_outcome a_rotate_no_operator Byte.xff ex_next w_loaded (config_of w_loaded)
    (old_tracker w_loaded)) as H.
  assert (rotation_checks (rs_operator a_rotate_no_operator) (config_of w_loaded) (old_tracker w_loaded) (now w_loaded)
    = Err (EGateway RotationCooldownNotDone)) as E by (vm_compute; reflexivity).
  rewrite E in H. apply H.
  - split; [apply u256_wf_vm; vm_compute; reflexivity..|]. split; vm_compute; discriminate.
  - apply config_of_ok. vm_compute. reflexivity.
  - apply old_tracker_ok. vm_compute. reflexivity.
  - assert (next_tracker w_loaded = VerifierSetTracker.zeroed) as <- by (vm_compute; reflexivity).
    apply next_tracker_ok. vm_compute. reflexivity.
  - apply (bool_decide_unpack _). vm_compute. exact I.
Defined.

Lemma root_loaded_vm w :
  (if gw w !! kroot is Some (DGatewayConfig c) then
     bool_decide (create_program_address (GatewayConfig.pda_seeds ++ [[GatewayConfig.bump c]]) gateway_ID = Some kroot)
   else false) = true -> root_loaded w kroot (config_of w).
Proof.
  unfold root_loaded, config_of. destruct (gw w !! kroot) as [[]|]; try done.
  intros H. split; [done|]. by apply bool_decide_eq_true in H.
Qed.

Lemma message_loaded : validate_loaded a_validate ex_message (w_message 5) (config_of (w_message 5)) (incoming_of (w_message 5)).
Proof.
  split.
  - apply incoming_of_ok. vm_compute. reflexivity.
  - apply (bool_decide_unpack _). vm_compute. exact I.
  - reflexivity.
  - apply root_loaded_vm. vm_compute. reflexivity.
Qed.

Lemma validate_message_exact_witness :
  (exists w', validate_message a_validate ex_message (w_message 5) = Ok (tt, w')) /\
  validate_message a_validate ex_message (w_message 6) = Err (EGateway MessageNotApproved).
Proof.
  destruct (validate_message_exact a_validate ex_message (w_message 5) (config_of (w_message 5))
    (incoming_of (w_message 5)) message_loaded) as [H1 H2].
  split.
  - apply H1. split; [vm_compute; reflexivity|]. split; [vm_compute; reflexivity|].
    split; [reflexivity|]. exists kdest. split; vm_compute; reflexivity.
  - apply (H2 (w_message 6) a_validate).
    + assert (succeeds (validate_message a_validate ex_message) (w_message 5) = true) as H
        by (vm_compute; reflexivity).
      rewrite (run_ok _ _ H). vm_compute. reflexivity.
    + split; [reflexivity|split; reflexivity].
Defined.

Lemma approved_message_executable_witness :
  exists w2, validate_message a_validate ex_message (run (approve_message a_approve ex_merklized ex_batch) (w_message 4))
    = Ok (tt, w2).
Proof.
  apply (approved_message_executable a_approve ex_merklized ex_batch (w_message 4) tt _ a_validate kdest ksigner Byte.xff).
  - apply run_ok. vm_compute. reflexivity.
  - exists (config_of (w_message 4)). apply root_loaded_vm. vm_compute. reflexivity.
  - vm_compute. reflexivity.
  - vm_compute. reflexivity.
  - reflexivity.
  - reflexivity.
  - reflexivity.
  - reflexivity.
  - reflexivity.
Defined.

Definition a_call : CallContract :=
  {| cc_caller := acct kdest false false; cc_signing_pda := None; cc_gateway_root_pda := acct kroot false false |}.

Lemma call_contract_exact_witness :
  exists e, call_contract a_call (bstr "eth") (bstr "contract") (bstr "data") Byte.xff (w_message 1) = Err (EGateway e).
Proof.
  apply (call_contract_exact a_call (bstr "eth") (bstr "contract") (bstr "data") Byte.xff (w_message 1)
    (config_of (w_message 1))).
  - apply root_loaded_vm. vm_compute. reflexivity.
  - intros p. discriminate.
  - intros [H|(p & H & _)]; discriminate H.
Defined.
