(* ===== verification/WitnessesPrograms.v ===== *)
(** * Witnesses: operators, gas service, executables and governance

    Runs of the other programs on the worlds of [Scenario.v]. *)

From stdpp Require Import base gmap list countable strings.
From Stdlib Require Import ZArith Lia.
From S2P Require Import Prelude Errors External BorshFormat StdInts StdTypes GatewayState GatewaySession Payload GovernanceState OperatorsState Ledger LedgerLemmas Gateway GatewayLemmas GatewayOutcomes Executable Operators GasService Governance GovernanceTheorems GovernanceGmp Instances InstancesSolana Scenario.

#[local] Existing Instances toy_abi toy_abi_laws toy_runtime toy_runtime_laws toy_gov_abi.
#[local] Instance vecs : BorshVec := borsh_vec_impl.
#[local] Instance vecs_laws : BorshVecLaws := borsh_vec_impl_laws.
#[local] Instance metadatas_borsh : Borsh (list SolanaAccountMetadata) := metadatas_codec.
#[local] Instance metadatas_borsh_laws : BorshLaws (list SolanaAccountMetadata) := metadatas_codec_laws.
#[local] Instance receiver_borsh : Borsh (option SolanaAccountMetadata) := receiver_codec.
#[local] Instance receiver_borsh_laws : BorshLaws (option SolanaAccountMetadata) := receiver_codec_laws.
#[local] Instance call_data_borsh : Borsh ExecuteProposalCallData := call_data_codec.

(** ** Payloads *)

Definition ex_axelar_payload (sch : EncodingScheme) : AxelarMessagePayload :=
  payload_new (fun r => r) (bstr "data")
    [{| sar_pubkey := kpay; sar_is_signer := true; sar_is_writable := false |};
     {| sar_pubkey := kdest; sar_is_signer := false; sar_is_writable := true |}] sch.

Lemma payload_roundtrip_witness :
  (exists b, encode (ex_axelar_payload AbiEncoding) = Ok b /\ decode b = Ok (ex_axelar_payload AbiEncoding)) /\
  encode (ex_axelar_payload Borsh_) <> Err BorshSerializeError.
Proof.
  split.
  - destruct (payload_roundtrip (ex_axelar_payload AbiEncoding)) as (Hdec & Habi & _).
    destruct Habi as [b Hb]; [reflexivity|]. exists b. split; [exact Hb|by apply Hdec].
  - destruct (payload_roundtrip (ex_axelar_payload Borsh_)) as (_ & _ & Herr & _).
    rewrite Herr by reflexivity. simpl. lia.
Defined.

(** ** Operators *)

Definition kregistry : Pubkey := addr OperatorRegistry.pda_seeds operators_ID.
Definition koperator_account : Pubkey := addr (OperatorAccount.pda_seeds koper) operators_ID.

Definition ox_init : OperatorsInstruction := OxInitialize
  {| oi_payer := acct kpay true true; oi_owner := acct kpay true true; oi_registry := acct kregistry false true;
     oi_system_program := system_program_ID |}.
Definition a_add : AddOperator :=
  {| ao_owner := acct kpay true true; ao_operator_to_add := acct koper false false;
     ao_registry := acct kregistry false true; ao_operator_account := acct koperator_account false true;
     ao_system_program := system_program_ID |}.

Definition w_registry : World := run (operators_entry ox_init) w_start.
Definition w_operator : World := run (operators_entry (OxAddOperator a_add)) w_registry.

Lemma registry_run : operators_entry ox_init w_start = Ok (tt, w_registry).
Proof. apply run_ok. vm_compute. reflexivity. Qed.
Lemma operator_run : operators_entry (OxAddOperator a_add) w_registry = Ok (tt, w_operator).
Proof. apply run_ok. vm_compute. reflexivity. Qed.

Lemma registry_reachable : operators_reachable w_registry.
Proof. eapply or_step; [|exact registry_run]. apply or_start. vm_compute. reflexivity. Qed.
Lemma operator_reachable : operators_reachable w_operator.
Proof. eapply or_step; [exact registry_reachable|exact operator_run]. Qed.

Definition registry_of (w : World) : OperatorRegistry.t :=
  match op w !! kregistry with Some (DOperatorRegistry r) => r | _ => OperatorRegistry.zeroed end.
Lemma registry_of_ok w :
  (if op w !! kregistry is Some (DOperatorRegistry _) then true else false) = true ->
  op w !! kregistry = Some (DOperatorRegistry (registry_of w)).
Proof. unfold registry_of. destruct (op w !! kregistry) as [[]|]; done. Qed.

Lemma registry_counts_operators_witness : Z.of_nat (size (operators w_operator)) = 1.
Proof.
  destruct (registry_counts_operators w_operator operator_reachable) as (H & _).
  destruct (H kregistry (registry_of w_operator)) as [E _].
  - apply registry_of_ok. vm_compute. reflexivity.
  - rewrite <- E. vm_compute. reflexivity.
Defined.

Lemma operators_authority_witness :
  exists r', op w_operator !! kregistry = Some (DOperatorRegistry r') /\
    OperatorRegistry.bump r' = OperatorRegistry.bump (registry_of w_registry).
Proof.
  destruct (operators_authority (OxAddOperator a_add) w_registry tt w_operator kregistry (registry_of w_registry))
    as (r' & H1 & H2 & _).
  - exact operator_run.
  - apply registry_of_ok. vm_compute. reflexivity.
  - exact registry_reachable.
  - exists r'. split; [exact H1|exact H2].
Defined.

(** ** Gas service *)

Definition ktreasury : Pubkey := addr Treasury.pda_seeds gas_service_ID.
Definition gx_init : GasInstruction := GxInitialize
  {| gi_payer := acct kpay true true; gi_operator := acct koper true false;
     gi_operator_pda := acct koperator_account false false; gi_system_program := system_program_ID;
     gi_treasury := acct ktreasury false true |}.
Definition a_pay : PayGas :=
  {| pg_sender := acct kpay true true; pg_treasury := acct ktreasury false true;
     pg_system_program := system_program_ID |}.
Definition gx_pay : GasInstruction := GxPayGas a_pay (bstr "eth") (bstr "contract") (arr_zero 32) 500 kpay.
Definition a_collect : CollectFees :=
  {| cf_operator := acct koper true false; cf_operator_pda := acct koperator_account false false;
     cf_treasury := acct ktreasury false true; cf_receiver := acct kdest false true |}.

Definition w_treasury : World := run (gas_service_entry gx_init) w_operator.
Definition w_paid : World := run (gas_service_entry gx_pay) w_treasury.
Definition w_collected : World := run (gas_service_entry (GxCollectFees a_collect 300)) w_paid.

Lemma gas_payments_exact_witness :
  moved (ledger w_treasury) (ledger w_paid) kpay ktreasury 500.
Proof.
  destruct (gas_payments_exact gx_pay w_treasury tt w_paid) as (_ & _ & _ & _ & H & _).
  - apply run_ok. vm_compute. reflexivity.
  - exact H.
Defined.

Lemma treasury_safe_witness :
  treasury_at w_collected ktreasury {| Treasury.bump := Byte.xff |}.
Proof.
  destruct (treasury_safe (GxCollectFees a_collect 300) w_paid tt w_collected ktreasury {| Treasury.bump := Byte.xff |})
    as [H _].
  - apply run_ok. vm_compute. reflexivity.
  - split; vm_compute; [discriminate|reflexivity].
  - vm_compute. reflexivity.
  - exact H.
Defined.

(** ** Executables *)

Definition w_approved : World := world_after (take 5 ixs_message).
Definition incoming_at (k : Pubkey) (w : World) : IncomingMessage.t :=
  match gw w !! k with Some (DIncomingMessage m) => m | _ => IncomingMessage.zeroed end.
Lemma incoming_at_ok k w :
  (if gw w !! k is Some (DIncomingMessage _) then true else false) = true ->
  gw w !! k = Some (DIncomingMessage (incoming_at k w)).
Proof. unfold incoming_at. destruct (gw w !! k) as [[]|]; done. Qed.

Definition a_exec : AxelarExecutableAccounts :=
  {| ex_incoming_message_pda := acct kmessage false true; ex_signing_pda := acct ksigner false false;
     ex_gateway_root_pda := acct kroot false false; ex_axelar_gateway_program := gateway_ID |}.

(** A check that leaves the world as it is. *)
Lemma check_ok (m : Instr unit) w :
  (forall u w', m w = Ok (u, w') -> w' = w) -> succeeds m w = true -> m w = Ok (tt, w).
Proof.
  intros Hm H. apply run_ok in H. by rewrite (Hm _ _ H) in H.
Qed.

Lemma exec_accounts_ok : executable_accounts kdest a_exec ex_message w_approved = Ok (tt, w_approved).
Proof.
  apply check_ok; [|vm_compute; reflexivity].
  intros u w' H. unfold executable_accounts in H. inv_instr.
  match goal with H : gateway_root_seeds _ _ = _ |- _ => by apply gateway_root_seeds_ok in H as (? & _ & _ & ->) end.
Qed.

Lemma receive_message_exact_witness :
  (exists w', validate_message_raw kdest a_exec ex_message (bstr "payload") w_approved = Ok (tt, w')) /\
  validate_message_raw kdest a_exec ex_message (bstr "other") w_approved = Err (EProgram (PE_Custom 7000)).
Proof.
  destruct (receive_message_exact kdest a_exec ex_message (bstr "other") w_approved (incoming_at kmessage w_approved))
    as [Hbad _].
  { exact exec_accounts_ok. }
  { apply incoming_at_ok. vm_compute. reflexivity. }
  { vm_compute. reflexivity. }
  destruct (receive_message_exact kdest a_exec ex_message (bstr "payload") w_approved (incoming_at kmessage w_approved))
    as [_ Hgood].
  { exact exec_accounts_ok. }
  { apply incoming_at_ok. vm_compute. reflexivity. }
  { vm_compute. reflexivity. }
  split.
  - destruct Hgood as [Hiff _]; [vm_compute; reflexivity|]. apply Hiff. split; vm_compute; reflexivity.
  - apply Hbad. vm_compute. discriminate.
Defined.

(** A message whose payload hash is that of an encoded payload, approved directly in the ledger. *)
Definition ex_metas : list AccountMeta :=
  replicate 5 (meta_new_readonly kroot false) ++ [meta_new kpay false; meta_new_readonly kdest false].
Definition ex_approved : AxelarMessagePayload :=
  payload_new repr_from_meta (bstr "data") (drop 5 ex_metas) Borsh_.
Definition ex_encoded : bytes := match encode ex_approved with Ok b => b | Err _ => [] end.
Definition ex_message_data : Message :=
  {| cc_id := cc_id ex_message; source_address := source_address ex_message;
     destination_chain := destination_chain ex_message; destination_address := arr_bytes kdest;
     payload_hash := keccak_hash ex_encoded |}.

(** The world with the message [m] approved at [k] for the program [pid]. *)
Definition with_message (m : Message) (k pid : Pubkey) (w : World) : World :=
  mkWorld (<[k := mkAccount 1 gateway_ID (DIncomingMessage
    {| IncomingMessage.bump := Byte.xff; IncomingMessage.signing_pda_bump := Byte.xff;
       IncomingMessage.pad_ := arr_zero 3; IncomingMessage.status := MessageStatus.approved;
       IncomingMessage.message_hash := message_hash m; IncomingMessage.payload_hash := payload_hash m |})]> (ledger w))
    (now w) (log w).

Definition w_data : World := with_message ex_message_data kmessage kdest (world_after (take 1 ixs_message)).

Lemma executed_payload_is_approved_witness :
  payload_without_accounts ex_approved = bstr "data".
Proof.
  destruct (executed_payload_is_approved kdest a_exec ex_metas ex_message_data (bstr "data") Borsh_ w_data tt
    (run (Executable.validate_message kdest a_exec ex_metas ex_message_data (bstr "data") Borsh_) w_data)
    ex_approved ex_encoded) as [(H & _ & _)|(e & He & Hne & _)].
  - apply run_ok. vm_compute. reflexivity.
  - vm_compute. reflexivity.
  - reflexivity.
  - exact H.
  - exfalso. assert (encode (payload_new repr_from_meta (bstr "data") (drop 5 ex_metas) Borsh_) = Ok ex_encoded) as E
      by (vm_compute; reflexivity).
    rewrite E in He. injection He as He. exact (Hne (eq_sym He)).
Defined.

(** ** Governance *)

Definition kgov : Pubkey := addr GovernanceConfig.pda_seeds governance_ID.
Definition ex_config : GovernanceConfig.t :=
  {| GovernanceConfig.bump := Byte.xff; GovernanceConfig.chain_hash := keccak_hashv [bstr "axelar"];
     GovernanceConfig.address_hash := keccak_hashv [bstr "governor"];
     GovernanceConfig.minimum_proposal_eta_delay := 3600; GovernanceConfig.operator := koper |}.

(** The call of a target with the value 7 for a receiver. *)
Definition ex_call : ExecuteProposalCallData :=
  {| solana_accounts := [{| sam_pubkey := kgov; sam_is_signer := true; sam_is_writable := true |}];
     solana_native_value_receiver_account :=
       Some {| sam_pubkey := kpay; sam_is_signer := false; sam_is_writable := true |};
     call_data := bstr "call" |}.
Definition ex_proposal : ExecuteProposalData :=
  {| target_address := kdest; epd_call_data := ex_call; native_value := arr_le 32 7 |}.
Definition ex_hash : array 32 :=
  match ExecutableProposal.hash_from_data ex_proposal with Ok h => h | Err _ => arr_zero 32 end.
Definition kproposal : Pubkey := addr (ExecutableProposal.pda_seeds ex_hash) governance_ID.
Definition kmarker : Pubkey := addr (OperatorProposal.pda_seeds ex_hash) governance_ID.

Definition ex_command : GovernanceCommandPayload :=
  {| gcp_command := ScheduleTimeLockProposal; gcp_target := arr_bytes kdest;
     gcp_call_data := default [] (borsh_serialize ex_call); gcp_native_value := 7; gcp_eta := 0 |}.
Definition ex_command_bytes : bytes := default [] (@borsh_serialize _ command_codec ex_command).

Definition ex_gmp : Message :=
  {| cc_id := {| chain := bstr "axelar"; id := bstr "7" |}; source_address := bstr "governor";
     destination_chain := bstr "solana"; destination_address := arr_bytes governance_ID;
     payload_hash := keccak_hash ex_command_bytes |}.
Definition kgmp : Pubkey := addr (IncomingMessage.pda_seeds (command_id ex_gmp)) gateway_ID.

Definition w_gov : World :=
  let w := with_message ex_gmp kgmp governance_ID (world_after (take 1 ixs_message)) in
  mkWorld (<[kgov := mkAccount 10000000 governance_ID (DGovernanceConfig ex_config)]> (ledger w)) (now w) (log w).

Definition a_gmp : GovExecute :=
  {| ge_executable := {| ex_incoming_message_pda := acct kgmp false true;
       ex_signing_pda := acct (addr (ValidateMessageSigner.pda_seeds (command_id ex_gmp)) governance_ID) false false;
       ex_gateway_root_pda := acct kroot false false; ex_axelar_gateway_program := gateway_ID |};
     ge_system_program := system_program_ID; ge_payer := acct kpay true true;
     ge_governance_config := acct kgov false true; ge_proposal_pda := acct kproposal false true;
     ge_operator_proposal_pda := acct kmarker false true; ge_axelar_governance_program := governance_ID |}.

Definition w_scheduled : World := run (execute a_gmp ex_gmp ex_command_bytes) w_gov.
Lemma schedule_run : execute a_gmp ex_gmp ex_command_bytes w_gov = Ok (tt, w_scheduled).
Proof. apply run_ok. vm_compute. reflexivity. Qed.

Lemma governance_command_exact_witness :
  exists cmd target cd hash, governance_abi_decode ex_command_bytes = Some cmd /\
    arr_bytes target = gcp_target cmd /\ borsh_deserialize (gcp_call_data cmd) = Some (cd, []) /\
    ExecutableProposal.calculate_hash target cd (arr_le 32 (gcp_native_value cmd)) = Ok hash /\
    command_effect a_gmp ex_config hash cmd w_gov w_scheduled.
Proof.
  destruct (governance_command_exact a_gmp ex_gmp ex_command_bytes w_gov tt w_scheduled ex_config)
    as (_ & _ & _ & _ & H).
  - exact schedule_run.
  - vm_compute. reflexivity.
  - exact H.
Defined.

Lemma proposal_hash_binds_witness : ex_proposal = ex_proposal \/
  exists p1 p2, proposal_preimage ex_proposal = Some p1 /\ proposal_preimage ex_proposal = Some p2 /\
    keccak_collision p1 p2.
Proof.
  apply (proposal_hash_binds ex_proposal ex_proposal ex_hash); vm_compute; reflexivity.
Defined.

(** After the minimum delay, with the operator's approval also on chain. *)
Definition w_ready : World :=
  mkWorld (<[kmarker := mkAccount 5 governance_ID (DOperatorProposal OperatorProposal.mk)]> (ledger w_scheduled))
    5000 (log w_scheduled).

Definition a_execute : ExecuteProposal :=
  {| ep_system_program := system_program_ID; ep_governance_config := acct kgov false true;
     ep_proposal_pda := acct kproposal false true;
     ep_remaining_accounts := [acct kgov false true; acct kdest false false; acct kpay false true] |}.
Definition a_operator : ExecuteOperatorProposal :=
  {| eo_system_program := system_program_ID; eo_governance_config := acct kgov false true;
     eo_proposal_pda := acct kproposal false true; eo_operator := acct koper true false;
     eo_operator_pda_marker_account := acct kmarker false true;
     eo_remaining_accounts := [acct kgov false true; acct kdest false false; acct kpay false true] |}.

Lemma execute_timelock_safe_witness :
  execute_timelock_proposal a_execute ex_proposal (run (execute_timelock_proposal a_execute ex_proposal) w_ready)
    = Err (EAnchor AccountNotInitialized).
Proof.
  destruct (execute_timelock_safe a_execute ex_proposal w_ready tt
    (run (execute_timelock_proposal a_execute ex_proposal) w_ready))
    as (c & p & h & w1 & _ & _ & _ & _ & _ & _ & _ & _ & _ & H).
  - apply run_ok. vm_compute. reflexivity.
  - exact H.
Defined.

Lemma execute_operator_safe_witness : ExecutableProposal.hash_from_data ex_proposal = Ok ex_hash /\
  exists p, proposal_at w_ready kproposal p.
Proof.
  split; [vm_compute; reflexivity|].
  destruct (execute_operator_safe a_operator ex_proposal w_ready tt
    (run (execute_operator_proposal a_operator ex_proposal) w_ready))
    as (c & p & h & b & w1 & _ & H & _).
  - apply run_ok. vm_compute. reflexivity.
  - exists p. exact H.
Defined.

Definition a_withdraw : WithdrawTokens :=
  {| wt_system_program := system_program_ID; wt_governance_config := acct kgov true true;
     wt_receiver := acct kpay false true |}.

Lemma withdraw_exact_witness : gv (run (withdraw_tokens a_withdraw 100) w_gov) = gv w_gov.
Proof.
  destruct (withdraw_exact a_withdraw 100 w_gov tt (run (withdraw_tokens a_withdraw 100) w_gov))
    as (_ & _ & _ & H & _).
  - apply run_ok. vm_compute. reflexivity.
  - exact H.
Defined.

Definition vx_transfer : GovernanceInstruction := VxTransferOperatorship
  {| gt_system_program := system_program_ID; gt_operator_account := Some (acct koper true false);
     gt_governance_config := acct kgov false true |} kdest.

Lemma governance_config_authority_witness :
  exists c', config_at (run (governance_entry vx_transfer) w_gov) kgov c' /\ GovernanceConfig.delay_ok c'.
Proof.
  destruct (governance_config_authority vx_transfer w_gov tt (run (governance_entry vx_transfer) w_gov) ex_config)
    as (c' & H1 & _ & H2 & _).
  - vm_compute. reflexivity.
  - split; vm_compute; discriminate.
  - apply run_ok. vm_compute. reflexivity.
  - exists c'. split; [exact H1|exact H2].
Defined.
