(* ===== verification/WitnessesIts.v ===== *)
(** * Witnesses: ITS

    A run of ITS on the worlds of [Scenario.v]: the program is initialised, trusts a chain, deploys an
    interchain token, sends a transfer to the hub and receives one from it. *)

From stdpp Require Import base gmap list countable strings.
From Stdlib Require Import ZArith Lia.
From S2P Require Import Prelude Utf8Text Errors External BorshFormat StdInts StdTypes GatewayState Payload OperatorsState ItsState ItsText Ledger LedgerLemmas SplToken Gateway GatewayLemmas Executable GasService Its ItsOutbound ItsDeploy ItsExecute ItsLemmas ItsSpec ItsFlow ItsTransfers ItsRefines ItsInvariant ItsAuthority ItsCustody ItsSafety ItsTokens Instances InstancesSolana InstancesIts Scenario.

#[local] Existing Instances toy_abi toy_abi_laws toy_runtime toy_its_runtime_laws toy_spl toy_spl_laws toy_realloc
  toy_realloc_laws toy_network hub_message_codec token_payload_codec.
#[local] Instance vecs : BorshVec := borsh_vec_impl.

(** ** The accounts *)

Definition kits : Pubkey := addr InterchainTokenService.pda_seeds its_ID.
Definition kits_data : Pubkey := addr [arr_bytes its_ID] bpf_loader_upgradeable_ID.
Definition roles_of (resource user : Pubkey) : Pubkey := addr (UserRoles.pda_seeds resource user) its_ID.
Definition kgas_treasury : Pubkey := addr Treasury.pda_seeds gas_service_ID.
Definition kcall : Pubkey := addr [CallContractSigner.SEED_PREFIX] its_ID.

Definition ex_token : array 32 := interchain_token_id kpay (arr_zero 32).
Definition kmanager : Pubkey := addr (TokenManager.pda_seeds ex_token kits) its_ID.
Definition kmint : Pubkey := addr (TokenManager.mint_seeds ex_token kits) its_ID.
Definition ata_of (wallet : Pubkey) : Pubkey := get_associated_token_address wallet kmint spl_token_2022_ID.

(** The message of the hub: 40 tokens for a wallet. *)
Definition ex_inner : encoding.InterchainTransfer :=
  {| encoding.it_token_id := ex_token; encoding.it_source_address := bstr "sender";
     encoding.it_destination_address := arr_bytes kdest; encoding.it_amount := 40; encoding.it_data := None |}.
Definition ex_payload : bytes :=
  default [] (borsh_serialize (encoding.ReceiveFromHub (bstr "eth") (encoding.MInterchainTransfer ex_inner))).
Definition ex_hub_message : Message :=
  {| cc_id := {| chain := bstr "axelar"; id := bstr "7" |}; source_address := bstr "hub";
     destination_chain := bstr "solana"; destination_address := arr_bytes its_ID;
     payload_hash := keccak_hash ex_payload |}.
Definition khub_message : Pubkey := addr (IncomingMessage.pda_seeds (command_id ex_hub_message)) gateway_ID.
Definition ksign_message : Pubkey := addr (ValidateMessageSigner.pda_seeds (command_id ex_hub_message)) its_ID.

(** The gateway is deployed and has approved the message; the gas service has a treasury; the loader
    records the payer as the upgrade authority of ITS. *)
Definition put (k o : Pubkey) (d : AccountData) (L : Ledger) : Ledger := <[k := mkAccount 10000000 o d]> L.
Definition w_before : World :=
  let w := world_after [ix_init] in
  mkWorld (put kits_data bpf_loader_upgradeable_ID (DProgramData (Some kpay))
    (put kgas_treasury gas_service_ID (DTreasury (Treasury.mk Byte.xff))
    (put khub_message gateway_ID (DIncomingMessage
      (IncomingMessage.mk Byte.xff Byte.xff (arr_zero 3) MessageStatus.approved (message_hash ex_hub_message)
         (payload_hash ex_hub_message))) (ledger w)))) (now w) (log w).

(** ** The instructions *)

Definition jx_init : ItsInstruction := ItInitialize
  {| ti_payer := acct kpay true true; ti_program_data := acct kits_data false false;
     ti_its_root_pda := acct kits false true; ti_system_program := system_program_ID;
     ti_operator := acct koper true false; ti_user_roles_account := acct (roles_of kits koper) false true |}
  (bstr "solana") (bstr "hub").

Definition jx_trust : ItsInstruction := ItSetTrustedChain
  {| tc_payer := acct kpay true true; tc_user_roles := None; tc_program_data := Some (acct kits_data false false);
     tc_its_root_pda := acct kits false true; tc_system_program := system_program_ID |} (bstr "eth").

Definition a_deploy : DeployInterchainToken :=
  {| dt_payer := acct kpay true true; dt_deployer := acct kpay true true; dt_system_program := system_program_ID;
     dt_its_root_pda := acct kits false false; dt_token_manager_pda := acct kmanager false true;
     dt_token_mint := acct kmint false true; dt_token_manager_ata := acct (ata_of kmanager) false true;
     dt_token_program := spl_token_2022_ID; dt_associated_token_program := associated_token_ID;
     dt_sysvar_instructions := sysvar_instructions_ID; dt_mpl_token_metadata_program := token_metadata_ID;
     dt_mpl_token_metadata_account := acct (metadata_find_pda kmint) false true;
     dt_deployer_ata := acct (ata_of kpay) false true; dt_minter := Some (acct koper false false);
     dt_minter_roles_pda := Some (acct (roles_of kmanager koper) false true) |}.
Definition jx_deploy : ItsInstruction := ItDeployInterchainToken a_deploy
  (arr_zero 32) (bstr "Token") (bstr "TOK") 9 1000.

Definition jx_limit : ItsInstruction := ItSetFlowLimit
  {| fl_payer := acct kpay true true; fl_operator := acct koper true false; fl_its_root_pda := acct kits false false;
     fl_its_roles_pda := acct (roles_of kits koper) false false; fl_token_manager_pda := acct kmanager false true;
     fl_system_program := system_program_ID |} (Some 500).

Definition a_transfer : InterchainTransfer :=
  {| ix_payer := acct kpay true true; ix_authority := acct kpay true true;
     ix_gateway_root_pda := acct kroot false false; ix_gateway_program := gateway_ID;
     ix_call_contract_signing_pda := acct kcall false false; ix_gas_treasury := acct kgas_treasury false true;
     ix_gas_service := gas_service_ID; ix_its_root_pda := acct kits false false;
     ix_token_manager_pda := acct kmanager false true; ix_token_program := spl_token_2022_ID;
     ix_token_mint := acct kmint false true; ix_authority_token_account := acct (ata_of kpay) false true;
     ix_token_manager_ata := acct (ata_of kmanager) false true; ix_system_program := system_program_ID |}.
Definition jx_send : ItsInstruction :=
  ItInterchainTransfer a_transfer ex_token (bstr "eth") (bstr "receiver") 100 50 None None None.

Definition a_execute : Execute :=
  {| xe_executable := {| ex_incoming_message_pda := acct khub_message false true;
       ex_signing_pda := acct ksign_message false false; ex_gateway_root_pda := acct kroot false false;
       ex_axelar_gateway_program := gateway_ID |};
     xe_payer := acct kpay true true; xe_its_root_pda := acct kits false false;
     xe_token_manager_pda := acct kmanager false true; xe_token_mint := acct kmint false true;
     xe_token_manager_ata := acct (ata_of kmanager) false true; xe_token_program := spl_token_2022_ID;
     xe_associated_token_program := associated_token_ID; xe_system_program := system_program_ID;
     xe_remaining_accounts := [acct kdest false false; acct kdest false false; acct (ata_of kdest) false true] |}.
Definition jx_receive : ItsInstruction := ItExecute a_execute ex_hub_message ex_payload.

Definition jx_appoint : ItsInstruction := ItAddTokenManagerFlowLimiter
  {| ft_system_program := system_program_ID; ft_payer := acct kpay true true;
     ft_authority_user_account := acct koper true false;
     ft_authority_roles_account := acct (roles_of kmanager koper) false false;
     ft_its_root_pda := acct kits false false; ft_token_manager_pda := acct kmanager false false;
     ft_target_user_account := acct kdest false false;
     ft_target_roles_account := acct (roles_of kmanager kdest) false true |}.

Definition jx_pause : ItsInstruction := ItSetPauseStatus
  {| sp_payer := acct kpay true true; sp_program_data := acct kits_data false false;
     sp_its_root_pda := acct kits false true |} true.

Definition w_init : World := run (its_entry jx_init) w_before.
Definition w_trust : World := run (its_entry jx_trust) w_init.
Definition w_deployed : World := run (its_entry jx_deploy) w_trust.
Definition w_limited : World := run (its_entry jx_limit) w_deployed.
Definition w_sent : World := run (its_entry jx_send) w_limited.
Definition w_received : World := run (its_entry jx_receive) w_sent.
Definition w_appointed : World := run (its_entry jx_appoint) w_received.
Definition w_paused : World := run (its_entry jx_pause) w_appointed.

(** ** Reaching the worlds *)

Lemma run_step l ix w : its_run l w -> succeeds (its_entry ix) w = true -> its_run ((ix, w) :: l) (run (its_entry ix) w).
Proof. intros Hl Hs. eapply RunStep; [exact Hl|]. by apply run_ok. Qed.

Definition steps : list (ItsInstruction * World) :=
  [(jx_pause, w_appointed); (jx_appoint, w_received); (jx_receive, w_sent); (jx_send, w_limited);
   (jx_limit, w_deployed); (jx_deploy, w_trust); (jx_trust, w_init); (jx_init, w_before)].

Lemma paused_reachable : its_run steps w_paused.
Proof.
  unfold steps. do 8 (apply run_step; [|by vm_compute]). apply RunStart. by vm_compute.
Qed.

Lemma its_refines_spec_witness : exists es, length es = 8%nat /\ spec_run es (its w_paused).
Proof.
  exists ((fun p => its_env p.1 p.2) <$> steps). split; [reflexivity|].
  apply (its_refines_spec steps w_paused). exact paused_reachable.
Defined.

Lemma its_accounts_wf_witness : its_wf (its w_paused).
Proof. apply (its_accounts_wf steps w_paused). exact paused_reachable. Defined.

Definition manager_of (w : World) : TokenManager.t :=
  match its w !! kmanager with Some (DTokenManager t) => t | _ => TokenManager.zeroed end.
Lemma manager_of_ok w :
  (if its w !! kmanager is Some (DTokenManager _) then true else false) = true ->
  its w !! kmanager = Some (DTokenManager (manager_of w)).
Proof. unfold manager_of. destruct (its w !! kmanager) as [[]|]; done. Qed.

Lemma its_config_authority_witness :
  exists t', its w_limited !! kmanager = Some (DTokenManager t') /\
    manager_change (its_env jx_limit w_deployed) (its w_deployed) kmanager (manager_of w_deployed) t'.
Proof.
  apply (its_config_authority jx_limit w_deployed tt w_limited kmanager).
  - apply run_ok. vm_compute. reflexivity.
  - apply manager_of_ok. vm_compute. reflexivity.
Defined.

Lemma appointed_holds :
  ~ holds (its w_received) (roles_of kmanager kdest) ROLE_FLOW_LIMITER /\
  holds (its w_appointed) (roles_of kmanager kdest) ROLE_FLOW_LIMITER.
Proof.
  split.
  - intros (r & Hr & _). assert (its w_received !! roles_of kmanager kdest = None) as H by (by vm_compute). congruence.
  - exists (UserRoles.mk ROLE_FLOW_LIMITER Byte.xff). split; by vm_compute.
Qed.

Lemma its_roles_authority_witness :
  granted (its_env jx_appoint w_received) (its w_received) (roles_of kmanager kdest) ROLE_FLOW_LIMITER.
Proof.
  apply (its_roles_authority jx_appoint w_received tt w_appointed).
  - apply run_ok. vm_compute. reflexivity.
  - right. right. reflexivity.
  - exact (proj1 appointed_holds).
  - exact (proj2 appointed_holds).
Defined.

(** Two transfers, in different directions. *)
Definition ex_flows : list Flow :=
  [{| fl_time := 100; fl_dir := FlowOut; fl_amount := 300 |}; {| fl_time := 200; fl_dir := FlowIn; fl_amount := 400 |}].
Definition limited_manager : TokenManager.t :=
  TokenManager.mk MintBurn (arr_zero 32) (arr_zero 32) (arr_zero 32) (FlowState.mk (Some 500) 0 0 0) Byte.x00.

Lemma ex_flows_ordered : ordered ex_flows.
Proof.
  unfold ex_flows. intros l1 x l2 y H Hy. destruct l1 as [|a [|b l1]]; [by apply elem_of_nil in Hy|..]; simplify_eq/=.
  - apply list_elem_of_singleton in Hy as ->. cbn. lia.
  - by destruct l1.
Qed.

Lemma flow_limit_exact_witness : allowed 500 ex_flows.
Proof.
  apply (flow_limit_exact 500 limited_manager ex_flows); [reflexivity|exact ex_flows_ordered|].
  eexists. vm_compute. reflexivity.
Defined.

(** ** Transfers *)

Lemma interchain_transfer_exact_witness :
  outbound_outcome a_transfer ex_token (bstr "eth") (bstr "receiver") 100 50 None None None w_limited w_sent.
Proof.
  apply (interchain_transfer_exact a_transfer ex_token (bstr "eth") (bstr "receiver") 100 50 None None None
    w_limited tt w_sent). apply run_ok. vm_compute. reflexivity.
Defined.

Lemma hub_message_exact_witness :
  exists c sc inner v, hub_message_received a_execute ex_hub_message ex_payload c sc inner w_sent v.
Proof.
  destruct (hub_message_exact a_execute ex_hub_message ex_payload w_sent tt w_received) as (c & sc & inner & v & H & _).
  - apply run_ok. vm_compute. reflexivity.
  - exists c, sc, inner, v. exact H.
Defined.

Definition root_of (w : World) : InterchainTokenService.t :=
  match its w !! kits with Some (DIts c) => c | _ => InterchainTokenService.zeroed end.

Lemma paused_stops_its_witness : exists e, its_entry jx_send w_paused = Err e.
Proof.
  apply (paused_stops_its steps w_paused kits (root_of w_paused)).
  - exact paused_reachable.
  - vm_compute. reflexivity.
  - vm_compute. reflexivity.
  - reflexivity.
Defined.

(** The tokens that moved. *)
Example tokens_moved :
  (balance (ledger w_sent) spl_token_2022_ID (ata_of kpay), balance (ledger w_received) spl_token_2022_ID (ata_of kdest),
   supply (ledger w_received) spl_token_2022_ID kmint) = (900, 40, 940).
Proof. by vm_compute. Qed.

(** ** Custody *)

(** An outgoing transfer takes the balance of its sender down. *)
Lemma balances_fall_by_transfers_witness :
  exists v n, settles jx_send v w_sent /\
    (balance (ledger v) spl_token_2022_ID (ata_of kpay) < balance (ledger w_limited) spl_token_2022_ID (ata_of kpay) ->
     spends jx_send w_limited spl_token_2022_ID (ata_of kpay) n).
Proof.
  destruct (balances_fall_by_transfers jx_send w_limited tt w_sent) as (v & Hs & H).
  - apply run_ok. vm_compute. reflexivity.
  - destruct (decide (balance (ledger v) spl_token_2022_ID (ata_of kpay) <
      balance (ledger w_limited) spl_token_2022_ID (ata_of kpay))) as [Hlt|Hge].
    + destruct (H spl_token_2022_ID (ata_of kpay)) as (n & Hn & _); [vm_compute; reflexivity|exact Hlt|].
      exists v, n. split; [exact Hs|]. intros _. exact Hn.
    + exists v, 0. split; [exact Hs|]. intros Hlt. contradiction.
Defined.

(** An incoming transfer mints. *)
Lemma mints_change_by_authority_witness :
  exists v ms', settles jx_receive v w_received /\ mint_at (ledger v) spl_token_2022_ID kmint = Some ms' /\
    mint_change jx_receive w_sent spl_token_2022_ID kmint (mkMint (Some kmanager) 900 9) ms'.
Proof.
  destruct (mints_change_by_authority jx_receive w_sent tt w_received) as (v & Hs & H).
  - apply run_ok. vm_compute. reflexivity.
  - destruct (H spl_token_2022_ID kmint (mkMint (Some kmanager) 900 9)) as (ms' & Hm & _ & Hc);
      [vm_compute; reflexivity|vm_compute; reflexivity|]. exists v, ms'. split; [exact Hs|]. split; [exact Hm|exact Hc].
Defined.

(** The deployment, with its minter and its supply of 1000. *)
Definition deploy_run : Instr (array 32) :=
  deploy_interchain_token a_deploy (arr_zero 32) (bstr "Token") (bstr "TOK") 9 1000.

Lemma deploy_interchain_token_exact_witness :
  deploy_outcome a_deploy (arr_zero 32) (bstr "Token") (bstr "TOK") 9 1000 ex_token w_trust (run deploy_run w_trust).
Proof.
  apply (deploy_interchain_token_exact a_deploy (arr_zero 32) (bstr "Token") (bstr "TOK") 9 1000).
  apply yields_ok. vm_compute. reflexivity.
Defined.

(** ** Truncation *)

(** The two bytes of the last character of "café" are kept together. *)
Definition ex_cafe : bytes := bstr "caf" ++ [Byte.xc3; Byte.xa9].

Lemma cafe_valid : valid_utf8 ex_cafe.
Proof. eexists. vm_compute. reflexivity. Qed.

Lemma truncate_utf8_exact_witness :
  exists n : nat, (n <= 3)%nat /\ nsteps (cut_step ex_cafe) n 4%nat 3%nat /\ truncate_utf8 ex_cafe 4%nat = bstr "caf".
Proof.
  destruct (truncate_utf8_exact ex_cafe 4%nat cafe_valid) as (_ & _ & _ & n & cut & Hn & Hs & _ & E).
  assert (truncate_utf8 ex_cafe 4%nat = bstr "caf") as T by (vm_compute; reflexivity).
  assert (cut = 3%nat) as ->.
  { rewrite T in E. destruct cut as [|[|[|[|[|cut]]]]]; try discriminate E. reflexivity. }
  exists n. exact (conj Hn (conj Hs T)).
Defined.
