(* ===== verification/WitnessesMemo.v ===== *)
(** * Witnesses: the memo program

    The memo program counts a message that the gateway approved, and the tokens that ITS brings it. *)

From stdpp Require Import base gmap list countable strings.
From Stdlib Require Import ZArith Lia.
From S2P Require Import Prelude Errors External BorshFormat StdInts StdTypes GatewayState GatewaySession Payload ItsState MemoState Ledger LedgerLemmas SplToken Gateway GatewayLemmas GatewaySpec GatewaySafety Executable GasService Its ItsOutbound ItsDeploy ItsExecute ItsLemmas ItsSpec ItsTransfers Memo MemoSafety Instances InstancesSolana InstancesIts Scenario WitnessesIts.

#[local] Existing Instances toy_abi toy_abi_laws toy_spl toy_spl_laws toy_realloc
  toy_realloc_laws toy_network hub_message_codec token_payload_codec.
#[local] Existing Instance WitnessesIts.vecs.
#[local] Instance vecs_laws : BorshVecLaws := borsh_vec_impl_laws.

(** ** A message *)

Definition kcounter : Pubkey := addr Counter.pda_seeds memo_ID.
Definition memo_text : bytes := bstr "hello".
Definition counter_repr : SolanaAccountRepr :=
  {| sar_pubkey := kcounter; sar_is_signer := false; sar_is_writable := true |}.
Definition ex_memo_payload : bytes :=
  match encode (payload_new (fun r => r) memo_text [counter_repr] AbiEncoding) with Ok b => b | Err _ => [] end.

Definition memo_msg : Message :=
  {| cc_id := {| chain := bstr "eth"; id := bstr "2" |}; source_address := bstr "src";
     destination_chain := bstr "solana"; destination_address := arr_bytes memo_ID;
     payload_hash := keccak_hash ex_memo_payload |}.
Definition memo_leaf : MessageLeaf := msg_leaf {| messages_0 := [memo_msg] |} ex_ds 0 memo_msg.
Definition memo_tree : MerkleTree := merkle_tree SolanaHasher [memo_leaf].
Definition memo_batch : Hash32 := default (arr_zero 32) (tree_root SolanaHasher memo_tree).
Definition kmemo_message : Pubkey := addr (IncomingMessage.pda_seeds (command_id memo_msg)) gateway_ID.
Definition kmemo_session : Pubkey :=
  addr (Session.pda_seeds memo_batch (payload_type_into_u8 StdTypes.ApproveMessages) ex_set) gateway_ID.

Definition ixs_memo : list GatewayInstruction :=
  [ix_init; ix_session kmemo_session memo_batch StdTypes.ApproveMessages;
   ix_verify kmemo_session memo_batch (approve_info 0 11 3);
   ix_verify kmemo_session memo_batch (approve_info 1 12 4);
   IxApproveMessage
     {| am_gateway_root_pda := acct kroot false false; am_funder := acct kpay true true;
        am_verification_session_account := acct kmemo_session false false;
        am_incoming_message_pda := acct kmemo_message false true; am_system_program := system_program_ID |}
     {| mm_leaf := memo_leaf; mm_proof := proof_to_bytes (tree_proof SolanaHasher memo_tree [0]) |} memo_batch].

Definition mx_init : MemoInstruction := MoInit
  {| in_payer := acct kpay true true; in_counter := acct kcounter false true; in_system_program := system_program_ID |}.

Definition a_memo : MemoExecute :=
  {| mx_executable := {| ex_incoming_message_pda := acct kmemo_message false true;
       ex_signing_pda := acct (addr (ValidateMessageSigner.pda_seeds (command_id memo_msg)) memo_ID) false false;
       ex_gateway_root_pda := acct kroot false false; ex_axelar_gateway_program := gateway_ID |};
     mx_event_authority := acct kdest false false; mx_counter := acct kcounter false true |}.
Definition mx_execute : MemoInstruction := MoExecute a_memo memo_msg memo_text AbiEncoding.

(** Instructions of the gateway, while there is no counter. *)
Fixpoint run_uncounted (ixs : list GatewayInstruction) (w : World) : option World :=
  match ixs with
  | [] => Some w
  | ix :: ixs =>
      match gateway_entry ix w with
      | Ok (_, w) => if map_to_list (mo w) is [] then run_uncounted ixs w else None
      | Err _ => None
      end
  end.

Definition w_memo_approved : World := default w_start (run_uncounted ixs_memo w_start).
Definition w_counter : World := run (memo_entry mx_init) w_memo_approved.
Definition w_counted : World := run (memo_entry mx_execute) w_counter.

Example memo_run_succeeds :
  succeeds (memo_entry mx_init) w_memo_approved && succeeds (memo_entry mx_execute) w_counter = true.
Proof. by vm_compute. Qed.

(** The client's builder gives the instruction. *)
Example memo_init_built : make_init_ix kpay = Ok mx_init.
Proof. vm_compute. reflexivity. Qed.

(** ** The run *)

Definition submitted_memo (ix : GatewayInstruction) : Prop := In ix ixs_memo.

Lemma run_uncounted_ok ixs w w' :
  memo_run submitted_memo [] w -> mo w = ∅ -> (forall ix, In ix ixs -> submitted_memo ix) ->
  run_uncounted ixs w = Some w' -> memo_run submitted_memo [] w'.
Proof.
  revert w. induction ixs as [|ix ixs IH]; intros w Hw Hm Hs; cbn; [by intros [= <-]|].
  destruct (gateway_entry ix w) as [[u w1]|e] eqn:E; [|done].
  destruct (map_to_list (mo w1)) eqn:Hl; [|done]. apply map_to_list_empty_iff in Hl.
  apply IH; [|done|by intros ??; apply Hs; right].
  eapply MemoGateway; [exact Hw|apply Hs; by left|exact E|congruence].
Qed.

Lemma approved_run : memo_run submitted_memo [] w_memo_approved.
Proof.
  assert (mo w_start = ∅) as Hm by (vm_compute; reflexivity).
  assert ((if run_uncounted ixs_memo w_start is Some _ then true else false) = true) as Hr by (vm_compute; reflexivity).
  apply (run_uncounted_ok ixs_memo w_start); [|exact Hm|exact (fun _ H => H)|].
  - apply MemoStart; [vm_compute; reflexivity|reflexivity|exact Hm].
  - unfold w_memo_approved. destruct (run_uncounted ixs_memo w_start); [reflexivity|discriminate].
Qed.

Lemma memo_step_run l ix w : memo_run submitted_memo l w -> (forall m, memo_message ix = Some m -> m = memo_msg) ->
  succeeds (memo_entry ix) w = true -> memo_run submitted_memo (ix :: l) (run (memo_entry ix) w).
Proof.
  intros Hl Hm Hs. eapply MemoStep; [exact Hl| |by apply run_ok]. intros m ->%Hm.
  exists (List.last ixs_memo ix_init). split; [|reflexivity]. do 4 right. by left.
Qed.

Lemma counted_run : memo_run submitted_memo [mx_execute; mx_init] w_counted.
Proof.
  apply memo_step_run; [apply memo_step_run; [exact approved_run|done|by vm_compute]|by intros m [= <-]|by vm_compute].
Qed.

Lemma memo_counts_witness : exists k b, mo w_counted = {[k := DCounter (Counter.mk 1 b)]}.
Proof.
  destruct (memo_counts submitted_memo [mx_execute; mx_init] w_counted counted_run) as [[_ H]|(k & b & _ & H & _)].
  - vm_compute in H. discriminate.
  - exists k, b. exact H.
Defined.

Lemma memo_messages_once_witness : NoDup [command_id memo_msg].
Proof.
  destruct (memo_messages_once submitted_memo [mx_execute; mx_init] w_counted counted_run) as [H _].
  - assert (forall m, occurs submitted_memo m -> m = memo_msg) as Hm.
    { intros m (ix & Hin & Hc). repeat destruct Hin as [<-|Hin]; done. }
    intros m1 m2 H1 H2 _. rewrite (Hm m1 H1), (Hm m2 H2). reflexivity.
  - exact H.
Defined.

(** ** Reception *)

Definition counter_of (w : World) : Counter.t :=
  match mo w !! kcounter with Some (DCounter c) => c | _ => Counter.zeroed end.
Lemma counter_of_ok w :
  (if mo w !! kcounter is Some (DCounter _) then true else false) = true -> mo w !! kcounter = Some (DCounter (counter_of w)).
Proof. unfold counter_of. destruct (mo w !! kcounter) as [[]|]; done. Qed.

Definition memo_incoming : IncomingMessage.t :=
  match gw w_counter !! kmemo_message with Some (DIncomingMessage m) => m | _ => IncomingMessage.zeroed end.
Lemma memo_incoming_ok : gw w_counter !! kmemo_message = Some (DIncomingMessage memo_incoming).
Proof.
  assert ((if gw w_counter !! kmemo_message is Some (DIncomingMessage _) then true else false) = true) as H by by vm_compute.
  unfold memo_incoming. destruct (gw w_counter !! kmemo_message) as [[]|]; done.
Qed.

Lemma memo_accounts_ok : executable_accounts memo_ID (mx_executable a_memo) memo_msg w_counter = Ok (tt, w_counter).
Proof.
  assert (succeeds (executable_accounts memo_ID (mx_executable a_memo) memo_msg) w_counter = true) as H by by vm_compute.
  apply run_ok in H. pose proof (executable_accounts_world _ _ _ _ _ _ H) as E. rewrite E in H. exact H.
Qed.

Lemma memo_execute_exact_witness :
  (exists w', memo_entry mx_execute w_counter = Ok (tt, w')) /\
  memo_received a_memo memo_msg memo_text AbiEncoding w_counter w_counted /\
  ~ (exists w', memo_entry (MoExecute a_memo memo_msg (bstr "other") AbiEncoding) w_counter = Ok (tt, w')).
Proof.
  assert (counter_at w_counter kcounter (counter_of w_counter)) as Hc.
  { split; [apply counter_of_ok; vm_compute; reflexivity|vm_compute; reflexivity]. }
  destruct (memo_execute_exact a_memo memo_msg memo_text AbiEncoding w_counter memo_incoming (counter_of w_counter))
    as [_ H].
  - exact memo_accounts_ok.
  - exact memo_incoming_ok.
  - vm_compute. reflexivity.
  - exact Hc.
  - reflexivity.
  - destruct (memo_execute_exact a_memo memo_msg (bstr "other") AbiEncoding w_counter memo_incoming (counter_of w_counter))
      as [H2 _]; [exact memo_accounts_ok|exact memo_incoming_ok|vm_compute; reflexivity|exact Hc|reflexivity|].
    assert (memo_entry mx_execute w_counter = Ok (tt, w_counted)) as Hrun by (apply run_ok; vm_compute; reflexivity).
    split; [by exists w_counted|]. split; [by apply H|].
    intros ((e & He & Hh) & _)%H2. vm_compute in He. injection He as <-. vm_compute in Hh. discriminate.
Defined.

(** ** Transfers out *)

Definition a_send : SendInterchainTransfer :=
  {| si_payer := acct kpay true true; si_counter := acct kcounter false false; si_gateway_root_pda := acct kroot false false;
     si_gateway_program := gateway_ID; si_call_contract_signing_pda := acct kcall false false;
     si_gas_treasury := acct kgas_treasury false true; si_gas_service := gas_service_ID;
     si_its_root_pda := acct kits false false; si_its_program := its_ID;
     si_token_manager_pda := acct kmanager false true; si_token_program := spl_token_2022_ID;
     si_token_mint := acct kmint false true; si_counter_pda_ata := acct (ata_of kcounter) false true;
     si_token_manager_ata := acct (ata_of kmanager) false true; si_system_program := system_program_ID |}.

Lemma bump_addresses b :
  bool_decide (toy_address [Counter.SEED_PREFIX; [Byte.xff]; [b]] memo_ID = toy_address [Counter.SEED_PREFIX; [Byte.xff]] memo_ID)
    = false.
Proof. destruct b; vm_compute; reflexivity. Qed.

Lemma no_second_bump b k :
  create_program_address [Counter.SEED_PREFIX; [Counter.bump (counter_of w_counter)]; [b]] memo_ID = Some k ->
  create_program_address [Counter.SEED_PREFIX; [Counter.bump (counter_of w_counter)]] memo_ID <> Some k.
Proof.
  assert (Counter.bump (counter_of w_counter) = Byte.xff) as -> by (vm_compute; reflexivity).
  intros H1 H2. pose proof (bump_addresses b) as Hb. apply bool_decide_eq_false in Hb. apply Hb.
  assert (Some (toy_address [Counter.SEED_PREFIX; [Byte.xff]; [b]] memo_ID) =
    Some (toy_address [Counter.SEED_PREFIX; [Byte.xff]] memo_ID)) as E by exact (eq_trans H1 (eq_sym H2)).
  exact (f_equal (default (arr_zero 32)) E).
Qed.

Lemma memo_transfer_refused_witness :
  exists e, memo_entry (MoSendInterchainTransfer a_send ex_token (bstr "eth") (bstr "receiver") 10 0) w_counter = Err e.
Proof.
  destruct (memo_transfer_refused a_send ex_token (bstr "eth") (bstr "receiver") 10 0 w_counter (counter_of w_counter))
    as [H _].
  - apply counter_of_ok. vm_compute. reflexivity.
  - exact no_second_bump.
  - exact H.
Defined.

(** ** Tokens from ITS *)

Definition kauthority : Pubkey := addr [ITS_TOKEN_AUTHORITY_SEED] memo_ID.
Definition kexecute : Pubkey := addr (InterchainTransferExecute.pda_seeds memo_ID) its_ID.

(** The data: a text, the counter, and the account that the tokens go on to. *)
Definition ex_data : bytes :=
  match encode (payload_new (fun r => r) memo_text
    [counter_repr; {| sar_pubkey := ata_of kpay; sar_is_signer := false; sar_is_writable := true |}] AbiEncoding)
  with Ok b => b | Err _ => [] end.
Definition ex_memo_transfer : encoding.InterchainTransfer :=
  {| encoding.it_token_id := ex_token; encoding.it_source_address := bstr "sender";
     encoding.it_destination_address := arr_bytes memo_ID; encoding.it_amount := 40; encoding.it_data := Some ex_data |}.
Definition ex_hub_payload : bytes :=
  default [] (borsh_serialize (encoding.ReceiveFromHub (bstr "eth") (encoding.MInterchainTransfer ex_memo_transfer))).
Definition ex_transfer_message : Message :=
  {| cc_id := {| chain := bstr "axelar"; id := bstr "8" |}; source_address := bstr "hub";
     destination_chain := bstr "solana"; destination_address := arr_bytes its_ID;
     payload_hash := keccak_hash ex_hub_payload |}.
Definition ktransfer_message : Pubkey := addr (IncomingMessage.pda_seeds (command_id ex_transfer_message)) gateway_ID.

Definition a_execute_memo : Execute :=
  {| xe_executable := {| ex_incoming_message_pda := acct ktransfer_message false true;
       ex_signing_pda := acct (addr (ValidateMessageSigner.pda_seeds (command_id ex_transfer_message)) its_ID) false false;
       ex_gateway_root_pda := acct kroot false false; ex_axelar_gateway_program := gateway_ID |};
     xe_payer := acct kpay true true; xe_its_root_pda := acct kits false false;
     xe_token_manager_pda := acct kmanager false true; xe_token_mint := acct kmint false true;
     xe_token_manager_ata := acct (ata_of kmanager) false true; xe_token_program := spl_token_2022_ID;
     xe_associated_token_program := associated_token_ID; xe_system_program := system_program_ID;
     xe_remaining_accounts := [acct memo_ID false false; acct kauthority false false; acct (ata_of kauthority) false true;
       acct kexecute false false; acct kcounter false true; acct (ata_of kpay) false true] |}.
Definition jx_memo : ItsInstruction := ItExecute a_execute_memo ex_transfer_message ex_hub_payload.

(** The memo program is deployed and has a counter; the gateway has approved the message. *)
Definition w_ready : World :=
  let w := run (memo_entry mx_init) w_sent in
  mkWorld (put memo_ID bpf_loader_upgradeable_ID (DOther [])
    (put ktransfer_message gateway_ID (DIncomingMessage
      (IncomingMessage.mk Byte.xff Byte.xff (arr_zero 3) MessageStatus.approved (message_hash ex_transfer_message)
         (payload_hash ex_transfer_message))) (ledger w))) (now w) (log w).

#[local] Instance ex_deployed : Runtime := memo_runtime toy_runtime.
Definition w_reached : World := run (its_entry jx_memo) w_ready.

Example reached : succeeds (its_entry jx_memo) w_ready = true.
Proof. vm_compute. reflexivity. Qed.

(** The 40 tokens went through the account of the memo program to the payer. *)
Example tokens_forwarded :
  (balance (ledger w_ready) spl_token_2022_ID (ata_of kpay), balance (ledger w_reached) spl_token_2022_ID (ata_of kpay),
   balance (ledger w_reached) spl_token_2022_ID (ata_of kauthority)) = (900, 940, 0).
Proof. vm_compute. reflexivity. Qed.

Lemma token_payload_laws : BorshLaws AxelarExecuteWithInterchainTokenPayload.
Proof. eapply @borsh_iso_laws; [codec_laws|by intros []]. Qed.

Lemma hub_transfer_reaches_memo_witness :
  exists k c, counted k c w_ready w_reached.
Proof.
  destruct (hub_transfer_reaches_memo toy_runtime toy_its_runtime_laws a_execute_memo ex_transfer_message ex_hub_payload
    w_ready tt w_reached (bstr "eth") ex_memo_transfer ex_data (codec_laws := token_payload_laws))
    as (p & cs & c & k & rest & ty & authority & b & n & v & _ & _ & _ & H & _).
  - apply run_ok. vm_compute. reflexivity.
  - vm_compute. reflexivity.
  - vm_compute. reflexivity.
  - reflexivity.
  - vm_compute. discriminate.
  - exists k, c. exact H.
Defined.

(** A second transfer, that stays with the program. *)
Definition a_memo_tokens : MemoExecuteWithInterchainToken :=
  {| mt_its_executable := {| ae_token_program := spl_token_2022_ID; ae_token_mint := acct kmint false true;
       ae_destination_token_authority := acct kauthority false false;
       ae_destination_program_ata := acct (ata_of kauthority) false true;
       ae_interchain_transfer_execute := acct kexecute true false |};
     mt_counter := acct kcounter false true; mt_remaining_accounts := [] |}.
Definition ex_token_payload : AxelarExecuteWithInterchainTokenPayload :=
  {| ap_command_id := arr_zero 32; ap_source_chain := bstr "eth"; ap_source_address := bstr "sender";
     ap_token_id := ex_token; ap_token_mint := kmint; ap_amount := 5; ap_data := memo_text |}.
Definition mx_tokens : MemoInstruction := MoExecuteWithInterchainToken a_memo_tokens ex_token_payload.

Lemma memo_tokens_exact_witness :
  memo_tokens_received a_memo_tokens ex_token_payload w_reached (run (memo_entry mx_tokens) w_reached).
Proof.
  apply (memo_tokens_exact a_memo_tokens ex_token_payload w_reached tt (run (memo_entry mx_tokens) w_reached)).
  apply run_ok. vm_compute. reflexivity.
Defined.
