(* ===== verification/WitnessesClient.v ===== *)
(** * Witnesses: the instructions of clients

    In the run of [WitnessesIts.v], instructions that the client builders give: limits, roles, the
    configuration, a transfer, and the delivery of a message that the gateway approves. *)

From stdpp Require Import base gmap list countable strings.
From Stdlib Require Import ZArith Lia.
From S2P Require Import Prelude Errors External BorshFormat StdInts StdTypes GatewayState GatewaySession Payload OperatorsState ItsState Ledger LedgerLemmas SplToken Gateway GatewayLemmas GatewayOutcomes Executable GasService Its ItsOutbound ItsDeploy ItsExecute ItsClient ItsLemmas ItsSpec ItsTransfers ItsRefines ItsInvariant ItsCustody ItsSafety ItsProgress ItsAdmin ItsDelivery Instances InstancesSolana InstancesIts Scenario WitnessesIts.

#[local] Existing Instances toy_abi toy_abi_laws toy_runtime toy_its_runtime_laws toy_spl toy_spl_laws toy_realloc
  toy_realloc_laws toy_network hub_message_codec token_payload_codec toy_loader toy_loader_laws.
#[local] Existing Instance WitnessesIts.vecs.

(** ** The worlds *)

Lemma limited_reachable : its_run (drop 4 steps) w_limited.
Proof. unfold steps. cbn [drop]. do 4 (apply run_step; [|by vm_compute]). apply RunStart. by vm_compute. Qed.

Lemma deployed_reachable : its_run (drop 5 steps) w_deployed.
Proof. unfold steps. cbn [drop]. do 3 (apply run_step; [|by vm_compute]). apply RunStart. by vm_compute. Qed.

Lemma root_of_ok w : (if its w !! kits is Some (DIts _) then true else false) = true -> its w !! kits = Some (DIts (root_of w)).
Proof. unfold root_of. destruct (its w !! kits) as [[]|]; done. Qed.

Definition roles_in (w : World) (k : Pubkey) : UserRoles.t :=
  match its w !! k with Some (DUserRoles r) => r | _ => UserRoles.zeroed end.
Lemma roles_in_ok w k : (if its w !! k is Some (DUserRoles _) then true else false) = true -> its w !! k = Some (DUserRoles (roles_in w k)).
Proof. unfold roles_in. destruct (its w !! k) as [[]|]; done. Qed.

(** The operator's roles accounts on ITS and on the token. *)
Lemma operator_account w resource :
  (if its w !! roles_of resource koper is Some (DUserRoles r) then bool_decide (UserRoles.bump r = Byte.xff) else false) = true ->
  roles_account w resource koper (roles_of resource koper) (roles_in w (roles_of resource koper)).
Proof.
  intros H. unfold roles_account, roles_in. destruct (its w !! roles_of resource koper) as [[]|]; try done.
  apply bool_decide_eq_true in H. split; [|done]. rewrite H. reflexivity.
Qed.

(** ** Limits *)

Lemma flow_limit_instructions_exact_witness :
  exists ix w', make_set_flow_limit_instruction kpay koper (TokenManager.token_id (manager_of w_deployed)) (Some 500) = Ok ix /\
    its_entry ix w_deployed = Ok (tt, w') /\
    limit_was_set kmanager koper (manager_of w_deployed) (Some 500) w_deployed w'.
Proof.
  destruct (flow_limit_instructions_exact (drop 5 steps) w_deployed kmanager (manager_of w_deployed) kpay koper (Some 500))
    as (root & c & Hc & H & _).
  - exact deployed_reachable.
  - apply manager_of_ok. vm_compute. reflexivity.
  - assert (root = kits) as ->.
    { eapply (wf_root_unique (its w_deployed)); [eapply its_run_wf, deployed_reachable|exact Hc|].
      apply root_of_ok. vm_compute. reflexivity. }
    destruct (H (roles_of kits koper) (roles_in w_deployed (roles_of kits koper))) as (ix & Hix & Hr).
    { apply operator_account. vm_compute. reflexivity. }
    assert (UserRoles.has_operator_role (roles_in w_deployed (roles_of kits koper)) = true) as E by (vm_compute; reflexivity).
    assert (flow_limit_of (manager_of w_deployed) <> Some 500) as E' by (vm_compute; discriminate).
    rewrite E, (bool_decide_eq_false_2 _ E') in Hr. destruct Hr as (w' & Hw' & Hs). exists ix, w'. exact (conj Hix (conj Hw' Hs)).
Defined.

(** ** A transfer *)

Definition got {E A} (d : A) (r : result E A) : A := if r is Ok x then x else d.
Lemma got_ok {E A} (d : A) (r : result E A) : is_ok r = true -> r = Ok (got d r).
Proof. by destruct r. Qed.
Lemma okay_got {A} (r : Result A) : is_ok r = true -> okay r.
Proof. destruct r as [x|e]; [by exists x|done]. Qed.
Lemma some_default {A} (d : A) (o : option A) : bool_decide (is_Some o) = true -> o = Some (default d o).
Proof. by destruct o. Qed.

Definition ex_burn : Result Ledger :=
  token_invoke spl_token_2022_ID (Burn kmint (ata_of kpay) kpay 100) (ledger w_limited).
Definition L_burnt : Ledger := got ∅ ex_burn.

Lemma ex_burn_ok : token_invoke spl_token_2022_ID (Burn kmint (ata_of kpay) kpay 100) (ledger w_limited) = Ok L_burnt.
Proof. unfold L_burnt. fold ex_burn. apply got_ok. vm_compute. reflexivity. Qed.

Definition no_mint : MintState := mkMint None 0 0.
Definition no_token : TokenAccountState := mkToken (arr_zero 32) (arr_zero 32) 0.
Definition mint_bytes (w : World) : bytes := default [] (owned_bytes (ledger w) spl_token_2022_ID kmint).

Lemma ex_mint w km :
  bool_decide (is_Some (owned_bytes (ledger w) spl_token_2022_ID kmint)) &&
  bool_decide (is_Some (toy_mint (mint_bytes w))) &&
  bool_decide (ms_mint_authority (default no_mint (toy_mint (mint_bytes w))) = Some km) = true ->
  exists b ms, owned_bytes (ledger w) spl_token_2022_ID kmint = Some b /\ mint_unpack b = Some ms /\
    mint_unpack_from_slice b = Some ms /\ ms_mint_authority ms = Some km.
Proof.
  intros [[H1 H2]%andb_true_iff H3%bool_decide_eq_true]%andb_true_iff. apply (some_default []) in H1.
  apply (some_default no_mint) in H2. exists (mint_bytes w), (default no_mint (toy_mint (mint_bytes w))). by split_and!.
Qed.

Lemma ex_token_account w k wallet :
  (if token_at (ledger w) spl_token_2022_ID k is Some s
   then bool_decide (ta_owner s = wallet) && bool_decide (ta_mint s = kmint) else false) = true ->
  exists s, ta_owner s = wallet /\ ta_mint s = kmint /\ token_at (ledger w) spl_token_2022_ID k = Some s.
Proof. destruct (token_at _ _ _) as [s|]; [|done]. intros [?%bool_decide_eq_true ?%bool_decide_eq_true]%andb_true_iff. by exists s. Qed.

Lemma ex_gateway w :
  (if gw w !! kroot is Some (DGatewayConfig c) then bool_decide (GatewayConfig.bump c = Byte.xff) else false) = true ->
  exists cfg, root_loaded w kroot cfg.
Proof.
  destruct (gw w !! kroot) as [[]|] eqn:E; try done. intros H%bool_decide_eq_true. eexists. split; [exact E|].
  rewrite H. reflexivity.
Qed.

Definition ex_manager : TokenManager.t := manager_of w_limited.

Lemma ex_sendable :
  sendable w_limited (root_of w_limited) kmanager ex_manager spl_token_2022_ID kpay kpay (bstr "eth") (bstr "receiver")
    100 50 None L_burnt.
Proof.
  assert (TokenManager.token_address ex_manager = kmint) as Hmint by (vm_compute; reflexivity).
  assert (TokenManager.token_id ex_manager = ex_token) as Hid by (vm_compute; reflexivity).
  split; try rewrite Hmint; try rewrite Hid.
  - vm_compute. reflexivity.
  - apply InterchainTokenService.is_trusted_chain_spec. vm_compute. reflexivity.
  - vm_compute. reflexivity.
  - discriminate.
  - discriminate.
  - vm_compute. reflexivity.
  - vm_compute. reflexivity.
  - apply ex_mint. vm_compute. reflexivity.
  - apply ex_token_account. vm_compute. reflexivity.
  - destruct (ex_token_account w_limited (ata_of kmanager) kmanager) as (s & Ho & _ & Hs); [vm_compute; reflexivity|].
    exists s. exact (conj Hs Ho).
  - apply okay_got. vm_compute. reflexivity.
  - eexists. vm_compute. reflexivity.
  - destruct (ex_gateway w_limited) as [cfg H]; [vm_compute; reflexivity|]. exists kroot, Byte.xff, cfg.
    split; [reflexivity|exact H].
  - eexists. reflexivity.
  - fold (ata_of kpay). exact ex_burn_ok.
  - exists kgas_treasury, Byte.xff. split; [reflexivity|]. intros _. split; [vm_compute; reflexivity|].
    apply okay_got. vm_compute. reflexivity.
Qed.

Lemma user_can_send_witness :
  exists ix w', make_interchain_transfer_instruction (TokenManager.token_id ex_manager) 100 spl_token_2022_ID kpay kpay
    (bstr "eth") (bstr "receiver") 50 None None None = Ok ix /\ its_entry ix w_limited = Ok (tt, w').
Proof.
  apply (user_can_send (drop 4 steps) w_limited kmanager ex_manager spl_token_2022_ID kpay kpay (bstr "eth")
    (bstr "receiver") 100 50 None (root_of w_limited) L_burnt).
  - exact limited_reachable.
  - apply manager_of_ok. vm_compute. reflexivity.
  - exists kits. apply root_of_ok. vm_compute. reflexivity.
  - exact ex_sendable.
Defined.

(** ** Roles and the configuration *)

(** The operator's account on the token and an account for the destination. *)
Lemma ex_role_transfer :
  role_transfer w_deployed kpay kmanager koper kdest (roles_of kmanager koper) (roles_of kmanager kdest)
    (roles_in w_deployed (roles_of kmanager koper)) UserRoles.zeroed Byte.xff.
Proof.
  split.
  - vm_compute. discriminate.
  - vm_compute. discriminate.
  - apply operator_account. vm_compute. reflexivity.
  - split; [reflexivity|]. right. split; [reflexivity|]. split; [vm_compute; reflexivity|].
    apply okay_got. vm_compute. reflexivity.
Qed.

Lemma role_transfers_succeed_witness :
  exists ix w', make_transfer_interchain_token_mintership_instruction kpay koper kdest
      (TokenManager.token_id (manager_of w_deployed)) = Ok ix /\ its_entry ix w_deployed = Ok (tt, w') /\
    role_moved ROLE_MINTER (roles_of kmanager koper) (roles_of kmanager kdest)
      (roles_in w_deployed (roles_of kmanager koper)) UserRoles.zeroed Byte.xff w_deployed w'.
Proof.
  destruct (role_transfers_succeed (drop 5 steps) w_deployed kmanager (manager_of w_deployed) kpay koper kdest)
    as (root & c & _ & _ & _ & H).
  - exact deployed_reachable.
  - apply manager_of_ok. vm_compute. reflexivity.
  - apply H; [exact ex_role_transfer|]. vm_compute. reflexivity.
Defined.

(** The payer, who is the upgrade authority, pauses ITS and trusts another chain. *)
Lemma configuration_instructions_exact_witness :
  exists ix1 ix2 w1 w2,
    make_set_pause_status_instruction kpay true = Ok ix1 /\ its_entry ix1 w_deployed = Ok (tt, w1) /\
    make_set_trusted_chain_instruction kpay (bstr "avax") false = Ok ix2 /\ its_entry ix2 w_deployed = Ok (tt, w2) /\
    its w2 = <[kits := DIts (InterchainTokenService.add_trusted_chain (root_of w_deployed) (bstr "avax"))]> (its w_deployed).
Proof.
  assert (loader_records w_deployed (Some kpay)) as Hl by (vm_compute; reflexivity).
  destruct (configuration_instructions_exact (drop 5 steps) w_deployed kits (root_of w_deployed) kpay) as (H1 & H2 & _).
  - exact deployed_reachable.
  - apply root_of_ok. vm_compute. reflexivity.
  - destruct (H1 (Some kpay) true Hl) as (ix1 & Hx1 & Hr1).
    assert (InterchainTokenService.paused (root_of w_deployed) = false) as Hp by (vm_compute; reflexivity).
    rewrite (bool_decide_eq_true_2 _ eq_refl), Hp in Hr1. destruct Hr1 as (w1 & Hw1 & _).
    destruct (H2 false (bstr "avax") Hl) as (ix2 & Hx2 & Hr2); [by eexists|].
    assert (InterchainTokenService.is_trusted_chain (root_of w_deployed) (bstr "avax") = false) as Ht by (vm_compute; reflexivity).
    rewrite Ht in Hr2. destruct Hr2 as (w2 & Hw2 & Hi2). exists ix1, ix2, w1, w2.
    exact (conj Hx1 (conj Hw1 (conj Hx2 (conj Hw2 Hi2)))).
Defined.

(** ** A delivery *)

Definition hub_leaf : MessageLeaf := msg_leaf {| messages_0 := [ex_hub_message] |} ex_ds 0 ex_hub_message.
Definition hub_tree : MerkleTree := merkle_tree SolanaHasher [hub_leaf].
Definition hub_batch : Hash32 := default (arr_zero 32) (tree_root SolanaHasher hub_tree).
Definition khub_session : Pubkey :=
  addr (Session.pda_seeds hub_batch (payload_type_into_u8 StdTypes.ApproveMessages) ex_set) gateway_ID.
Definition hub_merklized : MerklizedMessage :=
  {| mm_leaf := hub_leaf; mm_proof := proof_to_bytes (tree_proof SolanaHasher hub_tree [0]) |}.
Definition a_approve_hub : ApproveMessage :=
  {| am_gateway_root_pda := acct kroot false false; am_funder := acct kpay true true;
     am_verification_session_account := acct khub_session false false;
     am_incoming_message_pda := acct khub_message false true; am_system_program := system_program_ID |}.

(** The signers of the gateway have signed the batch with the message. *)
Definition w_signed : World :=
  let w := world_after [ix_init; ix_session khub_session hub_batch StdTypes.ApproveMessages;
    ix_verify khub_session hub_batch (approve_info 0 11 3); ix_verify khub_session hub_batch (approve_info 1 12 4)] in
  mkWorld (put kits_data bpf_loader_upgradeable_ID (DProgramData (Some kpay))
    (put kgas_treasury gas_service_ID (DTreasury (Treasury.mk Byte.xff)) (ledger w))) (now w) (log w).

(** ITS is deployed, with a token, and the destination has an account for it. *)
Definition w_signed_init : World := run (its_entry jx_init) w_signed.
Definition w_signed_trust : World := run (its_entry jx_trust) w_signed_init.
Definition w_signed_token : World := run (its_entry jx_deploy) w_signed_trust.
Definition L_account : Ledger :=
  got ∅ (token_invoke spl_token_2022_ID (CreateAssociatedTokenAccount kpay kdest kmint) (ledger w_signed_token)).
Definition w_account : World := mkWorld L_account (now w_signed_token) (log w_signed_token).
Definition w_approved : World := run (approve_message a_approve_hub hub_merklized hub_batch) w_account.

Example ex_approves : succeeds (approve_message a_approve_hub hub_merklized hub_batch) w_account = true.
Proof. vm_compute. reflexivity. Qed.

Lemma ex_mints L : same_tokens (ledger w_approved) L ->
  okay (token_invoke spl_token_2022_ID (MintTo kmint (ata_of kdest) kmanager 40) L).
Proof.
  set (m := default no_mint (toy_mint_at (ledger w_approved) spl_token_2022_ID kmint)).
  set (s := default no_token (toy_token_at (ledger w_approved) spl_token_2022_ID (ata_of kdest))).
  assert (toy_mint_at (ledger w_approved) spl_token_2022_ID kmint = Some m) as Hm.
  { apply some_default. vm_compute. reflexivity. }
  assert (toy_token_at (ledger w_approved) spl_token_2022_ID (ata_of kdest) = Some s) as Hs.
  { apply some_default. vm_compute. reflexivity. }
  assert (is_token_program spl_token_2022_ID = true) as Hp by (vm_compute; reflexivity).
  intros HL. unfold toy_mint_at, toy_token_at in Hm, Hs. rewrite <- (HL _ kmint Hp) in Hm.
  rewrite <- (HL _ (ata_of kdest) Hp) in Hs.
  apply (toy_mints L spl_token_2022_ID kmint (ata_of kdest) kmanager 40 m s); [|exact Hm|exact Hs|..].
  - vm_compute. reflexivity.
  - vm_compute. reflexivity.
  - apply (bool_decide_unpack _). vm_compute. exact I.
  - apply (bool_decide_unpack _). vm_compute. exact I.
Qed.

Definition approved_manager : TokenManager.t := manager_of w_approved.

Lemma ex_deliverable :
  deliverable w_approved (root_of w_approved) kmanager approved_manager spl_token_2022_ID kdest (bstr "eth") ex_inner.
Proof.
  assert (TokenManager.token_address approved_manager = kmint) as Hmint by (vm_compute; reflexivity).
  split; try rewrite Hmint.
  - vm_compute. reflexivity.
  - apply InterchainTokenService.is_trusted_chain_spec. vm_compute. reflexivity.
  - vm_compute. reflexivity.
  - vm_compute. reflexivity.
  - discriminate.
  - reflexivity.
  - vm_compute. reflexivity.
  - vm_compute. reflexivity.
  - vm_compute. reflexivity.
  - apply ex_mint. vm_compute. reflexivity.
  - destruct (ex_token_account w_approved (ata_of kdest) kdest) as (s & Ho & Hm & Hs); [vm_compute; reflexivity|].
    exists s. exact (conj Hm (conj Ho Hs)).
  - destruct (ex_token_account w_approved (ata_of kmanager) kmanager) as (s & Ho & _ & Hs); [vm_compute; reflexivity|].
    exists s. exact (conj Hs Ho).
  - apply okay_got. vm_compute. reflexivity.
  - exact ex_mints.
Qed.

Definition signed_steps : list (ItsInstruction * World) :=
  [(jx_deploy, w_signed_trust); (jx_trust, w_signed_init); (jx_init, w_signed)].

Lemma token_reachable : its_run signed_steps w_signed_token.
Proof. unfold signed_steps. do 3 (apply run_step; [|by vm_compute]). apply RunStart. by vm_compute. Qed.

Lemma ex_account_ok :
  token_invoke spl_token_2022_ID (CreateAssociatedTokenAccount kpay kdest kmint) (ledger w_signed_token) = Ok L_account.
Proof. unfold L_account. apply got_ok. vm_compute. reflexivity. Qed.
Lemma account_its : its w_account = its w_signed_token.
Proof. exact (invoked_state w_signed_token L_account _ _ its_ID ex_account_ok its_in_repository). Qed.
Lemma approved_its : its w_approved = its w_account.
Proof. eapply approve_message_its. apply run_ok. exact ex_approves. Qed.

Lemma approved_reachable : its_run signed_steps w_approved.
Proof. exact (RunOther _ _ _ (RunOther _ _ _ token_reachable account_its) approved_its). Qed.

Lemma approved_transfer_delivered_witness :
  exists root ksig sb extra w', its_root_address = Ok root /\
    ValidateMessageSigner.find_pda (command_id ex_hub_message) its_ID = Ok (ksig, sb) /\
    execute_interchain_transfer_extra_accounts kdest kdest
      (get_associated_token_address kdest (TokenManager.token_address approved_manager) spl_token_2022_ID) None = Ok extra /\
    its_entry (ItExecute (delivery_accounts kpay khub_message ksig kroot root kmanager
      (TokenManager.token_address approved_manager) spl_token_2022_ID extra) ex_hub_message ex_payload) w_approved = Ok (tt, w').
Proof.
  apply (approved_transfer_delivered a_approve_hub hub_merklized hub_batch w_account tt w_approved signed_steps
    kmanager approved_manager kpay spl_token_2022_ID kdest (bstr "eth") ex_inner ex_payload (root_of w_approved)).
  - apply run_ok. exact ex_approves.
  - apply ex_gateway. vm_compute. reflexivity.
  - exact approved_reachable.
  - apply manager_of_ok. vm_compute. reflexivity.
  - exists kits. apply root_of_ok. vm_compute. reflexivity.
  - vm_compute. reflexivity.
  - vm_compute. reflexivity.
  - vm_compute. reflexivity.
  - vm_compute. reflexivity.
  - exact ex_deliverable.
Defined.
